(* ===== verification/_CoqProject ===== *)
-Q . S2P
Prelude.v
GoStd.v
GoJson.v
GoCodec.v
KubeTypes.v
ApiTypes.v
Data.v
Platform.v
Config.v
Sim.v
Status.v
Util.v
Metrics.v
ManagedPipelines.v
Grammar.v
Fetcher.v
Reconciler.v
Params.v
Extract.v
Contract.v
Manifests.v
Database.v
Storage.v
Components.v
ApiServer.v
JsonRoundtrip.v
Readiness.v
Gauges.v
Controller.v
Watches.v
Order.v
Lifecycle.v
Ready.v
Retry.v
Defaults.v
Startup.v
CacheView.v
Validation.v
