(* ===== verification/Prelude.v ===== *)
(** * Data Science Pipelines Operator: a verified model of the controller

    The operator watches DataSciencePipelinesApplication resources (DSPA) and
    deploys, for each, an API server with its database, object store and
    agents.  This development models its Go code as executable definitions on
    an explicit state and proves what the code is meant to guarantee.  Names
    are those of the source; paths are relative to src/.

    ** How a run is modelled

    A function that has effects is a program [M A] (file Platform): from a state
    [St] it computes an outcome, the next state and the list of its calls to the
    outside.  The outcome is a value ([Ret]), a Go error ([Fail]) or a panic
    ([Panic]); [defer] runs a deferred call on all three.  [St] holds the object
    that was fetched and its working copy, the parameters, the status collector,
    the two shared caches, the gauges and the state [World] of everything
    outside.  An [event] is a call with whether it succeeded; reads of the
    clock, the environment and random numbers leave no event.

    Code that is not in the repository is a parameter: the class [Platform]
    lists the operations of the Kubernetes API, manifestival and the template
    engine, viper, the SQL driver, the MinIO client, registries and images, the
    Prometheus registry, quantities and the process.  What a theorem needs to
    know of them is a hypothesis or a class of laws of its own ([GaugeLaws],
    [ManifestLaws], [OwnerLaws], [map_order_ok], ...), and [Sim] is a concrete platform that
    satisfies them, on which the witnesses and examples run.

    ** Files and what they model

    - Prelude: programs, outcomes, weakest preconditions ([wp]), what a program
      calls ([emits]) and leaves alone ([keeps]), and general lemmas.
    - GoStd, GoJson, GoCodec: the parts of Go's standard library in use: strings
      and paths, encoding/json, base64 and SHA-256.
    - KubeTypes, ApiTypes (api/v1/dspipeline_types.go), Data
      (controllers/dspipeline_params.go, the structs): the data.
    - Platform, Sim: the outside, abstract and simulated.
    - Config (controllers/config/defaults.go), Util (controllers/util/util.go),
      Metrics (controllers/metrics.go).
    - Status (controllers/dspastatus/dspa_status.go): the status collector.
    - ManagedPipelines (controllers/managed_pipelines_validation.go,
      managed_pipeline_image_env.go), Fetcher
      (controllers/managed_pipelines_fetcher.go).
    - Reconciler: the reconciler and its cache of MLflow endpoints; Params and
      Extract: the parameters of a reconcile and [ExtractParams]
      (controllers/dspipeline_controller.go, dspipeline_params.go).
    - Manifests (controllers/config/templating.go, manifest.go and the appliers
      of the controller), Database, Storage, Components (common.go, webhook.go,
      persistence_agent.go, scheduled_workflow.go, workflow_controller.go,
      mlmd.go), ApiServer: one file of controllers/ each, or several.
    - Readiness: conditions of deployments, validation of managed pipelines,
      status update, gauges; Controller: [Reconcile], one definition per
      stretch; Watches: the owned kinds and event handlers of [SetupWithManager].
    - Startup (main.go, tls_profile.go): the start of the operator and the
      options of the manager's cache.
    - Specifications over several components, without code of their own:
      Contract, Order, Lifecycle, Ready, Retry, Gauges, Grammar,
      JsonRoundtrip, Defaults, CacheView, Validation.

    ** What is proved

    - The life of an application (Order, Lifecycle, Ready, Retry): the phases of
      a run; no component is touched before the database and the object store
      answered, each unless its health check is disabled; invalid managed
      pipelines stop the workloads and keep what was published; the finalizer is
      stored first and removed last; the status is written at the end of every
      run, one that fails or panics included; Ready is reported exactly when
      everything looked at is up; and a run that asks for nothing more has
      reported why.
    - What is reported (Status, Readiness, Metrics, Gauges): the published
      conditions are those of the last report of each component, Ready follows
      from them, transition times are kept, publishing is idempotent; the
      condition of a deployment is characterised; the gauges say what the
      conditions say, in whatever order the Go map is visited.
    - Managed pipelines (ManagedPipelines, Grammar, Fetcher, Validation): the
      manifest parser is the grammar of JSON; scanning layers computes the file
      that the layers, put on top of each other, make up (of the whiteouts,
      those of the file and of its directory count); the cache stays sound under every interleaving of its
      users, who never share a map with it; the allowlist of registries is
      enforced; and the verdict is about the image the registry serves.
    - Parameters (Extract, Contract, Defaults): extraction only reads, except
      for the application's config map of certificates; what it yields is well
      formed; passwords survive their encoding and have the strength asked for;
      defaults and limits are exact at their bounds.
    - Components (Database, Storage, Components, ApiServer, JsonRoundtrip): what
      each deploys, in which order, and when a health check may say yes; the
      sample configuration is read back as it was meant.
    - The manager (Startup, CacheView, Validation): a start-up that goes through
      had all it insists on; what the operator applies under an owner stays in
      its own view, and its changes request that owner; watching through
      the filtered cache triggers the same requests.

    ** Bounds and fuel

    Go's int and int64 are [Z]; where a value is narrowed (the time to live of a
    pipeline, [Params.to_int32]) or goes through a double, the conversion is
    written out.  The JSON
    parser recurses on the depth of nesting, which encoding/json limits to
    10,000 ([GoJson.maxNestingDepth]), and through the elements of an array or
    object with fuel, one more than the length of the text;
    [Grammar.texts_complete] shows that every text of the grammar is read with
    that.  All other recursion is
    structural, on the layers, entries, pods, conditions or template names it
    goes through; a password of n characters takes n steps.

    ** Concurrency

    A reconcile is sequential; reconciles of different applications share the
    manifest cache and the cache of MLflow endpoints.  Their operations under
    the mutex are atomic steps: [Fetcher.fetch_step] is the relation of what
    several callers may do, and its invariant holds along every interleaving.

    ** Not modelled

    Log messages and the texts of library errors; the creation and the event
    loop of the manager, flag parsing and the watch that viper keeps on the
    configuration file (main.go; what a change calls is
    [Startup.onConfigChange]); scheme registration
    (api/v1/groupversion_info.go); the generated deep copies (a copy of a value
    is the value; what is shared through pointers, the fetched object and its
    copy and the maps of the manifest cache, is modelled as state); the texts of
    the templates under config/, which only the template engine reads; contexts
    and timeouts of calls, which only let a call fail; and the test doubles of the repository. *)

From stdpp Require Import base gmap strings list fin_maps pretty.
From Stdlib Require Import ZArith Lia.

(** ** Functional record update

    The code mutates fields of structs through pointers.  [r <| f := v |>] is
    the struct [r] with its field [f] replaced by [v]; [r <| f ::= g |>]
    applies [g] to the field.  A struct takes part by declaring its
    eta-expansion as an instance of [Settable]. *)

Class Settable (R : Type) := rebuild : R -> R.

Class Setter {R A : Type} (proj : R -> A) := set : (A -> A) -> R -> R.

Arguments set {R A} proj {_} g r /.

Ltac solve_setter :=
  lazymatch goal with
  | |- @Setter ?R ?A ?proj =>
      let g := fresh in let r := fresh in
      intros g r;
      let t := eval hnf in (@rebuild R _ r) in
      match eval pattern (proj r) in t with
      | ?h _ => let u := eval cbv beta in (h (g (proj r))) in exact u
      end
  end.

#[export] Hint Extern 0 (Setter _) => solve_setter : typeclass_instances.

Declare Scope go_scope.
Delimit Scope go_scope with go.
Open Scope go_scope.

Notation "r <| f := v |>" := (set f (fun _ => v) r)
  (at level 1, f at level 200, v at level 200, left associativity,
   format "r  <| f  :=  v |>") : go_scope.
Notation "r <| f ::= g |>" := (set f g r)
  (at level 1, f at level 200, g at level 200, left associativity,
   format "r  <| f  ::=  g |>") : go_scope.

(** ** Errors

    The values of Go's [error] interface that the operator makes, inspects or
    passes on.  [ErrStatus] is an API server status error; [ErrForeign] is an
    error of code outside the repository about which the operator asks
    nothing. *)

Inductive api_reason :=
  | NotFound | AlreadyExists | Conflict | ServiceUnavailable | Timeout
  | ServerTimeout | TooManyRequests | OtherReason (name : string).

Inductive error :=
  | ErrNew (msg : string)
  | ErrWrap (pre : string) (inner : error) (post : string)
  | ErrStatus (reason : api_reason) (msg : string)
  | ErrNoMatch (msg : string)
  | ErrPermanent (inner : error)
  | ErrTarNotFound
  | ErrTarWhiteout
  | ErrManagedPipelinesImageUnset
  | ErrURL (url : string) (inner : error)
  | ErrX509UnknownAuthority (msg : string)
  | ErrMinio (code msg : string)
  | ErrForeign (msg : string).

#[export] Instance api_reason_eq_dec : EqDecision api_reason.
Proof. solve_decision. Defined.

#[export] Instance error_eq_dec : EqDecision error.
Proof. solve_decision. Defined.

(** [Error()] *)
Fixpoint err_msg (e : error) : string :=
  match e with
  | ErrNew m | ErrStatus _ m | ErrNoMatch m | ErrX509UnknownAuthority m
  | ErrMinio _ m | ErrForeign m => m
  | ErrWrap pre e' post => pre +:+ err_msg e' +:+ post
  | ErrPermanent e' => err_msg e'
  | ErrTarNotFound => "file not found in tar layer"
  | ErrTarWhiteout => "file deleted by OCI whiteout"
  | ErrManagedPipelinesImageUnset => "managedPipelines init image not configured"
  | ErrURL u e' => u +:+ ": " +:+ err_msg e'
  end.

(** [errors.Unwrap], and the first error of the chain that satisfies a test:
    the common part of [errors.As] and [errors.Is]. *)
Fixpoint err_chain (e : error) : list error :=
  e :: match e with
       | ErrWrap _ e' _ | ErrPermanent e' | ErrURL _ e' => err_chain e'
       | _ => []
       end.

(** [errors.Is(e, target)] for a comparable sentinel *)
Definition errors_Is (e target : error) : bool := bool_decide (target ∈ err_chain e).

(** [apierrs.ReasonForError] finds the first status error of the chain. *)
Definition status_reason (e : error) : option api_reason :=
  head (omap (fun x => match x with ErrStatus r _ => Some r | _ => None end) (err_chain e)).

Definition has_reason (r : api_reason) (e : error) : bool :=
  bool_decide (status_reason e = Some r).

Definition IsNotFound : error -> bool := has_reason NotFound.
Definition IsAlreadyExists : error -> bool := has_reason AlreadyExists.

(** ** Programs

    A Go function that touches mutable state is a [prog]: from a state it
    yields an outcome (a result, a returned error, or a panic), the state it
    leaves behind whatever the outcome, and the calls it made to the outside
    world, in order. *)

Inductive outcome (A : Type) :=
  | Ret (a : A)
  | Fail (e : error)
  | Panic (why : string).
Arguments Ret {A} a.
Arguments Fail {A} e.
Arguments Panic {A} why.

Record run (E S A : Type) := Run { out : outcome A; fin : S; evs : list E }.
Arguments Run {E S A} _ _ _.
Arguments out {E S A} _.
Arguments fin {E S A} _.
Arguments evs {E S A} _.

Definition prog (E S A : Type) := S -> run E S A.

#[export] Instance prog_ret {E S} : MRet (prog E S) := fun A a s => Run (Ret a) s [].

#[export] Instance prog_bind {E S} : MBind (prog E S) := fun A B k m s =>
  let r := m s in
  match out r with
  | Ret a => let r' := k a (fin r) in Run (out r') (fin r') (evs r ++ evs r')
  | Fail e => Run (Fail e) (fin r) (evs r)
  | Panic p => Run (Panic p) (fin r) (evs r)
  end.

Section Combinators.
  Context {E S : Type}.

(** [return ..., err] *)
Definition fail {A} (e : error) : prog E S A := fun s => Run (Fail e) s [].

(** a run-time panic *)
Definition panic {A} (why : string) : prog E S A := fun s => Run (Panic why) s [].

(** a pointer dereference *)
Definition deref {A} (what : string) (p : option A) : prog E S A :=
  match p with Some a => mret a | None => panic ("nil dereference: " +:+ what) end.

(** [x, err := m(); if err != nil ...]: the error becomes a value *)
Definition try {A} (m : prog E S A) : prog E S (A + error) := fun s =>
  let r := m s in
  Run (match out r with
       | Ret a => Ret (inl a)
       | Fail e => Ret (inr e)
       | Panic p => Panic p
       end) (fin r) (evs r).

(** a call that returns [(value, error)] computed without effect *)
Definition lift {A} (r : A + error) : prog E S A :=
  match r with inl a => mret a | inr e => fail e end.

Definition gets {A} (f : S -> A) : prog E S A := fun s => Run (Ret (f s)) s [].
Definition modify (f : S -> S) : prog E S unit := fun s => Run (Ret tt) (f s) [].

(** [defer d()]: [d] runs after [m] whether [m] returned, failed or
    panicked, and the outcome is [m]'s unless [d] panics itself. *)
Definition defer (d : prog E S unit) {A} (m : prog E S A) : prog E S A := fun s =>
  let r := m s in
  let r' := d (fin r) in
  Run (match out r' with Panic p => Panic p | _ => out r end) (fin r') (evs r ++ evs r').

(** [if c { ... }] *)
Definition whenb (c : bool) (m : prog E S unit) : prog E S unit :=
  if c then m else mret tt.

(** [for _, x := range l { if err := f(x); err != nil { return err } }] *)
Fixpoint iter {A} (f : A -> prog E S unit) (l : list A) : prog E S unit :=
  match l with
  | [] => mret tt
  | x :: l' => f x ;; iter f l'
  end.
End Combinators.

(** ** Reasoning about programs *)

(** The weakest precondition: what must hold of the outcome, the final state
    and the calls of a run of [m] from [s]. *)
Definition wp {E S A} (m : prog E S A) (Q : outcome A -> S -> list E -> Prop) (s : S) : Prop :=
  Q (out (m s)) (fin (m s)) (evs (m s)).

(** Every call a run of [m] makes satisfies [P]. *)
Definition emits {E S A} (P : E -> Prop) (m : prog E S A) : Prop :=
  forall s, Forall P (evs (m s)).

(** No run of [m] changes the part [f] of the state. *)
Definition keeps {E S A X} (f : S -> X) (m : prog E S A) : Prop :=
  forall s, f (fin (m s)) = f s.

(** No run of [m] panics. *)
Definition no_panic {E S A} (m : prog E S A) : Prop :=
  forall s p, out (m s) <> Panic p.

Section Rules.
  Context {E S : Type}.
  Implicit Types (P : E -> Prop) (s : S).

Lemma wp_ret {A} (a : A) Q s : Q (Ret a) s [] -> wp (mret a : prog E S A) Q s.
Proof. done. Qed.

Lemma wp_bind {A B} (m : prog E S A) (k : A -> prog E S B) Q s :
  wp m (fun o s' t =>
    match o with
    | Ret a => wp (k a) (fun o' s'' t' => Q o' s'' (t ++ t')) s'
    | Fail e => Q (Fail e) s' t
    | Panic p => Q (Panic p) s' t
    end) s ->
  wp (m ≫= k) Q s.
Proof. unfold wp, mbind, prog_bind. by destruct (out (m s)). Qed.

Lemma wp_try {A} (m : prog E S A) Q s :
  wp m (fun o s' t =>
    match o with
    | Ret a => Q (Ret (inl a)) s' t
    | Fail e => Q (Ret (inr e)) s' t
    | Panic p => Q (Panic p) s' t
    end) s ->
  wp (try m) Q s.
Proof. unfold wp, try. simpl. by destruct (out (m s)). Qed.

Lemma wp_defer {A} (d : prog E S unit) (m : prog E S A) Q s :
  wp m (fun o s' t =>
    wp d (fun o' s'' t' =>
      Q (match o' with Panic p => Panic p | _ => o end) s'' (t ++ t')) s') s ->
  wp (defer d m) Q s.
Proof. done. Qed.

Lemma wp_mono {A} (m : prog E S A) (Q Q' : outcome A -> S -> list E -> Prop) s :
  wp m Q s -> (forall o s' t, Q o s' t -> Q' o s' t) -> wp m Q' s.
Proof. intros H HQ. by apply HQ. Qed.

Lemma wp_run {A} (m : prog E S A) Q s o s' t : m s = Run o s' t -> Q o s' t -> wp m Q s.
Proof. unfold wp. by intros ->. Qed.

Lemma bind_run {A B} (m : prog E S A) (k : A -> prog E S B) s a s' t o s'' t' :
  m s = Run (Ret a) s' t -> k a s' = Run o s'' t' -> (m ≫= k) s = Run o s'' (t ++ t').
Proof. unfold mbind, prog_bind. intros -> Hk. simpl. by rewrite Hk. Qed.

Lemma bind_fail {A B} (m : prog E S A) (k : A -> prog E S B) s e s' t :
  m s = Run (Fail e) s' t -> (m ≫= k) s = Run (Fail e) s' t.
Proof. unfold mbind, prog_bind. by intros ->. Qed.

Lemma bind_panic {A B} (m : prog E S A) (k : A -> prog E S B) s p s' t :
  m s = Run (Panic p) s' t -> (m ≫= k) s = Run (Panic p) s' t.
Proof. unfold mbind, prog_bind. by intros ->. Qed.

(** silent steps *)
Lemma bind_ret {A B} (a : A) (k : A -> prog E S B) s : (mret a ≫= k) s = k a s.
Proof. unfold mbind, prog_bind. simpl. by destruct (k a s). Qed.

Lemma bind_lift {A B} (a : A) (k : A -> prog E S B) s : (lift (inl a) ≫= k) s = k a s.
Proof. apply bind_ret. Qed.

Lemma bind_get {A B} (f : S -> A) (k : A -> prog E S B) s : (gets f ≫= k) s = k (f s) s.
Proof. unfold mbind, prog_bind. simpl. by destruct (k (f s) s). Qed.

Lemma bind_modify {B} (f : S -> S) (k : unit -> prog E S B) s : (modify f ≫= k) s = k tt (f s).
Proof. unfold mbind, prog_bind. simpl. by destruct (k tt (f s)). Qed.

Lemma bind_some {A B} w (a : A) (k : A -> prog E S B) s : (deref w (Some a) ≫= k) s = k a s.
Proof. apply bind_ret. Qed.

Lemma bind_assoc {A B C} (m : prog E S A) (k : A -> prog E S B) (h : B -> prog E S C) s :
  ((m ≫= k) ≫= h) s = (m ≫= fun a => k a ≫= h) s.
Proof.
  unfold mbind, prog_bind. destruct (out (m s)); simpl; [|done..].
  destruct (out (k a (fin (m s)))); simpl; [|done..]. by rewrite app_assoc.
Qed.

(** a call whose error is tested *)
Lemma bind_try {A B} (m : prog E S A) (k : A + error -> prog E S B) s :
  (try m ≫= k) s =
  match out (m s) with
  | Ret a => let r := k (inl a) (fin (m s)) in Run (out r) (fin r) (evs (m s) ++ evs r)
  | Fail e => let r := k (inr e) (fin (m s)) in Run (out r) (fin r) (evs (m s) ++ evs r)
  | Panic p => Run (Panic p) (fin (m s)) (evs (m s))
  end.
Proof. unfold mbind, prog_bind, try. simpl. by destruct (out (m s)). Qed.

(** a step whose run is known *)
Lemma wp_step {A B} (m : prog E S A) (k : A -> prog E S B) Q s a s' t :
  m s = Run (Ret a) s' t -> wp (k a) (fun o s'' t' => Q o s'' (t ++ t')) s' -> wp (m ≫= k) Q s.
Proof. intros Hm Hk. apply wp_bind. by eapply wp_run. Qed.

Lemma wp_assoc {A B C} (m : prog E S A) (k : A -> prog E S B) (h : B -> prog E S C) Q s :
  wp (m ≫= fun a => k a ≫= h) Q s -> wp ((m ≫= k) ≫= h) Q s.
Proof. unfold wp. by rewrite bind_assoc. Qed.

Lemma wp_unassoc {A B C} (m : prog E S A) (k : A -> prog E S B) (h : B -> prog E S C) Q s :
  wp ((m ≫= k) ≫= h) Q s -> wp (m ≫= fun a => k a ≫= h) Q s.
Proof. unfold wp. by rewrite bind_assoc. Qed.

Lemma wp_ret_bind {A B} (a : A) (k : A -> prog E S B) Q s : wp (k a) Q s -> wp (mret a ≫= k) Q s.
Proof. unfold wp. by rewrite bind_ret. Qed.

Lemma wp_get {A B} (f : S -> A) (k : A -> prog E S B) Q s :
  wp (k (f s)) Q s -> wp (gets f ≫= k) Q s.
Proof. done. Qed.

Lemma wp_modify {B} (f : S -> S) (k : unit -> prog E S B) Q s :
  wp (k tt) Q (f s) -> wp (modify f ≫= k) Q s.
Proof. done. Qed.

Lemma emits_bind {A B} P (m : prog E S A) (k : A -> prog E S B) :
  emits P m -> (forall a, emits P (k a)) -> emits P (m ≫= k).
Proof.
  intros Hm Hk s. unfold mbind, prog_bind. specialize (Hm s).
  destruct (out (m s)); simpl; [|done..]. apply Forall_app. split; [done|apply Hk].
Qed.

Lemma emits_ret {A} P (a : A) : emits P (mret a : prog E S A).
Proof. intros s. constructor. Qed.
Lemma emits_fail {A} P e : emits P (fail e : prog E S A).
Proof. intros s. constructor. Qed.
Lemma emits_panic {A} P w : emits P (panic w : prog E S A).
Proof. intros s. constructor. Qed.
Lemma emits_deref {A} P w (p : option A) : emits P (deref w p : prog E S A).
Proof. destruct p; intros s; constructor. Qed.
Lemma emits_lift {A} P (r : A + error) : emits P (lift r : prog E S A).
Proof. destruct r; intros s; constructor. Qed.
Lemma emits_gets {A} P (f : S -> A) : emits P (gets f : prog E S A).
Proof. intros s. constructor. Qed.
Lemma emits_modify P (f : S -> S) : emits P (modify f : prog E S unit).
Proof. intros s. constructor. Qed.
Lemma emits_try {A} P (m : prog E S A) : emits P m -> emits P (try m).
Proof. intros Hm s. exact (Hm s). Qed.
Lemma emits_defer {A} P d (m : prog E S A) : emits P d -> emits P m -> emits P (defer d m).
Proof. intros Hd Hm s. simpl. apply Forall_app. split; [apply Hm|apply Hd]. Qed.
Lemma emits_whenb P c (m : prog E S unit) : (c = true -> emits P m) -> emits P (whenb c m).
Proof. destruct c; [auto|intros; apply emits_ret]. Qed.
Lemma emits_iter {A} P (f : A -> prog E S unit) l :
  (forall x, emits P (f x)) -> emits P (iter f l).
Proof. intros Hf. induction l; [apply emits_ret|by apply emits_bind]. Qed.
Lemma emits_mono {A} P (P' : E -> Prop) (m : prog E S A) :
  (forall e, P e -> P' e) -> emits P m -> emits P' m.
Proof. intros HP Hm s. eapply Forall_impl; [apply Hm|done]. Qed.

  Context {X : Type} (f : S -> X).

Lemma keeps_bind {A B} (m : prog E S A) (k : A -> prog E S B) :
  keeps f m -> (forall a, keeps f (k a)) -> keeps f (m ≫= k).
Proof.
  intros Hm Hk s. unfold mbind, prog_bind.
  destruct (out (m s)); simpl; rewrite ?Hk; apply Hm.
Qed.
Lemma keeps_ret {A} (a : A) : keeps f (mret a : prog E S A).
Proof. done. Qed.
Lemma keeps_fail {A} e : keeps f (fail e : prog E S A).
Proof. done. Qed.
Lemma keeps_panic {A} w : keeps f (panic w : prog E S A).
Proof. done. Qed.
Lemma keeps_deref {A} w (p : option A) : keeps f (deref w p : prog E S A).
Proof. by destruct p. Qed.
Lemma keeps_lift {A} (r : A + error) : keeps f (lift r : prog E S A).
Proof. by destruct r. Qed.
Lemma keeps_gets {A} (g : S -> A) : keeps f (gets g : prog E S A).
Proof. done. Qed.
Lemma keeps_modify (g : S -> S) : (forall s, f (g s) = f s) -> keeps f (modify g : prog E S unit).
Proof. done. Qed.
Lemma keeps_try {A} (m : prog E S A) : keeps f m -> keeps f (try m).
Proof. intros Hm s. exact (Hm s). Qed.
Lemma keeps_defer {A} d (m : prog E S A) : keeps f d -> keeps f m -> keeps f (defer d m).
Proof. intros Hd Hm s. simpl. by rewrite Hd. Qed.
Lemma keeps_whenb c (m : prog E S unit) : (c = true -> keeps f m) -> keeps f (whenb c m).
Proof. destruct c; [auto|done]. Qed.
Lemma keeps_iter {A} (g : A -> prog E S unit) l :
  (forall x, keeps f (g x)) -> keeps f (iter g l).
Proof. intros Hg. induction l; [done|by apply keeps_bind]. Qed.
End Rules.

(** ** Programs that cannot panic *)

Section NoPanic.
  Context {E S : Type}.

Lemma no_panic_bind {A B} (m : prog E S A) (k : A -> prog E S B) :
  no_panic m -> (forall a, no_panic (k a)) -> no_panic (m ≫= k).
Proof.
  intros Hm Hk s p. unfold mbind, prog_bind. specialize (Hm s).
  destruct (out (m s)) as [a| |p']; simpl; [apply Hk|done|by destruct (Hm p')].
Qed.
Lemma no_panic_ret {A} (a : A) : no_panic (mret a : prog E S A).
Proof. done. Qed.
Lemma no_panic_fail {A} e : no_panic (fail e : prog E S A).
Proof. done. Qed.
Lemma no_panic_lift {A} (r : A + error) : no_panic (lift r : prog E S A).
Proof. by destruct r. Qed.
Lemma no_panic_gets {A} (g : S -> A) : no_panic (gets g : prog E S A).
Proof. done. Qed.
Lemma no_panic_modify (g : S -> S) : no_panic (modify g : prog E S unit).
Proof. done. Qed.
Lemma no_panic_try {A} (m : prog E S A) : no_panic m -> no_panic (try m).
Proof. intros Hm s p. unfold try. simpl. specialize (Hm s). by destruct (out (m s)) as [| |p']; [done..|destruct (Hm p')]. Qed.
Lemma no_panic_defer {A} d (m : prog E S A) : no_panic d -> no_panic m -> no_panic (defer d m).
Proof.
  intros Hd Hm s p. simpl. specialize (Hd (fin (m s))).
  destruct (out (d _)) as [| |p'] eqn:?; [apply Hm..|]. by destruct (Hd p').
Qed.
Lemma no_panic_whenb c (m : prog E S unit) : (c = true -> no_panic m) -> no_panic (whenb c m).
Proof. destruct c; [auto|done]. Qed.
Lemma no_panic_iter {A} (g : A -> prog E S unit) l :
  (forall x, no_panic (g x)) -> no_panic (iter g l).
Proof. intros Hg. induction l; [done|by apply no_panic_bind]. Qed.
End NoPanic.

Create HintDb go.
Create HintDb silent.
#[export] Hint Resolve emits_ret emits_fail emits_panic emits_deref emits_lift emits_gets
  emits_modify emits_try emits_defer keeps_ret keeps_fail keeps_panic keeps_deref keeps_lift
  keeps_gets keeps_try keeps_defer no_panic_ret no_panic_fail no_panic_lift no_panic_gets
  no_panic_modify no_panic_try no_panic_defer : go.

(** Silent steps of a run, by rewriting. *)
Ltac go_run := rewrite ?bind_assoc, ?bind_ret, ?bind_lift, ?bind_get, ?bind_modify, ?bind_some;
  cbn beta iota.

(** One step of a proof that a program emits only, keeps, or does not panic: a rule for the
    program's outermost combinator, or a case distinction on what it branches
    on. *)
Ltac go_step :=
  match goal with
  | |- emits _ (_ ≫= _) => apply emits_bind; [|intros ?]
  | |- emits _ (whenb _ _) => apply emits_whenb; intros ?
  | |- emits _ (iter _ _) => apply emits_iter; intros ?
  | |- emits _ (try _) => apply emits_try
  | |- emits _ (defer _ _) => apply emits_defer
  | |- keeps _ (_ ≫= _) => apply keeps_bind; [|intros ?]
  | |- keeps _ (whenb _ _) => apply keeps_whenb; intros ?
  | |- keeps _ (iter _ _) => apply keeps_iter; intros ?
  | |- keeps _ (try _) => apply keeps_try
  | |- keeps _ (defer _ _) => apply keeps_defer
  | |- keeps _ (modify _) => apply keeps_modify; intros ?; try reflexivity
  | |- no_panic (_ ≫= _) => apply no_panic_bind; [|intros ?]
  | |- no_panic (whenb _ _) => apply no_panic_whenb; intros ?
  | |- no_panic (iter _ _) => apply no_panic_iter; intros ?
  | |- no_panic (try _) => apply no_panic_try
  | |- no_panic (defer _ _) => apply no_panic_defer
  | |- _ => solve [eauto 3 with go nocore]
  | |- context [match ?x with _ => _ end] => destruct x eqn:?
  end.
Ltac go_solve := repeat (cbn beta iota; go_step).

(** ** Traces in phases

    A trace runs through phases when it is made of consecutive stretches, some
    maybe empty, whose events belong to the first phase, the second, and so on. *)

Fixpoint phased {E} (ps : list (E -> Prop)) (t : list E) : Prop :=
  match ps with
  | [] => t = []
  | P :: ps' => exists t1 t2, t = t1 ++ t2 /\ Forall P t1 /\ phased ps' t2
  end.

Definition in_phases {E S A} (ps : list (E -> Prop)) (m : prog E S A) : Prop :=
  forall s, phased ps (evs (m s)).

Section Phases.
  Context {E S : Type}.
  Implicit Types (P : E -> Prop) (ps qs : list (E -> Prop)).

Lemma phased_nil ps : phased ps (@nil E).
Proof. induction ps as [|P ps IH]; [done|]. by exists [], []. Qed.

Lemma phased_skip P ps t : phased ps t -> phased (P :: ps) t.
Proof. intros H. by exists [], t. Qed.

Lemma phased_skips qs ps t : phased ps t -> phased (qs ++ ps) t.
Proof. intros H. induction qs; [done|]. by apply phased_skip. Qed.

Lemma phased_app ps qs t u : phased ps t -> phased qs u -> phased (ps ++ qs) (t ++ u).
Proof.
  revert t. induction ps as [|P ps IH]; intros t; simpl; [by intros ->|].
  intros (t1 & t2 & -> & H1 & H2) Hu. exists t1, (t2 ++ u). rewrite app_assoc. auto.
Qed.

Lemma phased_pad ps qs t : phased ps t -> phased (ps ++ qs) t.
Proof. intros H. rewrite <- (app_nil_r t). apply phased_app; [done|apply phased_nil]. Qed.

Lemma phased_one P t : Forall P t -> phased [P] t.
Proof. intros H. exists t, []. by rewrite app_nil_r. Qed.

Lemma phased_mono ps qs t : Forall2 (fun P Q => forall e, P e -> Q e) ps qs -> phased ps t -> phased qs t.
Proof.
  intros H. revert t. induction H as [|P Q ps qs HPQ _ IH]; intros t; [done|].
  intros (t1 & t2 & -> & H1 & H2). exists t1, t2. split_and!; [done| |auto].
  by eapply Forall_impl.
Qed.

Lemma in_phases_bind {A B} ps qs (m : prog E S A) (k : A -> prog E S B) :
  in_phases ps m -> (forall a, in_phases qs (k a)) -> in_phases (ps ++ qs) (m ≫= k).
Proof.
  intros Hm Hk s. unfold mbind, prog_bind. specialize (Hm s).
  destruct (out (m s)) as [a| |]; simpl; [|by apply phased_pad..].
  apply phased_app; [done|apply Hk].
Qed.

Lemma in_phases_emits {A} P (m : prog E S A) : emits P m -> in_phases [P] m.
Proof. intros H s. by apply phased_one. Qed.

Lemma in_phases_silent {A} ps (m : prog E S A) : emits (fun _ => False) m -> in_phases ps m.
Proof.
  intros H s. specialize (H s). destruct (evs (m s)) as [|e t]; [apply phased_nil|].
  by inversion H.
Qed.

(** A program whose phases all satisfy a predicate emits only that. *)
Lemma phased_all P ps t : Forall (fun Q => forall e, Q e -> P e) ps -> phased ps t -> Forall P t.
Proof.
  intros H. revert t. induction H as [|Q ps HQ _ IH]; intros t; simpl; [by intros ->|].
  intros (t1 & t2 & -> & H1 & H2). apply Forall_app. split; [by eapply Forall_impl|auto].
Qed.

Lemma in_phases_all {A} P ps (m : prog E S A) :
  in_phases ps m -> Forall (fun Q => forall e, Q e -> P e) ps -> emits P m.
Proof. intros H HP s. eapply phased_all; [exact HP|apply H]. Qed.

Lemma in_phases_skips {A} qs ps (m : prog E S A) : in_phases ps m -> in_phases (qs ++ ps) m.
Proof. intros H s. apply phased_skips, H. Qed.

Lemma in_phases_pad {A} ps qs (m : prog E S A) : in_phases ps m -> in_phases (ps ++ qs) m.
Proof. intros H s. apply phased_pad, H. Qed.

Lemma in_phases_ext {A} ps (m m' : prog E S A) : (forall s, m s = m' s) -> in_phases ps m' -> in_phases ps m.
Proof. intros H Hm s. rewrite H. apply Hm. Qed.

Lemma in_phases_unassoc {A B C} ps (m : prog E S A) (k : A -> prog E S B) (h : B -> prog E S C) :
  in_phases ps ((m ≫= k) ≫= h) -> in_phases ps (m ≫= fun a => k a ≫= h).
Proof. apply in_phases_ext. intros s. by rewrite bind_assoc. Qed.

Lemma in_phases_try {A} ps (m : prog E S A) : in_phases ps m -> in_phases ps (try m).
Proof. intros H s. exact (H s). Qed.

Lemma in_phases_defer {A} ps qs d (m : prog E S A) :
  in_phases ps m -> in_phases qs d -> in_phases (ps ++ qs) (defer d m).
Proof. intros Hm Hd s. simpl. apply phased_app; [apply Hm|apply Hd]. Qed.
End Phases.

(** ** Calls from a state in which something is known and kept *)

Lemma emits_known {E S A B X} (f : S -> X) (x : X) (Q : E -> Prop) (m : prog E S A) (k : A -> prog E S B) s :
  f s = x -> Forall Q (evs (m s)) -> keeps f m ->
  (forall a s', f s' = x -> Forall Q (evs (k a s'))) -> Forall Q (evs ((m ≫= k) s)).
Proof.
  intros Hx Hm Hf Hk. unfold mbind, prog_bind. specialize (Hf s).
  destruct (out (m s)) as [a| |]; simpl; [|done..].
  apply Forall_app. split; [done|]. apply Hk. by rewrite Hf.
Qed.

(** ** Programs that only compute: no call, no change, no panic *)

Definition silent {E S A} (m : prog E S A) : Prop :=
  forall s, exists o, m s = Run o s [] /\ forall w, o ≠ Panic w.

Lemma silent_bind {E S A B} (m : prog E S A) (k : A -> prog E S B) :
  silent m -> (forall a, silent (k a)) -> silent (m ≫= k).
Proof.
  intros Hm Hk s. destruct (Hm s) as (o & Ho & Hn). unfold mbind, prog_bind. rewrite Ho.
  destruct o as [a|e|w]; cbn.
  - destruct (Hk a s) as (o' & Ho' & Hn'). exists o'. by rewrite Ho'.
  - by exists (Fail e).
  - by destruct (Hn w).
Qed.
Lemma silent_ret {E S A} (a : A) : silent (mret a : prog E S A).
Proof. intros s. by exists (Ret a). Qed.
Lemma silent_fail {E S A} e : silent (fail e : prog E S A).
Proof. intros s. by exists (Fail e). Qed.
Lemma silent_gets {E S A} (f : S -> A) : silent (gets f : prog E S A).
Proof. intros s. by exists (Ret (f s)). Qed.

Lemma silent_emits {E S A} Q (m : prog E S A) : silent m -> emits Q m.
Proof. intros H s. destruct (H s) as (o & -> & _). constructor. Qed.
Lemma silent_keeps {E S A X} (f : S -> X) (m : prog E S A) : silent m -> keeps f m.
Proof. intros H s. by destruct (H s) as (o & -> & _). Qed.
Lemma silent_no_panic {E S A} (m : prog E S A) : silent m -> no_panic m.
Proof. intros H s p. by destruct (H s) as (o & -> & Ho). Qed.

(** ** What a program ensures when it returns *)

Definition ensures {E S A} (m : prog E S A) (Q : A -> S -> Prop) (s : S) : Prop :=
  forall a, out (m s) = Ret a -> Q a (fin (m s)).

Section Ensures.
  Context {E S : Type}.

Lemma ensures_bind {A B} (m : prog E S A) (k : A -> prog E S B) Q s :
  ensures m (fun a s' => ensures (k a) Q s') s -> ensures (m ≫= k) Q s.
Proof.
  intros H b. unfold mbind, prog_bind. unfold ensures in H. destruct (out (m s)) as [a| |]; [|done..].
  simpl. by apply H.
Qed.
Lemma ensures_ret {A} (a : A) Q s : Q a s -> ensures (mret a : prog E S A) Q s.
Proof. by intros H ? [= <-]. Qed.
Lemma ensures_fail {A} e Q s : ensures (fail e : prog E S A) Q s.
Proof. intros ?; done. Qed.
Lemma ensures_panic {A} w Q s : ensures (panic w : prog E S A) Q s.
Proof. intros ?; done. Qed.
Lemma ensures_modify f Q s : Q tt (f s) -> ensures (modify f : prog E S unit) Q s.
Proof. by intros H [] _. Qed.
Lemma ensures_gets {A} (f : S -> A) Q s : Q (f s) s -> ensures (gets f : prog E S A) Q s.
Proof. by intros H ? [= <-]. Qed.
Lemma ensures_lift {A} (r : A + error) Q s :
  (forall a, r = inl a -> Q a s) -> ensures (lift r : prog E S A) Q s.
Proof. destruct r as [a|]; intros H b; [|done]. intros [= <-]. by apply H. Qed.
Lemma ensures_deref {A} w (p : option A) Q s :
  (forall a, p = Some a -> Q a s) -> ensures (deref w p : prog E S A) Q s.
Proof. destruct p as [a|]; intros H b; [|done]. intros [= <-]. by apply H. Qed.
Lemma ensures_whenb c (m : prog E S unit) Q s :
  (c = true -> ensures m Q s) -> (c = false -> Q tt s) -> ensures (whenb c m) Q s.
Proof. destruct c; intros H1 H2; [by apply H1|]. intros [] _. by apply H2. Qed.
Lemma ensures_mono {A} (m : prog E S A) (Q Q' : A -> S -> Prop) s :
  ensures m Q s -> (forall a s', Q a s' -> Q' a s') -> ensures m Q' s.
Proof. intros H HQ a Ha. by apply HQ, H. Qed.
Lemma ensures_keeps {A X} (f : S -> X) (m : prog E S A) s :
  keeps f m -> ensures m (fun _ s' => f s' = f s) s.
Proof. intros H a _. apply H. Qed.
(** what the rest establishes, and what it leaves as the first part made it *)
Lemma ensures_then {A B} (m : prog E S A) (k : A -> prog E S B) Q s :
  (forall a s', ensures (k a) Q s') -> ensures (m ≫= k) Q s.
Proof. intros H. apply ensures_bind. intros a _. apply H. Qed.
Lemma ensures_first {A B X} (f : S -> X) (R : X -> Prop) (m : prog E S A) (k : A -> prog E S B) s :
  ensures m (fun _ s' => R (f s')) s -> (forall a, keeps f (k a)) ->
  ensures (m ≫= k) (fun _ s' => R (f s')) s.
Proof.
  intros H Hk. apply ensures_bind. eapply ensures_mono; [exact H|]. cbn beta.
  intros a s' HR b _. by rewrite Hk.
Qed.
Lemma ensures_and {A} (m : prog E S A) Q1 Q2 s :
  ensures m Q1 s -> ensures m Q2 s -> ensures m (fun a s' => Q1 a s' /\ Q2 a s') s.
Proof. intros H1 H2 a Ha. by split; [apply H1|apply H2]. Qed.
End Ensures.

(** ** What a program that returns did: its result, state and calls *)

Definition returns {E S A} (m : prog E S A) (Q : A -> S -> list E -> Prop) (s : S) : Prop :=
  wp m (fun o s' t => forall a, o = Ret a -> Q a s' t) s.

Section Returns.
  Context {E S : Type}.

Lemma returns_bind {A B} (m : prog E S A) (k : A -> prog E S B) Q s :
  returns m (fun a s' t => returns (k a) (fun b s'' t' => Q b s'' (t ++ t')) s') s -> returns (m ≫= k) Q s.
Proof.
  intros H b. unfold mbind, prog_bind. unfold returns, wp in H. destruct (out (m s)) as [a| |]; [|done..].
  simpl. by apply H.
Qed.
Lemma returns_ret {A} (a : A) Q s : Q a s [] -> returns (mret a : prog E S A) Q s.
Proof. intros H. apply wp_ret. by intros ? [= <-]. Qed.
Lemma returns_gets {A} (f : S -> A) Q s : Q (f s) s [] -> returns (gets f : prog E S A) Q s.
Proof. by intros H a [= <-]. Qed.
Lemma returns_mono {A} (m : prog E S A) (Q Q' : A -> S -> list E -> Prop) s :
  returns m Q s -> (forall a s' t, Q a s' t -> Q' a s' t) -> returns m Q' s.
Proof. intros H HQ a Ha. by apply HQ, H. Qed.
Lemma returns_any {A} (m : prog E S A) (Q : A -> S -> list E -> Prop) s :
  (forall a, Q a (fin (m s)) (evs (m s))) -> returns m Q s.
Proof. intros H a _. apply H. Qed.
End Returns.

(** ** Strings and lists *)

Lemma str_app_nil_r (s : string) : s +:+ "" = s.
Proof. induction s as [|a s IH]; [done|]. by apply (f_equal (String a)). Qed.

Lemma str_app_assoc (s t u : string) : s +:+ (t +:+ u) = (s +:+ t) +:+ u.
Proof. induction s as [|a s IH]; [done|]. by apply (f_equal (String a)). Qed.

Lemma str_length_app (s t : string) :
  String.length (s +:+ t) = String.length s + String.length t.
Proof. induction s as [|a s IH]; [done|]. by apply (f_equal S). Qed.

(** In a list whose elements carry distinct keys, a key determines the element. *)
Lemma nodup_key_eq {A K} (f : A -> K) (l : list A) x y :
  NoDup (f <$> l) -> x ∈ l -> y ∈ l -> f x = f y -> x = y.
Proof.
  intros Hd [i Hx]%list_elem_of_lookup [j Hy]%list_elem_of_lookup Hf.
  assert (i = j) as ->.
  { eapply (NoDup_lookup (f <$> l)); [done| |]; rewrite list_lookup_fmap.
    - by rewrite Hx. - by rewrite Hy, Hf. }
  congruence.
Qed.
