(* ===== verification/GoStd.v ===== *)
(** * The parts of Go's standard library on strings that the operator uses

    Go strings are byte strings; so is [string].  Everything here is
    executable.  [strings.ToLower], [strings.EqualFold] and [%q] are exact on
    ASCII, which is all the CRD lets through where the operator uses them; a
    byte above 127 is left as it is. *)

From stdpp Require Import base gmap strings list sorting pretty.
From Stdlib Require Import ZArith Lia Ascii.
From S2P Require Import Prelude.

(** ** Bytes *)

Definition byte (n : N) : ascii := ascii_of_N n.
Definition bytes (l : list N) : string := String.string_of_list_ascii (byte <$> l).
Definition code (c : ascii) : N := N_of_ascii c.

(** the byte of the double quote, and strings written with single quotes *)
Definition dquote : ascii := byte 34.

Fixpoint map_string (f : ascii -> ascii) (s : string) : string :=
  match s with
  | "" => ""
  | String c s' => String (f c) (map_string f s')
  end%string.

(** [js s] is [s] with double quotes for single ones: JSON text *)
Definition js : string -> string :=
  map_string (fun c => if bool_decide (c = byte 39) then dquote else c).

Fixpoint string_rev_app (s acc : string) : string :=
  match s with
  | "" => acc
  | String c s' => string_rev_app s' (String c acc)
  end%string.
Definition string_rev (s : string) : string := string_rev_app s "".

(** the [len] of a string *)
Definition len (s : string) : Z := Z.of_nat (String.length s).

(** ** White space

    [unicode.IsSpace], on the UTF-8 encodings of the code points it holds of. *)

Definition space1 (a : ascii) : bool :=
  let n := code a in (9 <=? n)%N && (n <=? 13)%N || (n =? 32)%N.

Definition space2 (a b : ascii) : bool :=
  (code a =? 194)%N && ((code b =? 133)%N || (code b =? 160)%N).

Definition space3 (a b c : ascii) : bool :=
  match code a, code b, code c with
  | 225, 154, 128 => true                                  (* U+1680 *)
  | 226, 128, z => (128 <=? z) && (z <=? 138) || (z =? 168) || (z =? 169) || (z =? 175)
  | 226, 129, 159 => true                                  (* U+205F *)
  | 227, 128, 128 => true                                  (* U+3000 *)
  | _, _, _ => false
  end%N.

Section Trim.
  Variables (sp2 : ascii -> ascii -> bool) (sp3 : ascii -> ascii -> ascii -> bool).

Fixpoint trim_leading (s : string) : string :=
  match s with
  | "" => ""
  | String a s1 =>
      if space1 a then trim_leading s1 else
      match s1 with
      | "" => s
      | String b s2 =>
          if sp2 a b then trim_leading s2 else
          match s2 with
          | "" => s
          | String c s3 => if sp3 a b c then trim_leading s3 else s
          end
      end
  end%string.
End Trim.

Definition trim_left_space : string -> string := trim_leading space2 space3.
Definition trim_right_space (s : string) : string :=
  string_rev (trim_leading (fun b a => space2 a b) (fun c b a => space3 a b c) (string_rev s)).

(** [strings.TrimSpace], and [bytes.TrimSpace] *)
Definition TrimSpace (s : string) : string := trim_right_space (trim_left_space s).

(** [strings.Trim(s, cutset)] for a one-byte cutset *)
Fixpoint trim_left_byte (c : ascii) (s : string) : string :=
  match s with
  | "" => ""
  | String a s' => if bool_decide (a = c) then trim_left_byte c s' else s
  end%string.
Definition TrimByte (c : ascii) (s : string) : string :=
  string_rev (trim_left_byte c (string_rev (trim_left_byte c s))).

(** ** Searching, cutting and joining *)

Definition HasPrefix (s p : string) : bool := String.prefix p s.

(** [strings.Cut(s, sep)] for a one-byte separator *)
Fixpoint Cut (sep : ascii) (s : string) : option (string * string) :=
  match s with
  | "" => None
  | String a s' =>
      if bool_decide (a = sep) then Some (""%string, s')
      else (fun '(b, t) => (String a b, t)) <$> Cut sep s'
  end%string.

(** [strings.Split(s, sep)] for a one-byte separator *)
Fixpoint Split (sep : ascii) (s : string) : list string :=
  match s with
  | "" => [""%string]
  | String a s' =>
      match Split sep s' with
      | w :: ws => if bool_decide (a = sep) then "" :: w :: ws else String a w :: ws
      | [] => []
      end
  end%string.

Definition Join (sep : string) (l : list string) : string := String.concat sep l.

(** [strings.ReplaceAll(s, old, new)] for a one-byte [old] *)
Fixpoint ReplaceByte (old : ascii) (new s : string) : string :=
  match s with
  | "" => ""
  | String a s' =>
      (if bool_decide (a = old) then new else String a "") +:+ ReplaceByte old new s'
  end%string.

(** ** Case *)

Definition lower (a : ascii) : ascii :=
  let n := code a in if ((65 <=? n) && (n <=? 90))%N then byte (n + 32) else a.
Definition ToLower : string -> string := map_string lower.
Definition EqualFold (s t : string) : bool := bool_decide (ToLower s = ToLower t).

(** ** Order

    [strings.Compare] is the lexicographic order on bytes. *)

Definition str_le (s t : string) : Prop := String.leb s t = true.
Definition str_lt (s t : string) : Prop := String.ltb s t = true.
#[export] Instance str_le_dec : RelDecision str_le.
Proof. intros s t. unfold str_le. apply _. Defined.

(** ** Formatting *)

(** [%d] *)
Definition fmt_d (z : Z) : string := pretty z.

Definition hexdigit (n : N) : ascii :=
  if (n <? 10)%N then byte (48 + n) else byte (87 + n).

(** [%x] of a byte string *)
Fixpoint fmt_x (s : string) : string :=
  match s with
  | "" => ""
  | String a s' => String (hexdigit (code a / 16)) (String (hexdigit (code a mod 16)) (fmt_x s'))
  end%string.

Fixpoint quote_body (s : string) : string :=
  match s with
  | "" => ""
  | String a s' =>
      (let n := code a in
       if (n =? 34)%N then String (byte 92) (String dquote "")
       else if (n =? 92)%N then "\\"
       else if (n =? 7)%N then "\a" else if (n =? 8)%N then "\b"
       else if (n =? 12)%N then "\f" else if (n =? 10)%N then "\n"
       else if (n =? 13)%N then "\r" else if (n =? 9)%N then "\t"
       else if (n =? 11)%N then "\v"
       else if ((n <? 32) || (n =? 127))%N then "\x" +:+ fmt_x (String a "")
       else String a "") +:+ quote_body s'
  end%string.

(** [%q] *)
Definition fmt_q (s : string) : string :=
  String dquote (quote_body s +:+ String dquote "").

(** ** Slash-separated paths: [path.Clean], [path.Dir], [path.Base] *)

Definition slash : ascii := byte 47.

(** one component of a path, on the reversed list of components kept so far *)
Definition clean_step (rooted : bool) (acc : list string) (w : string) : list string :=
  if bool_decide (w = "" \/ w = ".") then acc
  else if bool_decide (w = "..") then
    match acc with
    | top :: acc' => if bool_decide (top = "..") then w :: acc else acc'
    | [] => if rooted then [] else [w]
    end
  else w :: acc.

Definition path_Clean (p : string) : string :=
  let rooted := HasPrefix p "/" in
  let comps := rev (fold_left (clean_step rooted) (Split slash p) []) in
  let body := Join "/" comps in
  if rooted then "/" +:+ body else if bool_decide (comps = []) then "." else body.

(** the part of a path up to and with its last slash, and the rest *)
Definition path_split (p : string) : string * string :=
  match rev (Split slash p) with
  | f :: d :: ds => (Join "/" (rev (d :: ds)) +:+ "/", f)
  | [f] => ("", f)
  | [] => ("", "")
  end%string.

Definition path_Dir (p : string) : string := path_Clean (path_split p).1.

Definition path_Base (p : string) : string :=
  if bool_decide (p = "") then "." else
  let q := string_rev (trim_left_byte slash (string_rev p)) in
  if bool_decide (q = "") then "/" else (path_split q).2.

(** [filepath.Join(a, b)] on Unix *)
Definition path_Join (a b : string) : string :=
  if bool_decide (a = "") then (if bool_decide (b = "") then "" else path_Clean b)
  else if bool_decide (b = "") then path_Clean a
  else path_Clean (a +:+ "/" +:+ b).

(** ** The order on strings is a total order *)

Lemma compare_cons a s b t :
  String.compare (String a s) (String b t) =
  match (code a ?= code b)%N with Eq => String.compare s t | c => c end.
Proof. done. Qed.

Lemma code_inj a b : code a = code b -> a = b.
Proof. intros H. rewrite <- (ascii_N_embedding a), <- (ascii_N_embedding b). by apply (f_equal ascii_of_N). Qed.

Lemma str_lt_cons a s b t :
  str_lt (String a s) (String b t) <-> (code a < code b)%N \/ (a = b /\ str_lt s t).
Proof.
  unfold str_lt, String.ltb. rewrite compare_cons.
  destruct (N.compare_spec (code a) (code b)) as [Heq|Hlt|Hlt].
  - apply code_inj in Heq as ->. split; [auto|]. intros [?|[_ ?]]; [lia|done].
  - tauto.
  - split; [done|]. intros [?|[-> ?]]; lia.
Qed.

Lemma str_lt_irrefl s : ~ str_lt s s.
Proof.
  induction s as [|a s IH]; [by unfold str_lt|]. rewrite str_lt_cons. intros [?|[_ ?]]; [lia|done].
Qed.

Lemma str_lt_trans s t u : str_lt s t -> str_lt t u -> str_lt s u.
Proof.
  revert t u. induction s as [|a s IH]; intros [|b t] [|c u]; try by unfold str_lt.
  rewrite !str_lt_cons. intros [?|[-> ?]] [?|[-> ?]]; [left; lia|by left|by left|].
  right. split; [done|]. by eapply IH.
Qed.

Lemma str_le_lteq s t : str_le s t <-> str_lt s t \/ s = t.
Proof.
  revert t. induction s as [|a s IH]; intros [|b t]; unfold str_le, str_lt in *.
  - split; [auto|done].
  - split; [by left|done].
  - split; [done|]. by intros [?|?].
  - unfold String.leb, String.ltb in *. rewrite compare_cons.
    destruct (N.compare_spec (code a) (code b)) as [Heq|Hlt|Hlt].
    + apply code_inj in Heq as ->. rewrite IH. split; intros [?|?]; naive_solver.
    + split; [by left|done].
    + split; [done|]. intros [?|[= -> ->]]; [done|lia].
Qed.

#[export] Instance str_le_trans : Transitive str_le.
Proof.
  intros s t u. rewrite !str_le_lteq. intros [?| ->] [?| ->]; auto. left. by eapply str_lt_trans.
Qed.

#[export] Instance str_le_total : Total str_le.
Proof.
  intros s. induction s as [|a s IH]; intros [|b t]; [by left|by left|by right|].
  rewrite !str_le_lteq, !str_lt_cons.
  destruct (N.lt_trichotomy (code a) (code b)) as [?|[Heq|?]]; [by left; left; left| |by right; left; left].
  apply code_inj in Heq as ->. destruct (IH t) as [H|H]; rewrite str_le_lteq in H;
    destruct H as [?|<-]; auto.
Qed.

Lemma str_le_antisym s t : str_le s t -> str_le t s -> s = t.
Proof.
  rewrite !str_le_lteq. intros [?|?] [?|?]; subst; try done.
  exfalso. eapply str_lt_irrefl, str_lt_trans; eauto.
Qed.
