(* ===== verification/GoJson.v ===== *)
(** * [encoding/json] as the operator uses it

    [Marshal] on JSON trees (strings escaped as Go does, with HTML escaping;
    map keys sorted) and [Unmarshal] into a tree and from the tree into the
    typed targets of the operator.  A tree keeps object members in order and
    with duplicates.  Numbers are kept as their literals, which is all the
    operator needs.  The texts of the errors are not reproduced: the operator
    only passes them on. *)

From stdpp Require Import base gmap strings list sorting pretty.
From Stdlib Require Import ZArith Lia Ascii.
From S2P Require Import Prelude GoStd.

Inductive json :=
  | JNull
  | JBool (b : bool)
  | JNum (literal : string)
  | JStr (s : string)
  | JArr (l : list json)
  | JObj (m : list (string * json)).

Definition backslash : ascii := byte 92.

(** ** UTF-8 *)

Definition in_range (lo hi : N) (a : ascii) : bool := ((lo <=? code a) && (code a <=? hi))%N.
Definition cont : ascii -> bool := in_range 128 191.

(** whether a well-formed sequence of two, three or four bytes *)
Definition utf8_2 (a b : ascii) : bool := in_range 194 223 a && cont b.
Definition utf8_3 (a b c : ascii) : bool :=
  cont c &&
  (if (code a =? 224)%N then in_range 160 191 b
   else if (code a =? 237)%N then in_range 128 159 b
   else in_range 225 239 a && cont b).
Definition utf8_4 (a b c d : ascii) : bool :=
  cont c && cont d &&
  (if (code a =? 240)%N then in_range 144 191 b
   else if (code a =? 244)%N then in_range 128 143 b
   else in_range 241 243 a && cont b).

(** A byte string split into ASCII bytes, well-formed multi-byte sequences and
    ill-formed bytes, as a [range] loop over a Go string splits it. *)
Inductive rune := RAscii (a : ascii) | RMulti (s : string) | RBad.

Fixpoint runes (s : string) : list rune :=
  match s with
  | "" => []
  | String a s1 =>
      if (code a <? 128)%N then RAscii a :: runes s1 else
      match s1 with
      | "" => [RBad]
      | String b s2 =>
          if utf8_2 a b then RMulti (String a (String b "")) :: runes s2 else
          match s2 with
          | "" => RBad :: runes s1
          | String c s3 =>
              if utf8_3 a b c then RMulti (String a (String b (String c ""))) :: runes s3 else
              match s3 with
              | "" => RBad :: runes s1
              | String d s4 =>
                  if utf8_4 a b c d
                  then RMulti (String a (String b (String c (String d "")))) :: runes s4
                  else RBad :: runes s1
              end
          end
      end
  end%string.

Definition utf8_encode (r : N) : string :=
  (if r <? 128 then bytes [r]
   else if r <? 2048 then bytes [192 + r / 64; 128 + r mod 64]
   else if r <? 65536 then bytes [224 + r / 4096; 128 + r / 64 mod 64; 128 + r mod 64]
   else bytes [240 + r / 262144; 128 + r / 4096 mod 64; 128 + r / 64 mod 64; 128 + r mod 64])%N.

Definition replacement : string := bytes [239; 191; 189]%N.

(** ** Marshal *)

Definition hex4 (n : N) : string :=
  (String (hexdigit (n / 4096 mod 16)) (String (hexdigit (n / 256 mod 16))
    (String (hexdigit (n / 16 mod 16)) (String (hexdigit (n mod 16)) ""))))%string.

Definition esc_u (n : N) : string := String backslash ("u" +:+ hex4 n).

(** one ASCII byte inside a JSON string *)
Definition esc_ascii (a : ascii) : string :=
  let n := code a in
  (if n =? 34 then String backslash (String dquote "")
   else if n =? 92 then "\\"
   else if n =? 8 then "\b" else if n =? 12 then "\f"
   else if n =? 10 then "\n" else if n =? 13 then "\r" else if n =? 9 then "\t"
   else if (n <? 32) || (n =? 60) || (n =? 62) || (n =? 38) then esc_u n
   else String a "")%N.

(** U+2028 and U+2029, which [Marshal] escapes *)
Definition esc_multi (s : string) : string :=
  if bool_decide (s = bytes [226; 128; 168]%N) then esc_u 8232
  else if bool_decide (s = bytes [226; 128; 169]%N) then esc_u 8233 else s.

Definition esc_rune (r : rune) : string :=
  match r with RAscii a => esc_ascii a | RMulti s => esc_multi s | RBad => esc_u 65533 end.

Definition concat_str (l : list string) : string := foldr String.append "" l.

Definition esc (s : string) : string := concat_str (esc_rune <$> runes s).

Definition quote_json (s : string) : string := String dquote (esc s +:+ String dquote "").

Fixpoint Marshal (j : json) : string :=
  match j with
  | JNull => "null"
  | JBool true => "true"
  | JBool false => "false"
  | JNum n => n
  | JStr s => quote_json s
  | JArr l => "[" +:+ Join "," (map Marshal l) +:+ "]"
  | JObj m =>
      "{" +:+ Join "," (map (fun kv => quote_json kv.1 +:+ ":" +:+ Marshal kv.2) m) +:+ "}"
  end%string.

(** a [map[string]T]: members in the order of their keys *)
Definition key_le {A} (x y : string * A) : Prop := str_le x.1 y.1.
#[export] Instance key_le_dec {A} : RelDecision (@key_le A).
Proof. intros x y. unfold key_le. apply _. Defined.

Definition sorted_entries {A} (m : gmap string A) : list (string * A) :=
  merge_sort key_le (map_to_list m).

Definition json_map (m : gmap string json) : json := JObj (sorted_entries m).
Definition json_string_map (m : gmap string string) : json := json_map (JStr <$> m).

(** ** The scanner *)

Definition is_ws (a : ascii) : bool :=
  let n := code a in ((n =? 32) || (n =? 9) || (n =? 10) || (n =? 13))%N.

Fixpoint skip_ws (s : string) : string :=
  match s with
  | "" => ""
  | String a s' => if is_ws a then skip_ws s' else s
  end%string.

Definition hexval (a : ascii) : option N :=
  if in_range 48 57 a then Some (code a - 48)%N
  else if in_range 97 102 a then Some (code a - 87)%N
  else if in_range 65 70 a then Some (code a - 55)%N
  else None.

Definition is_hex (a : ascii) : bool := bool_decide (is_Some (hexval a)).

Definition cons2 (a b : ascii) (r : string * string) : string * string :=
  (String a (String b r.1), r.2).

(** the raw body of a string literal up to its closing quote, and the rest *)
Fixpoint scan_str (s : string) : option (string * string) :=
  match s with
  | "" => None
  | String a s1 =>
      if bool_decide (a = dquote) then Some (""%string, s1)
      else if (code a <? 32)%N then None
      else if bool_decide (a = backslash) then
        match s1 with
        | "" => None
        | String b s2 =>
            if bool_decide (b ∈ [dquote; backslash; slash; byte 98; byte 102; byte 110;
                                 byte 114; byte 116])
            then cons2 a b <$> scan_str s2
            else if bool_decide (b = byte 117) then
              match s2 with
              | String h1 (String h2 (String h3 (String h4 s6))) =>
                  if is_hex h1 && is_hex h2 && is_hex h3 && is_hex h4
                  then (fun r => cons2 a b (cons2 h1 h2 (cons2 h3 h4 r))) <$> scan_str s6
                  else None
              | _ => None
              end
            else None
        end
      else (fun r => (String a r.1, r.2)) <$> scan_str s1
  end%string.

Definition hex4_val (a b c d : ascii) : option N :=
  x ← hexval a; y ← hexval b; z ← hexval c; w ← hexval d;
  Some (((x * 16 + y) * 16 + z) * 16 + w)%N.

Definition simple_escape (b : ascii) : ascii :=
  let n := code b in
  (if n =? 98 then byte 8 else if n =? 102 then byte 12 else if n =? 110 then byte 10
   else if n =? 114 then byte 13 else if n =? 116 then byte 9 else b)%N.

Definition is_surrogate (r : N) : bool := ((55296 <=? r) && (r <? 57344))%N.

(** [utf16.DecodeRune] of a valid pair *)
Definition surrogate_pair (r1 r2 : N) : option N :=
  if ((55296 <=? r1) && (r1 <? 56320) && (56320 <=? r2) && (r2 <? 57344))%N
  then Some ((r1 - 55296) * 1024 + (r2 - 56320) + 65536)%N else None.

(** the bytes a raw body stands for: escapes decoded *)
Fixpoint unescape (s : string) : string :=
  match s with
  | "" => ""
  | String a s1 =>
      if bool_decide (a = backslash) then
        match s1 with
        | "" => ""
        | String b s2 =>
            if bool_decide (b = byte 117) then
              match s2 with
              | String h1 (String h2 (String h3 (String h4 s6))) =>
                  let r := default 0%N (hex4_val h1 h2 h3 h4) in
                  if is_surrogate r then
                    match s6 with
                    | String x (String u (String g1 (String g2 (String g3 (String g4 s12))))) =>
                        match hex4_val g1 g2 g3 g4 ≫= surrogate_pair r with
                        | Some r' =>
                            if bool_decide (x = backslash /\ u = byte 117)
                            then utf8_encode r' +:+ unescape s12
                            else replacement +:+ unescape s6
                        | None => replacement +:+ unescape s6
                        end
                    | _ => replacement +:+ unescape s6
                    end
                  else utf8_encode r +:+ unescape s6
              | _ => ""
              end
            else String (simple_escape b) (unescape s2)
        end
      else String a (unescape s1)
  end%string.

(** ill-formed bytes become U+FFFD *)
Definition sanitize (s : string) : string :=
  concat_str ((fun r => match r with
                        | RAscii a => String a "" | RMulti t => t | RBad => replacement
                        end) <$> runes s).

(** Escapes are ASCII, and decoding them yields well-formed sequences only, so
    the raw body can be sanitized first. *)
Definition unquote (raw : string) : string := unescape (sanitize raw).

Fixpoint span_digits (s : string) : string * string :=
  match s with
  | String a s' =>
      if in_range 48 57 a then let '(d, r) := span_digits s' in (String a d, r)
      else (""%string, s)
  | "" => (""%string, ""%string)
  end%string.

Definition digits1 (s : string) : option (string * string) :=
  let '(d, r) := span_digits s in if bool_decide (d = "") then None else Some (d, r).

Definition scan_int (s : string) : option (string * string) :=
  match s with
  | String a s' => if bool_decide (a = byte 48) then Some (String a "", s') else digits1 s
  | "" => None
  end%string.

Definition scan_frac (s : string) : option (string * string) :=
  match s with
  | String a s' =>
      if bool_decide (a = byte 46)
      then '(d, r) ← digits1 s'; Some (String a d, r) else Some (""%string, s)
  | "" => Some (""%string, ""%string)
  end%string.

Definition scan_exp (s : string) : option (string * string) :=
  match s with
  | String a s' =>
      if bool_decide (a = byte 101 \/ a = byte 69) then
        match s' with
        | String b s2 =>
            if bool_decide (b = byte 43 \/ b = byte 45)
            then '(d, r) ← digits1 s2; Some (String a (String b d), r)
            else '(d, r) ← digits1 s'; Some (String a d, r)
        | "" => None
        end
      else Some (""%string, s)
  | "" => Some (""%string, ""%string)
  end%string.

Definition scan_num (s : string) : option (string * string) :=
  let '(sign, s0) := match s with
                     | String a s' => if bool_decide (a = byte 45)
                                      then (String a "", s') else (""%string, s)
                     | "" => (""%string, s)
                     end%string in
  '(i, s1) ← scan_int s0; '(f, s2) ← scan_frac s1; '(e, s3) ← scan_exp s2;
  Some (sign +:+ i +:+ f +:+ e, s3).

Definition skip_prefix (p s : string) : option string :=
  if String.prefix p s
  then Some (String.substring (String.length p) (String.length s - String.length p) s)
  else None.

(** ** The parser *)

Section Parse.
(** the parser of the values nested one level deeper *)
  Variable value : string -> option (json * string).

(** the elements of an array, after its opening bracket or a comma; the
    fuel bounds their number *)
Fixpoint parse_elems (n : nat) (s : string) : option (list json * string) :=
  match n with
  | O => None
  | S n =>
      '(v, r) ← value s;
      match skip_ws r with
      | String a r' =>
          if bool_decide (a = byte 44) then '(vs, r2) ← parse_elems n r'; Some (v :: vs, r2)
          else if bool_decide (a = byte 93) then Some ([v], r')
          else None
      | "" => None
      end%string
  end.

Fixpoint parse_members (n : nat) (s : string) : option (list (string * json) * string) :=
  match n with
  | O => None
  | S n =>
      match skip_ws s with
      | String q s1 =>
          if bool_decide (q = dquote) then
            '(k, s2) ← scan_str s1;
            match skip_ws s2 with
            | String c s3 =>
                if bool_decide (c = byte 58) then
                  '(v, r) ← value s3;
                  match skip_ws r with
                  | String a r' =>
                      if bool_decide (a = byte 44)
                      then '(ms, r2) ← parse_members n r'; Some ((unquote k, v) :: ms, r2)
                      else if bool_decide (a = byte 125) then Some ([(unquote k, v)], r')
                      else None
                  | "" => None
                  end
                else None
            | "" => None
            end
          else None
      | "" => None
      end%string
  end.
End Parse.

Definition first_byte (s : string) : option ascii :=
  match s with String a _ => Some a | "" => None end%string.

(** a null, a boolean or a number *)
Definition parse_plain (s : string) : option (json * string) :=
  match skip_prefix "null" s, skip_prefix "true" s, skip_prefix "false" s with
  | Some r, _, _ => Some (JNull, r)
  | _, Some r, _ => Some (JBool true, r)
  | _, _, Some r => Some (JBool false, r)
  | _, _, _ => '(d, r) ← scan_num s; Some (JNum d, r)
  end.

(** a value and the rest of the text, in which at most [depth] arrays and
    objects may be open at a time *)
Fixpoint parse_value (depth : nat) (s0 : string) : option (json * string) :=
  let s := skip_ws s0 in
  match s with
  | "" => None
  | String a s1 =>
      if bool_decide (a = dquote) then
        '(raw, r) ← scan_str s1; Some (JStr (unquote raw), r)
      else if bool_decide (a = byte 91) then
        match depth with
        | O => None
        | S depth =>
            match skip_ws s1 with
            | String b r =>
                if bool_decide (b = byte 93) then Some (JArr [], r)
                else '(l, r2) ← parse_elems (parse_value depth) (S (String.length s1)) s1;
                     Some (JArr l, r2)
            | "" => None
            end
        end
      else if bool_decide (a = byte 123) then
        match depth with
        | O => None
        | S depth =>
            match skip_ws s1 with
            | String b r =>
                if bool_decide (b = byte 125) then Some (JObj [], r)
                else '(m, r2) ← parse_members (parse_value depth) (S (String.length s1)) s1;
                     Some (JObj m, r2)
            | "" => None
            end
        end
      else parse_plain s
  end%string.

(** [maxNestingDepth] of encoding/json *)
Definition maxNestingDepth : nat := N.to_nat 10000.

(** the whole text as one value *)
Definition parse_json (s : string) : option json :=
  '(v, r) ← parse_value maxNestingDepth s;
  if bool_decide (skip_ws r = "") then Some v else None.
(** not to be unfolded by unification: the depth is a large number *)
#[global] Opaque parse_json.

(** ** Unmarshal into the operator's targets *)

Definition json_syntax_error : error := ErrNew "invalid JSON text".
Definition json_type_error : error := ErrNew "json: cannot unmarshal into Go value".

(** one member of a [map[string]string]: a null leaves the zero value, any
    other kind than a string is a type error *)
Definition decode_member (acc : option (gmap string string)) (kv : string * json) :
    option (gmap string string) :=
  m ← acc;
  match kv.2 with
  | JStr s => Some (<[kv.1 := s]> m)
  | JNull => Some (<[kv.1 := ""%string]> m)
  | _ => None
  end.

(** [var m map[string]string; err := json.Unmarshal(data, &m)] *)
Definition UnmarshalStringMap (data : string) : gmap string string + error :=
  match parse_json data with
  | None => inr json_syntax_error
  | Some JNull => inl ∅
  | Some (JObj l) =>
      match fold_left decode_member l (Some ∅) with
      | Some m => inl m
      | None => inr json_type_error
      end
  | Some _ => inr json_type_error
  end.

(** the value a struct field of type [string] tagged [name] ends up with: the
    last member with that name decides, where names match without case; [None]
    is a type error *)
Definition decode_field (name : string) (l : list (string * json)) : option string :=
  fold_left (fun acc kv =>
    v ← acc;
    if EqualFold kv.1 name then
      match kv.2 with JStr s => Some s | JNull => Some v | _ => None end
    else Some v) l (Some ""%string).

#[export] Instance json_inhabited : Inhabited json := populate JNull.

(** ** The entries of a map, sorted by key *)

#[export] Instance key_le_trans {A} : Transitive (@key_le A).
Proof. intros x y z. unfold key_le. intros H1 H2. by transitivity y.1. Qed.
#[export] Instance key_le_total {A} : Total (@key_le A).
Proof. intros x y. apply (total str_le). Qed.

Lemma sorted_entries_perm {A} (m : gmap string A) : sorted_entries m ≡ₚ map_to_list m.
Proof. apply merge_sort_Permutation. Qed.

Lemma elem_of_sorted_entries {A} (m : gmap string A) k v :
  (k, v) ∈ sorted_entries m <-> m !! k = Some v.
Proof. by rewrite sorted_entries_perm, elem_of_map_to_list. Qed.

(** Keys come out in strictly increasing order. *)
Lemma sorted_entries_strict {A} (m : gmap string A) : StronglySorted str_lt (sorted_entries m).*1.
Proof.
  assert (NoDup (sorted_entries m).*1) as Hd.
  { rewrite sorted_entries_perm. apply NoDup_fst_map_to_list. }
  pose proof (StronglySorted_merge_sort key_le (map_to_list m)) as Hs.
  fold (sorted_entries m) in Hs. clear -Hd Hs. revert Hd.
  induction Hs as [|[k v] l Hs IH Hf]; intros Hd; [constructor|].
  apply NoDup_cons in Hd as [Hk Hd]. cbn [fmap list_fmap fst] in *. constructor; [by apply IH|].
  apply Forall_fmap. apply List.Forall_forall. intros [k' v'] Hin. simpl.
  assert (str_le k k') as [?| ->]%str_le_lteq.
  { rewrite List.Forall_forall in Hf. apply (Hf _ Hin). }
  - done.
  - exfalso. apply Hk. apply list_elem_of_In in Hin. by apply (list_elem_of_fmap_2 fst) in Hin.
Qed.
