(* ===== verification/GoCodec.v ===== *)
(** * [encoding/base64] (StdEncoding) and [crypto/sha256]

    The base64 codec is the one the operator uses for credentials: the encoder
    pads, the decoder skips CR and LF and, on corrupt input, returns the bytes
    decoded so far together with an error.  Both directions are executable and
    the round trip is proved. *)

From stdpp Require Import base list strings.
From Stdlib Require Import ZArith Lia Ascii.
From S2P Require Import Prelude GoStd.

(** ** Base64 *)

Definition b64_char (n : N) : ascii :=
  (if n <? 26 then byte (65 + n)
   else if n <? 52 then byte (71 + n)
   else if n <? 62 then byte (n - 4)
   else if n =? 62 then byte 43 else byte 47)%N.

Definition b64_val (a : ascii) : option N :=
  (let n := code a in
   if (65 <=? n) && (n <=? 90) then Some (n - 65)
   else if (97 <=? n) && (n <=? 122) then Some (n - 71)
   else if (48 <=? n) && (n <=? 57) then Some (n + 4)
   else if n =? 43 then Some 62
   else if n =? 47 then Some 63 else None)%N.

Definition pad : ascii := byte 61.

(** [base64.StdEncoding.EncodeToString] *)
Fixpoint EncodeToString (s : string) : string :=
  match s with
  | "" => ""
  | String a "" =>
      let x := code a in
      String (b64_char (x / 4)) (String (b64_char (x mod 4 * 16)) (String pad (String pad "")))
  | String a (String b "") =>
      let x := code a in let y := code b in
      String (b64_char (x / 4)) (String (b64_char (x mod 4 * 16 + y / 16))
        (String (b64_char (y mod 16 * 4)) (String pad "")))
  | String a (String b (String c s')) =>
      let x := code a in let y := code b in let z := code c in
      String (b64_char (x / 4)) (String (b64_char (x mod 4 * 16 + y / 16))
        (String (b64_char (y mod 16 * 4 + z / 64)) (String (b64_char (z mod 64))
          (EncodeToString s'))))
  end%string%N.

Fixpoint drop_newlines (s : string) : string :=
  match s with
  | "" => ""
  | String a s' =>
      if bool_decide (a = byte 10 \/ a = byte 13) then drop_newlines s'
      else String a (drop_newlines s')
  end%string.

Definition emit1 (x y : N) : string := bytes [x * 4 + y / 16]%N.
Definition emit2 (x y z : N) : string := bytes [x * 4 + y / 16; y mod 16 * 16 + z / 4]%N.
Definition emit3 (x y z w : N) : string :=
  bytes [x * 4 + y / 16; y mod 16 * 16 + z / 4; z mod 4 * 64 + w]%N.

(** the decoded bytes, and whether the input was well formed *)
Fixpoint decode_quanta (s : string) : string * bool :=
  match s with
  | "" => ("", true)
  | String a (String b (String c (String d s'))) =>
      match b64_val a, b64_val b, b64_val c, b64_val d with
      | Some x, Some y, Some z, Some w =>
          let '(t, ok) := decode_quanta s' in (emit3 x y z w +:+ t, ok)
      | Some x, Some y, Some z, None =>
          if bool_decide (d = pad) then (emit2 x y z, bool_decide (s' = "")) else ("", false)
      | Some x, Some y, None, _ =>
          if bool_decide (c = pad /\ d = pad) then (emit1 x y, bool_decide (s' = ""))
          else ("", false)
      | _, _, _, _ => ("", false)
      end
  | _ => ("", false)
  end%string.

(** [base64.StdEncoding.DecodeString]: what it returns when the error is
    ignored, and whether the error is nil *)
Definition DecodeString (s : string) : string * bool := decode_quanta (drop_newlines s).

(** ** SHA-256 *)

Section Sha256.
Local Open Scope Z_scope.

Definition w32 (x : Z) : Z := x mod 2 ^ 32.
Definition add32 (x y : Z) : Z := w32 (x + y).
Definition rotr (n x : Z) : Z := Z.lor (Z.shiftr x n) (w32 (Z.shiftl x (32 - n))).
Definition not32 (x : Z) : Z := Z.lxor x (2 ^ 32 - 1).

Definition sha_k : list Z := [
  1116352408; 1899447441; 3049323471; 3921009573; 961987163; 1508970993; 2453635748; 2870763221;
  3624381080; 310598401; 607225278; 1426881987; 1925078388; 2162078206; 2614888103; 3248222580;
  3835390401; 4022224774; 264347078; 604807628; 770255983; 1249150122; 1555081692; 1996064986;
  2554220882; 2821834349; 2952996808; 3210313671; 3336571891; 3584528711; 113926993; 338241895;
  666307205; 773529912; 1294757372; 1396182291; 1695183700; 1986661051; 2177026350; 2456956037;
  2730485921; 2820302411; 3259730800; 3345764771; 3516065817; 3600352804; 4094571909; 275423344;
  430227734; 506948616; 659060556; 883997877; 958139571; 1322822218; 1537002063; 1747873779;
  1955562222; 2024104815; 2227730452; 2361852424; 2428436474; 2756734187; 3204031479; 3329325298].

Definition sha_init : list Z := [
  1779033703; 3144134277; 1013904242; 2773480762; 1359893119; 2600822924; 528734635; 1541459225].

Definition sigma0 x := Z.lxor (Z.lxor (rotr 7 x) (rotr 18 x)) (Z.shiftr x 3).
Definition sigma1 x := Z.lxor (Z.lxor (rotr 17 x) (rotr 19 x)) (Z.shiftr x 10).
Definition bsig0 x := Z.lxor (Z.lxor (rotr 2 x) (rotr 13 x)) (rotr 22 x).
Definition bsig1 x := Z.lxor (Z.lxor (rotr 6 x) (rotr 11 x)) (rotr 25 x).
Definition ch x y z := Z.lxor (Z.land x y) (Z.land (not32 x) z).
Definition maj x y z := Z.lxor (Z.lxor (Z.land x y) (Z.land x z)) (Z.land y z).

(** the message schedule, newest word first *)
Fixpoint schedule (n : nat) (w : list Z) : list Z :=
  match n with
  | O => w
  | S n =>
      let g i := nth i w 0 in
      schedule n (add32 (add32 (sigma1 (g 1%nat)) (g 6%nat))
                        (add32 (sigma0 (g 14%nat)) (g 15%nat)) :: w)
  end.

Definition sha_round (v : list Z) (kw : Z * Z) : list Z :=
  match v with
  | [a; b; c; d; e; f; g; h] =>
      let t1 := add32 (add32 (add32 h (bsig1 e)) (add32 (ch e f g) kw.1)) kw.2 in
      let t2 := add32 (bsig0 a) (maj a b c) in
      [add32 t1 t2; a; b; c; add32 d t1; e; f; g]
  | _ => v
  end.

Definition sha_block (h : list Z) (block : list Z) : list Z :=
  let w := rev (schedule 48 (rev block)) in
  zip_with add32 h (fold_left sha_round (zip sha_k w) h).

Fixpoint words (l : list Z) : list Z :=
  match l with
  | a :: b :: c :: d :: l' => (((a * 256 + b) * 256 + c) * 256 + d) :: words l'
  | _ => []
  end.

Fixpoint blocks (n : nat) (l : list Z) : list (list Z) :=
  match n with
  | O => []
  | S n => match l with [] => [] | _ => take 16 l :: blocks n (drop 16 l) end
  end.

Definition be_bytes (n : nat) (x : Z) : list Z :=
  map (fun i => Z.shiftr x (8 * Z.of_nat i) mod 256) (rev (seq 0 n)).

Definition sha_pad (m : list Z) : list Z :=
  let l := Z.of_nat (length m) in
  m ++ [128] ++ replicate (Z.to_nat ((55 - l) mod 64)) 0 ++ be_bytes 8 (8 * l).

(** [sha256.Sum256] *)
Definition Sum256 (s : string) : string :=
  let m := map (fun a => Z.of_N (code a)) (String.list_ascii_of_string s) in
  let ws := words (sha_pad m) in
  let h := fold_left sha_block (blocks (length ws) ws) sha_init in
  bytes (map Z.to_N (flat_map (be_bytes 4) h)).
End Sha256.

Example Sum256_empty :
  fmt_x (Sum256 "") = "e3b0c44298fc1c149afbf4c8996fb92427ae41e4649b934ca495991b7852b855"%string.
Proof. vm_compute. reflexivity. Qed.

Example Sum256_abc :
  fmt_x (Sum256 "abc") = "ba7816bf8f01cfea414140de5dae2223b00361a396177a9cb410ff61f20015ad"%string.
Proof. vm_compute. reflexivity. Qed.

(** ** The round trip *)

Lemma code_lt (a : ascii) : (code a < 256)%N.
Proof. apply N_ascii_bounded. Qed.

Lemma byte_code (a : ascii) : byte (code a) = a.
Proof. apply ascii_N_embedding. Qed.

(** A test on a six-bit number that holds of all 64 of them holds. *)
Definition below (k : nat) (f : N -> bool) : bool := forallb f (N.of_nat <$> seq 0 k).

Lemma below_spec k f (n : N) : below k f = true -> (n < N.of_nat k)%N -> f n = true.
Proof.
  unfold below. rewrite forallb_forall. intros H Hn. apply H.
  apply list_elem_of_In, list_elem_of_fmap. exists (N.to_nat n).
  rewrite N2Nat.id, elem_of_seq. split; [done | lia].
Qed.

Ltac by_table k f n :=
  let T := fresh in
  assert (below k f = true) as T by (vm_compute; reflexivity);
  pose proof (below_spec k f n T ltac:(lia)) as Htab; cbv beta in Htab; clear T.

Lemma b64_val_char n : (n < 64)%N -> b64_val (b64_char n) = Some n.
Proof.
  intros Hn. by_table 64%nat (fun n => bool_decide (b64_val (b64_char n) = Some n)) n.
  by apply bool_decide_eq_true in Htab.
Qed.

Definition plain (a : ascii) : Prop := a <> byte 10 /\ a <> byte 13 /\ a <> pad.

Lemma b64_char_plain n : (n < 64)%N -> plain (b64_char n).
Proof.
  intros Hn. by_table 64%nat (fun n => bool_decide (plain (b64_char n))) n.
  by apply bool_decide_eq_true in Htab.
Qed.

#[local] Ltac Zify.zify_post_hook ::= Z.to_euclidean_division_equations.

(** The three bytes of a quantum, back from its four sextets. *)
Lemma sextets3 (x y z : N) :
  (x < 256)%N -> (y < 256)%N -> (z < 256)%N ->
  let '(s1, s2, s3, s4) := (x / 4, x mod 4 * 16 + y / 16, y mod 16 * 4 + z / 64, z mod 64)%N in
  (s1 < 64 /\ s2 < 64 /\ s3 < 64 /\ s4 < 64 /\
   s1 * 4 + s2 / 16 = x /\ s2 mod 16 * 16 + s3 / 4 = y /\ s3 mod 4 * 64 + s4 = z)%N.
Proof. intros. repeat split; lia. Qed.

Lemma bytes_codes (l : list ascii) :
  bytes (code <$> l) = String.string_of_list_ascii l.
Proof.
  unfold bytes. rewrite <- list_fmap_compose. f_equal.
  rewrite <- (list_fmap_id l) at 2. apply list_fmap_ext. intros ? a _. apply byte_code.
Qed.

Lemma emit1_eq x y a : (x * 4 + y / 16)%N = code a -> emit1 x y = String a "".
Proof. unfold emit1. intros ->. apply (bytes_codes [a]). Qed.

Lemma emit2_eq x y z a b :
  (x * 4 + y / 16)%N = code a -> (y mod 16 * 16 + z / 4)%N = code b ->
  emit2 x y z = String a (String b "").
Proof. unfold emit2. intros -> ->. apply (bytes_codes [a; b]). Qed.

Lemma emit3_eq x y z w a b c :
  (x * 4 + y / 16)%N = code a -> (y mod 16 * 16 + z / 4)%N = code b ->
  (z mod 4 * 64 + w)%N = code c ->
  emit3 x y z w = String a (String b (String c "")).
Proof. unfold emit3. intros -> -> ->. apply (bytes_codes [a; b; c]). Qed.

Lemma drop_newlines_cons a s : plain a -> drop_newlines (String a s) = String a (drop_newlines s).
Proof. intros (H1 & H2 & _). simpl. rewrite bool_decide_false; [done | naive_solver]. Qed.

Lemma drop_newlines_pad s : drop_newlines (String pad s) = String pad (drop_newlines s).
Proof. reflexivity. Qed.

Lemma decode_quantum3 x y z w s t ok :
  (x < 64)%N -> (y < 64)%N -> (z < 64)%N -> (w < 64)%N ->
  DecodeString s = (t, ok) ->
  DecodeString (String (b64_char x) (String (b64_char y)
    (String (b64_char z) (String (b64_char w) s)))) = ((emit3 x y z w +:+ t)%string, ok).
Proof.
  unfold DecodeString. intros ? ? ? ? Hs.
  rewrite !drop_newlines_cons by (by apply b64_char_plain).
  simpl decode_quanta. rewrite !b64_val_char by done. by rewrite Hs.
Qed.

Lemma DecodeString_nil : DecodeString "" = (""%string, true).
Proof. reflexivity. Qed.

(** Decoding inverts encoding, without error, on every byte string. *)
Lemma base64_roundtrip (s : string) : DecodeString (EncodeToString s) = (s, true).
Proof.
  induction s as [s IH] using (induction_ltof1 _ String.length). unfold ltof in IH.
  destruct s as [|a [|b [|c s]]]; [done | | |].
  - pose proof (code_lt a) as Ha. simpl EncodeToString.
    pose proof (sextets3 (code a) 0 0 Ha ltac:(lia) ltac:(lia)) as (H1 & H2 & _ & _ & E1 & _).
    change (0 / 16)%N with 0%N in *. rewrite N.add_0_r in *.
    unfold DecodeString. rewrite !drop_newlines_cons, !drop_newlines_pad by (by apply b64_char_plain).
    simpl. rewrite !b64_val_char by done. by rewrite (emit1_eq _ _ a) by done.
  - pose proof (code_lt a) as Ha. pose proof (code_lt b) as Hb. simpl EncodeToString.
    pose proof (sextets3 (code a) (code b) 0 Ha Hb ltac:(lia)) as (H1 & H2 & H3 & _ & E1 & E2 & _).
    change (0 / 64)%N with 0%N in *. rewrite N.add_0_r in *.
    unfold DecodeString. rewrite !drop_newlines_cons, !drop_newlines_pad by (by apply b64_char_plain).
    simpl. rewrite !b64_val_char by done. by rewrite (emit2_eq _ _ _ a b) by done.
  - pose proof (code_lt a) as Ha. pose proof (code_lt b) as Hb. pose proof (code_lt c) as Hc.
    simpl EncodeToString.
    pose proof (sextets3 (code a) (code b) (code c) Ha Hb Hc) as (H1 & H2 & H3 & H4 & E1 & E2 & E3).
    erewrite decode_quantum3 by (done || apply IH; simpl; lia).
    by rewrite (emit3_eq _ _ _ _ a b c) by done.
Qed.
