(* ===== verification/KubeTypes.v ===== *)
(** * The Kubernetes objects the operator reads and writes

    Plain data: of each API type, the fields the operator reads or sets.  A
    nil map and an empty map are the same [gmap]; a pointer is an [option]. *)

From stdpp Require Import base gmap strings list.
From Stdlib Require Import ZArith.
From S2P Require Import Prelude GoJson.

(** [types.NamespacedName] *)
Record NamespacedName := NN { nn_Namespace : string; nn_Name : string }.

#[export] Instance nn_eq_dec : EqDecision NamespacedName.
Proof. solve_decision. Defined.
#[export] Instance nn_countable : Countable NamespacedName.
Proof.
  refine (inj_countable' (fun n => (nn_Namespace n, nn_Name n)) (fun p => NN p.1 p.2) _).
  by intros [].
Defined.

(** [metav1.Condition]; times are in nanoseconds *)
Record Condition := MkCondition {
  c_Type : string;
  c_Status : string;
  c_ObservedGeneration : Z;
  c_LastTransitionTime : Z;
  c_Reason : string;
  c_Message : string
}.
#[export] Instance settable_Condition : Settable Condition := fun r =>
  MkCondition (c_Type r) (c_Status r) (c_ObservedGeneration r) (c_LastTransitionTime r)
    (c_Reason r) (c_Message r).
#[export] Instance condition_eq_dec : EqDecision Condition.
Proof. solve_decision. Defined.

(** [metav1.Condition{}] *)
Definition zero_Condition : Condition := MkCondition "" "" 0 0 "" "".

Definition ConditionTrue : string := "True".
Definition ConditionFalse : string := "False".
Definition ConditionUnknown : string := "Unknown".

(** [appsv1.Deployment] *)
Record DeploymentCondition := {
  dc_Type : string; dc_Status : string; dc_Reason : string; dc_Message : string }.
Record Deployment := {
  dep_APIVersion : string;
  dep_Kind : string;
  dep_Name : string;
  dep_Namespace : string;
  dep_UID : string;
  dep_Replicas : option Z;                          (* Spec.Replicas *)
  dep_Selector : option (gmap string string);        (* Spec.Selector.MatchLabels *)
  dep_Conditions : list DeploymentCondition          (* Status.Conditions *)
}.
Definition DeploymentAvailable : string := "Available".
Definition DeploymentProgressing : string := "Progressing".
Definition DeploymentReplicaFailure : string := "ReplicaFailure".

(** [corev1.Pod] *)
Record ContainerStateWaiting := { csw_Reason : string; csw_Message : string }.
Record Pod := {
  pod_Name : string;
  pod_Namespace : string;
  pod_Labels : gmap string string;
  pod_Phase : string;
  pod_ContainerStatuses : list (option ContainerStateWaiting)   (* State.Waiting of each *)
}.
Definition PodFailed : string := "Failed".

(** [corev1.Service] *)
Record Service := {
  svc_Name : string;
  svc_Namespace : string;
  svc_Labels : gmap string string;
  svc_Ports : list Z
}.

(** [routev1.Route] *)
Record Route := { route_Host : string; route_TLS : bool  (* Spec.TLS != nil *) }.
Definition zero_Route : Route := {| route_Host := ""; route_TLS := false |}.

(** [metav1.OwnerReference] *)
Record OwnerReference := {
  or_APIVersion : string; or_Kind : string; or_Name : string; or_UID : string;
  or_Controller : option bool; or_BlockOwnerDeletion : option bool }.

(** [corev1.ConfigMap] *)
Record ConfigMap := MkConfigMap {
  cm_Name : string;
  cm_Namespace : string;
  cm_Annotations : gmap string string;
  cm_ManagedFields : list string;
  cm_OwnerReferences : list OwnerReference;
  cm_Data : gmap string string;
  cm_BinaryData : gmap string string
}.
#[export] Instance settable_ConfigMap : Settable ConfigMap := fun r =>
  MkConfigMap (cm_Name r) (cm_Namespace r) (cm_Annotations r) (cm_ManagedFields r)
    (cm_OwnerReferences r) (cm_Data r) (cm_BinaryData r).
Definition zero_ConfigMap : ConfigMap := MkConfigMap "" "" ∅ [] [] ∅ ∅.

(** [corev1.Secret] *)
Record Secret := MkSecret {
  sec_Name : string;
  sec_Namespace : string;
  sec_Annotations : gmap string string;
  sec_ManagedFields : list string;
  sec_Data : gmap string string;
  sec_StringData : gmap string string
}.
#[export] Instance settable_Secret : Settable Secret := fun r =>
  MkSecret (sec_Name r) (sec_Namespace r) (sec_Annotations r) (sec_ManagedFields r)
    (sec_Data r) (sec_StringData r).

(** [mlflowv1.MLflow]: [Status.Address], and its [URL] *)
Record MLflow := { mlf_Address : option string }.

(** A lookup in a Go map: the zero value when the key is absent. *)
Definition map_get (m : gmap string string) (k : string) : string := default ""%string (m !! k).

(** What [manifestival] asks of an owner. *)
Record Owner := {
  own_APIVersion : string; own_Kind : string; own_Name : string; own_Namespace : string;
  own_UID : string }.
