(* ===== verification/ApiTypes.v ===== *)
(** * The DSPA custom resource (api/v1/dspipeline_types.go)

    One [Record] per struct.  A pointer is an [option]; a struct embedded
    through a pointer is an optional field under the embedded type's name.
    Deep copies are the identity on these values.  A [resource.Quantity] is
    kept in its serialized form; the operations on quantities are parameters
    of the model.  A duration is in nanoseconds. *)

From stdpp Require Import base gmap strings list.
From Stdlib Require Import ZArith.
From S2P Require Import Prelude GoJson KubeTypes.

Record Quantity := MkQuantity { q_text : string }.

Definition ManagedPipelineState := string.

(** The values of [integrationMode] the operator distinguishes. *)
Definition IntegrationMode := string.
Definition AutoDetect : IntegrationMode := "AUTODETECT".
Definition Disabled : IntegrationMode := "DISABLED".

Record Resources := MkResources {
  res_CPU : Quantity;
  res_Memory : Quantity
}.
#[export] Instance settable_Resources : Settable Resources := fun r =>
  MkResources (res_CPU r) (res_Memory r).

Record ResourceRequirements := MkResourceRequirements {
  rr_Limits : option Resources;
  rr_Requests : option Resources
}.
#[export] Instance settable_ResourceRequirements : Settable ResourceRequirements := fun r =>
  MkResourceRequirements (rr_Limits r) (rr_Requests r).

Record CABundle := MkCABundle {
  cab_ConfigMapName : string;
  cab_ConfigMapKey : string
}.
#[export] Instance settable_CABundle : Settable CABundle := fun r =>
  MkCABundle (cab_ConfigMapName r) (cab_ConfigMapKey r).

Record ScriptConfigMap := MkScriptConfigMap {
  scm_Name : string;
  scm_Key : string
}.
#[export] Instance settable_ScriptConfigMap : Settable ScriptConfigMap := fun r =>
  MkScriptConfigMap (scm_Name r) (scm_Key r).

Record ManagedPipelineOptions := MkManagedPipelineOptions {
  mpo_State : ManagedPipelineState
}.
#[export] Instance settable_ManagedPipelineOptions : Settable ManagedPipelineOptions := fun r =>
  MkManagedPipelineOptions (mpo_State r).

Record ManagedPipeline := MkManagedPipeline {
  mp_Name : string
}.
#[export] Instance settable_ManagedPipeline : Settable ManagedPipeline := fun r =>
  MkManagedPipeline (mp_Name r).

Record ManagedPipelinesSpec := MkManagedPipelinesSpec {
  mps_Image : string;
  mps_Pipelines : list ManagedPipeline;
  mps_Resources : option ResourceRequirements;
  mps_VolumeSizeLimit : string
}.
#[export] Instance settable_ManagedPipelinesSpec : Settable ManagedPipelinesSpec := fun r =>
  MkManagedPipelinesSpec (mps_Image r) (mps_Pipelines r) (mps_Resources r)
    (mps_VolumeSizeLimit r).

Record APIServerWorkspace := MkAPIServerWorkspace {
  ws_VolumeClaimTemplateSpec : json
}.
#[export] Instance settable_APIServerWorkspace : Settable APIServerWorkspace := fun r =>
  MkAPIServerWorkspace (ws_VolumeClaimTemplateSpec r).

Record APIServer := MkAPIServer {
  api_Deploy : bool;
  api_Image : string;
  api_EnableRoute : bool;
  api_EnableSamplePipeline : bool;
  api_ArgoLauncherImage : string;
  api_ArgoDriverImage : string;
  api_ManagedPipelines : option ManagedPipelinesSpec;
  api_Resources : option ResourceRequirements;
  api_CABundle : option CABundle;
  api_CustomServerConfig : option ScriptConfigMap;
  api_CustomKfpLauncherConfigMap : string;
  api_CABundleFileMountPath : string;
  api_CABundleFileName : string;
  api_ArtifactSignedURLExpirySeconds : option Z;
  api_PipelineStore : string;
  api_CacheEnabled : option bool;
  api_Workspace : option APIServerWorkspace;
  api_ResourceTTL : option Z
}.
#[export] Instance settable_APIServer : Settable APIServer := fun r =>
  MkAPIServer (api_Deploy r) (api_Image r) (api_EnableRoute r) (api_EnableSamplePipeline r)
    (api_ArgoLauncherImage r) (api_ArgoDriverImage r) (api_ManagedPipelines r)
    (api_Resources r) (api_CABundle r) (api_CustomServerConfig r)
    (api_CustomKfpLauncherConfigMap r) (api_CABundleFileMountPath r) (api_CABundleFileName
    r) (api_ArtifactSignedURLExpirySeconds r) (api_PipelineStore r) (api_CacheEnabled r)
    (api_Workspace r) (api_ResourceTTL r).

Record PersistenceAgent := MkPersistenceAgent {
  pa_Deploy : bool;
  pa_Image : string;
  pa_NumWorkers : Z;
  pa_Resources : option ResourceRequirements
}.
#[export] Instance settable_PersistenceAgent : Settable PersistenceAgent := fun r =>
  MkPersistenceAgent (pa_Deploy r) (pa_Image r) (pa_NumWorkers r) (pa_Resources r).

Record ScheduledWorkflow := MkScheduledWorkflow {
  sw_Deploy : bool;
  sw_Image : string;
  sw_CronScheduleTimezone : string;
  sw_Resources : option ResourceRequirements
}.
#[export] Instance settable_ScheduledWorkflow : Settable ScheduledWorkflow := fun r =>
  MkScheduledWorkflow (sw_Deploy r) (sw_Image r) (sw_CronScheduleTimezone r) (sw_Resources
    r).

Record SecretKeyValue := MkSecretKeyValue {
  skv_Name : string;
  skv_Key : string
}.
#[export] Instance settable_SecretKeyValue : Settable SecretKeyValue := fun r =>
  MkSecretKeyValue (skv_Name r) (skv_Key r).

Record MariaDB := MkMariaDB {
  maria_Deploy : bool;
  maria_Image : string;
  maria_Username : string;
  maria_PasswordSecret : option SecretKeyValue;
  maria_DBName : string;
  maria_PVCSize : Quantity;
  maria_StorageClassName : string;
  maria_Resources : option ResourceRequirements
}.
#[export] Instance settable_MariaDB : Settable MariaDB := fun r =>
  MkMariaDB (maria_Deploy r) (maria_Image r) (maria_Username r) (maria_PasswordSecret r)
    (maria_DBName r) (maria_PVCSize r) (maria_StorageClassName r) (maria_Resources r).

Record ExternalDB := MkExternalDB {
  edb_Host : string;
  edb_Port : string;
  edb_Username : string;
  edb_DBName : string;
  edb_PasswordSecret : option SecretKeyValue
}.
#[export] Instance settable_ExternalDB : Settable ExternalDB := fun r =>
  MkExternalDB (edb_Host r) (edb_Port r) (edb_Username r) (edb_DBName r) (edb_PasswordSecret
    r).

Record Database := MkDatabase {
  db_MariaDB : option MariaDB;
  db_ExternalDB : option ExternalDB;
  db_CustomExtraParams : option string;
  db_DisableHealthCheck : bool
}.
#[export] Instance settable_Database : Settable Database := fun r =>
  MkDatabase (db_MariaDB r) (db_ExternalDB r) (db_CustomExtraParams r)
    (db_DisableHealthCheck r).

Record S3CredentialSecret := MkS3CredentialSecret {
  s3_SecretName : string;
  s3_AccessKey : string;
  s3_SecretKey : string
}.
#[export] Instance settable_S3CredentialSecret : Settable S3CredentialSecret := fun r =>
  MkS3CredentialSecret (s3_SecretName r) (s3_AccessKey r) (s3_SecretKey r).

Record Minio := MkMinio {
  minio_Deploy : bool;
  minio_Bucket : string;
  minio_S3CredentialSecret : option S3CredentialSecret;
  minio_PVCSize : Quantity;
  minio_StorageClassName : string;
  minio_Resources : option ResourceRequirements;
  minio_Image : string
}.
#[export] Instance settable_Minio : Settable Minio := fun r =>
  MkMinio (minio_Deploy r) (minio_Bucket r) (minio_S3CredentialSecret r) (minio_PVCSize r)
    (minio_StorageClassName r) (minio_Resources r) (minio_Image r).

Record ExternalStorage := MkExternalStorage {
  es_Host : string;
  es_Bucket : string;
  es_Scheme : string;
  es_Region : string;
  es_BasePath : string;
  es_S3CredentialSecret : option S3CredentialSecret;
  es_Secure : option bool;
  es_Port : string
}.
#[export] Instance settable_ExternalStorage : Settable ExternalStorage := fun r =>
  MkExternalStorage (es_Host r) (es_Bucket r) (es_Scheme r) (es_Region r) (es_BasePath r)
    (es_S3CredentialSecret r) (es_Secure r) (es_Port r).

Record ObjectStorage := MkObjectStorage {
  os_Minio : option Minio;
  os_ExternalStorage : option ExternalStorage;
  os_DisableHealthCheck : bool;
  os_EnableExternalRoute : bool
}.
#[export] Instance settable_ObjectStorage : Settable ObjectStorage := fun r =>
  MkObjectStorage (os_Minio r) (os_ExternalStorage r) (os_DisableHealthCheck r)
    (os_EnableExternalRoute r).

Record Envoy := MkEnvoy {
  envoy_Resources : option ResourceRequirements;
  envoy_Image : string;
  envoy_DeployRoute : bool
}.
#[export] Instance settable_Envoy : Settable Envoy := fun r =>
  MkEnvoy (envoy_Resources r) (envoy_Image r) (envoy_DeployRoute r).

Record GRPC := MkGRPC {
  grpc_Resources : option ResourceRequirements;
  grpc_Image : string;
  grpc_Port : string
}.
#[export] Instance settable_GRPC : Settable GRPC := fun r =>
  MkGRPC (grpc_Resources r) (grpc_Image r) (grpc_Port r).

Record Writer := MkWriter {
  writer_Resources : option ResourceRequirements;
  writer_Image : string
}.
#[export] Instance settable_Writer : Settable Writer := fun r =>
  MkWriter (writer_Resources r) (writer_Image r).

Record MLMD := MkMLMD {
  mlmd_Deploy : bool;
  mlmd_Envoy : option Envoy;
  mlmd_GRPC : option GRPC
}.
#[export] Instance settable_MLMD : Settable MLMD := fun r =>
  MkMLMD (mlmd_Deploy r) (mlmd_Envoy r) (mlmd_GRPC r).

Record WorkflowController := MkWorkflowController {
  wc_Deploy : bool;
  wc_Image : string;
  wc_ArgoExecImage : string;
  wc_CustomConfig : string;
  wc_Resources : option ResourceRequirements
}.
#[export] Instance settable_WorkflowController : Settable WorkflowController := fun r =>
  MkWorkflowController (wc_Deploy r) (wc_Image r) (wc_ArgoExecImage r) (wc_CustomConfig r)
    (wc_Resources r).

Record ProxyConfig := MkProxyConfig {
  proxy_HTTPProxy : string;
  proxy_HTTPSProxy : string;
  proxy_NoProxy : string
}.
#[export] Instance settable_ProxyConfig : Settable ProxyConfig := fun r =>
  MkProxyConfig (proxy_HTTPProxy r) (proxy_HTTPSProxy r) (proxy_NoProxy r).

Record MLflowConfig := MkMLflowConfig {
  mlflow_IntegrationMode : option IntegrationMode;
  mlflow_InjectUserEnvVars : option bool
}.
#[export] Instance settable_MLflowConfig : Settable MLflowConfig := fun r =>
  MkMLflowConfig (mlflow_IntegrationMode r) (mlflow_InjectUserEnvVars r).

Record DSPASpec := MkDSPASpec {
  spec_APIServer : option APIServer;
  spec_PersistenceAgent : option PersistenceAgent;
  spec_ScheduledWorkflow : option ScheduledWorkflow;
  spec_Database : option Database;
  spec_ObjectStorage : option ObjectStorage;
  spec_MLMD : option MLMD;
  spec_DSPVersion : string;
  spec_PodToPodTLS : option bool;
  spec_WorkflowController : option WorkflowController;
  spec_Proxy : option ProxyConfig;
  spec_MLflow : option MLflowConfig
}.
#[export] Instance settable_DSPASpec : Settable DSPASpec := fun r =>
  MkDSPASpec (spec_APIServer r) (spec_PersistenceAgent r) (spec_ScheduledWorkflow r)
    (spec_Database r) (spec_ObjectStorage r) (spec_MLMD r) (spec_DSPVersion r)
    (spec_PodToPodTLS r) (spec_WorkflowController r) (spec_Proxy r) (spec_MLflow r).

Record ComponentDetailStatus := MkComponentDetailStatus {
  cds_Url : string;
  cds_ExternalUrl : string
}.
#[export] Instance settable_ComponentDetailStatus : Settable ComponentDetailStatus := fun r =>
  MkComponentDetailStatus (cds_Url r) (cds_ExternalUrl r).

Record ComponentStatus := MkComponentStatus {
  cs_MLMDProxy : ComponentDetailStatus;
  cs_APIServer : ComponentDetailStatus
}.
#[export] Instance settable_ComponentStatus : Settable ComponentStatus := fun r =>
  MkComponentStatus (cs_MLMDProxy r) (cs_APIServer r).

Record DSPAStatus := MkDSPAStatus {
  ds_Components : ComponentStatus;
  ds_Conditions : list Condition
}.
#[export] Instance settable_DSPAStatus : Settable DSPAStatus := fun r =>
  MkDSPAStatus (ds_Components r) (ds_Conditions r).

Record DataSciencePipelinesApplication := MkDataSciencePipelinesApplication {
  dspa_APIVersion : string;
  dspa_Kind : string;
  dspa_Name : string;
  dspa_Namespace : string;
  dspa_UID : string;
  dspa_Generation : Z;
  dspa_DeletionTimestamp : option Z;
  dspa_Finalizers : list string;
  dspa_Spec : DSPASpec;
  dspa_Status : DSPAStatus
}.
#[export] Instance settable_DataSciencePipelinesApplication : Settable DataSciencePipelinesApplication := fun r =>
  MkDataSciencePipelinesApplication (dspa_APIVersion r) (dspa_Kind r) (dspa_Name r)
    (dspa_Namespace r) (dspa_UID r) (dspa_Generation r) (dspa_DeletionTimestamp r)
    (dspa_Finalizers r) (dspa_Spec r) (dspa_Status r).

(** [types.NamespacedName] of an application *)
Definition nn_of (d : DataSciencePipelinesApplication) : NamespacedName :=
  NN (dspa_Namespace d) (dspa_Name d).
