(* ===== verification/Data.v ===== *)
(** * The operator's own data

    The structs of package controllers and of dspastatus: the parameters of a
    reconcile, the status collector, and the entries of the two caches. *)

From stdpp Require Import base gmap strings list.
From Stdlib Require Import ZArith.
From S2P Require Import Prelude GoJson KubeTypes ApiTypes.

Record DBConnection := MkDBConnection {
  dbc_Host : string;
  dbc_Port : string;
  dbc_Username : string;
  dbc_DBName : string;
  dbc_CredentialsSecret : option SecretKeyValue;
  dbc_Password : string;
  dbc_DecodedPassword : string;
  dbc_ExtraParams : string
}.
#[export] Instance settable_DBConnection : Settable DBConnection := fun r =>
  MkDBConnection (dbc_Host r) (dbc_Port r) (dbc_Username r) (dbc_DBName r)
    (dbc_CredentialsSecret r) (dbc_Password r) (dbc_DecodedPassword r) (dbc_ExtraParams r).

Record ObjectStorageConnection := MkObjectStorageConnection {
  osc_Bucket : string;
  osc_CredentialsSecret : option S3CredentialSecret;
  osc_Host : string;
  osc_Port : string;
  osc_Scheme : string;
  osc_Region : string;
  osc_BasePath : string;
  osc_Secure : option bool;
  osc_Endpoint : string;
  osc_AccessKeyID : string;
  osc_SecretAccessKey : string;
  osc_ExternalRouteURL : string
}.
#[export] Instance settable_ObjectStorageConnection : Settable ObjectStorageConnection := fun r =>
  MkObjectStorageConnection (osc_Bucket r) (osc_CredentialsSecret r) (osc_Host r) (osc_Port
    r) (osc_Scheme r) (osc_Region r) (osc_BasePath r) (osc_Secure r) (osc_Endpoint r)
    (osc_AccessKeyID r) (osc_SecretAccessKey r) (osc_ExternalRouteURL r).

Record TLSConfig := MkTLSConfig {
  tls_InsecureSkipVerify : bool;
  tls_CABundlePath : string
}.
#[export] Instance settable_TLSConfig : Settable TLSConfig := fun r =>
  MkTLSConfig (tls_InsecureSkipVerify r) (tls_CABundlePath r).

Record MLflowPluginSettings := MkMLflowPluginSettings {
  mset_WorkspacesEnabled : bool;
  mset_ExperimentDescription : string;
  mset_DefaultExperimentName : string;
  mset_KFPBaseURL : string;
  mset_KFPRunURLPathTemplate : string;
  mset_MLflowBaseURL : string;
  mset_MLflowUIPathPrefix : string;
  mset_InjectUserEnvVars : bool
}.
#[export] Instance settable_MLflowPluginSettings : Settable MLflowPluginSettings := fun r =>
  MkMLflowPluginSettings (mset_WorkspacesEnabled r) (mset_ExperimentDescription r)
    (mset_DefaultExperimentName r) (mset_KFPBaseURL r) (mset_KFPRunURLPathTemplate r)
    (mset_MLflowBaseURL r) (mset_MLflowUIPathPrefix r) (mset_InjectUserEnvVars r).

Record PluginConfig := MkPluginConfig {
  plug_Endpoint : string;
  plug_Timeout : string;
  plug_TLS : TLSConfig;
  plug_Settings : MLflowPluginSettings
}.
#[export] Instance settable_PluginConfig : Settable PluginConfig := fun r =>
  MkPluginConfig (plug_Endpoint r) (plug_Timeout r) (plug_TLS r) (plug_Settings r).

Record ManagedPipelineImageEnvVar := MkManagedPipelineImageEnvVar {
  env_Name : string;
  env_Value : string
}.
#[export] Instance settable_ManagedPipelineImageEnvVar : Settable ManagedPipelineImageEnvVar := fun r =>
  MkManagedPipelineImageEnvVar (env_Name r) (env_Value r).

(** The function value stored in [ResolveMLflowEndpoint]: the reconciler only
    ever stores its own cached resolver. *)
Inductive MLflowResolver := RetrieveMLflowEndpointCached.

Record DSPAParams := MkDSPAParams {
  p_IncludeOwnerReference : bool;
  p_UID : string;
  p_Name : string;
  p_APIVersion : string;
  p_Kind : string;
  p_Namespace : string;
  p_Owner : option Owner;
  p_DSPVersion : string;
  p_APIServer : option APIServer;
  p_APIServerDefaultResourceName : string;
  p_APIServerServiceName : string;
  p_APIServerConfigHash : string;
  p_KubeRBACProxy : string;
  p_SampleConfigJSON : string;
  p_ScheduledWorkflow : option ScheduledWorkflow;
  p_ScheduledWorkflowDefaultResourceName : string;
  p_PersistenceAgent : option PersistenceAgent;
  p_PersistentAgentDefaultResourceName : string;
  p_WorkflowControllerDefaultResourceName : string;
  p_MariaDB : option MariaDB;
  p_Minio : option Minio;
  p_MLMD : option MLMD;
  p_MlmdProxyDefaultResourceName : string;
  p_MlmdGrpcCertificateContents : string;
  p_MlmdGrpcPrivateKeyContents : string;
  p_WebhookName : string;
  p_WorkflowController : option WorkflowController;
  p_CustomKfpLauncherConfigMapData : string;
  p_APIServerWorkspaceJSON : string;
  p_WebhookAnnotations : gmap string string;
  p_DBConnection : DBConnection;
  p_ObjectStorageConnection : ObjectStorageConnection;
  p_CustomCABundleRootMountPath : string;
  p_CustomSSLCertDir : option string;
  p_PiplinesCABundleMountPath : string;
  p_APICustomPemCerts : list string;
  p_CustomCABundle : option CABundle;
  p_DSPONamespace : string;
  p_PodToPodTLS : bool;
  p_APIServerServiceDNSName : string;
  p_MLflow : option MLflowConfig;
  p_APIServerPluginsJson : string;
  p_GrantMlflowWorkloadRBAC : bool;
  p_ProxyConfig : option ProxyConfig;
  p_CompiledPipelineSpecPatch : string;
  p_PlatformVersion : string;
  p_ManagedPipelinesUploadTags : string;
  p_ManagedPipelineImageEnvVars : list ManagedPipelineImageEnvVar;
  p_ResolveMLflowEndpoint : option MLflowResolver
}.
#[export] Instance settable_DSPAParams : Settable DSPAParams := fun r =>
  MkDSPAParams (p_IncludeOwnerReference r) (p_UID r) (p_Name r) (p_APIVersion r) (p_Kind r)
    (p_Namespace r) (p_Owner r) (p_DSPVersion r) (p_APIServer r)
    (p_APIServerDefaultResourceName r) (p_APIServerServiceName r) (p_APIServerConfigHash r)
    (p_KubeRBACProxy r) (p_SampleConfigJSON r) (p_ScheduledWorkflow r)
    (p_ScheduledWorkflowDefaultResourceName r) (p_PersistenceAgent r)
    (p_PersistentAgentDefaultResourceName r) (p_WorkflowControllerDefaultResourceName r)
    (p_MariaDB r) (p_Minio r) (p_MLMD r) (p_MlmdProxyDefaultResourceName r)
    (p_MlmdGrpcCertificateContents r) (p_MlmdGrpcPrivateKeyContents r) (p_WebhookName r)
    (p_WorkflowController r) (p_CustomKfpLauncherConfigMapData r) (p_APIServerWorkspaceJSON
    r) (p_WebhookAnnotations r) (p_DBConnection r) (p_ObjectStorageConnection r)
    (p_CustomCABundleRootMountPath r) (p_CustomSSLCertDir r) (p_PiplinesCABundleMountPath r)
    (p_APICustomPemCerts r) (p_CustomCABundle r) (p_DSPONamespace r) (p_PodToPodTLS r)
    (p_APIServerServiceDNSName r) (p_MLflow r) (p_APIServerPluginsJson r)
    (p_GrantMlflowWorkloadRBAC r) (p_ProxyConfig r) (p_CompiledPipelineSpecPatch r)
    (p_PlatformVersion r) (p_ManagedPipelinesUploadTags r) (p_ManagedPipelineImageEnvVars r)
    (p_ResolveMLflowEndpoint r).

(** The collector of conditions.  The fields hold freshly allocated
    conditions that are never shared, so they are values; only [dspaReady] is
    tested for nil.  The pointer to the application is an argument of the
    operations that read it. *)
Record dspaStatus := MkdspaStatus {
  s_databaseAvailable : Condition;
  s_objStoreAvailable : Condition;
  s_apiServerReady : Condition;
  s_persistenceAgentReady : Condition;
  s_scheduledWorkflowReady : Condition;
  s_workflowControllerReady : Condition;
  s_mlmdProxyReady : Condition;
  s_dspaReady : option Condition;
  s_webhookReady : Condition;
  s_managedPipelineValid : Condition
}.
#[export] Instance settable_dspaStatus : Settable dspaStatus := fun r =>
  MkdspaStatus (s_databaseAvailable r) (s_objStoreAvailable r) (s_apiServerReady r)
    (s_persistenceAgentReady r) (s_scheduledWorkflowReady r) (s_workflowControllerReady r)
    (s_mlmdProxyReady r) (s_dspaReady r) (s_webhookReady r) (s_managedPipelineValid r).

Record mlflowEndpointCacheEntry := MkmlflowEndpointCacheEntry {
  mce_endpoint : string;
  mce_expires : Z
}.
#[export] Instance settable_mlflowEndpointCacheEntry : Settable mlflowEndpointCacheEntry := fun r =>
  MkmlflowEndpointCacheEntry (mce_endpoint r) (mce_expires r).

(** The names of a cached manifest are a Go map, which is a reference: the
    cache holds the location of the map, so that what a caller does to the map
    it was given can be told apart from what the cache holds. *)
Definition loc := N.

Record cacheEntry := MkcacheEntry {
  ce_names : loc;
  ce_fetchedAt : Z
}.
#[export] Instance settable_cacheEntry : Settable cacheEntry := fun r =>
  MkcacheEntry (ce_names r) (ce_fetchedAt r).

(** The fetcher together with the maps that are reachable from it or were
    handed out; [oci_next] is the next free location. *)
Record OCIManifestFetcher := MkOCIManifestFetcher {
  oci_cache : gmap string cacheEntry;
  oci_heap : gmap loc (gmap string bool);
  oci_next : loc;
  oci_AllowedRegistries : list string
}.
#[export] Instance settable_OCIManifestFetcher : Settable OCIManifestFetcher := fun r =>
  MkOCIManifestFetcher (oci_cache r) (oci_heap r) (oci_next r) (oci_AllowedRegistries r).

(** The zero values [&DSPAParams{}] starts from. *)
Definition zero_DBConnection : DBConnection := MkDBConnection "" "" "" "" None "" "" "".
Definition zero_ObjectStorageConnection : ObjectStorageConnection :=
  MkObjectStorageConnection "" None "" "" "" "" "" None "" "" "" "".
Definition zero_DSPAParams : DSPAParams :=
  MkDSPAParams false "" "" "" "" "" None "" None "" "" "" "" "" None "" None "" "" None None None
    "" "" "" "" None "" "" ∅ zero_DBConnection zero_ObjectStorageConnection "" None "" [] None ""
    false "" None "" false None "" "" "" [] None.
