(* ===== verification/Platform.v ===== *)
(** * What the operator relies on and does not contain

    Code outside the repository is a parameter of the model: one class per
    service, over a type [W] of states of everything outside the operator
    (cluster, registries, database, clock, environment).  Each class lists
    operations only; what a theorem needs to know of them is a named
    hypothesis of that theorem.

    [Platform] gathers the services; [St] is the state a reconcile runs on;
    [event] is a call to the outside with whether it succeeded. *)

From stdpp Require Import base gmap strings list.
From Stdlib Require Import ZArith.
From S2P Require Import Prelude GoStd GoJson KubeTypes ApiTypes Data.

(** A call that may fail and may change the outside. *)
Definition IO (W A : Type) : Type := W -> (A + error) * W.

(** ** The services *)

(** the controller-runtime client *)
Class Kube (W : Type) := {
  get_dspa : NamespacedName -> IO W DataSciencePipelinesApplication;
  get_deployment : NamespacedName -> IO W Deployment;
  get_secret : NamespacedName -> IO W Secret;
  get_configmap : NamespacedName -> IO W ConfigMap;
  get_service : NamespacedName -> IO W Service;
  get_route : NamespacedName -> IO W Route;
  (** with the uncached reader or with the client *)
  get_mlflow : bool -> NamespacedName -> IO W MLflow;
  (** objects the operator only tests for existence before deleting them *)
  get_object : string -> NamespacedName -> IO W unit;
  delete_object : string -> NamespacedName -> IO W unit;
  list_dspas : option string -> IO W (list DataSciencePipelinesApplication);
  list_pods : gmap string string -> IO W (list Pod);
  create_configmap : ConfigMap -> IO W unit;
  update_configmap : ConfigMap -> IO W unit;
  (** updates return the object as the server stored it *)
  update_dspa : DataSciencePipelinesApplication -> IO W DataSciencePipelinesApplication;
  update_dspa_status : DataSciencePipelinesApplication -> IO W DataSciencePipelinesApplication
}.

(** manifestival, unstructured objects and the template engine *)
Class Manifestival (W : Type) := {
  Unstructured : Type;
  Template : Type;
  template_parse : string -> Template + error;
  template_execute : Template -> DSPAParams -> string + error;
  manifest_from : string -> list Unstructured + error;
  mf_transform : list (Unstructured -> Unstructured + error) -> list Unstructured ->
                 list Unstructured + error;
  mf_inject_owner : Owner -> Unstructured -> Unstructured + error;
  mf_apply : list Unstructured -> IO W unit;
  mf_delete : list Unstructured -> IO W unit;
  u_kind : Unstructured -> string;
  u_labels : Unstructured -> gmap string string;
  u_set_labels : gmap string string -> Unstructured -> Unstructured;
  (** [NestedStringMap]: the map if found *)
  u_nested : list string -> Unstructured -> option (gmap string string) + error;
  u_set_nested : gmap string string -> list string -> Unstructured -> Unstructured + error
}.

(** the process: environment, files, clock, random numbers, and the parts of
    the Go run time that depend on its version or on the machine *)
Class Process (W : Type) := {
  getenv : string -> W -> string;
  environ : W -> list string;
  read_file : string -> IO W string;
  (** the entries of a directory, in order, with whether each is a directory *)
  read_dir : string -> IO W (list (string * bool));
  time_now : W -> Z * W;
  rand_intn : Z -> W -> Z * W;
  (** the order in which a [range] visits the entries of a map *)
  map_order : gmap string string -> W -> list (string * string) * W;
  (** [url.Parse]: scheme and host *)
  url_parse : string -> (string * string) + error;
  (** the conversion of a number that does not fit to [int32] *)
  int32_wrap : Z -> Z
}.

(** viper: the operator's configuration *)
Class Viper (W : Type) := {
  viper_is_set : string -> W -> bool;
  viper_string : string -> W -> string;
  viper_bool : string -> W -> bool;
  viper_duration : string -> W -> Z
}.

(** resource.Quantity *)
Class Quantities := {
  parse_quantity : string -> Quantity + error;
  must_parse : string -> Quantity;
  q_is_zero : Quantity -> bool;
  q_sign : Quantity -> Z
}.

(** A MySQL driver configuration, as far as the operator fills it. *)
Record MySQLConfig := MkMySQLConfig {
  my_User : string; my_Passwd : string; my_Net : string; my_Addr : string;
  my_Params : gmap string string; my_DBName : string; my_AllowNativePasswords : bool;
  my_TLSConfig : string }.
#[export] Instance settable_MySQLConfig : Settable MySQLConfig := fun r =>
  MkMySQLConfig (my_User r) (my_Passwd r) (my_Net r) (my_Addr r) (my_Params r) (my_DBName r)
    (my_AllowNativePasswords r) (my_TLSConfig r).

(** The TLS configurations the operator registers: verify against these PEM
    bundles, or do not verify. *)
Inductive ClientTLS := RootCAs (pems : list string) | InsecureSkipVerify.

(** the SQL driver and certificate parsing *)
Class Sql (W : Type) := {
  register_tls : string -> ClientTLS -> IO W unit;
  sql_open : MySQLConfig -> IO W unit;
  (** a query with a timeout *)
  sql_query : MySQLConfig -> string -> Z -> IO W unit;
  (** [AppendCertsFromPEM] *)
  pem_ok : string -> bool;
  (** [json.Unmarshal] of k8s.io/apimachinery into a [map[string]string] *)
  k8s_unmarshal_string_map : string -> gmap string string + error
}.

(** The credentials a MinIO client is given: static keys, or the chain of the
    MinIO and AWS environment and IAM. *)
Inductive Credentials := StaticV4 (access secret : string) | ChainedProviders.

Record MinioOptions := MkMinioOptions {
  mo_Creds : Credentials;
  mo_Secure : bool;
  (** extra root certificates and proxy of a custom transport *)
  mo_Transport : option (list string * option ProxyConfig) }.
#[export] Instance settable_MinioOptions : Settable MinioOptions := fun r =>
  MkMinioOptions (mo_Creds r) (mo_Secure r) (mo_Transport r).

(** the MinIO client *)
Class ObjStore (W : Type) := {
  minio_default_transport : bool -> unit + error;
  minio_new : string -> MinioOptions -> unit + error;
  (** endpoint, options, bucket, object, timeout *)
  minio_stat : string -> MinioOptions -> string -> string -> Z -> IO W unit
}.

(** What reading a layer yields, item by item: an entry with its name, its
    declared size and what reading its first bytes gives, or a failure of the
    tar reader.  A stream without failure ends with EOF.  The errors are those
    of the reader and of the registry client, never the fetcher's own. *)
Inductive TarItem :=
  | TarEntry (name : string) (size : Z) (content : string + string)
  | TarFailure (why : string).

(** the OCI registry client *)
Class Registry (W : Type) := {
  Image : Type;
  (** the registry of a parsed reference *)
  parse_reference : string -> string + error;
  remote_image : string -> IO W Image;
  image_digest : Image -> string + error;
  (** the layers, oldest first; opening a layer may fail *)
  image_layers : Image -> IO W (list (list TarItem + error))
}.

(** a registry of gauges: metric name, label values, value *)
Class Gauges (G : Type) := {
  gauge_set : string -> list string -> Z -> G -> G;
  gauge_delete : string -> list string -> G -> G;
  gauge_get : string -> list string -> G -> option Z
}.

Class Platform := {
  World : Type;
  GaugeVecs : Type;
  platform_kube :: Kube World;
  platform_manifestival :: Manifestival World;
  platform_process :: Process World;
  platform_viper :: Viper World;
  platform_quantities :: Quantities;
  platform_sql :: Sql World;
  platform_objstore :: ObjStore World;
  platform_registry :: Registry World;
  platform_gauges :: Gauges GaugeVecs
}.

(** ** Calls *)

Inductive call :=
  | CGet (kind : string) (nn : NamespacedName)
  | CList (kind : string)
  | CCreate (kind : string) (nn : NamespacedName)
  | CUpdate (kind : string) (nn : NamespacedName)
  | CUpdateStatus (nn : NamespacedName)
  | CDelete (kind : string) (nn : NamespacedName)
  | CReadFile (path : string)
  | CReadDir (path : string)
  | CApply (template : string)
  | CDeleteManifest (template : string)
  (** a TLS configuration under a name, and whether it verifies the server *)
  | CRegisterTLS (name : string) (verify : bool)
  (** with the address and the name of the TLS configuration in effect *)
  | CSqlOpen (addr tls : string)
  | CSqlQuery (addr tls : string)
  (** endpoint, whether over TLS *)
  | CStat (endpoint : string) (secure : bool)
  | CRegistry (image : string)
  | CLayers (image : string).

#[export] Instance call_eq_dec : EqDecision call.
Proof. solve_decision. Defined.

Record event := Ev { ev_call : call; ev_ok : bool }.

(** Calls that only read. *)
Definition reads (e : event) : Prop :=
  match ev_call e with
  | CGet _ _ | CList _ | CReadFile _ | CReadDir _ => True
  | _ => False
  end.

(** ** The state of a reconcile *)

Section State.
  Context {P : Platform}.

Record St := MkSt {
  st_world : World;
  (** the application that was fetched, and the copy the reconcile works
      on once it made one *)
  st_dspa : DataSciencePipelinesApplication;
  st_copy : option DataSciencePipelinesApplication;
  st_params : DSPAParams;
  st_status : dspaStatus;
  (** shared by all reconciles *)
  st_oci : OCIManifestFetcher;
  st_mlflow : gmap string mlflowEndpointCacheEntry;
  st_gauges : GaugeVecs
}.
#[export] Instance settable_St : Settable St := fun r =>
  MkSt (st_world r) (st_dspa r) (st_copy r) (st_params r) (st_status r) (st_oci r)
    (st_mlflow r) (st_gauges r).
End State.

Notation M := (prog event St).

Section Calls.
  Context {P : Platform}.

(** a call to the outside, recorded *)
Definition io {A} (c : call) (f : IO World A) : M A := fun s =>
  let '(r, w) := f (st_world s) in
  Run (match r with inl a => Ret a | inr e => Fail e end)
    (s <| st_world := w |>)
    [Ev c (match r with inl _ => true | inr _ => false end)].

(** reads of the environment and of the configuration *)
Definition ask {A} (f : World -> A) : M A := gets (fun s => f (st_world s)).

(** clock and random numbers: not recorded *)
Definition draw {A} (f : World -> A * World) : M A := fun s =>
  let '(a, w) := f (st_world s) in Run (Ret a) (s <| st_world := w |>) [].

Definition now : M Z := draw time_now.

Definition upd_params (f : DSPAParams -> DSPAParams) : M unit :=
  modify (fun s => s <| st_params ::= f |>).
Definition upd_status (f : dspaStatus -> dspaStatus) : M unit :=
  modify (fun s => s <| st_status ::= f |>).

(** the object the local variable [dspa] of a reconcile points to *)
Definition cur (s : St) : DataSciencePipelinesApplication := default (st_dspa s) (st_copy s).
Definition set_cur (d : DataSciencePipelinesApplication) (s : St) : St :=
  match st_copy s with
  | Some _ => s <| st_copy := Some d |>
  | None => s <| st_dspa := d |>
  end.
Definition put_cur (d : DataSciencePipelinesApplication) : M unit := modify (set_cur d).

(** [r.Update(ctx, dsp)] overwrites the object with the server's answer *)
Definition Update_dspa : M unit :=
  d ← gets cur;
  d' ← io (CUpdate "DSPA" (nn_of d)) (update_dspa d);
  put_cur d'.
End Calls.

(** A [range] visits each entry of a map once. *)
Definition map_order_ok {P : Platform} : Prop :=
  forall m w, (map_order m w).1 ≡ₚ map_to_list m.

Section CallRules.
  Context {P : Platform}.

(** a part of the state that calls to the outside do not change *)
Definition inner {X} (f : St -> X) : Prop := forall s w, f (s <| st_world := w |>) = f s.

Lemma inner_params : inner st_params. Proof. done. Qed.
Lemma inner_status : inner st_status. Proof. done. Qed.
Lemma inner_dspa : inner st_dspa. Proof. done. Qed.
Lemma inner_cur : inner cur. Proof. done. Qed.

Lemma emits_io {A} (Q : event -> Prop) c (f : IO World A) :
  (forall b, Q (Ev c b)) -> emits Q (io c f).
Proof.
  intros HQ s. unfold io. destruct (f (st_world s)) as [[a|e] w]; simpl; auto.
Qed.
Lemma emits_ask {A} (Q : event -> Prop) (f : World -> A) : emits Q (ask f).
Proof. apply emits_gets. Qed.
Lemma emits_draw {A} (Q : event -> Prop) (f : World -> A * World) : emits Q (draw f).
Proof. intros s. unfold draw. destruct (f (st_world s)). constructor. Qed.
Lemma emits_now (Q : event -> Prop) : emits Q now.
Proof. apply emits_draw. Qed.

(** a call whose error is tested *)
Lemma bind_try_io {A B} c (f : IO World A) (k : A + error -> M B) s :
  (try (io c f) ≫= k) s =
  let '(r, w) := f (st_world s) in
  let r' := k r (s <| st_world := w |>) in
  Run (out r') (fin r') (Ev c (match r with inl _ => true | inr _ => false end) :: evs r').
Proof. rewrite bind_try. unfold io. by destruct (f (st_world s)) as [[a|e] w]. Qed.

(** a reading of the clock *)
Lemma now_run (s : St) : exists t w, now s = Run (Ret t) (s <| st_world := w |>) [].
Proof. unfold now, draw. destruct (time_now (st_world s)) as [t w]. by exists t, w. Qed.

Lemma now_run_at (s : St) t w :
  time_now (st_world s) = (t, w) -> now s = Run (Ret t) (s <| st_world := w |>) [].
Proof. intros H. unfold now, draw. by rewrite H. Qed.

(** a call whose error is returned *)
Lemma bind_io {A B} c (f : IO World A) (k : A -> M B) s :
  (io c f ≫= k) s =
  let '(r, w) := f (st_world s) in
  match r with
  | inl a => let r' := k a (s <| st_world := w |>) in Run (out r') (fin r') (Ev c true :: evs r')
  | inr e => Run (Fail e) (s <| st_world := w |>) [Ev c false]
  end.
Proof. unfold mbind, prog_bind, io. by destruct (f (st_world s)) as [[a|e] w]. Qed.

(** a call, then the rest *)
Lemma wp_io {A B} c (f : IO World A) (k : A -> M B) Q s :
  (forall a w, f (st_world s) = (inl a, w) ->
     wp (k a) (fun o s' t => Q o s' (Ev c true :: t)) (s <| st_world := w |>)) ->
  (forall e w, f (st_world s) = (inr e, w) -> Q (Fail e) (s <| st_world := w |>) [Ev c false]) ->
  wp (io c f ≫= k) Q s.
Proof.
  intros H1 H2. unfold wp. rewrite bind_io. destruct (f (st_world s)) as [[a|e] w]; [by apply H1|by apply H2].
Qed.

(** a call whose error is tested, then the rest *)
Lemma wp_try_io {A B} c (f : IO World A) (k : A + error -> M B) Q s :
  (forall a w, f (st_world s) = (inl a, w) ->
     wp (k (inl a)) (fun o s' t => Q o s' (Ev c true :: t)) (s <| st_world := w |>)) ->
  (forall e w, f (st_world s) = (inr e, w) ->
     wp (k (inr e)) (fun o s' t => Q o s' (Ev c false :: t)) (s <| st_world := w |>)) ->
  wp (try (io c f) ≫= k) Q s.
Proof.
  intros H1 H2. unfold wp. rewrite bind_try_io. destruct (f (st_world s)) as [[a|e] w]; [by apply H1|by apply H2].
Qed.

(** What does not depend on the world is kept by every call. *)
Lemma keeps_io {A X} (g : St -> X) c (f : IO World A) :
  (forall s w, g (s <| st_world := w |>) = g s) -> keeps g (io c f).
Proof. intros Hg s. unfold io. destruct (f (st_world s)) as [r w]. apply Hg. Qed.
Lemma keeps_ask {A X} (g : St -> X) (f : World -> A) : keeps g (ask f).
Proof. done. Qed.
Lemma keeps_draw {A X} (g : St -> X) (f : World -> A * World) :
  (forall s w, g (s <| st_world := w |>) = g s) -> keeps g (draw f).
Proof. intros Hg s. unfold draw. destruct (f (st_world s)). apply Hg. Qed.
Lemma keeps_now {X} (g : St -> X) :
  (forall s w, g (s <| st_world := w |>) = g s) -> keeps g now.
Proof. apply keeps_draw. Qed.

Lemma cur_set_cur d (s : St) : cur (set_cur d s) = d.
Proof. unfold cur, set_cur. destruct (st_copy s) eqn:Hc; simpl; by rewrite ?Hc. Qed.
Lemma set_cur_params d (s : St) : st_params (set_cur d s) = st_params s.
Proof. unfold set_cur. by destruct (st_copy s). Qed.
Lemma set_cur_status d (s : St) : st_status (set_cur d s) = st_status s.
Proof. unfold set_cur. by destruct (st_copy s). Qed.

Lemma no_panic_io {A} c (f : IO World A) : no_panic (io c f).
Proof. intros s p. unfold io. by destruct (f (st_world s)) as [[a|e] w]. Qed.
Lemma no_panic_ask {A} (f : World -> A) : no_panic (ask f).
Proof. done. Qed.
Lemma no_panic_draw {A} (f : World -> A * World) : no_panic (draw f).
Proof. intros s p. unfold draw. by destruct (f (st_world s)). Qed.
Lemma no_panic_now : no_panic now.
Proof. apply no_panic_draw. Qed.
Lemma no_panic_upd_params f : no_panic (upd_params f).
Proof. done. Qed.
Lemma no_panic_upd_status f : no_panic (upd_status f).
Proof. done. Qed.
End CallRules.

#[export] Hint Resolve emits_ask emits_draw emits_now keeps_ask no_panic_io no_panic_ask
  no_panic_draw no_panic_now no_panic_upd_params no_panic_upd_status : go.
#[export] Hint Extern 1 (emits _ (io _ _)) => apply emits_io; intros []; try done : go.
#[export] Hint Extern 1 (keeps _ (io _ _)) => apply keeps_io; intros; reflexivity : go.
#[export] Hint Extern 1 (keeps _ (draw _)) => apply keeps_draw; intros; reflexivity : go.
#[export] Hint Extern 1 (keeps _ now) => apply keeps_now; intros; reflexivity : go.
#[export] Hint Extern 1 (keeps _ (upd_params _)) => apply keeps_modify; intros; reflexivity : go.
#[export] Hint Extern 1 (keeps _ (upd_status _)) => apply keeps_modify; intros; reflexivity : go.
#[export] Hint Extern 1 (emits _ (upd_params _)) => apply emits_modify : go.
#[export] Hint Extern 1 (emits _ (upd_status _)) => apply emits_modify : go.
