(* ===== verification/Config.v ===== *)
(** * The operator's configuration and defaults (controllers/config/defaults.go)

    The constants, the default resource requirements, and the typed reads of
    the configuration with their defaults.  Durations are in nanoseconds. *)

From stdpp Require Import base gmap strings list.
From Stdlib Require Import ZArith.
From S2P Require Import Prelude GoStd GoJson KubeTypes ApiTypes Data Platform.

(** DSP versions and labels *)
Definition DSPV2VersionString : string := "v2".
Definition DSPVersionk8sLabel : string := "dsp-version".
Definition DSPComponentk8sLabel : string := "component".
Definition DSPComponentk8sLabelValue : string := "data-science-pipelines".

(** Names, keys and defaults *)
Definition DefaultImageValue : string := "MustSetInConfig".
Definition CustomCABundleRootMountPath : string := "/dsp-custom-certs".
Definition GlobalODHCaBundleConfigMapName : string := "odh-trusted-ca-bundle".
Definition GlobalODHCaBundleConfigMapSystemBundleKey : string := "ca-bundle.crt".
Definition CustomDSPTrustedCAConfigMapNamePrefix : string := "dsp-trusted-ca".
Definition CustomDSPTrustedCAConfigMapKey : string := "dsp-ca.crt".
Definition OpenshiftServiceCAConfigMapName : string := "openshift-service-ca.crt".
Definition OpenshiftServiceCAConfigMapKey : string := "service-ca.crt".
Definition DefaultSystemSSLCertFile : string := "SSL_CERT_FILE".
Definition DefaultSystemSSLCertFilePath : string := "/etc/pki/tls/certs/ca-bundle.crt".
Definition CustomServerConfigMapNamePrefix : string := "ds-pipeline-server-config-".
Definition CustomServerConfigMapNameKey : string := "config.json".
Definition DSPServicePrefix : string := "ds-pipeline".
Definition DefaultDBSecretNamePrefix : string := "ds-pipeline-db-".
Definition DefaultDBSecretKey : string := "password".
Definition GeneratedDBPasswordLength : Z := 12.
Definition DefaultSignedUrlExpiryTimeSeconds : Z := 60.
Definition MariaDBName : string := "mlpipeline".
Definition MariaDBHostPrefix : string := "mariadb".
Definition MariaDBHostPort : string := "3306".
Definition MariaDBUser : string := "mlpipeline".
Definition MariaDBNamePVCSize : string := "10Gi".
Definition MinioHostPrefix : string := "minio".
Definition MinioPort : string := "9000".
Definition MinioScheme : string := "http".
Definition MinioDefaultBucket : string := "mlpipeline".
Definition MinioPVCSize : string := "10Gi".
Definition DefaultObjectStorageSecretNamePrefix : string := "ds-pipeline-s3-".
Definition DefaultObjectStorageAccessKey : string := "accesskey".
Definition DefaultObjectStorageSecretKey : string := "secretkey".
Definition GeneratedObjectStorageAccessKeyLength : Z := 16.
Definition GeneratedObjectStorageSecretKeyLength : Z := 24.
Definition MlmdGrpcPort : string := "8080".
Definition DefaultManagedPipelinesVolumeSizeLimit : string := "1024Mi".
Definition ManagedPipelinesUploadTagManaged : string := "managed=true".

(** Paths into the operator configuration *)
Definition APIServerImagePath : string := "Images.ApiServer".
Definition PersistenceAgentImagePath : string := "Images.PersistenceAgent".
Definition ScheduledWorkflowImagePath : string := "Images.ScheduledWorkflow".
Definition MlmdEnvoyImagePath : string := "Images.MlmdEnvoy".
Definition MlmdGRPCImagePath : string := "Images.MlmdGRPC".
Definition LauncherImagePath : string := "Images.LauncherImage".
Definition DriverImagePath : string := "Images.DriverImage".
Definition ArgoExecImagePath : string := "Images.ArgoExecImage".
Definition ArgoWorkflowControllerImagePath : string := "Images.ArgoWorkflowController".
Definition MariaDBImagePath : string := "Images.MariaDB".
Definition KubeRBACProxyImagePath : string := "Images.KubeRBACProxy".
Definition PipelinesComponentsImagePath : string := "Images.PipelinesComponents".
Definition ObjStoreConnectionTimeoutConfigName : string := "DSPO.HealthCheck.ObjectStore.ConnectionTimeout".
Definition DBConnectionTimeoutConfigName : string := "DSPO.HealthCheck.Database.ConnectionTimeout".
Definition RequeueTimeConfigName : string := "DSPO.RequeueTime".
Definition ApiServerIncludeOwnerReferenceConfigName : string := "DSPO.ApiServer.IncludeOwnerReference".

(** Condition types *)
Definition DatabaseAvailable : string := "DatabaseAvailable".
Definition ObjectStoreAvailable : string := "ObjectStoreAvailable".
Definition APIServerReady : string := "APIServerReady".
Definition PersistenceAgentReady : string := "PersistenceAgentReady".
Definition ScheduledWorkflowReady : string := "ScheduledWorkflowReady".
Definition WorkflowControllerReady : string := "WorkflowControllerReady".
Definition MLMDProxyReady : string := "MLMDProxyReady".
Definition WebhookReady : string := "WebhookReady".
Definition ManagedPipelineValid : string := "ManagedPipelineValid".
Definition CrReady : string := "Ready".

(** Condition reasons *)
Definition MinimumReplicasAvailable : string := "MinimumReplicasAvailable".
Definition FailingToDeploy : string := "FailingToDeploy".
Definition Deploying : string := "Deploying".
Definition ComponentDeploymentNotFound : string := "ComponentDeploymentNotFound".
Definition UnsupportedVersion : string := "UnsupportedVersion".
Definition ManagedPipelineInvalid : string := "ManagedPipelineInvalid".
Definition ManagedPipelinesFetchError : string := "ManagedPipelinesFetchError".

Definition SupportedDSPVersions : list string := [DSPV2VersionString].

(** Fields the configuration must set *)
Definition requiredFields : list string :=
  [APIServerImagePath; PersistenceAgentImagePath; ScheduledWorkflowImagePath;
   MariaDBImagePath; KubeRBACProxyImagePath].

Definition Second : Z := 1000000000.
Definition DefaultDBConnectionTimeout : Z := Second * 15.
Definition DefaultObjStoreConnectionTimeout : Z := Second * 15.
Definition DefaultMaxConcurrentReconciles : Z := 10.
Definition DefaultRequeueTime : Z := Second * 20.
Definition DefaultApiServerIncludeOwnerReferenceConfigName : bool := true.
Definition DefaultPlatformVersion : string := "v0.0.0".
Definition DefaultArgoWorkflowsControllersManagementState : string := "Managed".
Definition DefaultArgoWorkflowsControllers : string :=
  js "{'managementState':'" +:+ DefaultArgoWorkflowsControllersManagementState +:+ js "'}".

Definition GetConfigRequiredFields : list string := requiredFields.

Definition GetCABundleFileMountPath : string :=
  CustomCABundleRootMountPath +:+ "/" +:+ CustomDSPTrustedCAConfigMapKey.

(** The marshalling of a string map never fails. *)
Definition GetDefaultDBExtraParams (params : gmap string string) : string + error :=
  inl (Marshal (json_string_map params)).

Definition GetSupportedDSPAVersions : list string := SupportedDSPVersions.

Definition BuildManagedPipelinesUploadTags (platformVersion : string) : string :=
  ManagedPipelinesUploadTagManaged +:+ ",rhoai-version=" +:+ platformVersion.

Definition createResourceRequirement (RequestsCPU RequestsMemory LimitsCPU LimitsMemory : Quantity) :
    ResourceRequirements :=
  {| rr_Limits := Some {| res_CPU := LimitsCPU; res_Memory := LimitsMemory |};
     rr_Requests := Some {| res_CPU := RequestsCPU; res_Memory := RequestsMemory |} |}.

Section Reads.
  Context {P : Platform}.

(** ** Default resource requirements *)

Definition APIServerResourceRequirements : ResourceRequirements :=
  createResourceRequirement (must_parse "250m") (must_parse "500Mi") (must_parse "500m") (must_parse "1Gi").
Definition PersistenceAgentResourceRequirements : ResourceRequirements :=
  createResourceRequirement (must_parse "120m") (must_parse "500Mi") (must_parse "250m") (must_parse "1Gi").
Definition ScheduledWorkflowResourceRequirements : ResourceRequirements :=
  createResourceRequirement (must_parse "120m") (must_parse "100Mi") (must_parse "250m") (must_parse "250Mi").
Definition WorkflowControllerResourceRequirements : ResourceRequirements :=
  createResourceRequirement (must_parse "120m") (must_parse "500Mi") (must_parse "250m") (must_parse "1Gi").
Definition MariaDBResourceRequirements : ResourceRequirements :=
  createResourceRequirement (must_parse "300m") (must_parse "800Mi") (must_parse "1") (must_parse "1Gi").
Definition MinioResourceRequirements : ResourceRequirements :=
  createResourceRequirement (must_parse "200m") (must_parse "100Mi") (must_parse "250m") (must_parse "1Gi").
Definition MlmdEnvoyResourceRequirements : ResourceRequirements :=
  createResourceRequirement (must_parse "100m") (must_parse "256Mi") (must_parse "100m") (must_parse "256Mi").
Definition MlmdGRPCResourceRequirements : ResourceRequirements :=
  createResourceRequirement (must_parse "100m") (must_parse "256Mi") (must_parse "100m") (must_parse "256Mi").
Definition ManagedPipelinesInitResourceRequirements : ResourceRequirements :=
  createResourceRequirement (must_parse "250m") (must_parse "500Mi") (must_parse "500m") (must_parse "1Gi").

(** ** Reads of the configuration *)

Definition GetStringConfig (configName : string) : M string :=
  set ← ask (viper_is_set configName);
  if negb set then fail (ErrNew ("value not set in config for configname " +:+ configName))
  else ask (viper_string configName).

Definition GetStringConfigWithDefault (configName value : string) : M string :=
  set ← ask (viper_is_set configName);
  if negb set then mret value else ask (viper_string configName).

Definition GetDurationConfigWithDefault (configName : string) (value : Z) : M Z :=
  set ← ask (viper_is_set configName);
  if negb set then mret value else ask (viper_duration configName).

Definition GetBoolConfigWithDefault (configName : string) (value : bool) : M bool :=
  set ← ask (viper_is_set configName);
  if negb set then mret value else ask (viper_bool configName).

(** The platform version, without the quotes around it *)
Definition ResolvedPlatformVersion : M string :=
  v ← GetStringConfigWithDefault "DSPO.PlatformVersion" DefaultPlatformVersion;
  mret (TrimByte dquote v).
End Reads.

(** A read with a default cannot fail, panics never, and changes nothing. *)
Lemma GetStringConfigWithDefault_run `{P : Platform} n v s :
  GetStringConfigWithDefault n v s =
  Run (Ret (if viper_is_set n (st_world s) then viper_string n (st_world s) else v)) s [].
Proof.
  unfold GetStringConfigWithDefault, ask, gets, mbind, prog_bind; simpl.
  by destruct (viper_is_set n (st_world s)).
Qed.

Lemma GetDurationConfigWithDefault_run `{P : Platform} n v s :
  GetDurationConfigWithDefault n v s =
  Run (Ret (if viper_is_set n (st_world s) then viper_duration n (st_world s) else v)) s [].
Proof.
  unfold GetDurationConfigWithDefault, ask, gets, mbind, prog_bind; simpl.
  by destruct (viper_is_set n (st_world s)).
Qed.

Lemma bind_GetDurationConfigWithDefault `{P : Platform} {B} n v (k : Z -> M B) s :
  (GetDurationConfigWithDefault n v ≫= k) s =
  k (if viper_is_set n (st_world s) then viper_duration n (st_world s) else v) s.
Proof.
  unfold mbind, prog_bind. rewrite GetDurationConfigWithDefault_run. cbn. by destruct (k _ s).
Qed.

Lemma GetBoolConfigWithDefault_run `{P : Platform} n v s :
  GetBoolConfigWithDefault n v s =
  Run (Ret (if viper_is_set n (st_world s) then viper_bool n (st_world s) else v)) s [].
Proof.
  unfold GetBoolConfigWithDefault, ask, gets, mbind, prog_bind; simpl.
  by destruct (viper_is_set n (st_world s)).
Qed.

Lemma silent_GetStringConfig `{P : Platform} n : silent (GetStringConfig n).
Proof.
  apply silent_bind; [apply silent_gets|]. intros []; [apply silent_gets|apply silent_fail].
Qed.
Lemma silent_GetStringConfigWithDefault `{P : Platform} n v : silent (GetStringConfigWithDefault n v).
Proof. intros s. rewrite GetStringConfigWithDefault_run. eauto. Qed.
Lemma silent_GetDurationConfigWithDefault `{P : Platform} n v : silent (GetDurationConfigWithDefault n v).
Proof. intros s. rewrite GetDurationConfigWithDefault_run. eauto. Qed.
Lemma silent_GetBoolConfigWithDefault `{P : Platform} n v : silent (GetBoolConfigWithDefault n v).
Proof. intros s. rewrite GetBoolConfigWithDefault_run. eauto. Qed.
Lemma silent_ResolvedPlatformVersion `{P : Platform} : silent ResolvedPlatformVersion.
Proof.
  apply silent_bind; [apply silent_GetStringConfigWithDefault|]. intros v. apply silent_ret.
Qed.

#[export] Hint Resolve silent_GetStringConfig silent_GetStringConfigWithDefault
  silent_GetDurationConfigWithDefault silent_GetBoolConfigWithDefault silent_ResolvedPlatformVersion : silent.
#[export] Hint Extern 2 (emits _ _) => apply silent_emits; solve [auto with silent nocore] : go.
#[export] Hint Extern 2 (keeps _ _) => apply silent_keeps; solve [auto with silent nocore] : go.
#[export] Hint Extern 2 (no_panic _) => apply silent_no_panic; solve [auto with silent nocore] : go.
