(* ===== verification/Sim.v ===== *)
(** * A simulated platform

    One concrete instance of [Platform]: a cluster held in finite maps, a file
    system, a clock that advances by a second at each reading, a registry, a
    database and a bucket.  [sim_fault] makes chosen calls fail.  The examples
    of the development run the operator against it; no theorem depends on it. *)

From stdpp Require Import base gmap strings list pretty.
From Stdlib Require Import ZArith Ascii.
From S2P Require Import Prelude GoStd GoJson KubeTypes ApiTypes Data Platform Config.

Record Sim := MkSim {
  sim_dspas : gmap NamespacedName DataSciencePipelinesApplication;
  sim_deployments : gmap NamespacedName Deployment;
  sim_secrets : gmap NamespacedName Secret;
  sim_configmaps : gmap NamespacedName ConfigMap;
  sim_services : gmap NamespacedName Service;
  sim_routes : gmap NamespacedName Route;
  sim_mlflows : gmap NamespacedName MLflow;
  sim_objects : gset (string * NamespacedName);
  sim_pods : list Pod;
  sim_config : gmap string string;
  sim_env : gmap string string;
  sim_files : gmap string string;
  sim_dirs : gmap string (list (string * bool));
  sim_clock : Z;
  sim_images : gmap string (string * list (list TarItem + error));
  sim_sql : MySQLConfig -> option error;
  sim_stat : MinioOptions -> option error;
  sim_applied : list string;
  sim_fault : call -> option error
}.
#[export] Instance settable_Sim : Settable Sim := fun r =>
  MkSim (sim_dspas r) (sim_deployments r) (sim_secrets r) (sim_configmaps r) (sim_services r)
    (sim_routes r) (sim_mlflows r) (sim_objects r) (sim_pods r) (sim_config r) (sim_env r)
    (sim_files r) (sim_dirs r) (sim_clock r) (sim_images r) (sim_sql r) (sim_stat r)
    (sim_applied r) (sim_fault r).

Definition sim_empty : Sim :=
  MkSim ∅ ∅ ∅ ∅ ∅ ∅ ∅ ∅ [] ∅ ∅ ∅ ∅ 0 ∅ (fun _ => None) (fun _ => None) [] (fun _ => None).

Definition sim_nf {A} : A + error := inr (ErrStatus NotFound "not found").

(** a call that may be made to fail *)
Definition sim_call {A} (c : call) (f : IO Sim A) : IO Sim A := fun w =>
  match sim_fault w c with Some e => (inr e, w) | None => f w end.

Definition sim_get {A} (kind : string) (m : Sim -> gmap NamespacedName A) (nn : NamespacedName) :
    IO Sim A :=
  sim_call (CGet kind nn) (fun w => (match m w !! nn with Some a => inl a | None => sim_nf end, w)).

Definition sim_store_cm (c : ConfigMap) (w : Sim) : Sim :=
  w <| sim_configmaps ::= <[NN (cm_Namespace c) (cm_Name c) := c]> |>.

#[local] Instance sim_kube : Kube Sim := {
  get_dspa := sim_get "DSPA" sim_dspas;
  get_deployment := sim_get "Deployment" sim_deployments;
  get_secret := sim_get "Secret" sim_secrets;
  get_configmap := sim_get "ConfigMap" sim_configmaps;
  get_service := sim_get "Service" sim_services;
  get_route := sim_get "Route" sim_routes;
  get_mlflow := fun _ => sim_get "MLflow" sim_mlflows;
  get_object := fun k nn => sim_call (CGet k nn) (fun w =>
    (if decide ((k, nn) ∈ sim_objects w) then inl tt else sim_nf, w));
  delete_object := fun k nn => sim_call (CDelete k nn) (fun w =>
    if decide ((k, nn) ∈ sim_objects w)
    then (inl tt, w <| sim_objects ::= fun o => o ∖ {[(k, nn)]} |>) else (sim_nf, w));
  list_dspas := fun ns => sim_call (CList "DSPA") (fun w =>
    (inl (List.filter (fun d => match ns with
                                | Some n => bool_decide (dspa_Namespace d = n)
                                | None => true end) (map_to_list (sim_dspas w)).*2), w));
  list_pods := fun l => sim_call (CList "Pod") (fun w =>
    (inl (List.filter (fun p => bool_decide (l ⊆ pod_Labels p)) (sim_pods w)), w));
  create_configmap := fun c => sim_call (CCreate "ConfigMap" (NN (cm_Namespace c) (cm_Name c)))
    (fun w => if decide (is_Some (sim_configmaps w !! NN (cm_Namespace c) (cm_Name c)))
              then (inr (ErrStatus AlreadyExists "exists"), w) else (inl tt, sim_store_cm c w));
  update_configmap := fun c => sim_call (CUpdate "ConfigMap" (NN (cm_Namespace c) (cm_Name c)))
    (fun w => if decide (is_Some (sim_configmaps w !! NN (cm_Namespace c) (cm_Name c)))
              then (inl tt, sim_store_cm c w) else (sim_nf, w));
  update_dspa := fun d => sim_call (CUpdate "DSPA" (nn_of d)) (fun w =>
    match sim_dspas w !! nn_of d with
    | None => (sim_nf, w)
    | Some old =>
        let d' := d <| dspa_Status := dspa_Status old |> in
        (inl d', w <| sim_dspas ::=
           if decide (dspa_Finalizers d = [] /\ is_Some (dspa_DeletionTimestamp d))
           then delete (nn_of d) else <[nn_of d := d']> |>)
    end);
  update_dspa_status := fun d => sim_call (CUpdateStatus (nn_of d)) (fun w =>
    match sim_dspas w !! nn_of d with
    | None => (sim_nf, w)
    | Some old =>
        let d' := old <| dspa_Status := dspa_Status d |> in
        (inl d', w <| sim_dspas ::= <[nn_of d := d']> |>)
    end)
}.

(** An object is its kind, its labels, its nested string maps, its text and the
    owner that controls it, if one was recorded. *)
Record SimObj := MkSimObj {
  so_kind : string; so_labels : gmap string string;
  so_nested : gmap (list string) (gmap string string); so_text : string;
  so_owner : option Owner }.

Definition sim_transform1 (fs : list (SimObj -> SimObj + error)) (u : SimObj) : SimObj + error :=
  foldl (fun acc f => match acc with inl v => f v | inr e => inr e end) (inl u) fs.

Fixpoint sim_transform (fs : list (SimObj -> SimObj + error)) (us : list SimObj) :
    list SimObj + error :=
  match us with
  | [] => inl []
  | u :: us' => match sim_transform1 fs u, sim_transform fs us' with
                | inl v, inl vs => inl (v :: vs)
                | inr e, _ | _, inr e => inr e
                end
  end.

#[local] Instance sim_manifestival : Manifestival Sim := {
  Unstructured := SimObj;
  Template := string;
  template_parse := fun s => inl s;
  template_execute := fun t p => inl (t +:+ "|" +:+ p_Name p);
  manifest_from := fun s => inl [MkSimObj "Deployment" ∅ ∅ s None];
  mf_transform := sim_transform;
  mf_inject_owner := fun o u => inl (MkSimObj (so_kind u) (so_labels u) (so_nested u)
                                       (so_text u +:+ "^" +:+ own_Name o) (Some o));
  mf_apply := fun us w => match sim_fault w (CApply (concat_str (so_text <$> us))) with
                          | Some e => (inr e, w)
                          | None => (inl tt, w <| sim_applied ::= (.++ (so_text <$> us)) |>)
                          end;
  mf_delete := fun us w => (inl tt, w <| sim_applied ::= List.filter (fun t => negb (bool_decide (t ∈ so_text <$> us))) |>);
  u_kind := so_kind;
  u_labels := so_labels;
  u_set_labels := fun l u => MkSimObj (so_kind u) l (so_nested u) (so_text u) (so_owner u);
  u_nested := fun path u => inl (so_nested u !! path);
  u_set_nested := fun m path u => inl (MkSimObj (so_kind u) (so_labels u) (<[path := m]> (so_nested u)) (so_text u) (so_owner u))
}.

(** [scheme://host/...], without further checks *)
Definition sim_url (s : string) : (string * string) + error :=
  match Cut (byte 58) s with
  | Some (scheme, rest) =>
      if HasPrefix rest "//" then inl (scheme, default "" (nth_error (Split slash rest) 2))
      else inl (scheme, "")
  | None => inl ("", "")
  end.

Definition sim_second (w : Sim) : Z * Sim :=
  (sim_clock w, w <| sim_clock ::= Z.add Second |>).

#[local] Instance sim_process : Process Sim := {
  getenv := fun k w => default "" (sim_env w !! k);
  environ := fun w => (fun '(k, v) => k +:+ "=" +:+ v) <$> map_to_list (sim_env w);
  read_file := fun p => sim_call (CReadFile p) (fun w =>
    (match sim_files w !! p with Some s => inl s | None => inr (ErrForeign ("open " +:+ p)) end, w));
  read_dir := fun p => sim_call (CReadDir p) (fun w =>
    (match sim_dirs w !! p with Some s => inl s | None => inr (ErrForeign ("open " +:+ p)) end, w));
  time_now := sim_second;
  rand_intn := fun n w => let '(t, w') := sim_second w in ((t / Second * 7 + 3) mod n, w')%Z;
  map_order := fun m w => (map_to_list m, w);
  url_parse := sim_url;
  int32_wrap := fun z => (z mod 2 ^ 31)%Z
}.

#[local] Instance sim_viper : Viper Sim := {
  viper_is_set := fun k w => bool_decide (is_Some (sim_config w !! k));
  viper_string := fun k w => default "" (sim_config w !! k);
  viper_bool := fun k w => bool_decide (sim_config w !! k = Some "true");
  viper_duration := fun k w => default Second (Z.of_nat <$> (String.length <$> sim_config w !! k))
}.

(** Decimal numbers with a suffix *)
Definition sim_number (s : string) : Z :=
  fold_left (fun acc c => let n := code c in
               if ((48 <=? n) && (n <=? 57))%N then acc * 10 + Z.of_N (n - 48) else acc)%Z
    (String.list_ascii_of_string s) 0%Z.

#[local] Instance sim_quantities : Quantities := {
  parse_quantity := fun s => match (span_digits s).1 with
                             | EmptyString => inr (ErrForeign "quantities must match the regular expression")
                             | _ => inl (MkQuantity s) end;
  must_parse := MkQuantity;
  q_is_zero := fun q => Z.eqb (sim_number (q_text q)) 0;
  q_sign := fun q => Z.sgn (sim_number (q_text q))
}.

Definition sim_answer (o : option error) : IO Sim unit := fun w =>
  (match o with Some e => inr e | None => inl tt end, w).

#[local] Instance sim_sqldriver : Sql Sim := {
  register_tls := fun _ _ => sim_answer None;
  sql_open := fun _ => sim_answer None;
  sql_query := fun c _ _ w => sim_answer (sim_sql w c) w;
  pem_ok := fun s => HasPrefix s "-----BEGIN CERTIFICATE-----";
  k8s_unmarshal_string_map := UnmarshalStringMap
}.

#[local] Instance sim_objstore : ObjStore Sim := {
  minio_default_transport := fun _ => inl tt;
  minio_new := fun _ _ => inl tt;
  minio_stat := fun _ o _ _ _ w => sim_answer (sim_stat w o) w
}.

#[local] Instance sim_registry : Registry Sim := {
  Image := (string * list (list TarItem + error))%type;
  parse_reference := fun r => match Cut slash r with
                              | Some (h, _) => inl h
                              | None => inr (ErrForeign "could not parse reference") end;
  remote_image := fun r => sim_call (CRegistry r) (fun w =>
    (match sim_images w !! r with Some i => inl i | None => inr (ErrForeign "MANIFEST_UNKNOWN") end, w));
  image_digest := fun i => inl i.1;
  image_layers := fun i w => (inl i.2, w)
}.

#[local] Instance sim_gauges : Gauges (gmap (string * list string) Z) := {
  gauge_set := fun m l v g => <[(m, l) := v]> g;
  gauge_delete := fun m l g => delete (m, l) g;
  gauge_get := fun m l g => g !! (m, l)
}.

Definition sim_platform : Platform := {|
  World := Sim;
  GaugeVecs := gmap (string * list string) Z
|}.

(** ** States to run from *)

Definition no_condition : Condition := zero_Condition.
Definition sim_status : dspaStatus :=
  MkdspaStatus zero_Condition zero_Condition zero_Condition zero_Condition zero_Condition
    zero_Condition zero_Condition None zero_Condition zero_Condition.

Definition sim_oci : OCIManifestFetcher := MkOCIManifestFetcher ∅ ∅ 1%N [].

Definition sim_spec : DSPASpec :=
  MkDSPASpec None None None None None None "" None None None None.

Definition sim_dspa : DataSciencePipelinesApplication :=
  MkDataSciencePipelinesApplication "v1" "DataSciencePipelinesApplication" "sample" "project"
    "uid-1" 3 None [] sim_spec
    (MkDSPAStatus (MkComponentStatus (MkComponentDetailStatus "" "") (MkComponentDetailStatus "" "")) []).

Definition sim_state (w : Sim) (d : DataSciencePipelinesApplication) : St (P := sim_platform) :=
  MkSt (P := sim_platform) w d None zero_DSPAParams sim_status sim_oci ∅ ∅.

(** ** A cluster with the operator's templates, and an application that leaves
    its database to the operator *)

Definition sim_template_dirs : list (string * list string) :=
  [("common/default", ["policy.yaml.tmpl"]);
   ("webhook/", ["deployment.yaml.tmpl"; "service.yaml.tmpl"]);
   ("apiserver/default", ["deployment.yaml.tmpl"; "server-config.yaml.tmpl"; "service.yaml.tmpl"]);
   ("persistence-agent", ["deployment.yaml.tmpl"]);
   ("scheduled-workflow", ["deployment.yaml.tmpl"]);
   ("workflow-controller", ["deployment.yaml.tmpl"]);
   ("ml-metadata/grpc-service", ["metadata-grpc.service.yaml.tmpl"]);
   ("ml-metadata", ["metadata-grpc.deployment.yaml.tmpl"])].

Definition sim_template_files : list string :=
  ["common/no-owner/clusterrolebinding.yaml.tmpl"; "mariadb/generated-secret/secret.yaml.tmpl";
   "mariadb/default/deployment.yaml.tmpl"; "mariadb/default/pvc.yaml.tmpl";
   "mariadb/default/service.yaml.tmpl"; "mariadb/default/mariadb-sa.yaml.tmpl";
   "mariadb/default/networkpolicy.yaml.tmpl"; "mariadb/default/tls-config.yaml.tmpl";
   "minio/generated-secret/secret.yaml.tmpl"; "minio/default/deployment.yaml.tmpl";
   "minio/default/pvc.yaml.tmpl"; "minio/default/service.yaml.tmpl";
   "minio/default/service.minioservice.yaml.tmpl"; "minio/default/minio-sa.yaml.tmpl";
   "minio/route.yaml.tmpl"; "apiserver/route/route.yaml.tmpl";
   "apiserver/sample-pipeline/sample-pipeline.yaml.tmpl";
   "apiserver/sample-pipeline/sample-config.yaml.tmpl";
   "ml-metadata/route/metadata-envoy.route.yaml.tmpl"].

Definition sim_root : string := "config/internal/".

Definition sim_files_of : gmap string string :=
  list_to_map ((fun f => (sim_root +:+ f, f)) <$>
    (sim_template_files ++
     concat ((fun d : string * list string => (fun f => path_Join d.1 f) <$> d.2) <$> sim_template_dirs))).

Definition sim_dirs_of : gmap string (list (string * bool)) :=
  list_to_map ((fun d : string * list string => (sim_root +:+ d.1, (fun f => (f, false)) <$> d.2)) <$> sim_template_dirs).

Definition sim_apiserver : APIServer :=
  MkAPIServer true "" true false "" "" None None None None "" "" "" None "" None None None.

Definition sim_minio : Minio := MkMinio true "" None (MkQuantity "10Gi") "" None "quay.io/minio".

Definition sim_full_dspa : DataSciencePipelinesApplication :=
  sim_dspa <| dspa_Spec :=
    MkDSPASpec (Some sim_apiserver) (Some (MkPersistenceAgent true "" 2 None))
      (Some (MkScheduledWorkflow true "" "" None)) (Some (MkDatabase None None None false))
      (Some (MkObjectStorage (Some sim_minio) None false false)) None "v2" (Some false) None None None |>.

Definition sim_deployment (name : string) (available : bool) : Deployment :=
  {| dep_APIVersion := "apps/v1"; dep_Kind := "Deployment"; dep_Name := name; dep_Namespace := "project";
     dep_UID := "uid-" +:+ name; dep_Replicas := Some 1%Z; dep_Selector := Some {["app" := name]};
     dep_Conditions := [{| dc_Type := "Available"; dc_Status := if available then "True" else "False";
                           dc_Reason := ""; dc_Message := "" |}] |}.

(** the application's deployments, all of them available *)
Definition sim_available : gmap NamespacedName Deployment :=
  list_to_map ((fun n => (NN "project" n, sim_deployment n true)) <$>
    ["ds-pipeline-sample"; "ds-pipeline-persistenceagent-sample"; "ds-pipeline-scheduledworkflow-sample";
     "ds-pipeline-workflow-controller-sample"]).

Definition sim_cluster : Sim :=
  sim_empty <| sim_dspas := {[ NN "project" "sample" := sim_full_dspa ]} |>
            <| sim_deployments := sim_available |>
            <| sim_files := sim_files_of |> <| sim_dirs := sim_dirs_of |>
            <| sim_env := {[ "DSPO_NAMESPACE" := "dspo" ]} |>.
