(* ===== verification/Status.v ===== *)
(** * The status collector (controllers/dspastatus/dspa_status.go)

    A reconcile collects one condition per component and derives the overall
    [Ready] condition from them.  The builders read the clock; the setters
    replace one field of the collector; [GetConditions] assembles the list
    that is published, keeping the transition time of a condition whose status
    did not change since the last publication. *)

From stdpp Require Import base gmap strings list.
From Stdlib Require Import ZArith Lia.
From S2P Require Import Prelude GoStd GoJson KubeTypes ApiTypes Data Platform Config Sim.

(** ** Builders, at a given reading of the clock *)

Definition BuildTrueCondition (t : Z) (conditionType message : string) : Condition :=
  MkCondition conditionType ConditionTrue 0 t conditionType message.

Definition BuildFalseCondition (t : Z) (conditionType reason message : string) : Condition :=
  MkCondition conditionType ConditionFalse 0 t reason message.

Definition BuildUnknownCondition (t : Z) (conditionType : string) : Condition :=
  MkCondition conditionType ConditionUnknown 0 t "Unknown" "".

(** Reasons that do not degrade the overall status *)
Definition isNonBlockingReason (reason : string) : bool :=
  bool_decide (reason = "NotApplicable") || bool_decide (reason = ManagedPipelinesFetchError).

(** [message := ""; if err != nil { message = err.Error() }] *)
Definition message_of (err : option error) : string := from_option err_msg "" err.

(** ** Assembling the conditions *)

(** the conditions of the components, in the order they are published *)
Definition component_conditions (s : dspaStatus) : list Condition :=
  [s_databaseAvailable s; s_objStoreAvailable s; s_apiServerReady s; s_persistenceAgentReady s;
   s_scheduledWorkflowReady s; s_workflowControllerReady s; s_mlmdProxyReady s; s_webhookReady s;
   s_managedPipelineValid s].

(** the test of the loop over the components *)
Definition blocks (c : Condition) : bool :=
  (bool_decide (c_Status c = ConditionFalse) || bool_decide (c_Status c = ConditionUnknown))
    && negb (isNonBlockingReason (c_Reason c)).

(** the loop: whether all are ready, and the messages of those that are not *)
Definition readiness (cs : list Condition) : bool * string :=
  fold_left (fun acc c => if blocks c then (false, acc.2 +:+ c_Message c +:+ " " +:+ bytes [10]%N) else acc)
    cs (true, "").

(** the generated overall condition *)
Definition generated_ready (t : Z) (s : dspaStatus) : Condition :=
  let '(allReady, failureMessages) := readiness (component_conditions s) in
  if allReady
  then MkCondition CrReady ConditionTrue 0 t MinimumReplicasAvailable "All components are ready."
  else MkCondition CrReady ConditionFalse 0 t MinimumReplicasAvailable failureMessages.

(** the map of the previous conditions by type: a later one overwrites *)
Definition previousConditions (prev : list Condition) : gmap string Condition :=
  fold_left (fun m c => <[c_Type c := c]> m) prev ∅.

(** the loop over the assembled conditions *)
Definition carry_over (d : DataSciencePipelinesApplication) (c : Condition) : Condition :=
  let c := c <| c_ObservedGeneration := dspa_Generation d |> in
  match previousConditions (ds_Conditions (dspa_Status d)) !! c_Type c with
  | Some prev =>
      if bool_decide (c_Status prev = c_Status c)
      then c <| c_LastTransitionTime := c_LastTransitionTime prev |> else c
  | None => c
  end.

(** [GetConditions] for an application and a clock reading, which is used only
    when the overall condition is generated *)
Definition conditions_at (d : DataSciencePipelinesApplication) (t : Z) (s : dspaStatus) : list Condition :=
  let crReady := default (generated_ready t s) (s_dspaReady s) in
  carry_over d <$> component_conditions s ++ [crReady].

(** ** The collector's operations *)

Section Operations.
  Context {P : Platform}.

Definition NewDSPAStatus : M dspaStatus :=
  t1 ← now; t2 ← now; t3 ← now; t4 ← now; t5 ← now; t6 ← now; t7 ← now; t8 ← now; t9 ← now;
  mret {| s_databaseAvailable := BuildUnknownCondition t1 DatabaseAvailable;
          s_objStoreAvailable := BuildUnknownCondition t2 ObjectStoreAvailable;
          s_apiServerReady := BuildUnknownCondition t3 APIServerReady;
          s_persistenceAgentReady := BuildUnknownCondition t4 PersistenceAgentReady;
          s_scheduledWorkflowReady := BuildUnknownCondition t5 ScheduledWorkflowReady;
          s_workflowControllerReady := BuildUnknownCondition t6 WorkflowControllerReady;
          s_mlmdProxyReady := BuildUnknownCondition t7 MLMDProxyReady;
          s_webhookReady := BuildUnknownCondition t8 WebhookReady;
          s_managedPipelineValid := BuildUnknownCondition t9 ManagedPipelineValid;
          s_dspaReady := None |}.

Definition SetDatabaseNotReady (err : option error) (reason : string) : M unit :=
  t ← now;
  upd_status (fun s => s <| s_databaseAvailable :=
    BuildFalseCondition t DatabaseAvailable reason (message_of err) |>).

Definition SetDatabaseReady : M unit :=
  t ← now;
  upd_status (fun s => s <| s_databaseAvailable :=
    BuildTrueCondition t DatabaseAvailable "Database connectivity successfully verified" |>).

Definition SetObjStoreReady : M unit :=
  t ← now;
  upd_status (fun s => s <| s_objStoreAvailable :=
    BuildTrueCondition t ObjectStoreAvailable "Object Store connectivity successfully verified" |>).

Definition SetObjStoreNotReady (err : option error) (reason : string) : M unit :=
  t ← now;
  upd_status (fun s => s <| s_objStoreAvailable :=
    BuildFalseCondition t ObjectStoreAvailable reason (message_of err) |>).

Definition SetWebhookNotReady (err : option error) (reason : string) : M unit :=
  t ← now;
  upd_status (fun s => s <| s_webhookReady :=
    BuildFalseCondition t WebhookReady reason (message_of err) |>).

Definition SetWebhookReady : M unit :=
  t ← now;
  upd_status (fun s => s <| s_webhookReady :=
    BuildTrueCondition t WebhookReady "Webhook deployment successfully verified" |>).

Definition SetWebhookNotApplicable : M unit :=
  t ← now;
  upd_status (fun s => s <| s_webhookReady :=
    BuildFalseCondition t WebhookReady "NotApplicable"
      "Webhook deployment not applicable for pipeline storage other than 'kubernetes'" |>).

Definition SetApiServerStatus (c : Condition) : M unit :=
  upd_status (fun s => s <| s_apiServerReady := c |>).
Definition SetPersistenceAgentStatus (c : Condition) : M unit :=
  upd_status (fun s => s <| s_persistenceAgentReady := c |>).
Definition SetScheduledWorkflowStatus (c : Condition) : M unit :=
  upd_status (fun s => s <| s_scheduledWorkflowReady := c |>).
Definition SetWorkflowControllerStatus (c : Condition) : M unit :=
  upd_status (fun s => s <| s_workflowControllerReady := c |>).
Definition SetMLMDProxyStatus (c : Condition) : M unit :=
  upd_status (fun s => s <| s_mlmdProxyReady := c |>).

Definition SetWorkflowControllerNotReady (err : option error) (reason : string) : M unit :=
  t ← now;
  upd_status (fun s => s <| s_workflowControllerReady :=
    BuildFalseCondition t WorkflowControllerReady reason (message_of err) |>).

Definition SetWorkflowControllerReady : M unit :=
  t ← now;
  upd_status (fun s => s <| s_workflowControllerReady :=
    BuildTrueCondition t WorkflowControllerReady
      "Argo Workflows Controller deployment successfully verified" |>).

Definition SetWorkflowControllerNotApplicable : M unit :=
  t ← now;
  upd_status (fun s => s <| s_workflowControllerReady :=
    BuildFalseCondition t WorkflowControllerReady "NotApplicable"
      "WorkflowController deployment disabled by the operator" |>).

Definition SetManagedPipelineValid : M unit :=
  t ← now;
  upd_status (fun s => s <| s_managedPipelineValid :=
    BuildTrueCondition t ManagedPipelineValid "All managed pipeline names are valid" |>).

Definition SetManagedPipelineInvalid (err : option error) (reason : string) : M unit :=
  t ← now;
  upd_status (fun s => s <| s_managedPipelineValid :=
    BuildFalseCondition t ManagedPipelineValid reason (message_of err) |>).

Definition SetManagedPipelineNotApplicable : M unit :=
  t ← now;
  upd_status (fun s => s <| s_managedPipelineValid :=
    BuildFalseCondition t ManagedPipelineValid "NotApplicable"
      "Managed pipelines not configured or no explicit pipeline list" |>).

(** the override of the overall condition *)
Definition SetDSPANotReady (err : option error) (reason : string) : M unit :=
  t ← now;
  upd_status (fun s => s <| s_dspaReady :=
    Some (BuildFalseCondition t CrReady reason (message_of err)) |>).

(** The collector was made for the application that was fetched. *)
Definition GetConditions : M (list Condition) :=
  s ← gets st_status;
  d ← gets st_dspa;
  match s_dspaReady s with
  | Some _ => mret (conditions_at d 0 s)
  | None => t ← now; mret (conditions_at d t s)
  end.
End Operations.

(** ** The interface [DSPAStatus], as data: one constructor per setter *)

Inductive SetOp :=
  | OpDatabaseReady | OpDatabaseNotReady (err : option error) (reason : string)
  | OpObjStoreReady | OpObjStoreNotReady (err : option error) (reason : string)
  | OpWebhookReady | OpWebhookNotReady (err : option error) (reason : string)
  | OpWebhookNotApplicable
  | OpApiServerStatus (c : Condition)
  | OpPersistenceAgentStatus (c : Condition)
  | OpScheduledWorkflowStatus (c : Condition)
  | OpWorkflowControllerStatus (c : Condition)
  | OpWorkflowControllerNotReady (err : option error) (reason : string)
  | OpWorkflowControllerReady
  | OpWorkflowControllerNotApplicable
  | OpMLMDProxyStatus (c : Condition)
  | OpManagedPipelineValid | OpManagedPipelineInvalid (err : option error) (reason : string)
  | OpManagedPipelineNotApplicable
  | OpDSPANotReady (err : option error) (reason : string).

Definition exec `{P : Platform} (op : SetOp) : M unit :=
  match op with
  | OpDatabaseReady => SetDatabaseReady
  | OpDatabaseNotReady e r => SetDatabaseNotReady e r
  | OpObjStoreReady => SetObjStoreReady
  | OpObjStoreNotReady e r => SetObjStoreNotReady e r
  | OpWebhookReady => SetWebhookReady
  | OpWebhookNotReady e r => SetWebhookNotReady e r
  | OpWebhookNotApplicable => SetWebhookNotApplicable
  | OpApiServerStatus c => SetApiServerStatus c
  | OpPersistenceAgentStatus c => SetPersistenceAgentStatus c
  | OpScheduledWorkflowStatus c => SetScheduledWorkflowStatus c
  | OpWorkflowControllerStatus c => SetWorkflowControllerStatus c
  | OpWorkflowControllerNotReady e r => SetWorkflowControllerNotReady e r
  | OpWorkflowControllerReady => SetWorkflowControllerReady
  | OpWorkflowControllerNotApplicable => SetWorkflowControllerNotApplicable
  | OpMLMDProxyStatus c => SetMLMDProxyStatus c
  | OpManagedPipelineValid => SetManagedPipelineValid
  | OpManagedPipelineInvalid e r => SetManagedPipelineInvalid e r
  | OpManagedPipelineNotApplicable => SetManagedPipelineNotApplicable
  | OpDSPANotReady e r => SetDSPANotReady e r
  end.

(** the condition type an operation is about *)
Definition target (op : SetOp) : string :=
  match op with
  | OpDatabaseReady | OpDatabaseNotReady _ _ => DatabaseAvailable
  | OpObjStoreReady | OpObjStoreNotReady _ _ => ObjectStoreAvailable
  | OpWebhookReady | OpWebhookNotReady _ _ | OpWebhookNotApplicable => WebhookReady
  | OpApiServerStatus _ => APIServerReady
  | OpPersistenceAgentStatus _ => PersistenceAgentReady
  | OpScheduledWorkflowStatus _ => ScheduledWorkflowReady
  | OpWorkflowControllerStatus _ | OpWorkflowControllerNotReady _ _
  | OpWorkflowControllerReady | OpWorkflowControllerNotApplicable => WorkflowControllerReady
  | OpMLMDProxyStatus _ => MLMDProxyReady
  | OpManagedPipelineValid | OpManagedPipelineInvalid _ _
  | OpManagedPipelineNotApplicable => ManagedPipelineValid
  | OpDSPANotReady _ _ => CrReady
  end.

(** The status an operation reports: ready, or not with this reason, or what
    the caller computed. *)
Definition verdict (op : SetOp) : string * option string :=
  match op with
  | OpDatabaseReady | OpObjStoreReady | OpWebhookReady | OpWorkflowControllerReady
  | OpManagedPipelineValid => (ConditionTrue, None)
  | OpDatabaseNotReady _ r | OpObjStoreNotReady _ r | OpWebhookNotReady _ r
  | OpWorkflowControllerNotReady _ r | OpManagedPipelineInvalid _ r | OpDSPANotReady _ r =>
      (ConditionFalse, Some r)
  | OpWebhookNotApplicable | OpWorkflowControllerNotApplicable | OpManagedPipelineNotApplicable =>
      (ConditionFalse, Some "NotApplicable")
  | OpApiServerStatus c | OpPersistenceAgentStatus c | OpScheduledWorkflowStatus c
  | OpWorkflowControllerStatus c | OpMLMDProxyStatus c => (c_Status c, Some (c_Reason c))
  end.

Definition proper_condition (ty : string) (c : Condition) : Prop :=
  c_Type c = ty /\ c_Status c ∈ [ConditionTrue; ConditionFalse; ConditionUnknown].

(** The type a condition is given: that of the component, unless the caller
    supplies a whole condition, which may say anything. *)
Definition stated (op : SetOp) : string :=
  match op with
  | OpApiServerStatus c | OpPersistenceAgentStatus c | OpScheduledWorkflowStatus c
  | OpWorkflowControllerStatus c | OpMLMDProxyStatus c => c_Type c
  | _ => target op
  end.

(** ** The collector's invariant

    Each field holds a condition of its own type with one of the three
    statuses. *)

Definition component_types : list string :=
  [DatabaseAvailable; ObjectStoreAvailable; APIServerReady; PersistenceAgentReady;
   ScheduledWorkflowReady; WorkflowControllerReady; MLMDProxyReady; WebhookReady;
   ManagedPipelineValid].

Definition published_types : list string := component_types ++ [CrReady].

Definition collector_ok (s : dspaStatus) : Prop :=
  Forall2 proper_condition component_types (component_conditions s) /\
  from_option (fun c => c_Type c = CrReady /\ c_Status c = ConditionFalse) True (s_dspaReady s).

(** ** Equality up to the transition time *)

Definition same_but_time (c c' : Condition) : Prop :=
  c <| c_LastTransitionTime := 0%Z |> = c' <| c_LastTransitionTime := 0%Z |>.

#[export] Instance same_but_time_equiv : Equivalence same_but_time.
Proof.
  split; red; unfold same_but_time; [done|done|].
  intros x y z H1 H2. by rewrite H1.
Qed.

(** Two collectors that differ in transition times only. *)
Definition same_collector (s s' : dspaStatus) : Prop :=
  Forall2 same_but_time (component_conditions s) (component_conditions s') /\
  option_Forall2 same_but_time (s_dspaReady s) (s_dspaReady s').

Lemma same_but_time_fields c c' : same_but_time c c' ->
  c_Type c = c_Type c' /\ c_Status c = c_Status c' /\ c_Reason c = c_Reason c' /\
  c_Message c = c_Message c' /\ c_ObservedGeneration c = c_ObservedGeneration c'.
Proof. destruct c, c'. unfold same_but_time. simpl. intros [=]; subst. done. Qed.

#[export] Instance blocks_proper : Proper (same_but_time ==> eq) blocks.
Proof.
  intros c c' (_ & Hs & Hr & _)%same_but_time_fields. unfold blocks. by rewrite Hs, Hr.
Qed.

Lemma readiness_from_proper cs cs' acc : Forall2 same_but_time cs cs' ->
  fold_left (fun acc c => if blocks c then (false, acc.2 +:+ c_Message c +:+ " " +:+ bytes [10]%N) else acc)
    cs acc =
  fold_left (fun acc c => if blocks c then (false, acc.2 +:+ c_Message c +:+ " " +:+ bytes [10]%N) else acc)
    cs' acc.
Proof.
  intros H. revert acc. induction H as [|c c' cs cs' Hc _ IH]; intros acc; [done|].
  cbn [fold_left]. rewrite (blocks_proper _ _ Hc).
  destruct (same_but_time_fields _ _ Hc) as (_ & _ & _ & -> & _). apply IH.
Qed.

#[export] Instance readiness_proper : Proper (Forall2 same_but_time ==> eq) readiness.
Proof. intros cs cs' H. by apply readiness_from_proper. Qed.

Lemma generated_ready_proper t t' s s' :
  Forall2 same_but_time (component_conditions s) (component_conditions s') ->
  same_but_time (generated_ready t s) (generated_ready t' s').
Proof.
  intros H. unfold generated_ready. rewrite (readiness_proper _ _ H).
  by destruct (readiness _) as [[] m].
Qed.

(** ** The loop over the components *)

Lemma readiness_spec cs :
  readiness cs =
    (forallb (fun c => negb (blocks c)) cs,
     concat_str ((fun c => c_Message c +:+ " " +:+ bytes [10]%N) <$> List.filter blocks cs)).
Proof.
  unfold readiness.
  enough (forall acc : bool * string, fold_left (fun acc c =>
            if blocks c then (false, acc.2 +:+ c_Message c +:+ " " +:+ bytes [10]%N) else acc) cs acc =
          (acc.1 && forallb (fun c => negb (blocks c)) cs,
           acc.2 +:+ concat_str ((fun c => c_Message c +:+ " " +:+ bytes [10]%N) <$> List.filter blocks cs)))
    as H by (rewrite H; by simpl).
  induction cs as [|c cs IH]; intros acc; cbn [fold_left forallb List.filter].
  - simpl. rewrite andb_true_r, str_app_nil_r. by destruct acc.
  - rewrite IH. destruct (blocks c); simpl.
    + by rewrite andb_false_r, !str_app_assoc.
    + done.
Qed.

(** ** The map of the previous conditions *)

Lemma previous_snoc l c :
  previousConditions (l ++ [c]) = <[c_Type c := c]> (previousConditions l).
Proof. unfold previousConditions. by rewrite fold_left_app. Qed.

Lemma previous_notin l ty : ty ∉ c_Type <$> l -> previousConditions l !! ty = None.
Proof.
  induction l as [|c l IH] using rev_ind; intros Hn; [done|].
  rewrite fmap_app in Hn. rewrite previous_snoc, lookup_insert_ne; [apply IH|]; set_solver.
Qed.

Lemma previous_nodup l c :
  NoDup (c_Type <$> l) -> c ∈ l -> previousConditions l !! c_Type c = Some c.
Proof.
  induction l as [|x l IH] using rev_ind; intros Hd Hc; [set_solver|].
  rewrite fmap_app in Hd. apply NoDup_app in Hd as (Hd & Hx & _).
  rewrite previous_snoc. apply elem_of_app in Hc as [Hc|Hc%list_elem_of_singleton].
  - rewrite lookup_insert_ne; [by apply IH|].
    intros Heq. apply (Hx (c_Type c)); [by apply list_elem_of_fmap_2|]. rewrite <- Heq. set_solver.
  - subst. by rewrite lookup_insert_eq.
Qed.

(** ** Carrying over *)

Lemma carry_over_type d c : c_Type (carry_over d c) = c_Type c.
Proof. unfold carry_over. by repeat case_match. Qed.

Lemma carry_over_status d c : c_Status (carry_over d c) = c_Status c.
Proof. unfold carry_over. by repeat case_match. Qed.

Lemma carry_over_same d c : 
  same_but_time (carry_over d c) (c <| c_ObservedGeneration := dspa_Generation d |>).
Proof. unfold carry_over. by repeat case_match. Qed.

Lemma conditions_types d t s :
  collector_ok s -> c_Type <$> conditions_at d t s = published_types.
Proof.
  intros [Hc Hr]. unfold conditions_at. rewrite <- list_fmap_compose, fmap_app.
  unfold published_types. f_equal.
  - rewrite (list_fmap_ext _ c_Type) by (intros; apply carry_over_type).
    induction Hc as [|ty c tys cs [<- _] _ IH]; [done|]. rewrite fmap_cons. by f_equal.
  - simpl. rewrite carry_over_type. f_equal. destruct (s_dspaReady s); simpl in *; [apply Hr|].
    unfold generated_ready. by destruct (readiness _) as [[] m].
Qed.

Lemma published_types_nodup : NoDup published_types.
Proof. refine (bool_decide_unpack _ _). by vm_compute. Qed.

(** ** What a sequence of setters leaves in the collector *)

(** the condition found under a type *)
Fixpoint find_slot (ty : string) (tys : list string) (cs : list Condition) : option Condition :=
  match tys, cs with
  | t :: tys', c :: cs' => if bool_decide (t = ty) then Some c else find_slot ty tys' cs'
  | _, _ => None
  end.

Definition slot (s : dspaStatus) (ty : string) : option Condition :=
  find_slot ty published_types (component_conditions s ++ option_list (s_dspaReady s)).

Definition write (op : SetOp) (c : Condition) (s : dspaStatus) : dspaStatus :=
  match op with
  | OpDatabaseReady | OpDatabaseNotReady _ _ => s <| s_databaseAvailable := c |>
  | OpObjStoreReady | OpObjStoreNotReady _ _ => s <| s_objStoreAvailable := c |>
  | OpWebhookReady | OpWebhookNotReady _ _ | OpWebhookNotApplicable => s <| s_webhookReady := c |>
  | OpApiServerStatus _ => s <| s_apiServerReady := c |>
  | OpPersistenceAgentStatus _ => s <| s_persistenceAgentReady := c |>
  | OpScheduledWorkflowStatus _ => s <| s_scheduledWorkflowReady := c |>
  | OpWorkflowControllerStatus _ | OpWorkflowControllerNotReady _ _
  | OpWorkflowControllerReady | OpWorkflowControllerNotApplicable =>
      s <| s_workflowControllerReady := c |>
  | OpMLMDProxyStatus _ => s <| s_mlmdProxyReady := c |>
  | OpManagedPipelineValid | OpManagedPipelineInvalid _ _
  | OpManagedPipelineNotApplicable => s <| s_managedPipelineValid := c |>
  | OpDSPANotReady _ _ => s <| s_dspaReady := Some c |>
  end.

(** [c] is a condition [op] may have written. *)
Definition reports (op : SetOp) (c : Condition) : Prop :=
  c_Type c = stated op /\ c_Status c = (verdict op).1 /\
  (forall r, (verdict op).2 = Some r -> c_Reason c = r).

Lemma slot_write op c s ty :
  slot (write op c s) ty = if bool_decide (target op = ty) then Some c else slot s ty.
Proof.
  unfold slot. destruct (decide (ty ∈ published_types)) as [Hty|Hty].
  - unfold published_types, component_types in Hty. simpl in Hty.
    repeat (apply elem_of_cons in Hty as [->|Hty];
      [destruct s as [? ? ? ? ? ? ? o ? ?], op, o; vm_compute; reflexivity|]).
    by apply not_elem_of_nil in Hty.
  - assert (forall tys cs, ty ∉ tys -> find_slot ty tys cs = None) as Hnone.
    { intros tys. induction tys as [|t tys IH]; intros [|x cs] Hn; try done. simpl.
      rewrite bool_decide_eq_false_2 by set_solver. apply IH. set_solver. }
    rewrite !Hnone by done. rewrite bool_decide_eq_false_2; [done|].
    intros <-. apply Hty. unfold published_types. destruct op; vm_compute; repeat constructor.
Qed.

Lemma proper_true t ty m : proper_condition ty (BuildTrueCondition t ty m).
Proof. split; [done|simpl; set_solver]. Qed.

Lemma proper_false t ty r m : proper_condition ty (BuildFalseCondition t ty r m).
Proof. split; [done|simpl; set_solver]. Qed.

Lemma proper_unknown t ty : proper_condition ty (BuildUnknownCondition t ty).
Proof. split; [done|simpl; set_solver]. Qed.
#[export] Hint Resolve proper_true proper_false proper_unknown : go.

Lemma reports_true t ty m op :
  stated op = ty -> verdict op = (ConditionTrue, None) -> reports op (BuildTrueCondition t ty m).
Proof. intros <- Hv. unfold reports. by rewrite Hv. Qed.

Lemma reports_false t ty r m op :
  stated op = ty -> verdict op = (ConditionFalse, Some r) -> reports op (BuildFalseCondition t ty r m).
Proof. intros <- Hv. unfold reports. rewrite Hv. split_and!; [done..|]. by intros r' [= <-]. Qed.

Lemma reports_given op c :
  stated op = c_Type c -> verdict op = (c_Status c, Some (c_Reason c)) -> reports op c.
Proof. intros Hc Hv. unfold reports. rewrite Hv. split_and!; [done..|]. by intros r' [= <-]. Qed.

Section History.
  Context {P : Platform}.

(** Every setter writes one condition that says what it was asked to say. *)
Lemma exec_run op (s : St) :
  exists w c, reports op c /\
    exec op s = Run (Ret tt) (s <| st_world := w |> <| st_status := write op c (st_status s) |>) [].
Proof.
  destruct op;
    lazymatch goal with
    | |- context [exec ?o] =>
        unfold exec; try (
          destruct (now_run s) as (t & w & Hn); do 2 eexists; split;
          [|unfold SetDatabaseReady, SetDatabaseNotReady, SetObjStoreReady, SetObjStoreNotReady,
              SetWebhookReady, SetWebhookNotReady, SetWebhookNotApplicable,
              SetWorkflowControllerNotReady, SetWorkflowControllerReady,
              SetWorkflowControllerNotApplicable, SetManagedPipelineValid, SetManagedPipelineInvalid,
              SetManagedPipelineNotApplicable, SetDSPANotReady, mbind, prog_bind;
            rewrite Hn; reflexivity];
          first [by apply reports_true | by apply reports_false])
    end;
    exists (st_world s), c; (split; [by apply reports_given|by destruct s]).
Qed.
End History.

(** the last operation of a sequence that is about a type *)
Definition last_op (ty : string) (ops : list SetOp) : option SetOp :=
  last (List.filter (fun op => bool_decide (target op = ty)) ops).

Lemma last_op_snoc ty ops op :
  last_op ty (ops ++ [op]) = if bool_decide (target op = ty) then Some op else last_op ty ops.
Proof.
  unfold last_op. rewrite List.filter_app. simpl. destruct (bool_decide _).
  - by rewrite last_snoc.
  - by rewrite app_nil_r.
Qed.

(** What a slot holds after [ops]. *)
Definition slot_after (ops : list SetOp) (ty : string) (o : option Condition) : Prop :=
  match last_op ty ops with
  | Some op => exists c, o = Some c /\ reports op c
  | None => if bool_decide (ty = CrReady) then o = None
            else exists c, o = Some c /\ proper_condition ty c /\ c_Status c = ConditionUnknown
                           /\ c_Reason c = "Unknown"
  end.

Lemma slot_ready s : slot s CrReady = s_dspaReady s.
Proof. destruct s as [? ? ? ? ? ? ? [] ? ?]; reflexivity. Qed.

Section Sequences.
  Context {P : Platform}.

Lemma iter_exec ops ops0 (s : St) :
  (forall ty, ty ∈ published_types -> slot_after ops0 ty (slot (st_status s) ty)) ->
  exists w st, iter exec ops s = Run (Ret tt) (s <| st_world := w |> <| st_status := st |>) [] /\
    (forall ty, ty ∈ published_types -> slot_after (ops0 ++ ops) ty (slot st ty)).
Proof.
  revert ops0 s. induction ops as [|op ops IH]; intros ops0 s H0.
  - exists (st_world s), (st_status s). rewrite app_nil_r. split; [by destruct s|done].
  - destruct (exec_run op s) as (w & c & Hc & Hrun).
    destruct (IH (ops0 ++ [op]) (s <| st_world := w |> <| st_status := write op c (st_status s) |>))
      as (w' & st & Hrun' & Hst).
    { intros ty Hty. simpl. unfold slot_after. rewrite last_op_snoc, slot_write.
      destruct (bool_decide_reflect (target op = ty)) as [<-|Hne]; [eauto|apply H0, Hty]. }
    exists w', st. rewrite <- app_assoc in Hst. split; [|done].
    cbn [iter]. unfold mbind, prog_bind. rewrite Hrun. cbn [out fin evs]. by rewrite Hrun'.
Qed.

Lemma NewDSPAStatus_run (s : St) :
  exists w st, NewDSPAStatus s = Run (Ret st) (s <| st_world := w |>) [] /\
    (forall ty, ty ∈ published_types -> slot_after [] ty (slot st ty)).
Proof.
  unfold NewDSPAStatus.
  repeat match goal with
  | |- context [(now ≫= _) ?s0] =>
      let t := fresh "t" in let w := fresh "w" in let H := fresh in
      destruct (now_run s0) as (t & w & H);
      unfold mbind at 1, prog_bind at 1; rewrite H; clear H; simpl
  end.
  do 2 eexists. split; [reflexivity|].
  intros ty Hty. unfold published_types, component_types in Hty. simpl in Hty.
  repeat (apply elem_of_cons in Hty as [->|Hty];
    [first [reflexivity | eexists; split_and!; [reflexivity|apply proper_unknown|reflexivity|reflexivity]]|]).
  by apply not_elem_of_nil in Hty.
Qed.

Lemma GetConditions_run (s : St) :
  exists t w, GetConditions s = Run (Ret (conditions_at (st_dspa s) t (st_status s)))
                                    (s <| st_world := w |>) [].
Proof.
  unfold GetConditions, mbind, prog_bind. simpl.
  destruct (s_dspaReady (st_status s)).
  - exists 0%Z, (st_world s). by destruct s.
  - destruct (now_run s) as (t & w & Hn). rewrite Hn. simpl. by exists t, w.
Qed.
End Sequences.

(** ** The published list *)

Lemma slots_of_components s :
  Forall2 (fun ty c => slot s ty = Some c) component_types (component_conditions s).
Proof. unfold component_types, component_conditions. repeat constructor. Qed.

(** the reasons that do not degrade the overall status *)
Definition passing_reasons : list string := ["NotApplicable"; "ManagedPipelinesFetchError"].

Lemma blocks_false c :
  blocks c = false <-> c_Status c ∉ [ConditionFalse; ConditionUnknown] \/ c_Reason c ∈ passing_reasons.
Proof.
  unfold blocks, isNonBlockingReason, passing_reasons. rewrite andb_false_iff, negb_false_iff, orb_false_iff, orb_true_iff,
    !bool_decide_eq_false, !bool_decide_eq_true. set_solver.
Qed.

(** an operation that does not hold the overall status back: what it reports is
    not negative, or has a reason that passes *)
Definition clears (op : SetOp) : Prop :=
  (verdict op).1 ∉ [ConditionFalse; ConditionUnknown] \/
  from_option (fun r => r ∈ passing_reasons) False (verdict op).2.

Lemma reports_blocks op c : reports op c -> blocks c = false <-> clears op.
Proof.
  intros (_ & Hs & Hr). rewrite blocks_false, Hs. unfold clears.
  destruct (verdict op) as [v [r|]] eqn:Hv; simpl in *.
  - by rewrite (Hr r).
  - assert (v = ConditionTrue) as -> by by destruct op; injection Hv.
    split; intros _; left; unfold ConditionTrue, ConditionFalse, ConditionUnknown; set_solver.
Qed.

Lemma slot_after_blocks ops ty c : ty ≠ CrReady -> slot_after ops ty (Some c) ->
  blocks c = false <-> exists op, last_op ty ops = Some op /\ clears op.
Proof.
  intros Hty. unfold slot_after. destruct (last_op ty ops) as [op|].
  - intros (c' & [= <-] & Hr). rewrite (reports_blocks _ _ Hr). naive_solver.
  - rewrite bool_decide_eq_false_2 by done. intros (c' & [= <-] & _ & Hs & Hr).
    rewrite blocks_false, Hs, Hr. split; [|naive_solver]. intros [H|H]; exfalso; revert H; unfold passing_reasons; set_solver.
Qed.

Lemma components_published ty : ty ∈ component_types -> ty ∈ published_types /\ ty ≠ CrReady.
Proof.
  intros H. split; [unfold published_types; set_solver|]. intros ->. revert H. by vm_compute; set_solver.
Qed.

(** The overall condition, generated or overridden. *)
Lemma overall_status t s : from_option (fun c => c_Status c ≠ ConditionTrue) True (s_dspaReady s) ->
  c_Status (default (generated_ready t s) (s_dspaReady s)) = ConditionTrue <->
    s_dspaReady s = None /\ forall c', c' ∈ component_conditions s -> blocks c' = false.
Proof.
  destruct (s_dspaReady s) as [o|]; simpl; [naive_solver|]. intros _.
  unfold generated_ready. rewrite readiness_spec. destruct (forallb _ _) eqn:Hf; simpl.
  - split; [|done]. intros _. split; [done|]. intros c' Hc'.
    rewrite forallb_forall in Hf. apply list_elem_of_In in Hc'. specialize (Hf _ Hc').
    by apply negb_true_iff in Hf.
  - split; [done|]. intros [_ H]. exfalso. apply not_true_iff_false in Hf. apply Hf.
    apply forallb_forall. intros c' Hc'%list_elem_of_In. by rewrite (H c').
Qed.

(** What is published for a type after some reports: what the last one about it
    said, Unknown without one; and for the overall condition, Ready exactly when
    it was not overridden and every component has a last report that clears it. *)
Definition published (ops : list SetOp) (ty : string) (c : Condition) : Prop :=
  (ty ≠ CrReady ->
     c_Type c = from_option stated ty (last_op ty ops) /\
     c_Status c = from_option (fun op => (verdict op).1) ConditionUnknown (last_op ty ops) /\
     forall r, last_op ty ops ≫= (fun op => (verdict op).2) = Some r -> c_Reason c = r) /\
  (ty = CrReady -> c_Type c = CrReady /\
     (c_Status c = ConditionTrue <->
      last_op CrReady ops = None /\
      forall ty', ty' ∈ component_types -> exists op, last_op ty' ops = Some op /\ clears op)).

Lemma last_op_target ty ops op : last_op ty ops = Some op -> target op = ty.
Proof.
  intros Ho%last_Some_elem_of. apply list_elem_of_In, List.filter_In in Ho as [_ Ho]. by apply bool_decide_eq_true in Ho.
Qed.

Lemma carry_over_reason d c : c_Reason (carry_over d c) = c_Reason c.
Proof. unfold carry_over. by repeat case_match. Qed.

Lemma component_published d ops ty c : ty ≠ CrReady -> slot_after ops ty (Some c) -> published ops ty (carry_over d c).
Proof.
  intros Hty. unfold slot_after, published. rewrite carry_over_type, carry_over_status, carry_over_reason.
  destruct (last_op ty ops) as [op|].
  - intros (? & [= <-] & Ht & Hs & Hr). by split.
  - rewrite bool_decide_eq_false_2 by done. intros (? & [= <-] & [Ht _] & Hs & _). by split.
Qed.

Lemma ready_published d t ops s :
  (forall ty, ty ∈ published_types -> slot_after ops ty (slot s ty)) ->
  published ops CrReady (carry_over d (default (generated_ready t s) (s_dspaReady s))).
Proof.
  intros Hst. split; [done|]. intros _. rewrite carry_over_type, carry_over_status.
  assert (slot_after ops CrReady (s_dspaReady s)) as Hr.
  { rewrite <- slot_ready. apply Hst. unfold published_types. set_solver. }
  assert (from_option (fun c => c_Type c = CrReady /\ c_Status c = ConditionFalse) True (s_dspaReady s)) as Hover.
  { unfold slot_after in Hr. destruct (last_op CrReady ops) as [op|] eqn:Ho; [|by rewrite Hr].
    destruct Hr as (c & -> & Ht & Hs & _). apply last_op_target in Ho. by destruct op. }
  split.
  { destruct (s_dspaReady s); [apply Hover|]. cbn. unfold generated_ready. by destruct (readiness _) as [[] ?]. }
  rewrite overall_status by (destruct (s_dspaReady s); [cbn; by destruct Hover as [_ ->]|done]).
  f_equiv.
  - unfold slot_after in Hr. destruct (last_op CrReady ops); [naive_solver|]. done.
  - pose proof (slots_of_components s) as Hsl. split.
    + intros H ty Hty. destruct (components_published ty Hty) as [Hp Hne].
      apply list_elem_of_lookup in Hty as [i Hi].
      destruct (Forall2_lookup_l _ _ _ _ _ Hsl Hi) as (c' & Hc' & Hs).
      specialize (Hst _ Hp). rewrite Hs in Hst. apply (slot_after_blocks ops ty c' Hne Hst).
      apply H. by eapply list_elem_of_lookup_2.
    + intros H c' [i Hc']%list_elem_of_lookup.
      destruct (Forall2_lookup_r _ _ _ _ _ Hsl Hc') as (ty & Hi & Hs).
      apply list_elem_of_lookup_2 in Hi. destruct (components_published ty Hi) as [Hp Hne]. specialize (Hst _ Hp).
      rewrite Hs in Hst. by apply (slot_after_blocks ops ty c' Hne Hst), H.
Qed.

(** One condition of the published list, seen from the slot it came from. *)
Lemma published_slot d t s c :
  collector_ok s -> c ∈ conditions_at d t s -> c_Type c ≠ CrReady ->
  exists c0, slot s (c_Type c) = Some c0 /\ c = carry_over d c0.
Proof.
  intros Hok Hin Hne.
  assert (forall ty c0, c0 = default (generated_ready t s) (s_dspaReady s) -> ty = c_Type c0 ->
            ty = CrReady) as Hr.
  { intros ty c0 -> ->. destruct Hok as [_ Hr]. destruct (s_dspaReady s); simpl in *; [by destruct Hr|].
    unfold generated_ready. by destruct (readiness _) as [[] ?]. }
  unfold conditions_at in Hin. apply list_elem_of_fmap in Hin as (c0 & -> & Hin).
  rewrite carry_over_type in *.
  apply elem_of_app in Hin as [Hin|Hin%list_elem_of_singleton].
  - exists c0. split; [|done]. destruct Hok as [Hc _].
    apply list_elem_of_lookup in Hin as [i Hi].
    destruct (Forall2_lookup_r _ _ _ _ _ Hc Hi) as (ty & Hty & [<- _]).
    destruct (Forall2_lookup_lr _ _ _ _ _ _ (slots_of_components s) Hty Hi). done.
  - exfalso. by apply Hne, (Hr _ c0).
Qed.

(** Carrying over from a publication what was published. *)
Lemma carry_over_again d d' t s c c' :
  collector_ok s -> d' = d <| dspa_Status ::= fun st => st <| ds_Conditions := conditions_at d t s |> |> ->
  c ∈ component_conditions s ++ [default (generated_ready t s) (s_dspaReady s)] ->
  same_but_time c c' -> carry_over d' c' = carry_over d c.
Proof.
  intros Hok -> Hin Hs. destruct (same_but_time_fields _ _ Hs) as (Hty & Hst & Hr & Hm & Hg).
  assert (previousConditions (conditions_at d t s) !! c_Type c = Some (carry_over d c)) as Hprev.
  { rewrite <- (carry_over_type d c). apply previous_nodup.
    - rewrite conditions_types by done. apply published_types_nodup.
    - by apply list_elem_of_fmap_2. }
  unfold carry_over at 1. simpl. rewrite <- Hty, Hprev, carry_over_status, Hst.
  rewrite bool_decide_eq_true_2 by done. unfold carry_over.
  destruct c, c'; simpl in *; subst. by repeat case_match.
Qed.

Section Collector.
  Context {P : Platform}.

(** a reconcile's use of the collector: make it, report, publish *)
Definition collect (ops : list SetOp) : M (list Condition) :=
  st ← NewDSPAStatus;
  upd_status (fun _ => st) ;;
  iter exec ops ;;
  GetConditions.

(** C3: Whatever setters a reconcile calls, in whatever order, however often and
    with whatever conditions, it publishes one condition per component and the
    overall one, in a fixed order.  Each component's condition says what the last
    report about the component said, its status, its reason and its type, which
    is the component's own unless the caller supplied a condition with another
    (as a reconcile does for a deployment it could not look at); without a
    report it is Unknown.  The application is Ready exactly when nothing overrode
    it and the last report about every component is not negative or has a
    reason that does not count. *)
Theorem collector_publishes (ops : list SetOp) (s : St) :
  wp (collect ops) (fun o s' t => exists cs, o = Ret cs /\ t = [] /\ Forall2 (published ops) published_types cs) s.
Proof.
  unfold collect. destruct (NewDSPAStatus_run s) as (w & st & Hn & Hst).
  eapply wp_step; [exact Hn|]. unfold upd_status. apply wp_modify.
  destruct (iter_exec ops [] (s <| st_world := w |> <| st_status := st |>))
    as (w' & st' & Hi & Hst'); [exact Hst|].
  eapply wp_step; [exact Hi|].
  destruct (GetConditions_run (s <| st_world := w |> <| st_status := st |> <| st_world := w' |>
    <| st_status := st' |>)) as (t & w'' & Hg).
  eapply wp_run; [exact Hg|]. simpl in Hst'. eexists. split_and!; [done..|].
  unfold conditions_at, published_types. apply Forall2_fmap_r, Forall2_app.
  - eapply Forall2_impl; [|]; [apply Forall2_same_length_lookup_2|].
    + done.
    + intros i ty c Hty Hc. pose proof (Forall2_lookup_lr _ _ _ _ _ _ (slots_of_components st') Hty Hc) as Hs.
      exact (conj Hs (list_elem_of_lookup_2 _ _ _ Hty)).
    + cbn beta. intros ty c [Hs Hty]. destruct (components_published ty Hty) as [Hp Hne].
      apply component_published; [done|]. rewrite <- Hs. by apply Hst'.
  - constructor; [|constructor]. by apply ready_published.
Qed.

(** C27: Publishing stamps every condition with the application's generation and
    keeps the transition time of each condition whose status is the one
    already published; any other component condition carries the time at which
    the collector was told of it.  When the application is not Ready and
    nothing overrode it, the message is the messages of the blocking
    components, in order. *)
Theorem GetConditions_times (s : St) :
  collector_ok (st_status s) ->
  wp GetConditions (fun o s' t => exists cs, o = Ret cs /\ t = [] /\ st_dspa s' = st_dspa s /\
    forall c, c ∈ cs ->
      c_ObservedGeneration c = dspa_Generation (st_dspa s) /\
      (forall prev, previousConditions (ds_Conditions (dspa_Status (st_dspa s))) !! c_Type c = Some prev ->
         c_Status prev = c_Status c -> c_LastTransitionTime c = c_LastTransitionTime prev) /\
      (forall c0, slot (st_status s) (c_Type c) = Some c0 ->
         (forall prev, previousConditions (ds_Conditions (dspa_Status (st_dspa s))) !! c_Type c = Some prev ->
            c_Status prev ≠ c_Status c) ->
         c_LastTransitionTime c = c_LastTransitionTime c0) /\
      (c_Type c = CrReady -> s_dspaReady (st_status s) = None -> c_Status c = ConditionFalse ->
         c_Message c = concat_str ((fun b => c_Message b +:+ " " +:+ bytes [10]%N) <$>
                                   List.filter blocks (component_conditions (st_status s))))) s.
Proof.
  intros Hok. destruct (GetConditions_run s) as (t & w & Hg). eapply wp_run; [exact Hg|].
  eexists. split_and!; [done..|]. intros c Hin.
  assert (exists c0, c = carry_over (st_dspa s) c0 /\
    (forall c1, slot (st_status s) (c_Type c) = Some c1 -> c1 = c0) /\
    (c_Type c = CrReady -> c0 = default (generated_ready t (st_status s)) (s_dspaReady (st_status s))))
    as (c0 & -> & Hc0 & Hr).
  { destruct (decide (c_Type c = CrReady)) as [Hty|Hty].
    - eexists. split; [eapply (nodup_key_eq c_Type (conditions_at (st_dspa s) t (st_status s)));
        [rewrite conditions_types by done; apply published_types_nodup|exact Hin| |]|].
      + unfold conditions_at. apply list_elem_of_fmap_2. apply elem_of_app. right.
        by apply list_elem_of_singleton.
      + rewrite carry_over_type, Hty. destruct Hok as [_ Hr]. 
        destruct (s_dspaReady _); simpl in *; [by destruct Hr|].
        unfold generated_ready. by destruct (readiness _) as [[] ?].
      + split; [|done]. intros c1. rewrite Hty, slot_ready. by intros ->.
    - destruct (published_slot _ _ _ _ Hok Hin Hty) as (c0 & Hs & ->). exists c0.
      split_and!; [done| |naive_solver]. rewrite carry_over_type in *. congruence. }
  rewrite carry_over_type, carry_over_status in *. unfold carry_over.
  simpl. split_and!.
  - by repeat case_match.
  - intros prev -> Hs. simpl. by rewrite bool_decide_eq_true_2.
  - intros c1 Hc1%Hc0 Hp. subst c1. destruct (previousConditions _ !! _) as [prev|] eqn:Hprev; simpl; [|done].
    rewrite bool_decide_eq_false_2; [done|]. by apply Hp.
  - intros Hty Hn Hs. rewrite Hr in Hs |- * by done. rewrite Hn in *. simpl in *.
    unfold generated_ready in *. rewrite readiness_spec in *.
    destruct (forallb _ _); [discriminate Hs|]. simpl. by repeat case_match.
Qed.

(** C26: Publishing again after a reconcile that found the same things, only
    later, publishes the same list: a stable application's status does not
    churn. *)
Theorem GetConditions_stable (s1 s2 : St) :
  collector_ok (st_status s1) -> same_collector (st_status s1) (st_status s2) ->
  wp GetConditions (fun o _ _ => exists cs, o = Ret cs /\
    (st_dspa s2 = (st_dspa s1) <| dspa_Status ::= fun st => st <| ds_Conditions := cs |> |> ->
     wp GetConditions (fun o' _ _ => o' = Ret cs) s2)) s1.
Proof.
  intros Hok [Hc Hr]. destruct (GetConditions_run s1) as (t & w & Hg). eapply wp_run; [exact Hg|].
  eexists. split; [done|]. intros Hd.
  destruct (GetConditions_run s2) as (t' & w' & Hg'). eapply wp_run; [exact Hg'|]. f_equal.
  set (s := st_status s1) in *. set (s' := st_status s2) in *. set (d := st_dspa s1) in *.
  assert (Forall2 same_but_time (component_conditions s ++ [default (generated_ready t s) (s_dspaReady s)])
    (component_conditions s' ++ [default (generated_ready t' s') (s_dspaReady s')])) as Hsame.
  { apply Forall2_app; [done|]. constructor; [|done].
    inversion Hr as [c c' Hcc Hc1 Hc2|Hc1 Hc2]; simpl; [done|]. by apply generated_ready_proper. }
  rewrite Hd. clear Hd Hg Hg' Hr Hc.
  set (d' := d <| dspa_Status ::= _ |>).
  apply list_eq. intros i. unfold conditions_at. rewrite !list_lookup_fmap.
  destruct (proj1 (Forall2_same_length_lookup _ _ _) Hsame) as [Hlen Hlk].
  destruct ((component_conditions s' ++ _) !! i) as [c'|] eqn:Hc'.
  - destruct (lookup_lt_is_Some_2 (component_conditions s ++ 
      [default (generated_ready t s) (s_dspaReady s)]) i) as [c Hc].
    { rewrite Hlen. by eapply lookup_lt_Some. }
    rewrite Hc. simpl. f_equal. apply (carry_over_again d d' t s c c'); [done|done|..].
    + by eapply list_elem_of_lookup_2.
    + by eapply Hlk.
  - apply lookup_ge_None in Hc'. rewrite <- Hlen in Hc'. by rewrite (lookup_ge_None_2 _ _ Hc').
Qed.
End Collector.

(** ** Examples *)

#[local] Existing Instance sim_platform.

Definition sample_ops : list SetOp :=
  [OpDatabaseReady; OpObjStoreReady; OpWebhookNotApplicable;
   OpApiServerStatus (BuildFalseCondition 7 APIServerReady Deploying "starting");
   OpPersistenceAgentStatus (BuildTrueCondition 8 PersistenceAgentReady "ok");
   OpScheduledWorkflowStatus (BuildTrueCondition 8 ScheduledWorkflowReady "ok");
   OpWorkflowControllerNotApplicable; OpMLMDProxyStatus (BuildTrueCondition 8 MLMDProxyReady "ok");
   OpManagedPipelineInvalid (Some (ErrNew "registry down")) ManagedPipelinesFetchError;
   OpApiServerStatus (BuildTrueCondition 9 APIServerReady "up")].

Definition sample_st : St := sim_state sim_empty sim_dspa.

Lemma collector_publishes_witness :
  exists cs, out (collect sample_ops sample_st) = Ret cs /\
    exists c, cs !! 9 = Some c /\ c_Type c = CrReady /\ c_Status c = ConditionTrue.
Proof.
  destruct (collector_publishes sample_ops sample_st) as (cs & Ho & _ & H).
  exists cs. split; [exact Ho|].
  destruct (Forall2_lookup_l _ _ _ 9 CrReady H eq_refl) as (c & Hc & _ & Hr). exists c. split; [exact Hc|].
  destruct (Hr eq_refl) as [Ht Hs]. split; [exact Ht|]. apply Hs. split; [reflexivity|]. intros ty Hin. unfold component_types in Hin.
  repeat (apply elem_of_cons in Hin as [->|Hin];
    [eexists; split; [reflexivity|first [left; refine (bool_decide_unpack _ _); vm_compute; exact I
                                        |right; cbn; refine (bool_decide_unpack _ _); vm_compute; exact I]]|]).
  destruct (not_elem_of_nil _ Hin).
Defined.

(** A report with the empty condition, made for a deployment that could not be
    looked at, is published without a type, and does not hold Ready back. *)
Example empty_report_published :
  match out (collect (sample_ops ++ [OpApiServerStatus zero_Condition]) sample_st) with
  | Ret cs => (c_Type <$> cs !! 2, c_Status <$> cs !! 9)
  | _ => (None, None)
  end = (Some "", Some ConditionTrue).
Proof. vm_compute. reflexivity. Qed.

Definition sample_collector : dspaStatus :=
  MkdspaStatus (BuildTrueCondition 1 DatabaseAvailable "ok") (BuildTrueCondition 2 ObjectStoreAvailable "ok")
    (BuildFalseCondition 3 APIServerReady Deploying "starting")
    (BuildTrueCondition 4 PersistenceAgentReady "ok") (BuildTrueCondition 5 ScheduledWorkflowReady "ok")
    (BuildTrueCondition 6 WorkflowControllerReady "ok") (BuildTrueCondition 7 MLMDProxyReady "ok")
    None (BuildUnknownCondition 8 WebhookReady) (BuildTrueCondition 9 ManagedPipelineValid "ok").

Definition sample_published : St := sample_st <| st_status := sample_collector |>.

Lemma sample_collector_ok : collector_ok sample_collector.
Proof.
  split; [|exact I]. unfold component_types, component_conditions, sample_collector. simpl.
  repeat (apply Forall2_cons_2; [auto with go|]). constructor.
Qed.

Lemma GetConditions_times_witness :
  collector_ok (st_status sample_published) /\
  exists cs, out (GetConditions sample_published) = Ret cs /\
    forall c, c ∈ cs -> c_ObservedGeneration c = 3%Z.
Proof.
  split; [exact sample_collector_ok|].
  destruct (GetConditions_times sample_published sample_collector_ok) as (cs & Ho & _ & _ & H).
  exists cs. split; [exact Ho|]. intros c Hc. apply (H c Hc).
Defined.

(** the same state later, after the publication *)
Definition sample_later : St :=
  sample_published <| st_world := sim_empty <| sim_clock := 100%Z |> |>
    <| st_dspa ::= fun d => d <| dspa_Status ::= fun st =>
         st <| ds_Conditions := conditions_at sim_dspa 0 sample_collector |> |> |>
    <| st_status ::= fun s => s <| s_databaseAvailable := BuildTrueCondition 50 DatabaseAvailable "ok" |> |>.

Lemma GetConditions_stable_witness :
  out (GetConditions sample_later) = Ret (conditions_at sim_dspa 0 sample_collector).
Proof.
  assert (same_collector (st_status sample_published) (st_status sample_later)) as Hs.
  { split; [|constructor]. repeat (apply Forall2_cons_2; [reflexivity|]). constructor. }
  destruct (GetConditions_stable sample_published sample_later sample_collector_ok Hs)
    as (cs & Ho & H).
  assert (cs = conditions_at sim_dspa 0 sample_collector) as ->.
  { vm_compute in Ho. injection Ho as <-. vm_compute. reflexivity. }
  apply H. reflexivity.
Defined.
