(* ===== verification/Util.v ===== *)
(** * Helpers shared by the controllers (controllers/util/util.go)

    Conditions, templates in a directory, config maps, certificates, host
    names of services and routes, supported versions, and the transformers
    that label the objects of a manifest. *)

From stdpp Require Import base gmap strings list pretty.
From Stdlib Require Import ZArith.
From S2P Require Import Prelude GoStd GoJson KubeTypes ApiTypes Data Platform Config.

(** the empty condition when there is none of the type *)
Definition GetConditionByType (condType : string) (conditions : list Condition) : Condition :=
  default zero_Condition (List.find (fun c => bool_decide (c_Type c = condType)) conditions).

Definition GetDeploymentCondition (conds : list DeploymentCondition) (condType : string) :
    option DeploymentCondition :=
  List.find (fun c => bool_decide (dc_Type c = condType)) conds.

Definition BoolPointer (b : bool) : option bool := Some b.

(** Both type assertions look at one error only, not along the chain. *)
Definition IsX509UnknownAuthorityError (err : error) : bool :=
  match err with
  | ErrURL _ (ErrX509UnknownAuthority _) => true
  | _ => false
  end.

Definition GetConfigMapValue (cfgKey : string) (cfgMap : ConfigMap) : string :=
  match cm_Data cfgMap !! cfgKey with Some v => v | None => "" end.

(** [for _, supportedVersion := range ...] of both version tests *)
Definition supported (version : string) : bool :=
  existsb (fun v => bool_decide (version = v)) GetSupportedDSPAVersions.

Definition DSPAWithSupportedDSPVersion (d : DataSciencePipelinesApplication) : bool :=
  supported (spec_DSPVersion (dspa_Spec d)).

Definition HasSupportedDSPVersionLabel (labels : gmap string string) : bool :=
  match labels !! DSPVersionk8sLabel with
  | None => false
  | Some version => supported version
  end.

Section Util.
  Context {P : Platform}.

Definition GetTemplatesInDir (templatesDirectory componentSubdirectory : string) : M (list string) :=
  files ← io (CReadDir (templatesDirectory +:+ componentSubdirectory))
             (read_dir (templatesDirectory +:+ componentSubdirectory));
  mret ((fun f => path_Join componentSubdirectory f.1) <$> List.filter (fun f => negb f.2) files).

Definition GetConfigMap (cfgName ns : string) : M ConfigMap :=
  io (CGet "ConfigMap" (NN ns cfgName)) (get_configmap (NN ns cfgName)).

(** in the order in which the map is visited *)
Definition GetConfigMapValues (cfgMap : ConfigMap) : M (list string) :=
  entries ← draw (map_order (cm_Data cfgMap));
  mret entries.*2.

Definition GetSystemCerts : M string :=
  e ← ask (getenv DefaultSystemSSLCertFile);
  let sslCertFile := if bool_decide (e = "") then DefaultSystemSSLCertFilePath else e in
  io (CReadFile sslCertFile) (read_file sslCertFile).

(** An object that may be missing: [None] when it is. *)
Definition if_available {A} (get : M A) : M (option A) :=
  r ← try get;
  match r with
  | inl a => mret (Some a)
  | inr e => if IsNotFound e then mret None else fail e
  end.

Definition GetServiceIfAvailable (svcName ns : string) : M (option Service) :=
  if_available (io (CGet "Service" (NN ns svcName)) (get_service (NN ns svcName))).

Definition GetRouteIfAvailable (routeName ns : string) : M (option Route) :=
  if_available (io (CGet "Route" (NN ns routeName)) (get_route (NN ns routeName))).

(** The loop over the ports: the last port, or the first secured one. *)
Fixpoint pick_port (ports : list Z) (servicePort : string) : string * string :=
  match ports with
  | [] => (servicePort, "http")
  | p :: ps =>
      let servicePort := fmt_d p in
      if bool_decide (servicePort = "8443") || bool_decide (servicePort = "443")
      then (servicePort, "https") else pick_port ps servicePort
  end.

Definition GetServiceHostname (svcName ns : string) : M string :=
  service ← GetServiceIfAvailable svcName ns;
  mret (match service with
        | None => ""
        | Some service =>
            let '(servicePort, scheme) := pick_port (svc_Ports service) "" in
            scheme +:+ "://" +:+ svc_Name service +:+ "." +:+ svc_Namespace service
              +:+ ".svc.cluster.local:" +:+ servicePort
        end).

Definition GetRouteHostname (routeName ns : string) : M string :=
  route ← GetRouteIfAvailable routeName ns;
  mret (match route with
        | None => ""
        | Some route => (if route_TLS route then "https" else "http") +:+ "://" +:+ route_Host route
        end).

Definition GetSecret (secretName ns : string) : M Secret :=
  io (CGet "Secret" (NN ns secretName)) (get_secret (NN ns secretName)).

(** ** Transformers *)

Definition AddLabelTransformer (labelKey labelValue : string) (o : Unstructured) : Unstructured + error :=
  inl (u_set_labels (<[labelKey := labelValue]> (u_labels o)) o).

Definition pod_labels_path : list string := ["spec"; "template"; "metadata"; "labels"].

Definition AddDeploymentPodLabelTransformer (labelKey labelValue : string) (o : Unstructured) :
    Unstructured + error :=
  if bool_decide (u_kind o = "Deployment") then
    match u_nested pod_labels_path o with
    | inr e => inr e
    | inl found =>
        let podLabels := <[labelKey := labelValue]> (default ∅ found) in
        match u_set_nested podLabels pod_labels_path o with
        | inr e => inr (ErrWrap "failed to set pod labels: " e "")
        | inl o' => inl o'
        end
    end
  else inl o.
End Util.

(** ** Lemmas *)

Lemma supported_spec v : supported v = true <-> v = DSPV2VersionString.
Proof.
  unfold supported, GetSupportedDSPAVersions, SupportedDSPVersions. simpl.
  rewrite orb_false_r. apply bool_decide_eq_true.
Qed.

(** The first secured port if there is one, else the last port. *)
Definition secured (p : Z) : bool := bool_decide (p = 8443%Z) || bool_decide (p = 443%Z).

Lemma fmt_d_inj p q : fmt_d p = fmt_d q -> p = q.
Proof. apply (inj pretty). Qed.

Lemma pick_port_spec ports d :
  pick_port ports d =
    match List.find secured ports with
    | Some p => (fmt_d p, "https"%string)
    | None => (from_option fmt_d d (last ports), "http"%string)
    end.
Proof.
  revert d. induction ports as [|p ps IH]; intros d; [done|]. cbn [pick_port List.find].
  assert (bool_decide (fmt_d p = "8443") || bool_decide (fmt_d p = "443") = secured p) as ->.
  { unfold secured. f_equal; apply bool_decide_ext.
    - split; [intros H; apply fmt_d_inj; exact H|by intros ->].
    - split; [intros H; apply fmt_d_inj; exact H|by intros ->]. }
  destruct (secured p); [done|]. rewrite IH. destruct (List.find secured ps); [done|].
  destruct ps; [done|]. rewrite last_cons_cons. destruct (last (z :: ps)) eqn:Hl; [done|].
  by apply last_None in Hl.
Qed.
