(* ===== verification/Metrics.v ===== *)
(** * Prometheus gauges (controllers/metrics.go) *)

From stdpp Require Import base gmap strings list.
From Stdlib Require Import ZArith.
From S2P Require Import Prelude GoStd GoJson KubeTypes ApiTypes Data Platform Config Util Sim.

(** A gauge vector is known by its metric name. *)
Definition DBAvailableMetric : string := "data_science_pipelines_application_database_available".
Definition ObjectStoreAvailableMetric : string := "data_science_pipelines_application_object_store_available".
Definition APIServerReadyMetric : string := "data_science_pipelines_application_apiserver_ready".
Definition PersistenceAgentReadyMetric : string := "data_science_pipelines_application_persistenceagent_ready".
Definition ScheduledWorkflowReadyMetric : string := "data_science_pipelines_application_scheduledworkflow_ready".
Definition WorkflowControllerReadyMetric : string := "data_science_pipelines_application_workflowcontroller_ready".
Definition MLMDProxyReadyMetric : string := "data_science_pipelines_application_mlmdproxy_ready".
Definition ManagedPipelineValidMetric : string := "data_science_pipelines_application_managed_pipeline_valid".
Definition CrReadyMetric : string := "data_science_pipelines_application_ready".

Definition allDSPAMetrics : list string :=
  [DBAvailableMetric; ObjectStoreAvailableMetric; APIServerReadyMetric; PersistenceAgentReadyMetric;
   ScheduledWorkflowReadyMetric; WorkflowControllerReadyMetric; MLMDProxyReadyMetric; CrReadyMetric].

Definition managedPipelineValidationReasons : list string :=
  [ManagedPipelineValid; ManagedPipelineInvalid; ManagedPipelinesFetchError; "NotApplicable";
   "Unknown"; "Other"].

Definition normalizeManagedPipelineValidationReason (reason : string) : string :=
  if existsb (fun r => bool_decide (reason = r) && negb (bool_decide (r = "Other")))
       managedPipelineValidationReasons
  then reason else "Other".

Section Metrics.
  Context {P : Platform}.

Definition upd_gauges (f : GaugeVecs -> GaugeVecs) : M unit := modify (fun s => s <| st_gauges ::= f |>).

(** [m.WithLabelValues(labels...).Set(v)] *)
Definition SetGauge (metric : string) (labels : list string) (v : Z) : M unit :=
  upd_gauges (gauge_set metric labels v).
(** [m.DeleteLabelValues(labels...)] *)
Definition DeleteLabelValues (metric : string) (labels : list string) : M unit :=
  upd_gauges (gauge_delete metric labels).

Definition DeleteMetrics (dspaName dspaNamespace : string) : M unit :=
  iter (fun m => DeleteLabelValues m [dspaName; dspaNamespace]) allDSPAMetrics ;;
  iter (fun reason => DeleteLabelValues ManagedPipelineValidMetric [dspaName; dspaNamespace; reason])
    managedPipelineValidationReasons.

Definition setManagedPipelineValidMetricByReason (dspaName dspaNamespace reason : string) : M unit :=
  let activeReason := normalizeManagedPipelineValidationReason reason in
  iter (fun r => SetGauge ManagedPipelineValidMetric [dspaName; dspaNamespace; r]
                   (if bool_decide (r = activeReason) then 1 else 0))
    managedPipelineValidationReasons.
End Metrics.

(** ** The series of an application, by the names under which they are scraped *)

(** the gauge of each type of condition that has one *)
Definition component_gauges : list (string * string) :=
  [("DatabaseAvailable", "data_science_pipelines_application_database_available");
   ("ObjectStoreAvailable", "data_science_pipelines_application_object_store_available");
   ("APIServerReady", "data_science_pipelines_application_apiserver_ready");
   ("PersistenceAgentReady", "data_science_pipelines_application_persistenceagent_ready");
   ("ScheduledWorkflowReady", "data_science_pipelines_application_scheduledworkflow_ready");
   ("WorkflowControllerReady", "data_science_pipelines_application_workflowcontroller_ready");
   ("MLMDProxyReady", "data_science_pipelines_application_mlmdproxy_ready");
   ("Ready", "data_science_pipelines_application_ready")].

(** and the one of the managed pipelines, which has a series per reason *)
Definition reason_gauge : string := "data_science_pipelines_application_managed_pipeline_valid".

Definition known_reasons : list string :=
  ["ManagedPipelineValid"; "ManagedPipelineInvalid"; "ManagedPipelinesFetchError"; "NotApplicable"; "Unknown"].

(** the series that stands for a reason *)
Definition active_reason (reason : string) : string :=
  if bool_decide (reason ∈ known_reasons) then reason else "Other".

Lemma normalize_active reason : normalizeManagedPipelineValidationReason reason = active_reason reason.
Proof.
  unfold normalizeManagedPipelineValidationReason, active_reason.
  assert (existsb (fun r => bool_decide (reason = r) && negb (bool_decide (r = "Other"))) managedPipelineValidationReasons =
          bool_decide (reason ∈ known_reasons)) as ->; [|done].
  apply eq_true_iff_eq. rewrite bool_decide_eq_true, existsb_exists. setoid_rewrite andb_true_iff.
  setoid_rewrite negb_true_iff. setoid_rewrite bool_decide_eq_true. setoid_rewrite bool_decide_eq_false. split.
  - intros (r & Hr%list_elem_of_In & -> & Hne). revert r Hr Hne. refine (proj1 (Forall_forall _ managedPipelineValidationReasons) _).
    refine (bool_decide_unpack _ _). by vm_compute.
  - intros Hk. exists reason. split_and!; [|done|].
    + apply list_elem_of_In. revert reason Hk. refine (proj1 (Forall_forall _ known_reasons) _). refine (bool_decide_unpack _ _). by vm_compute.
    + revert reason Hk. refine (proj1 (Forall_forall _ known_reasons) _). refine (bool_decide_unpack _ _). by vm_compute.
Qed.

Lemma active_listed reason : active_reason reason ∈ managedPipelineValidationReasons.
Proof.
  unfold active_reason. case_bool_decide as Hk; [|refine (bool_decide_unpack _ _); by vm_compute].
  revert reason Hk. refine (proj1 (Forall_forall _ known_reasons) _). refine (bool_decide_unpack _ _). by vm_compute.
Qed.

(** ** What a registry of gauges promises *)

Class GaugeLaws (G : Type) `{Gauges G} := {
  gauge_get_set m l v g m' l' :
    gauge_get m' l' (gauge_set m l v g) =
    if bool_decide ((m', l') = (m, l)) then Some v else gauge_get m' l' g;
  gauge_get_delete m l g m' l' :
    gauge_get m' l' (gauge_delete m l g) =
    if bool_decide ((m', l') = (m, l)) then None else gauge_get m' l' g
}.

#[export] Instance sim_gauge_laws :
  @GaugeLaws (@GaugeVecs sim_platform) (@platform_gauges sim_platform).
Proof.
  split; intros; simpl; case_bool_decide as Heq; simplify_eq.
  - apply lookup_insert_eq. - by rewrite lookup_insert_ne.
  - apply lookup_delete_eq. - by rewrite lookup_delete_ne.
Qed.

Section MetricsProofs.
  Context {P : Platform} {L : GaugeLaws GaugeVecs}.

Lemma upd_gauges_iter {A} (f : A -> GaugeVecs -> GaugeVecs) l (s : St) :
  iter (fun x => upd_gauges (f x)) l s =
  Run (Ret tt) (s <| st_gauges := fold_left (fun g x => f x g) l (st_gauges s) |>) [].
Proof.
  revert s. induction l as [|x l IH]; intros s; [by destruct s|]. cbn [iter fold_left].
  eapply (bind_run _ _ _ _ _ [] _ _ []); [reflexivity|]. by rewrite IH.
Qed.

(** the value of a series after a fold of sets, or of deletes *)
Lemma fold_set_get m key val l (g : GaugeVecs) m' l' :
  gauge_get m' l' (fold_left (fun g x => gauge_set m (key x) (val x) g) l g) =
  if bool_decide (m' = m) then
    match List.find (fun x : string => bool_decide (key x = l')) (rev l) with
    | Some x => Some (val x)
    | None => gauge_get m' l' g
    end
  else gauge_get m' l' g.
Proof.
  revert g. induction l as [|x l IH] using rev_ind; intros g; [by case_bool_decide|].
  rewrite fold_left_app. cbn [fold_left]. rewrite gauge_get_set, IH, rev_app_distr. cbn [rev app List.find].
  repeat case_bool_decide; simplify_eq; try done.
Qed.

Lemma fold_delete_get (ms : list (string * list string)) (g : GaugeVecs) m' l' :
  gauge_get m' l' (fold_left (fun g x => gauge_delete x.1 x.2 g) ms g) =
  if bool_decide ((m', l') ∈ ms) then None else gauge_get m' l' g.
Proof.
  revert g. induction ms as [|[m l] ms IH]; intros g; [done|]. cbn [fold_left fst snd].
  rewrite IH, gauge_get_delete. repeat case_bool_decide; set_solver.
Qed.

(** Publishing the managed-pipeline reason is one-hot: of the six series of
    the application exactly the one of the (normalized) reason is 1 and the
    others are 0, a reason outside the list counts as Other, and no other
    series of the registry changes. *)
Theorem managed_pipeline_metric_one_hot name ns reason (s : St) :
  wp (setManagedPipelineValidMetricByReason name ns reason) (fun o s' t =>
    o = Ret tt /\ t = [] /\
    (exists r, r ∈ managedPipelineValidationReasons /\
       (forall r', r' ∈ managedPipelineValidationReasons ->
          gauge_get ManagedPipelineValidMetric [name; ns; r'] (st_gauges s') =
          Some (if bool_decide (r' = r) then 1 else 0)%Z) /\
       (reason ∈ managedPipelineValidationReasons -> r = reason) /\
       (reason ∉ managedPipelineValidationReasons -> r = "Other"%string)) /\
    (forall m l, (forall r', r' ∈ managedPipelineValidationReasons ->
                    (m, l) ≠ (ManagedPipelineValidMetric, [name; ns; r'])) ->
       gauge_get m l (st_gauges s') = gauge_get m l (st_gauges s))) s.
Proof.
  unfold setManagedPipelineValidMetricByReason, SetGauge, wp.
  rewrite (upd_gauges_iter (fun r => gauge_set ManagedPipelineValidMetric [name; ns; r] _)).
  cbn [out fin evs]. split_and!; [done..| |].
  - exists (normalizeManagedPipelineValidationReason reason). split_and!.
    + unfold normalizeManagedPipelineValidationReason. destruct (existsb _ _) eqn:He; [|set_solver].
      apply existsb_exists in He as (r & Hr & [Hb _]%andb_true_iff).
      apply bool_decide_eq_true in Hb as ->. by apply list_elem_of_In.
    + intros r' Hr'. cbn [set st_gauges]. rewrite (fold_set_get _ (fun r => [name; ns; r])).
      rewrite bool_decide_eq_true_2 by done.
      destruct (List.find _ _) as [x|] eqn:Hf.
      * apply find_some in Hf as [_ Hf]. apply bool_decide_eq_true in Hf. by simplify_eq.
      * exfalso. apply list_elem_of_In, in_rev in Hr'.
        eapply find_none in Hf; [|exact Hr']. by apply bool_decide_eq_false in Hf.
    + intros Hin. unfold normalizeManagedPipelineValidationReason.
      destruct (existsb _ _) eqn:He; [done|]. 
      destruct (decide (reason = "Other"%string)) as [->|Hne]; [done|].
      exfalso. apply not_true_iff_false in He. apply He, existsb_exists. exists reason.
      rewrite <- list_elem_of_In, bool_decide_eq_true_2, bool_decide_eq_false_2 by done. done.
    + intros Hin. unfold normalizeManagedPipelineValidationReason.
      destruct (existsb _ _) eqn:He; [|done]. exfalso.
      apply existsb_exists in He as (r & Hr & [Hb _]%andb_true_iff).
      apply bool_decide_eq_true in Hb as ->. by apply Hin, list_elem_of_In.
  - intros m l Hne. cbn [set st_gauges]. rewrite (fold_set_get _ (fun r => [name; ns; r])).
    case_bool_decide as Hm; [|done]. destruct (List.find _ _) as [x|] eqn:Hf; [|done].
    apply find_some in Hf as [Hx Hf]. apply bool_decide_eq_true in Hf. exfalso.
    apply (Hne x); [by apply list_elem_of_In, in_rev|]. by subst.
Qed.

(** the series of one application *)
Definition own_series (name ns : string) : list (string * list string) :=
  ((fun m => (m, [name; ns])) <$> allDSPAMetrics) ++
  ((fun r => (ManagedPipelineValidMetric, [name; ns; r])) <$> managedPipelineValidationReasons).

(** C28: Deleting an application's metrics removes every series a reconcile of
    that application can publish, the eight gauges of its conditions and, of the
    managed-pipeline gauge, the series of every reason; and no series of any
    other application. *)
Theorem DeleteMetrics_exact name ns (s : St) :
  wp (DeleteMetrics name ns) (fun o s' t => o = Ret tt /\ t = [] /\
    (forall ty m, (ty, m) ∈ component_gauges -> gauge_get m [name; ns] (st_gauges s') = None) /\
    (forall reason, gauge_get reason_gauge [name; ns; active_reason reason] (st_gauges s') = None) /\
    (forall m n' ns' rest, (n', ns') ≠ (name, ns) ->
        gauge_get m (n' :: ns' :: rest) (st_gauges s') = gauge_get m (n' :: ns' :: rest) (st_gauges s))) s.
Proof.
  assert (DeleteMetrics name ns s = Run (Ret tt) (s <| st_gauges :=
    fold_left (fun g x => gauge_delete x.1 x.2 g) (own_series name ns) (st_gauges s) |>) []) as Hrun.
  { unfold DeleteMetrics, DeleteLabelValues. eapply (bind_run _ _ _ _ _ [] _ _ []).
    - apply (upd_gauges_iter (fun m => gauge_delete m _)).
    - by rewrite (upd_gauges_iter (fun r => gauge_delete ManagedPipelineValidMetric [name; ns; r])). }
  eapply wp_run; [exact Hrun|]. split_and!; [done..| | |]; cbn [set st_gauges].
  - intros ty m Hm. rewrite (fold_delete_get (own_series name ns)), bool_decide_eq_true_2; [done|].
    unfold own_series. apply elem_of_app. left. apply (list_elem_of_fmap_2 (fun m => (m, _))).
    change (((ty, m) : string * string).2 ∈ allDSPAMetrics). revert Hm. generalize ((ty, m) : string * string).
    refine (proj1 (Forall_forall _ component_gauges) _). refine (bool_decide_unpack _ _). by vm_compute.
  - intros reason. rewrite (fold_delete_get (own_series name ns)), bool_decide_eq_true_2; [done|].
    unfold own_series. apply elem_of_app. right.
    apply (list_elem_of_fmap_2 (fun r => (ManagedPipelineValidMetric, [name; ns; r]))), active_listed.
  - intros m n' ns' rest Hne. rewrite (fold_delete_get (own_series name ns)), bool_decide_eq_false_2; [done|].
    unfold own_series. rewrite elem_of_app, !list_elem_of_fmap. naive_solver.
Qed.
End MetricsProofs.

(** ** Examples *)

#[local] Existing Instance sim_platform.

Lemma managed_pipeline_metric_witness :
  gauge_get ManagedPipelineValidMetric ["a"; "b"; "Other"]
    (st_gauges (fin (setManagedPipelineValidMetricByReason "a" "b" "strange" (sim_state sim_empty sim_dspa))))
  = Some 1%Z.
Proof.
  destruct (managed_pipeline_metric_one_hot "a" "b" "strange" (sim_state sim_empty sim_dspa))
    as (_ & _ & (r & _ & Hr & _ & Hu) & _).
  rewrite Hr by (vm_compute; set_solver). rewrite Hu by (vm_compute; set_solver). reflexivity.
Defined.

Lemma DeleteMetrics_witness :
  gauge_get CrReadyMetric ["a"; "b"]
    (st_gauges (fin (DeleteMetrics "a" "b" (sim_state sim_empty sim_dspa)))) = None.
Proof.
  destruct (DeleteMetrics_exact "a" "b" (sim_state sim_empty sim_dspa)) as (_ & _ & H & _).
  apply (H "Ready"). refine (bool_decide_unpack _ _). vm_compute. exact I.
Defined.
