(* ===== verification/ManagedPipelines.v ===== *)
(** * Managed pipelines: the manifest and the image variables
    (controllers/managed_pipelines_validation.go, managed_pipeline_image_env.go) *)

From stdpp Require Import base gmap strings list sorting.
From Stdlib Require Import ZArith Ascii.
From S2P Require Import Prelude GoStd GoJson KubeTypes ApiTypes Data Platform Config.

(** ** The manifest *)

Record ManagedPipelineEntry := MkManagedPipelineEntry {
  mpe_Name : string; mpe_Description : string; mpe_Path : string; mpe_Stability : string }.

(** an element of the array: [None] is a type error *)
Definition decode_entry (j : json) : option ManagedPipelineEntry :=
  match j with
  | JNull => Some (MkManagedPipelineEntry "" "" "" "")
  | JObj l =>
      n ← decode_field "name" l;
      d ← decode_field "description" l;
      p ← decode_field "path" l;
      s ← decode_field "stability" l;
      Some (MkManagedPipelineEntry n d p s)
  | _ => None
  end.

(** [json.Unmarshal] into a [[]ManagedPipelineEntry] *)
Definition unmarshal_entries (data : string) : list ManagedPipelineEntry + error :=
  match parse_json data with
  | None => inr json_syntax_error
  | Some JNull => inl []
  | Some (JArr l) => match mapM decode_entry l with
                     | Some es => inl es
                     | None => inr json_type_error
                     end
  | Some _ => inr json_type_error
  end.

(** the loop over the entries *)
Definition add_name (names : gmap string bool) (e : ManagedPipelineEntry) : gmap string bool :=
  let trimmed := TrimSpace (mpe_Name e) in
  if bool_decide (trimmed ≠ ""%string) then <[trimmed := true]> names else names.

Definition ParseManagedPipelinesManifest (data : string) : gmap string bool + error :=
  if bool_decide (data = "") then inr (ErrNew "managed-pipelines.json content is empty")
  else match unmarshal_entries data with
       | inr e => inr (ErrWrap "failed to parse managed-pipelines.json: " e "")
       | inl entries => inl (fold_left add_name entries ∅)
       end.

(** [manifestNames[p.Name]] *)
Definition name_valid (manifestNames : gmap string bool) (p : ManagedPipeline) : bool :=
  default false (manifestNames !! mp_Name p).

Definition ValidateManagedPipelineNames (crPipelines : list ManagedPipeline)
    (manifestNames : gmap string bool) : option error :=
  if bool_decide (length crPipelines = 0) then None
  else
    let invalid := mp_Name <$> List.filter (fun p => negb (name_valid manifestNames p)) crPipelines in
    if bool_decide (0 < length invalid)
    then Some (ErrNew ("pipeline(s) not found in managed-pipelines.json: " +:+ Join ", " invalid))
    else None.

(** ** Image variables of the operator's environment *)

Definition relatedImageEnvPrefix : string := "RELATED_IMAGE_".

Definition valid_byte (c : ascii) : bool :=
  in_range 65 90 c || in_range 48 57 c || (code c =? 95)%N.

Definition isValidEnvVarName (name : string) : bool :=
  forallb valid_byte (String.list_ascii_of_string name) && (0 <? len name)%Z.

(** one turn of the loop over the environment *)
Definition clean_env (acc : gmap string string + error) (raw : string) : gmap string string + error :=
  match acc with
  | inr e => inr e
  | inl cleaned =>
      match Cut (byte 61) raw with
      | None => inl cleaned
      | Some (key, value) =>
          let key := TrimSpace key in
          if negb (HasPrefix key relatedImageEnvPrefix) then inl cleaned
          else if (len key =? len relatedImageEnvPrefix)%Z || negb (isValidEnvVarName key)
          then inr (ErrNew ("invalid RELATED_IMAGE_* env var name " +:+ fmt_q key +:+
                      ": must contain only [A-Z0-9_] with a non-empty suffix after the prefix"))
          else
            let value := TrimSpace value in
            if bool_decide (value = "") then inl cleaned else inl (<[key := value]> cleaned)
      end
  end.

(** The map is emptied into a list and sorted by name; names are unique, so
    the order in which the map is visited does not matter. *)
Definition ManagedPipelineImageEnvFromEnviron (environ : list string) :
    list ManagedPipelineImageEnvVar + error :=
  match fold_left clean_env environ (inl ∅) with
  | inr e => inr e
  | inl cleaned => inl ((fun kv => MkManagedPipelineImageEnvVar kv.1 kv.2) <$> sorted_entries cleaned)
  end.

(** ** Validation accepts exactly the manifest's names *)

Lemma add_name_lookup es names n :
  fold_left add_name es names !! n = Some true <->
  names !! n = Some true \/ (n ≠ ""%string /\ exists e, e ∈ es /\ TrimSpace (mpe_Name e) = n).
Proof.
  revert names. induction es as [|e es IH]; intros names; cbn [fold_left].
  - split; [auto|]. intros [?|(_ & e & He & _)]; [done|]. by apply not_elem_of_nil in He.
  - rewrite IH. unfold add_name. case_bool_decide as Hne.
    + destruct (decide (TrimSpace (mpe_Name e) = n)) as [<-|Hn].
      * rewrite lookup_insert_eq. split; [|auto]. intros _. right. split; [done|]. exists e. set_solver.
      * rewrite lookup_insert_ne by done. set_solver.
    + set_solver.
Qed.

Lemma add_name_true es names n b :
  (forall m c, names !! m = Some c -> c = true) -> fold_left add_name es names !! n = Some b -> b = true.
Proof.
  revert names. induction es as [|e es IH]; intros names Hn; cbn [fold_left]; [apply Hn|].
  apply IH. intros m c. unfold add_name. case_bool_decide; [|apply Hn].
  rewrite lookup_insert_Some. intros [[_ <-]|[_ ?]]; [done|by eapply Hn].
Qed.

Lemma name_valid_spec names p :
  name_valid names p = true <-> names !! mp_Name p = Some true.
Proof. unfold name_valid. destruct (names !! mp_Name p); simpl; naive_solver. Qed.

Lemma not_valid_filter names crs :
  List.filter (fun p => negb (name_valid names p)) crs = [] <->
  forall p, p ∈ crs -> name_valid names p = true.
Proof.
  induction crs as [|p crs IH]; simpl.
  - split; [|done]. intros _ p Hp. by apply not_elem_of_nil in Hp.
  - setoid_rewrite elem_of_cons. destruct (name_valid names p) eqn:Hv; simpl; [rewrite IH; naive_solver|].
    split; [done|]. intros H. rewrite H in Hv by auto. done.
Qed.

(** [n] is the name of an entry, less the white space around it. *)
Definition manifest_name (entries : list ManagedPipelineEntry) (n : string) : Prop :=
  n ≠ ""%string /\ exists e, e ∈ entries /\ TrimSpace (mpe_Name e) = n.

(** C25: Against a manifest that parses, a list of managed pipelines is accepted
    exactly when every name of it is, letter for letter, a name of the
    manifest with the white space around it removed; otherwise the error lists
    the names that are not, in the order of the resource. *)
Theorem managed_names_checked (data : string) (names : gmap string bool) (crs : list ManagedPipeline) :
  ParseManagedPipelinesManifest data = inl names ->
  exists entries, unmarshal_entries data = inl entries /\
    (ValidateManagedPipelineNames crs names = None <-> forall p, p ∈ crs -> manifest_name entries (mp_Name p)) /\
    (forall err, ValidateManagedPipelineNames crs names = Some err ->
       exists bad, err = ErrNew ("pipeline(s) not found in managed-pipelines.json: " +:+ Join ", " (mp_Name <$> bad)) /\
         bad `sublist_of` crs /\ forall p, p ∈ crs -> p ∈ bad <-> ~ manifest_name entries (mp_Name p)).
Proof.
  unfold ParseManagedPipelinesManifest. case_bool_decide; [done|].
  destruct (unmarshal_entries data) as [entries|e]; [|done]. intros [= <-].
  exists entries. split; [done|].
  assert (forall p, name_valid (fold_left add_name entries ∅) p = true <->
    manifest_name entries (mp_Name p)) as Hk.
  { intros p. rewrite name_valid_spec, add_name_lookup, lookup_empty.
    split; [by intros [?|?]|auto]. }
  unfold ValidateManagedPipelineNames. rewrite length_fmap.
  set (bad := List.filter _ crs). split.
  - case_bool_decide as Hl; [apply nil_length_inv in Hl; subst; set_solver|].
    transitivity (bad = []).
    + case_bool_decide as Hb; (destruct bad; [|simpl in Hb; try lia]); split; try done; simpl in *; lia.
    + unfold bad. rewrite not_valid_filter. by setoid_rewrite Hk.
  - intros err. case_bool_decide; [done|]. case_bool_decide; [|done]. intros [= <-].
    exists bad. split; [done|]. split.
    + clear. unfold bad. induction crs as [|p crs IH]; simpl; [constructor|].
      destruct (negb _); by constructor.
    + intros p Hp. unfold bad. rewrite list_elem_of_In, filter_In, <- list_elem_of_In, negb_true_iff.
      rewrite <- Hk. rewrite not_true_iff_false. tauto.
Qed.

(** ** The image variables are exactly the last good ones, in order *)

(** a variable of the environment with the prefix: its name and value without
    the white space around them *)
Definition image_entry (raw : string) : option (string * string) :=
  '(k, v) ← Cut (byte 61) raw;
  if HasPrefix (TrimSpace k) relatedImageEnvPrefix then Some (TrimSpace k, TrimSpace v) else None.

Definition bad_image_name (k : string) : bool :=
  (len k =? len relatedImageEnvPrefix)%Z || negb (isValidEnvVarName k).

Definition bad_image_error (k : string) : error :=
  ErrNew ("invalid RELATED_IMAGE_* env var name " +:+ fmt_q k +:+
          ": must contain only [A-Z0-9_] with a non-empty suffix after the prefix").

(** the values given to [k], blank ones left out, in order *)
Definition image_values (k : string) (environ : list string) : list string :=
  (List.filter (fun kv => bool_decide (kv.1 = k) && negb (bool_decide (kv.2 = ""%string)))
     (omap image_entry environ)).*2.

Lemma clean_env_step cleaned raw :
  clean_env (inl cleaned) raw =
  match image_entry raw with
  | None => inl cleaned
  | Some (k, v) =>
      if bad_image_name k then inr (bad_image_error k)
      else if bool_decide (v = "") then inl cleaned else inl (<[k := v]> cleaned)
  end.
Proof.
  unfold clean_env, image_entry, bad_image_name, bad_image_error.
  destruct (Cut _ raw) as [[k v]|]; [|done]. simpl. by destruct (HasPrefix _ _).
Qed.

Lemma clean_env_inr environ e : fold_left clean_env environ (inr e) = inr e.
Proof. by induction environ. Qed.

Definition image_names_good (environ : list string) : Prop :=
  forall raw k v, raw ∈ environ -> image_entry raw = Some (k, v) -> bad_image_name k = false.

Lemma clean_env_loop environ cleaned :
  match fold_left clean_env environ (inl cleaned) with
  | inl m => image_names_good environ /\
             forall k, m !! k = match last (image_values k environ) with Some v => Some v | None => cleaned !! k end
  | inr e => exists pre raw post k v, environ = pre ++ raw :: post /\ image_names_good pre /\
               image_entry raw = Some (k, v) /\ bad_image_name k = true /\ e = bad_image_error k
  end.
Proof.
  revert cleaned. induction environ as [|raw env IH]; intros cleaned; cbn [fold_left].
  { split; [|done]. intros raw k v Hr. by apply not_elem_of_nil in Hr. }
  rewrite clean_env_step. unfold image_values. cbn [omap list_omap].
  destruct (image_entry raw) as [[k v]|] eqn:He; [destruct (bad_image_name k) eqn:Hb|].
  - rewrite clean_env_inr. exists [], raw, env, k, v. split_and!; try done.
    intros r k' v' Hr. by apply not_elem_of_nil in Hr.
  - specialize (IH (if bool_decide (v = ""%string) then cleaned else <[k := v]> cleaned)).
    replace (if bool_decide (v = ""%string) then inl cleaned else inl (<[k:=v]> cleaned))
      with (inl (B := error) (if bool_decide (v = ""%string) then cleaned else <[k:=v]> cleaned))
      by (by case_bool_decide).
    destruct (fold_left _ _ _) as [m|e].
    + destruct IH as [Hg Hm]. split.
      * intros r k' v' [->|Hr]%elem_of_cons He'; [congruence|by eapply Hg].
      * intros k'. rewrite Hm. unfold image_values. cbn [List.filter fst snd].
        destruct (bool_decide_reflect (k = k')) as [<-|Hne]; simpl.
        -- destruct (bool_decide_reflect (v = ""%string)) as [->|Hv]; simpl; [done|].
           rewrite lookup_insert_eq. match goal with |- context [last (?x :: ?l)] => change (x :: l) with ([x] ++ l); rewrite last_app end.
           by destruct (last _).
        -- case_bool_decide; [done|]. by rewrite lookup_insert_ne.
    + destruct IH as (pre & raw' & post & k' & v' & -> & Hg & ?). exists (raw :: pre), raw', post, k', v'.
      split; [done|]. split; [|done].
      intros r k0 v0 [->|Hr]%elem_of_cons He'; [congruence|by eapply Hg].
  - specialize (IH cleaned). destruct (fold_left _ _ _) as [m|e].
    + destruct IH as [Hg Hm]. split; [|done].
      intros r k0 v0 [->|Hr]%elem_of_cons He'; [congruence|by eapply Hg].
    + destruct IH as (pre & raw' & post & k' & v' & -> & Hg & ?). exists (raw :: pre), raw', post, k', v'.
      split; [done|]. split; [|done].
      intros r k0 v0 [->|Hr]%elem_of_cons He'; [congruence|by eapply Hg].
Qed.

(** C24: The variables handed to the managed-pipelines container are, in strictly
    increasing order of name, every RELATED_IMAGE_ name of the environment with
    the last non-blank value given to it; the function fails exactly when some
    such name is not well formed, and then names the first one. *)
Theorem managed_image_env_exact (environ : list string) :
  match ManagedPipelineImageEnvFromEnviron environ with
  | inl vars =>
      image_names_good environ /\
      StronglySorted str_lt (env_Name <$> vars) /\
      forall k v, MkManagedPipelineImageEnvVar k v ∈ vars <-> last (image_values k environ) = Some v
  | inr e => exists pre raw post k v, environ = pre ++ raw :: post /\ image_names_good pre /\
               image_entry raw = Some (k, v) /\ bad_image_name k = true /\ e = bad_image_error k
  end.
Proof.
  unfold ManagedPipelineImageEnvFromEnviron. pose proof (clean_env_loop environ ∅) as H.
  destruct (fold_left _ _ _) as [m|e]; [|done]. destruct H as [Hg Hm]. split; [done|]. split.
  - rewrite <- list_fmap_compose. apply sorted_entries_strict.
  - intros k v. specialize (Hm k). rewrite lookup_empty in Hm. 
    transitivity (m !! k = Some v).
    + rewrite <- elem_of_sorted_entries, list_elem_of_fmap. split.
      * by intros ([k' v'] & [= -> ->] & Hin).
      * intros Hin. by exists (k, v).
    + rewrite Hm. by destruct (last _).
Qed.

(** ** Examples *)

Definition sample_manifest : string :=
  js "[{'name':' alpha ','path':'a.yaml'},{'name':'beta'},{'name':' '},null]".

Definition sample_entries : list ManagedPipelineEntry :=
  [MkManagedPipelineEntry " alpha " "" "a.yaml" ""; MkManagedPipelineEntry "beta" "" "" "";
   MkManagedPipelineEntry " " "" "" ""; MkManagedPipelineEntry "" "" "" ""].
Definition sample_names : gmap string bool := <["alpha" := true]> (<["beta" := true]> ∅).

Lemma managed_names_checked_witness :
  ParseManagedPipelinesManifest sample_manifest = inl sample_names /\
  ValidateManagedPipelineNames [MkManagedPipeline "beta"; MkManagedPipeline "alpha"] sample_names = None.
Proof.
  assert (ParseManagedPipelinesManifest sample_manifest = inl sample_names) as Hp
    by (vm_compute; reflexivity).
  split; [exact Hp|].
  destruct (managed_names_checked sample_manifest _ [MkManagedPipeline "beta"; MkManagedPipeline "alpha"] Hp)
    as (es & He & [_ Ha] & _).
  assert (unmarshal_entries sample_manifest = inl sample_entries) as He' by (vm_compute; reflexivity).
  rewrite He' in He. injection He as <-.
  apply Ha. intros p Hin. apply elem_of_cons in Hin as [->|Hin].
  - split; [discriminate|]. exists (MkManagedPipelineEntry "beta" "" "" "").
    split; [unfold sample_entries; set_solver|reflexivity].
  - apply list_elem_of_singleton in Hin as ->. split; [discriminate|].
    exists (MkManagedPipelineEntry " alpha " "" "a.yaml" "").
    split; [unfold sample_entries; set_solver|reflexivity].
Defined.

Example managed_image_env_example :
  ManagedPipelineImageEnvFromEnviron
    ["PATH=/bin"; "RELATED_IMAGE_B=b1"; "RELATED_IMAGE_A= a "; "RELATED_IMAGE_B=b2"; "RELATED_IMAGE_B= "]
  = inl [MkManagedPipelineImageEnvVar "RELATED_IMAGE_A" "a"; MkManagedPipelineImageEnvVar "RELATED_IMAGE_B" "b2"].
Proof. vm_compute. reflexivity. Qed.
