(* ===== verification/Grammar.v ===== *)
(** * The grammar of JSON texts, and manifests read by it

    [GoJson.parse_value] recurses on the depth of nesting, and on the elements of
    an array with fuel.  Here is the grammar it decides, as an inductive relation
    without fuel: [value_text d s v r] says that the text [s] starts with the
    value [v], nested at most [d] deep, and goes on with [r].  The parser is
    sound and complete for it, so the fuel it is given is always enough; and the
    manifest of the managed pipelines is characterised by the grammar alone. *)

From stdpp Require Import base gmap strings list.
From Stdlib Require Import ZArith Lia Ascii.
From S2P Require Import Prelude GoStd GoJson KubeTypes ApiTypes ManagedPipelines.

Definition comma : ascii := byte 44.
Definition colon : ascii := byte 58.
Definition bracket_open : ascii := byte 91.
Definition bracket_close : ascii := byte 93.
Definition brace_open : ascii := byte 123.
Definition brace_close : ascii := byte 125.

(** [value_text d s v r]: at most [d] arrays and objects of [v] are open at a time *)
Inductive value_text : nat -> string -> json -> string -> Prop :=
  | TNull d s r : skip_prefix "null" (skip_ws s) = Some r -> value_text d s JNull r
  | TTrue d s r : skip_prefix "true" (skip_ws s) = Some r -> value_text d s (JBool true) r
  | TFalse d s r : skip_prefix "false" (skip_ws s) = Some r -> value_text d s (JBool false) r
  | TNum d s n r : scan_num (skip_ws s) = Some (n, r) -> value_text d s (JNum n) r
  | TStr d s s1 raw r : skip_ws s = String dquote s1 -> scan_str s1 = Some (raw, r) ->
      value_text d s (JStr (unquote raw)) r
  | TArr0 d s s1 r : skip_ws s = String bracket_open s1 -> skip_ws s1 = String bracket_close r ->
      value_text (S d) s (JArr []) r
  | TArr d s s1 l r : skip_ws s = String bracket_open s1 -> elems_text d s1 l r -> value_text (S d) s (JArr l) r
  | TObj0 d s s1 r : skip_ws s = String brace_open s1 -> skip_ws s1 = String brace_close r ->
      value_text (S d) s (JObj []) r
  | TObj d s s1 m r : skip_ws s = String brace_open s1 -> members_text d s1 m r -> value_text (S d) s (JObj m) r
(** one element or more, up to the closing bracket *)
with elems_text : nat -> string -> list json -> string -> Prop :=
  | TLast d s v r r' : value_text d s v r -> skip_ws r = String bracket_close r' -> elems_text d s [v] r'
  | TNext d s v r r1 vs r' : value_text d s v r -> skip_ws r = String comma r1 -> elems_text d r1 vs r' ->
      elems_text d s (v :: vs) r'
(** one member or more, up to the closing brace *)
with members_text : nat -> string -> list (string * json) -> string -> Prop :=
  | TLastM d s s1 k s2 s3 v r r' : skip_ws s = String dquote s1 -> scan_str s1 = Some (k, s2) ->
      skip_ws s2 = String colon s3 -> value_text d s3 v r -> skip_ws r = String brace_close r' ->
      members_text d s [(unquote k, v)] r'
  | TNextM d s s1 k s2 s3 v r r1 ms r' : skip_ws s = String dquote s1 -> scan_str s1 = Some (k, s2) ->
      skip_ws s2 = String colon s3 -> value_text d s3 v r -> skip_ws r = String comma r1 ->
      members_text d r1 ms r' -> members_text d s ((unquote k, v) :: ms) r'.

Scheme value_text_min := Minimality for value_text Sort Prop
  with elems_text_min := Minimality for elems_text Sort Prop
  with members_text_min := Minimality for members_text Sort Prop.
Combined Scheme texts_min from value_text_min, elems_text_min, members_text_min.

(** a text that is one value, nested no deeper than the library allows *)
Definition document (s : string) (v : json) : Prop :=
  exists r, value_text maxNestingDepth s v r /\ skip_ws r = "".

#[local] Notation size := String.length.

(** ** Scanners consume their input *)

Lemma skip_ws_size s : size (skip_ws s) <= size s.
Proof. induction s as [|a s IH]; [done|]. cbn [skip_ws]. case_match; cbn [size]; lia. Qed.

Lemma skip_ws_cons s a r : skip_ws s = String a r -> size r < size s.
Proof. intros H. pose proof (skip_ws_size s) as Hs. rewrite H in Hs. cbn [size] in Hs. lia. Qed.

Lemma span_digits_size s d r : span_digits s = (d, r) -> size d + size r = size s.
Proof.
  revert d r. induction s as [|a s IH]; intros d r; cbn [span_digits]; [by intros [= <- <-]|].
  case_match; [|by intros [= <- <-]]. destruct (span_digits s) as [d' r'] eqn:Hs. intros [= <- <-].
  specialize (IH _ _ eq_refl). cbn [size]. lia.
Qed.

Lemma digits1_size s d r : digits1 s = Some (d, r) -> size r < size s.
Proof.
  unfold digits1. destruct (span_digits s) as [d' r'] eqn:Hs. case_bool_decide; [done|]. intros [= <- <-].
  apply span_digits_size in Hs. destruct d'; [done|]. cbn [size] in Hs. lia.
Qed.

Lemma scan_int_size s d r : scan_int s = Some (d, r) -> size r < size s.
Proof.
  destruct s as [|a s]; [done|]. cbn [scan_int]. case_bool_decide; [|apply digits1_size].
  intros [= <- <-]. cbn [size]. lia.
Qed.

Lemma scan_frac_size s d r : scan_frac s = Some (d, r) -> size r <= size s.
Proof.
  destruct s as [|a s]; cbn [scan_frac]; [by intros [= <- <-]|]. case_bool_decide; [|by intros [= <- <-]].
  destruct (digits1 s) as [[d' r']|] eqn:Hd; cbn; [|done]. intros [= <- <-].
  apply digits1_size in Hd. lia.
Qed.

Lemma scan_exp_size s d r : scan_exp s = Some (d, r) -> size r <= size s.
Proof.
  destruct s as [|a s]; cbn [scan_exp]; [by intros [= <- <-]|]. case_bool_decide; [|by intros [= <- <-]].
  destruct s as [|b s]; [done|]. case_bool_decide.
  - destruct (digits1 s) as [[d' r']|] eqn:Hd; cbn; [|done]. intros [= <- <-]. apply digits1_size in Hd. lia.
  - destruct (digits1 (String b s)) as [[d' r']|] eqn:Hd; cbn; [|done]. intros [= <- <-].
    apply digits1_size in Hd. cbn [size] in *. lia.
Qed.

Lemma scan_num_size s d r : scan_num s = Some (d, r) -> size r < size s.
Proof.
  unfold scan_num. set (p := match s with EmptyString => _ | String _ _ => _ end).
  assert (size p.2 <= size s) as Hp.
  { unfold p. destruct s as [|a s]; [done|]. case_bool_decide; cbn [snd size]; lia. }
  destruct p as [sign s0]. cbn [snd] in Hp.
  destruct (scan_int s0) as [[i s1]|] eqn:Hi; cbn; [|done].
  destruct (scan_frac s1) as [[f s2]|] eqn:Hf; cbn; [|done].
  destruct (scan_exp s2) as [[e s3]|] eqn:He; cbn; [|done]. intros [= <- <-].
  apply scan_int_size in Hi. apply scan_frac_size in Hf. apply scan_exp_size in He. lia.
Qed.

Lemma substring_size n m s : size (String.substring n m s) <= size s - n.
Proof.
  revert n m. induction s as [|a s IH]; intros n m; [by destruct n, m|].
  destruct n as [|n]; cbn [String.substring].
  - destruct m; cbn [size]; [lia|]. specialize (IH 0 m). lia.
  - cbn [size]. specialize (IH n m). lia.
Qed.

Lemma skip_prefix_size p s r : p ≠ "" -> skip_prefix p s = Some r -> size r < size s.
Proof.
  unfold skip_prefix. intros Hp. destruct (String.prefix p s) eqn:Hs; [|done]. intros [= <-].
  pose proof (substring_size (size p) (size s - size p) s). destruct p as [|a p]; [done|].
  destruct s as [|b s]; [done|]. cbn [size] in *. lia.
Qed.

Lemma scan_str_size s raw r : scan_str s = Some (raw, r) -> size r < size s.
Proof.
  revert raw r. induction (Nat.lt_wf_0_projected size s) as [s _ IH]. intros raw r.
  destruct s as [|a s]; [done|]. cbn [scan_str]. case_bool_decide; [intros [= <- <-]; cbn [size]; lia|].
  destruct (code a <? 32)%N; [done|]. case_bool_decide.
  2: { destruct (scan_str s) as [[raw' r']|] eqn:Hs; cbn; [|done]. intros [= <- <-].
       apply IH in Hs; cbn [size]; lia. }
  destruct s as [|b s]; [done|]. case_bool_decide.
  { destruct (scan_str s) as [[raw' r']|] eqn:Hs; cbn; [|done]. intros [= <- <-].
    apply IH in Hs; cbn [size]; lia. }
  case_bool_decide; [|done]. destruct s as [|h1 [|h2 [|h3 [|h4 s]]]]; try done.
  destruct (_ && _); [|done]. destruct (scan_str s) as [[raw' r']|] eqn:Hs; cbn; [|done]. intros [= <- <-].
  apply IH in Hs; cbn [size]; lia.
Qed.

(** ** The first byte decides *)

Lemma skip_prefix_head b p a s r : skip_prefix (String b p) (String a s) = Some r -> a = b.
Proof.
  unfold skip_prefix. cbn [String.prefix]. destruct (ascii_dec b a) as [->|]; [done|done].
Qed.

Definition number_head (a : ascii) : bool := bool_decide (a = byte 45) || in_range 48 57 a.

Lemma digits1_head s d r : digits1 s = Some (d, r) -> exists a s', s = String a s' /\ in_range 48 57 a = true.
Proof.
  destruct s as [|a s]; [done|]. unfold digits1. cbn [span_digits].
  destruct (in_range 48 57 a) eqn:Ha; [by eauto|done].
Qed.

Lemma scan_num_head s d r : scan_num s = Some (d, r) -> exists a s', s = String a s' /\ number_head a = true.
Proof.
  destruct s as [|a s]; [done|]. intros H. exists a, s. split; [done|]. unfold number_head. unfold scan_num in H.
  case_bool_decide as Ha; [done|]. cbn [scan_int] in H. case_bool_decide as H0; [by subst a|].
  destruct (digits1 (String a s)) as [[d' r']|] eqn:Hd; [|done]. apply digits1_head in Hd as (? & ? & [= <- <-] & ?). done.
Qed.

(** the parser of what an array holds, after its opening bracket *)
Definition parse_array (d : nat) (s1 : string) : option (json * string) :=
  match skip_ws s1 with
  | String b r =>
      if bool_decide (b = bracket_close) then Some (JArr [], r)
      else '(l, r2) ← parse_elems (parse_value d) (S (size s1)) s1; Some (JArr l, r2)
  | "" => None
  end%string.

Definition parse_object (d : nat) (s1 : string) : option (json * string) :=
  match skip_ws s1 with
  | String b r =>
      if bool_decide (b = brace_close) then Some (JObj [], r)
      else '(m, r2) ← parse_members (parse_value d) (S (size s1)) s1; Some (JObj m, r2)
  | "" => None
  end%string.

Lemma parse_value_eq d s :
  parse_value d s =
  match skip_ws s with
  | "" => None
  | String a s1 =>
      if bool_decide (a = dquote) then '(raw, r) ← scan_str s1; Some (JStr (unquote raw), r)
      else if bool_decide (a = bracket_open) then match d with O => None | S d => parse_array d s1 end
      else if bool_decide (a = brace_open) then match d with O => None | S d => parse_object d s1 end
      else parse_plain (skip_ws s)
  end%string.
Proof. destruct d; cbn [parse_value]; by destruct (skip_ws s). Qed.

(** ** Soundness: what the parser reads is in the grammar *)

Lemma plain_sound d s v r : parse_plain (skip_ws s) = Some (v, r) -> value_text d s v r.
Proof.
  unfold parse_plain. destruct (skip_prefix "null" _) eqn:H1; [intros [= <- <-]; by apply TNull|].
  destruct (skip_prefix "true" _) eqn:H2; [intros [= <- <-]; by apply TTrue|].
  destruct (skip_prefix "false" _) eqn:H3; [intros [= <- <-]; by apply TFalse|].
  destruct (scan_num _) as [[n r']|] eqn:H4; cbn; [|done]. intros [= <- <-]. by apply TNum.
Qed.

Section Sound.
  Context (d : nat).
  Hypothesis value_sound : forall s v r, parse_value d s = Some (v, r) -> value_text d s v r.

Lemma parse_elems_sound n s l r : parse_elems (parse_value d) n s = Some (l, r) -> elems_text d s l r.
Proof.
  revert s l r. induction n as [|n IH]; intros s l r; [done|]. cbn [parse_elems].
  destruct (parse_value d s) as [[v r1]|] eqn:Hv; cbn; [|done]. apply value_sound in Hv.
  destruct (skip_ws r1) as [|a r'] eqn:Hr; [done|]. case_bool_decide; [subst a|case_bool_decide; [subst a|done]].
  - destruct (parse_elems _ n r') as [[vs r2]|] eqn:He; cbn; [|done]. intros [= <- <-].
    by apply (TNext d s v r1 r'); [..|apply IH].
  - intros [= <- <-]. by apply (TLast d s v r1).
Qed.

Lemma parse_members_sound n s m r : parse_members (parse_value d) n s = Some (m, r) -> members_text d s m r.
Proof.
  revert s m r. induction n as [|n IH]; intros s m r; [done|]. cbn [parse_members].
  destruct (skip_ws s) as [|q s1] eqn:Hq; [done|]. case_bool_decide; [subst q|done].
  destruct (scan_str s1) as [[k s2]|] eqn:Hk; cbn; [|done].
  destruct (skip_ws s2) as [|c s3] eqn:Hc; [done|]. case_bool_decide; [subst c|done].
  destruct (parse_value d s3) as [[v r1]|] eqn:Hv; cbn; [|done]. apply value_sound in Hv.
  destruct (skip_ws r1) as [|a r'] eqn:Hr; [done|]. case_bool_decide; [subst a|case_bool_decide; [subst a|done]].
  - destruct (parse_members _ n r') as [[ms r2]|] eqn:He; cbn; [|done]. intros [= <- <-].
    by apply (TNextM d s s1 k s2 s3 v r1 r'); [..|apply IH].
  - intros [= <- <-]. by apply (TLastM d s s1 k s2 s3 v r1).
Qed.

Lemma parse_array_sound s s1 v r :
  skip_ws s = String bracket_open s1 -> parse_array d s1 = Some (v, r) -> value_text (S d) s v r.
Proof.
  intros Hs. unfold parse_array. destruct (skip_ws s1) as [|b r1] eqn:Hb; [done|]. case_bool_decide.
  { intros [= <- <-]. subst b. by apply (TArr0 d s s1). }
  destruct (parse_elems _ _ s1) as [[l r2]|] eqn:He; cbn; [|done]. intros [= <- <-].
  apply (TArr d s s1); [done|]. by eapply parse_elems_sound.
Qed.

Lemma parse_object_sound s s1 v r :
  skip_ws s = String brace_open s1 -> parse_object d s1 = Some (v, r) -> value_text (S d) s v r.
Proof.
  intros Hs. unfold parse_object. destruct (skip_ws s1) as [|b r1] eqn:Hb; [done|]. case_bool_decide.
  { intros [= <- <-]. subst b. by apply (TObj0 d s s1). }
  destruct (parse_members _ _ s1) as [[l r2]|] eqn:He; cbn; [|done]. intros [= <- <-].
  apply (TObj d s s1); [done|]. by eapply parse_members_sound.
Qed.
End Sound.

Lemma parse_value_sound d s v r : parse_value d s = Some (v, r) -> value_text d s v r.
Proof.
  revert s v r. induction d as [|d IH]; intros s v r; rewrite parse_value_eq;
    (destruct (skip_ws s) as [|a s1] eqn:Hs; [done|]; case_bool_decide; [subst a|]).
  1, 3: destruct (scan_str s1) as [[raw r']|] eqn:Hraw; cbn; [|done]; intros [= <- <-]; by apply (TStr _ s s1).
  all: case_bool_decide; [subst a|case_bool_decide; [subst a|rewrite <- Hs; apply plain_sound]]; try done.
  - by apply parse_array_sound.
  - by apply parse_object_sound.
Qed.

(** ** Completeness: every text of the grammar is read *)

Lemma texts_size :
  (forall d s v r, value_text d s v r -> size r < size s) /\
  (forall d s l r, elems_text d s l r -> size r < size s) /\
  (forall d s m r, members_text d s m r -> size r < size s).
Proof.
  apply texts_min; intros;
    repeat match goal with
    | H : skip_prefix _ (skip_ws ?s) = Some _ |- _ =>
        apply skip_prefix_size in H; [pose proof (skip_ws_size s)|done]
    | H : scan_num (skip_ws ?s) = Some _ |- _ => apply scan_num_size in H; pose proof (skip_ws_size s)
    | H : scan_str _ = Some _ |- _ => apply scan_str_size in H
    | H : skip_ws _ = String _ _ |- _ => apply skip_ws_cons in H
    end; lia.
Qed.

Lemma value_size d s v r : value_text d s v r -> size r < size s.
Proof. apply texts_size. Qed.

Lemma value_head d s v r : value_text d s v r -> exists a s', skip_ws s = String a s' /\ a ≠ bracket_close.
Proof.
  intros []; try (by eauto);
    match goal with
    | H : skip_prefix _ ?t = Some _ |- _ =>
        destruct t as [|a t']; [done|]; apply skip_prefix_head in H as ->; by eauto
    | H : scan_num _ = Some _ |- _ =>
        apply scan_num_head in H as (a & s' & -> & H); exists a, s'; split; [done|]; by intros ->
    end.
Qed.

Lemma plain_complete d s a s' v r :
  skip_ws s = String a s' -> a ≠ dquote -> a ≠ bracket_open -> a ≠ brace_open ->
  parse_plain (skip_ws s) = Some (v, r) -> parse_value d s = Some (v, r).
Proof. intros Hs H1 H2 H3 <-. rewrite parse_value_eq, Hs. by rewrite !bool_decide_eq_false_2 by done. Qed.

Lemma skip_prefix_other b p a s : a ≠ b -> skip_prefix (String b p) (String a s) = None.
Proof.
  intros Hne. destruct (skip_prefix _ _) eqn:H; [|done]. by apply skip_prefix_head in H.
Qed.

(** a literal is read by the branch it starts *)
Ltac read_literal H Hs :=
  match type of H with skip_prefix _ ?t = Some _ => destruct t as [|a s'] eqn:Hs; [done|] end;
  pose proof (skip_prefix_head _ _ _ _ _ H) as ->;
  eapply plain_complete; [exact Hs|done..|]; rewrite Hs; unfold parse_plain;
  by rewrite H, ?skip_prefix_other by done.

Lemma texts_complete :
  (forall d s v r, value_text d s v r -> parse_value d s = Some (v, r)) /\
  (forall d s l r, elems_text d s l r -> forall k, size s < k -> parse_elems (parse_value d) k s = Some (l, r)) /\
  (forall d s m r, members_text d s m r -> forall k, size s < k -> parse_members (parse_value d) k s = Some (m, r)).
Proof.
  apply texts_min.
  1-3: intros d s r H; read_literal H Hs.
  - intros d s n r H. pose proof (scan_num_head _ _ _ H) as (a & s' & Hs & Ha).
    eapply plain_complete; [exact Hs|by intros ->..|]. rewrite Hs in *. unfold parse_plain.
    by rewrite !skip_prefix_other, H by (by intros ->).
  - intros d s s1 raw r Hs Hraw. rewrite parse_value_eq, Hs. cbn. by rewrite Hraw.
  - intros d s s1 r Hs H1. rewrite parse_value_eq, Hs. cbn. unfold parse_array. by rewrite H1.
  - intros d s s1 l r Hs He IH. rewrite parse_value_eq, Hs. cbn -[parse_elems]. unfold parse_array.
    assert (exists a s', skip_ws s1 = String a s' /\ a ≠ bracket_close) as (a & s' & -> & Ha)
      by (destruct He; by eapply value_head).
    rewrite (bool_decide_eq_false_2 (a = _)) by done. by rewrite IH by lia.
  - intros d s s1 r Hs H1. rewrite parse_value_eq, Hs. cbn. unfold parse_object. by rewrite H1.
  - intros d s s1 m r Hs Hm IH. rewrite parse_value_eq, Hs. cbn -[parse_members]. unfold parse_object.
    assert (exists s', skip_ws s1 = String dquote s') as (s' & ->) by (destruct Hm; by eauto).
    cbn -[parse_members]. by rewrite IH by lia.
  - intros d s v r r' Hv IH Hr [|k] Hk; [lia|]. cbn [parse_elems]. rewrite IH. cbn. by rewrite Hr.
  - intros d s v r r1 vs r' Hv IH Hr He IHe [|k] Hk; [lia|]. cbn [parse_elems]. rewrite IH. cbn.
    rewrite Hr. cbn. apply value_size in Hv. apply skip_ws_cons in Hr. by rewrite IHe by lia.
  - intros d s s1 k0 s2 s3 v r r' Hs Hk0 Hs2 Hv IH Hr [|k] Hk; [lia|]. cbn [parse_members].
    rewrite Hs. cbn. rewrite Hk0. cbn. rewrite Hs2. cbn. rewrite IH. cbn. by rewrite Hr.
  - intros d s s1 k0 s2 s3 v r r1 ms r' Hs Hk0 Hs2 Hv IH Hr Hm IHm [|k] Hk; [lia|]. cbn [parse_members].
    rewrite Hs. cbn. rewrite Hk0. cbn. rewrite Hs2. cbn. rewrite IH. cbn. rewrite Hr. cbn.
    apply skip_ws_cons in Hs, Hs2, Hr. apply scan_str_size in Hk0. apply value_size in Hv. by rewrite IHm by lia.
Qed.

#[local] Transparent parse_json.

(** The parser is the grammar: its fuel is always enough. *)
Lemma parse_json_document s v : parse_json s = Some v <-> document s v.
Proof.
  unfold parse_json, document. split.
  - destruct (parse_value _ s) as [[v' r]|] eqn:Hv; cbn; [|done]. case_bool_decide; [|done]. intros [= <-].
    exists r. split; [by eapply parse_value_sound|done].
  - intros (r & Hv & Hr). rewrite (proj1 texts_complete _ s v r Hv). cbn. by rewrite Hr.
Qed.

(** ** The manifest of the managed pipelines *)

(** the entries a manifest text holds *)
Definition manifest_text (data : string) (entries : list ManagedPipelineEntry) : Prop :=
  (document data JNull /\ entries = []) \/
  exists l, document data (JArr l) /\ Forall2 (fun j e => decode_entry j = Some e) l entries.

Lemma unmarshal_entries_text data entries :
  unmarshal_entries data = inl entries <-> manifest_text data entries.
Proof.
  unfold unmarshal_entries, manifest_text. setoid_rewrite <- parse_json_document. split.
  - destruct (parse_json data) as [[]|] eqn:Hp; try done; [intros [= <-]; by left|].
    destruct (mapM decode_entry l) as [es|] eqn:Hm; [|done]. intros [= <-]. right. exists l.
    split; [done|]. by apply mapM_Some.
  - intros [[-> ->]|(l & -> & Hl)]; [done|]. apply mapM_Some in Hl. by rewrite Hl.
Qed.

Lemma names_of_entries entries n b :
  fold_left add_name entries (∅ : gmap string bool) !! n = Some b <-> b = true /\ manifest_name entries n.
Proof.
  assert (fold_left add_name entries (∅ : gmap string bool) !! n = Some true <-> manifest_name entries n) as Ht.
  { rewrite add_name_lookup, lookup_empty. unfold manifest_name. split; [by intros [?|?]|by right]. }
  split; [|by intros [-> ?%Ht]]. intros H.
  assert (b = true) as -> by (by apply (add_name_true entries ∅ n)). by rewrite <- Ht.
Qed.

(** C18: The parser of the manifest always answers, and its answer is given by
    the grammar of JSON texts alone, so that no manifest is misread for want of
    fuel: it accepts exactly the non-empty texts that are a null or an array
    whose elements decode to entries, and then yields a map that holds, all of
    them true, exactly the names of the entries without the white space around
    them, blank ones left out; every other text is an error. *)
Theorem ParseManagedPipelinesManifest_exact data :
  (forall names, ParseManagedPipelinesManifest data = inl names <->
     data ≠ "" /\ exists entries, manifest_text data entries /\
       forall n b, names !! n = Some b <-> b = true /\ manifest_name entries n) /\
  ((exists e, ParseManagedPipelinesManifest data = inr e) <->
     data = "" \/ forall entries, ~ manifest_text data entries).
Proof.
  setoid_rewrite <- unmarshal_entries_text. unfold ParseManagedPipelinesManifest. split.
  - intros names. case_bool_decide as Hd; [naive_solver|].
    destruct (unmarshal_entries data) as [entries|e] eqn:Hu; [|naive_solver]. split.
    + intros [= <-]. split; [done|]. exists entries. split; [done|]. intros n b. apply names_of_entries.
    + intros (_ & ? & [= <-] & H). f_equal. apply map_eq. intros n. apply option_eq. intros b.
      by rewrite names_of_entries, H.
  - case_bool_decide as Hd; [naive_solver|].
    destruct (unmarshal_entries data) as [entries|e] eqn:Hu; split; try naive_solver.
Qed.
