(* ===== verification/Fetcher.v ===== *)
(** * The manifest fetcher (controllers/managed_pipelines_fetcher.go)

    The names of an image's managed pipelines: resolve the image's digest,
    look the digest up in the cache, and on a miss read the manifest out of the
    image's layers.  The cache is shared by concurrent reconciles; its maps
    live in a heap, so that copies and aliases are told apart.  A mutex makes
    [getCached] and [putCache] atomic. *)

From stdpp Require Import base gmap strings list fin_maps.
From Stdlib Require Import ZArith Lia.
From S2P Require Import Prelude GoStd GoJson KubeTypes ApiTypes Data Platform Config Sim ManagedPipelines.

Definition managedPipelinesJSONPath : string := "app/managed-pipelines.json".
Definition cacheTTL : Z := 600 * Second.
Definition registryFetchTimeout : Z := 30 * Second.
Definition maxManagedPipelinesManifestSize : Z := 1048576.

Definition NewOCIManifestFetcher (allowedRegistries : list string) : OCIManifestFetcher :=
  MkOCIManifestFetcher ∅ ∅ 1%N allowedRegistries.

Definition isRegistryAllowed (f : OCIManifestFetcher) (registry : string) : bool :=
  existsb (EqualFold registry) (oci_AllowedRegistries f).

(** ** Reading one layer *)

Definition isWhiteoutFor (entryName targetPath : string) : bool :=
  let dir := path_Dir targetPath in
  let base := path_Base targetPath in
  bool_decide (entryName = dir +:+ "/.wh." +:+ base) || bool_decide (entryName = dir +:+ "/.wh..wh..opq").

Definition readBoundedTarEntry (name : string) (size : Z) (content : string + string) : string + error :=
  if (size <? 0)%Z || (maxManagedPipelinesManifestSize <? size)%Z
  then inr (ErrNew (name +:+ " size " +:+ fmt_d size +:+ " exceeds limit of " +:+
                    fmt_d maxManagedPipelinesManifestSize +:+ " bytes"))
  else match content with
       | inl data => inl data
       | inr why => inr (ErrWrap ("failed to read " +:+ name +:+ " from tar: ") (ErrForeign why) "")
       end.

(** the loop over the entries of the stream *)
Fixpoint scan_tar (targetPath : string) (items : list TarItem) (foundData : option string)
    (foundWhiteout : bool) : option string * bool + error :=
  match items with
  | [] => inl (foundData, foundWhiteout)
  | TarFailure why :: _ => inr (ErrWrap "tar read error: " (ErrForeign why) "")
  | TarEntry name size content :: items' =>
      if isWhiteoutFor name targetPath then scan_tar targetPath items' foundData true
      else if bool_decide (name = targetPath) then
        match readBoundedTarEntry name size content with
        | inr e => inr e
        | inl data => scan_tar targetPath items' (Some data) foundWhiteout
        end
      else scan_tar targetPath items' foundData foundWhiteout
  end.

Definition extractFileFromTar (items : list TarItem) (targetPath : string) : string + error :=
  match scan_tar targetPath items None false with
  | inr e => inr e
  | inl (Some data, _) => inl data
  | inl (None, true) => inr ErrTarWhiteout
  | inl (None, false) => inr ErrTarNotFound
  end.

(** ** Reading an image *)

(** the loop over the layers, from the newest, which has index [i], down *)
Fixpoint scan_layers (imageRef : string) (layers : list (list TarItem + error)) (i : Z) : string + error :=
  match layers with
  | [] => inr (ErrPermanent (ErrNew ("managed-pipelines.json not found in image " +:+ fmt_q imageRef)))
  | inr e :: _ =>
      inr (ErrWrap ("failed to open layer " +:+ fmt_d i +:+ " for image " +:+ fmt_q imageRef +:+ ": ") e "")
  | inl items :: older =>
      match extractFileFromTar items managedPipelinesJSONPath with
      | inl data => inl data
      | inr tarErr =>
          if errors_Is tarErr ErrTarNotFound then scan_layers imageRef older (i - 1)
          else if errors_Is tarErr ErrTarWhiteout then
            inr (ErrPermanent (ErrNew ("managed-pipelines.json not found in image " +:+ fmt_q imageRef +:+
              " (deleted by whiteout in layer " +:+ fmt_d i +:+ ")")))
          else
            inr (ErrWrap ("failed to scan layer " +:+ fmt_d i +:+ " for " +:+ managedPipelinesJSONPath +:+
              " in image " +:+ fmt_q imageRef +:+ ": ") tarErr "")
      end
  end.

(** ** The cache *)

(** the contents of a map that was allocated *)
Definition heap_get (f : OCIManifestFetcher) (l : loc) : gmap string bool := default ∅ (oci_heap f !! l).

(** [make(map[string]bool)], filled with [m] *)
Definition alloc (m : gmap string bool) (f : OCIManifestFetcher) : loc * OCIManifestFetcher :=
  (oci_next f, f <| oci_heap ::= <[oci_next f := m]> |> <| oci_next ::= N.succ |>).

Definition copyStringBoolMap (l : loc) (f : OCIManifestFetcher) : loc * OCIManifestFetcher :=
  alloc (heap_get f l) f.

Definition expired (now : Z) (entry : cacheEntry) : bool := (cacheTTL <? now - ce_fetchedAt entry)%Z.

Definition pruneExpiredLocked (now : Z) (f : OCIManifestFetcher) : OCIManifestFetcher :=
  f <| oci_cache ::= filter (fun kv => expired now kv.2 = false) |>.

(** what [getCached] does once it has found an entry and read the clock *)
Definition get_entry (digestStr : string) (entry : cacheEntry) (now : Z) (f : OCIManifestFetcher) :
    option loc * OCIManifestFetcher :=
  if expired now entry then (None, f <| oci_cache ::= delete digestStr |>)
  else let '(l, f') := copyStringBoolMap (ce_names entry) f in (Some l, f').

(** what [putCache] does once it has read the clock *)
Definition put_entry (digestStr : string) (names : loc) (now : Z) (f : OCIManifestFetcher) : OCIManifestFetcher :=
  let f := pruneExpiredLocked now f in
  let '(l, f) := copyStringBoolMap names f in
  f <| oci_cache ::= <[digestStr := MkcacheEntry l now]> |>.

Section Fetcher.
  Context {P : Platform}.

Definition upd_oci {A} (g : OCIManifestFetcher -> A * OCIManifestFetcher) : M A := fun s =>
  let '(a, f) := g (st_oci s) in Run (Ret a) (s <| st_oci := f |>) [].

Definition getCached (digestStr : string) : M (option loc) :=
  f ← gets st_oci;
  match oci_cache f !! digestStr with
  | None => mret None
  | Some entry => t ← now; upd_oci (get_entry digestStr entry t)
  end.

Definition putCache (digestStr : string) (names : loc) : M unit :=
  t ← now;
  upd_oci (fun f => (tt, put_entry digestStr names t f)).

Definition resolveImageDigest (imageRef : string) : M (Image * string) :=
  registry ← lift (match parse_reference imageRef with
                   | inl r => inl r
                   | inr e => inr (ErrPermanent (ErrWrap ("invalid image reference " +:+ fmt_q imageRef +:+ ": ") e ""))
                   end);
  f ← gets st_oci;
  (if bool_decide (0 < length (oci_AllowedRegistries f)) && negb (isRegistryAllowed f registry)
   then fail (ErrPermanent (ErrNew ("registry " +:+ fmt_q registry +:+
          " is not in the allowed list for managed pipelines")))
   else mret tt) ;;
  r ← try (io (CRegistry imageRef) (remote_image imageRef));
  img ← lift (match r with
              | inl img => inl img
              | inr e => inr (ErrWrap ("failed to pull image " +:+ fmt_q imageRef +:+ ": ") e "")
              end);
  digest ← lift (match image_digest img with
                 | inl d => inl d
                 | inr e => inr (ErrWrap ("failed to resolve digest for image " +:+ fmt_q imageRef +:+ ": ") e "")
                 end);
  mret (img, digest).

Definition extractManifestFromImage (img : Image) (imageRef : string) : M string :=
  r ← try (io (CLayers imageRef) (image_layers img));
  match r with
  | inr e => fail (ErrWrap ("failed to get layers for image " +:+ fmt_q imageRef +:+ ": ") e "")
  | inl layers => lift (scan_layers imageRef (rev layers) (Z.of_nat (length layers) - 1))
  end.

(** The result is the location of the map handed to the caller. *)
Definition FetchPipelineNames (imageRef : string) : M loc :=
  '(img, digestStr) ← resolveImageDigest imageRef;
  cached ← getCached digestStr;
  match cached with
  | Some l => mret l
  | None =>
      data ← extractManifestFromImage img imageRef;
      names ← lift (match ParseManagedPipelinesManifest data with
                    | inl names => inl names
                    | inr e => inr (ErrPermanent e)
                    end);
      l ← upd_oci (alloc names);
      putCache digestStr l ;;
      upd_oci (copyStringBoolMap l)
  end.
End Fetcher.

(** ** One layer: a file takes precedence over a whiteout *)

(** the contents of the entries for a path, in order *)
Definition entries_for (target : string) (items : list TarItem) : list (string + error) :=
  omap (fun it => match it with
                  | TarEntry n sz c => if bool_decide (n = target) && negb (isWhiteoutFor n target)
                                       then Some (readBoundedTarEntry n sz c) else None
                  | TarFailure _ => None end) items.

Definition is_failure (it : TarItem) : bool := match it with TarFailure _ => true | _ => false end.
Definition is_whiteout (target : string) (it : TarItem) : bool :=
  match it with TarEntry n _ _ => isWhiteoutFor n target | _ => false end.

Lemma scan_tar_inl target items d w r :
  scan_tar target items d w = inl r <->
  existsb is_failure items = false /\
  exists ds, entries_for target items = inl <$> ds /\
    r = (match last ds with Some x => Some x | None => d end, w || existsb (is_whiteout target) items).
Proof.
  revert d w. induction items as [|[n sz c|e] items IH]; intros d w.
  - simpl. rewrite orb_false_r. split.
    + intros [= <-]. split; [done|]. by exists [].
    + intros (_ & [|x ds] & Hds & ->); [done|discriminate].
  - cbn [scan_tar existsb is_failure is_whiteout orb entries_for omap list_omap].
    destruct (isWhiteoutFor n target) eqn:Hw.
    + rewrite IH, andb_false_r. by rewrite orb_true_r.
    + rewrite andb_true_r, orb_false_l. case_bool_decide as Hn; [|by rewrite IH].
      destruct (readBoundedTarEntry n sz c) as [x|e].
      * rewrite IH. f_equiv. split.
        -- intros (ds & Hds & ->). exists (x :: ds). split; [by rewrite fmap_cons; f_equal|].
           rewrite last_cons. by destruct (last ds).
        -- intros ([|y ds] & Hds & ->); [discriminate|]. rewrite fmap_cons in Hds. injection Hds as <- Hds.
           exists ds. split; [done|]. rewrite last_cons. by destruct (last ds).
      * split; [done|]. intros (_ & [|y ds] & Hds & _); discriminate.
  - simpl. split; [done|]. by intros [? _].
Qed.

(** C29: A layer yields the file exactly when its stream is sound and it has an
    entry for the path (the last one, each within the size limit), whatever
    whiteouts it also has; it counts as deleting the file when it has only a
    whiteout, and as silent when it has neither. *)
Theorem extractFileFromTar_spec (items : list TarItem) (target : string) :
  (forall data, extractFileFromTar items target = inl data <->
     existsb is_failure items = false /\
     exists ds, entries_for target items = inl <$> ds /\ last ds = Some data) /\
  (extractFileFromTar items target = inr ErrTarWhiteout <->
     existsb is_failure items = false /\ entries_for target items = [] /\
     existsb (is_whiteout target) items = true) /\
  (extractFileFromTar items target = inr ErrTarNotFound <->
     existsb is_failure items = false /\ entries_for target items = [] /\
     existsb (is_whiteout target) items = false).
Proof.
  assert (forall e d w, scan_tar target items d w = inr e -> e ≠ ErrTarWhiteout /\ e ≠ ErrTarNotFound) as Herr.
  { induction items as [|[n sz c|e'] l IH]; intros e d w; cbn [scan_tar]; [done| |by intros [= <-]].
    repeat case_match; eauto. intros [= <-]. unfold readBoundedTarEntry in *.
    repeat case_match; simplify_eq; done. }
  pose proof (fun r => scan_tar_inl target items None false r) as Hs.
  unfold extractFileFromTar. destruct (scan_tar target items None false) as [[d w]|e] eqn:Hscan.
  - destruct (proj1 (Hs _) eq_refl) as (Hf & ds & Hds & Hr). rewrite Hf. simpl in Hr.
    injection Hr as Hd Hw. rewrite Hds, <- Hw.
    assert (forall ds', (inl <$> ds : list (string + error)) = inl <$> ds' -> ds = ds') as Hinj.
    { intros ds' H. by apply (inj (fmap inl)) in H. }
    assert ((inl <$> ds : list (string + error)) = [] <-> d = None) as Hnil.
    { subst d. destruct ds as [|x ds]; [done|]. rewrite last_cons. by destruct (last ds). }
    split_and!.
    + intros data. split.
      * intros H. split; [done|]. exists ds. split; [done|]. subst d. destruct (last ds); [by simplify_eq|].
        by destruct w.
      * intros (_ & ds' & <-%Hinj & Hl). subst d. by rewrite Hl.
    + rewrite Hnil. destruct d; [naive_solver|]. destruct w; naive_solver.
    + rewrite Hnil. destruct d; [naive_solver|]. destruct w; naive_solver.
  - destruct (Herr e None false Hscan) as [Hn1 Hn2].
    assert (forall ds, existsb is_failure items = false -> entries_for target items = inl <$> ds -> False) as Hno.
    { intros ds Hf Hds. pose proof (proj2 (Hs _) (conj Hf (ex_intro _ ds (conj Hds eq_refl)))) as H.
      discriminate H. }
    split_and!.
    + intros data. split; [done|]. intros (Hf & ds & Hds & _). exfalso. eauto.
    + split; [by intros [= ?]|]. intros (Hf & Hds & _). exfalso. by apply (Hno []).
    + split; [by intros [= ?]|]. intros (Hf & Hds & _). exfalso. by apply (Hno []).
Qed.

(** ** The image: the newest layer that says something decides *)

(** What a layer of an image does to the manifest of the layers below it:
    replaces it, hides it, or leaves it; or the layer cannot be read. *)
Inductive LayerSays := LHas (data : string) | LHides | LSilent | LBroken.

Definition named (names : list string) (it : TarItem) : bool :=
  match it with TarEntry n _ _ => bool_decide (n ∈ names) | TarFailure _ => false end.

(** the contents of a file that could be read and is at most 1 MiB long *)
Definition contents (it : TarItem) : option string :=
  match it with
  | TarEntry _ size (inl data) => if (0 <=? size)%Z && (size <=? 1048576)%Z then Some data else None
  | _ => None
  end.

(** A layer with the file replaces it, by the last one it has; a layer without,
    but with a whiteout of the file or a marker that its directory is opaque,
    hides it. *)
Definition layer_says (layer : list TarItem + error) : LayerSays :=
  match layer with
  | inr _ => LBroken
  | inl items =>
      if existsb is_failure items then LBroken else
      match mapM contents (List.filter (named ["app/managed-pipelines.json"]) items) with
      | None => LBroken
      | Some files =>
          match last files with
          | Some data => LHas data
          | None => if existsb (named ["app/.wh.managed-pipelines.json"; "app/.wh..wh..opq"]) items
                    then LHides else LSilent
          end
      end
  end.

(** The file in the file system that the layers make up, put on top of each
    other from the oldest; what an unreadable layer would do to it is an
    argument. *)
Definition overlay (broken : option string -> option string) (layers : list (list TarItem + error)) :
    option string :=
  fold_left (fun file l => match layer_says l with
                           | LHas d => Some d
                           | LHides => None
                           | LSilent => file
                           | LBroken => broken file
                           end) layers None.

Lemma isWhiteoutFor_manifest n :
  isWhiteoutFor n managedPipelinesJSONPath =
  bool_decide (n ∈ ["app/.wh.managed-pipelines.json"; "app/.wh..wh..opq"]).
Proof.
  unfold isWhiteoutFor. change (path_Dir managedPipelinesJSONPath) with "app".
  change (path_Base managedPipelinesJSONPath) with "managed-pipelines.json".
  rewrite <- bool_decide_or. apply bool_decide_ext. set_solver.
Qed.

Lemma readBoundedTarEntry_contents n sz c :
  match readBoundedTarEntry n sz c with
  | inl data => contents (TarEntry n sz c) = Some data
  | inr e => contents (TarEntry n sz c) = None /\ errors_Is e ErrTarNotFound = false /\ errors_Is e ErrTarWhiteout = false
  end.
Proof.
  unfold readBoundedTarEntry, contents, maxManagedPipelinesManifestSize. rewrite Z.ltb_antisym, (Z.ltb_antisym sz).
  destruct (0 <=? sz)%Z, (sz <=? 1048576)%Z, c as [data|why]; cbn; auto.
Qed.

Lemma scan_tar_says items d w :
  match scan_tar managedPipelinesJSONPath items d w with
  | inl (d', w') =>
      existsb is_failure items = false /\
      exists files, mapM contents (List.filter (named ["app/managed-pipelines.json"]) items) = Some files /\
        d' = match last files with Some x => Some x | None => d end /\
        w' = w || existsb (named ["app/.wh.managed-pipelines.json"; "app/.wh..wh..opq"]) items
  | inr e => (existsb is_failure items = true \/
              mapM contents (List.filter (named ["app/managed-pipelines.json"]) items) = None) /\
             errors_Is e ErrTarNotFound = false /\ errors_Is e ErrTarWhiteout = false
  end.
Proof.
  revert d w. induction items as [|[n sz c|why] items IH]; intros d w; cbn [scan_tar existsb is_failure named List.filter orb].
  - split; [done|]. exists []. by rewrite orb_false_r.
  - rewrite isWhiteoutFor_manifest. destruct (bool_decide (n ∈ ["app/.wh.managed-pipelines.json"; _])) eqn:Hw.
    + apply bool_decide_eq_true in Hw. rewrite (bool_decide_eq_false_2 (n ∈ ["app/managed-pipelines.json"]));
        [|intros ->%list_elem_of_singleton; set_solver].
      specialize (IH d true). destruct (scan_tar _ _ _ _) as [[d' w']|e]; [|done]. by rewrite orb_true_r.
    + replace (bool_decide (n ∈ ["app/managed-pipelines.json"])) with (bool_decide (n = managedPipelinesJSONPath))
        by (apply bool_decide_ext; set_solver).
      destruct (bool_decide (n = managedPipelinesJSONPath)); [|exact (IH d w)]. pose proof (readBoundedTarEntry_contents n sz c) as Hc.
      destruct (readBoundedTarEntry n sz c) as [data|e]; cbn [mapM].
      * rewrite Hc. specialize (IH (Some data) w). destruct (scan_tar _ _ _ _) as [[d' w']|e].
        -- destruct IH as (Hf & files & -> & -> & ->). split; [done|]. exists (data :: files). split_and!; [done| |done].
           rewrite last_cons. by destruct (last files).
        -- destruct IH as ([?|Hn] & ?); (split; [|done]); [by left|right]. by rewrite Hn.
      * destruct Hc as (-> & ? & ?). auto.
  - auto.
Qed.

Lemma layer_says_scanned items :
  layer_says (inl items) =
  match extractFileFromTar items managedPipelinesJSONPath with
  | inl d => LHas d
  | inr e => if errors_Is e ErrTarNotFound then LSilent else if errors_Is e ErrTarWhiteout then LHides else LBroken
  end.
Proof.
  unfold layer_says, extractFileFromTar. pose proof (scan_tar_says items None false) as H.
  destruct (scan_tar _ _ _ _) as [[d w]|e].
  - destruct H as (-> & files & -> & -> & ->). destruct (last files); [done|]. by destruct (existsb _ items).
  - destruct H as ([->| ->] & -> & ->); [done|]. by destruct (existsb _ items).
Qed.

Lemma scan_layers_overlay ref broken layers i :
  match scan_layers ref (rev layers) i with
  | inl d => overlay broken layers = Some d
  | inr (ErrPermanent _) => overlay broken layers = None
  | inr _ => exists l, l ∈ layers /\ layer_says l = LBroken
  end.
Proof.
  revert i. induction layers as [|l layers IH] using rev_ind; intros i; [done|].
  rewrite rev_unit. cbn [scan_layers]. unfold overlay. rewrite fold_left_app. cbn [fold_left].
  fold (overlay broken layers). assert (l ∈ layers ++ [l]) as Hin by set_solver.
  destruct l as [items|e]; [|eauto]. pose proof (layer_says_scanned items) as Hsays.
  destruct (extractFileFromTar _ _) as [d|e]; [by rewrite Hsays|].
  destruct (errors_Is e ErrTarNotFound); [|destruct (errors_Is e ErrTarWhiteout); [by rewrite Hsays|eauto]].
  rewrite Hsays. specialize (IH (i - 1)%Z). destruct (scan_layers _ _ _) as [d|[]]; try done.
  all: destruct IH as (l & Hl & ?); exists l; split; [set_solver|done].
Qed.

Section FetcherProofs.
  Context {P : Platform}.

Lemma extractManifestFromImage_run img ref (s : St) :
  extractManifestFromImage img ref s =
  let '(r, w) := image_layers img (st_world s) in
  Run (match r with
       | inl layers => match scan_layers ref (rev layers) (Z.of_nat (length layers) - 1) with
                       | inl d => Ret d | inr e => Fail e end
       | inr e => Fail (ErrWrap ("failed to get layers for image " +:+ fmt_q ref +:+ ": ") e "")
       end)
    (s <| st_world := w |>) [Ev (CLayers ref) (match r with inl _ => true | inr _ => false end)].
Proof.
  unfold extractManifestFromImage, try, io, mbind, prog_bind. simpl.
  destruct (image_layers img (st_world s)) as [[layers|e] w]; simpl; [|done].
  by destruct (scan_layers _ _ _).
Qed.

(** C13: What is extracted from an image is the manifest of the file system its
    layers make up, put on top of each other from the oldest: each layer replaces
    the file, by the last entry it has for it, or hides it, if it has no entry
    but a whiteout of the file or the marker that its directory is opaque, or
    else leaves it.  Data that is returned is that file; a permanent failure means
    there is no such file, either way whatever the layers that could not be read
    would have contained; any other failure means a layer could not be read.
    (Markers further up, which remove the directory itself, do not count.) *)
Theorem extractManifestFromImage_overlay img ref (s : St) layers :
  (image_layers img (st_world s)).1 = inl layers ->
  wp (extractManifestFromImage img ref) (fun o _ _ =>
    match o with
    | Ret d => forall broken, overlay broken layers = Some d
    | Fail (ErrPermanent _) => forall broken, overlay broken layers = None
    | Fail _ => exists l, l ∈ layers /\ layer_says l = LBroken
    | Panic _ => False
    end) s.
Proof.
  intros Hl. unfold wp. rewrite extractManifestFromImage_run.
  destruct (image_layers img (st_world s)) as [r w]. simpl in *. subst r. 
  pose proof (fun b => scan_layers_overlay ref b layers (Z.of_nat (length layers) - 1)) as H.
  destruct (scan_layers _ _ _) as [d|[]]; try exact H; exact (H (fun _ => None)).
Qed.

Lemma registry_refused ref registry (s : St) :
  parse_reference ref = inl registry -> oci_AllowedRegistries (st_oci s) ≠ [] ->
  isRegistryAllowed (st_oci s) registry = false ->
  exists e, FetchPipelineNames ref s = Run (Fail (ErrPermanent e)) s [].
Proof.
  intros Hp Hne Hno. eexists. apply bind_fail. unfold resolveImageDigest. rewrite Hp. do 2 go_run.
  rewrite Hno, bool_decide_eq_true_2; [by apply bind_fail|].
  destruct (oci_AllowedRegistries _); [done|simpl; lia].
Qed.

Lemma isRegistryAllowed_iff f registry :
  isRegistryAllowed f registry = true <->
  exists a, a ∈ oci_AllowedRegistries f /\ ToLower registry = ToLower a.
Proof.
  unfold isRegistryAllowed, EqualFold. rewrite existsb_exists. setoid_rewrite list_elem_of_In.
  by setoid_rewrite bool_decide_eq_true.
Qed.

(** C22: With an allowlist, a reference whose registry is not on it (up to case)
    is refused with a permanent error before any registry is contacted, and
    the cache is not consulted or changed. *)
Theorem registry_allowlist_enforced ref registry (s : St) :
  parse_reference ref = inl registry ->
  oci_AllowedRegistries (st_oci s) ≠ [] ->
  (forall a, a ∈ oci_AllowedRegistries (st_oci s) -> ToLower registry ≠ ToLower a) ->
  exists e, FetchPipelineNames ref s = Run (Fail (ErrPermanent e)) s [].
Proof.
  intros Hp Hne Hno. apply (registry_refused _ registry); [done..|].
  apply not_true_iff_false. rewrite isRegistryAllowed_iff. intros (a & Ha & Heq). by apply (Hno a).
Qed.
End FetcherProofs.

(** ** The cache under concurrent use

    [fetch_step] is what may happen to the shared fetcher: an atomic lookup or
    store by some reconcile, at some time, or a write by a caller to a map it
    was handed or made itself.  [genuine d names] says that [names] is what the
    image with digest [d] contains. *)

Section Sharing.
  Variable genuine : string -> gmap string bool -> Prop.

Record shared := MkShared { sh_fetcher : OCIManifestFetcher; sh_owned : gset loc }.

Inductive fetch_step : shared -> shared -> Prop :=
  | step_get f owned d entry t ol f' :
      oci_cache f !! d = Some entry -> get_entry d entry t f = (ol, f') ->
      fetch_step (MkShared f owned) (MkShared f' (owned ∪ list_to_set (option_list ol)))
  | step_make f owned m l f' :
      alloc m f = (l, f') ->
      fetch_step (MkShared f owned) (MkShared f' (owned ∪ {[l]}))
  | step_put f owned d names t :
      names ∈ owned -> genuine d (heap_get f names) ->
      fetch_step (MkShared f owned) (MkShared (put_entry d names t f) owned)
  | step_write f owned l m :
      l ∈ owned ->
      fetch_step (MkShared f owned) (MkShared (f <| oci_heap ::= <[l := m]> |>) owned).

(** Cached maps are allocated, belong to no caller, and are what the image of
    that digest contains. *)
Definition cache_ok (sh : shared) : Prop :=
  (forall l, l ∈ sh_owned sh -> (l < oci_next (sh_fetcher sh))%N) /\
  (forall d e, oci_cache (sh_fetcher sh) !! d = Some e ->
     (ce_names e < oci_next (sh_fetcher sh))%N /\ ce_names e ∉ sh_owned sh /\
     genuine d (heap_get (sh_fetcher sh) (ce_names e))).

Lemma heap_get_alloc m f l f' l' :
  alloc m f = (l, f') -> heap_get f' l' = if bool_decide (l' = l) then m else heap_get f l'.
Proof.
  intros [= <- <-]. unfold heap_get. simpl. case_bool_decide as H.
  - subst. by rewrite lookup_insert_eq.
  - by rewrite lookup_insert_ne.
Qed.

Lemma cache_ok_step sh sh' : fetch_step sh sh' -> cache_ok sh -> cache_ok sh'.
Proof.
  intros Hstep [Ho Hc]. destruct Hstep as [f owned d entry t ol f' Hd Hg|f owned m l f' Ha|
    f owned d names t Hn Hgen|f owned l m Hl]; simpl in *.
  - unfold get_entry in Hg. destruct (expired t entry).
    + injection Hg as <- <-. split; simpl; [intros l; set_solver|]. intros d' e [_ He]%lookup_delete_Some.
      destruct (Hc d' e He) as (? & ? & ?). split_and!; [done|set_solver|done].
    + unfold copyStringBoolMap in Hg. destruct (alloc (heap_get f (ce_names entry)) f) as [l f1] eqn:Hal.
      injection Hg as <- <-. pose proof (fun l' => heap_get_alloc _ _ _ _ l' Hal) as Hget.
      injection Hal as <- <-. split; simpl in *.
      * intros l' [H|H]%elem_of_union; [specialize (Ho _ H); lia|].
        rewrite elem_of_union, elem_of_singleton in H. destruct H as [->|H%elem_of_empty]; [lia|done].
      * intros d' e He. destruct (Hc d' e He) as (? & ? & ?). rewrite Hget, bool_decide_eq_false_2 by lia.
        split_and!; [lia| |done]. rewrite !elem_of_union, elem_of_singleton. intros [?|[?|?%elem_of_empty]]; [done|lia|done].
  - pose proof (fun l' => heap_get_alloc _ _ _ _ l' Ha) as Hget. injection Ha as <- <-. split; simpl in *.
    + intros l' [H| ->%elem_of_singleton]%elem_of_union; [specialize (Ho _ H); lia|lia].
    + intros d' e He. destruct (Hc d' e He) as (? & ? & ?). rewrite Hget, bool_decide_eq_false_2 by lia.
      split_and!; [lia| |done]. rewrite elem_of_union, elem_of_singleton. intros [?|?]; [done|lia].
  - unfold put_entry, copyStringBoolMap. set (f1 := pruneExpiredLocked t f).
    assert (heap_get f1 names = heap_get f names) as Hsame by done.
    destruct (alloc (heap_get f1 names) f1) as [l f2] eqn:Hal.
    pose proof (fun l' => heap_get_alloc _ _ _ _ l' Hal) as Hget. injection Hal as <- <-. split; simpl in *.
    + intros l' H. specialize (Ho _ H). lia.
    + intros d' e [[<- <-]|[Hne He]]%lookup_insert_Some; simpl.
      * split_and!; [lia|intros H; specialize (Ho _ H); lia|].
        replace (heap_get _ _) with (heap_get f names); [done|].
        symmetry. etrans; [exact (Hget (oci_next f))|]. by rewrite bool_decide_eq_true_2 by done.
      * apply map_lookup_filter_Some in He as [He _].
        destruct (Hc d' e He) as (? & ? & ?). split_and!; [lia|done|].
        replace (heap_get _ _) with (heap_get f (ce_names e)); [done|].
        symmetry. etrans; [exact (Hget (ce_names e))|]. by rewrite bool_decide_eq_false_2 by lia.
  - split; simpl; [done|]. intros d e He. destruct (Hc d e He) as (? & Hno & ?). split_and!; [done..|].
    unfold heap_get in *. simpl. rewrite lookup_insert_ne; [done|]. intros Heq. by subst l.
Qed.

Lemma cache_ok_reachable allowed sh :
  rtc fetch_step (MkShared (NewOCIManifestFetcher allowed) ∅) sh -> cache_ok sh.
Proof.
  intros H. remember (MkShared _ _) as sh0 eqn:Heq.
  assert (cache_ok sh0) as H0.
  { subst. split; simpl; [set_solver|]. intros d e. by rewrite lookup_empty. }
  clear Heq. induction H; eauto using cache_ok_step.
Qed.

(** C14: However concurrent reconciles interleave their lookups and stores, and
    whatever callers do to the maps they were handed, a lookup that hits
    returns, in a map nobody else holds, what the image of that digest
    contains, from an entry no older than the time to live. *)
Theorem cache_hit_sound allowed sh d entry t l f' :
  rtc fetch_step (MkShared (NewOCIManifestFetcher allowed) ∅) sh ->
  oci_cache (sh_fetcher sh) !! d = Some entry ->
  get_entry d entry t (sh_fetcher sh) = (Some l, f') ->
  genuine d (heap_get f' l) /\ (t - ce_fetchedAt entry <= cacheTTL)%Z /\ l ∉ sh_owned sh /\
  (forall d' e', oci_cache f' !! d' = Some e' -> ce_names e' ≠ l).
Proof.
  intros Hr Hd Hg. destruct (cache_ok_reachable _ _ Hr) as [Ho Hc].
  unfold get_entry in Hg. destruct (expired t entry) eqn:He; [done|].
  unfold copyStringBoolMap in Hg. destruct (alloc _ _) as [l0 f0] eqn:Hal.
  injection Hg as -> ->. pose proof (heap_get_alloc _ _ _ _ l Hal) as Hget.
  rewrite bool_decide_eq_true_2 in Hget by done. injection Hal as <- <-. split_and!.
  - rewrite Hget. by apply Hc.
  - unfold expired in He. apply Z.ltb_ge in He. done.
  - intros H. specialize (Ho _ H). lia.
  - simpl. intros d' e' He'. destruct (Hc d' e' He') as [? _]. lia.
Qed.
End Sharing.

(** what an image with a digest contains: the names in the manifest of the file
    system some reading of its layers makes up *)
Definition contains `{P : Platform} (d : string) (names : gmap string bool) : Prop :=
  exists (img : Image) (w : World) layers data,
    image_digest img = inl d /\ (image_layers img w).1 = inl layers /\
    (forall broken, overlay broken layers = Some data) /\
    ParseManagedPipelinesManifest data = inl names.

Section FetchProofs.
  Context {P : Platform}.

Lemma resolveImageDigest_keeps ref : keeps st_oci (resolveImageDigest ref).
Proof. unfold resolveImageDigest. go_solve. Qed.

Lemma resolveImageDigest_digest ref (s : St) :
  match out (resolveImageDigest ref s) with
  | Ret (img, d) => (remote_image ref (st_world s)).1 = inl img /\ image_digest img = inl d
  | Fail _ => True
  | Panic _ => False
  end.
Proof.
  unfold resolveImageDigest. destruct (parse_reference ref); [|done].
  rewrite bind_lift, bind_get. destruct (_ && _); [done|]. rewrite bind_ret, bind_try_io.
  destruct (remote_image ref (st_world s)) as [[img|e] w]; [|done]. cbv zeta. rewrite bind_lift.
  by destruct (image_digest img) eqn:Hd.
Qed.

Lemma cache_ok_get owned d entry t f ol f' :
  oci_cache f !! d = Some entry -> get_entry d entry t f = (ol, f') ->
  cache_ok contains (MkShared f owned) ->
  cache_ok contains (MkShared f' (owned ∪ list_to_set (option_list ol))).
Proof. intros Hd Hg. apply cache_ok_step. by eapply step_get. Qed.

Lemma cache_ok_make owned m f l f' :
  alloc m f = (l, f') -> cache_ok contains (MkShared f owned) ->
  l ∉ owned /\ cache_ok contains (MkShared f' (owned ∪ {[l]})).
Proof.
  intros Ha Hc. split.
  - injection Ha as <- _. intros H. apply Hc in H. simpl in H. lia.
  - eapply cache_ok_step; [by eapply step_make|done].
Qed.

Lemma cache_ok_put owned d names t f :
  names ∈ owned -> contains d (heap_get f names) -> cache_ok contains (MkShared f owned) ->
  cache_ok contains (MkShared (put_entry d names t f) owned).
Proof. intros. eapply cache_ok_step; [by eapply step_put|done]. Qed.

Lemma cache_ok_less owned owned' f :
  owned' ⊆ owned -> cache_ok contains (MkShared f owned) -> cache_ok contains (MkShared f owned').
Proof.
  intros Hs [Ho Hc]. split; simpl in *; [set_solver|]. intros d e He.
  destruct (Hc d e He) as (? & ? & ?). split_and!; [done|set_solver|done].
Qed.

(** what a store leaves of the map it was given *)
Lemma put_entry_get d names t f l :
  (l < oci_next f)%N -> heap_get (put_entry d names t f) l = heap_get f l.
Proof.
  intros Hl. unfold put_entry, copyStringBoolMap. 
  destruct (alloc _ _) as [l' f'] eqn:Ha. pose proof (heap_get_alloc _ _ _ _ l Ha) as H.
  injection Ha as <- <-. unfold heap_get in *. simpl in *. rewrite H.
  by rewrite bool_decide_eq_false_2 by lia.
Qed.

Lemma put_entry_next d names t f : (oci_next f <= oci_next (put_entry d names t f))%N.
Proof. simpl. lia. Qed.

Lemma upd_oci_run {A} (g : OCIManifestFetcher -> A * OCIManifestFetcher) (s : St) a f :
  g (st_oci s) = (a, f) -> upd_oci g s = Run (Ret a) (s <| st_oci := f |>) [].
Proof. intros H. unfold upd_oci. by rewrite H. Qed.

Lemma putCache_run d l (s : St) : exists t w,
  putCache d l s = Run (Ret tt) (s <| st_world := w |> <| st_oci := put_entry d l t (st_oci s) |>) [].
Proof.
  destruct (now_run s) as (t & w & Hn). exists t, w. unfold putCache.
  by eapply (bind_run _ _ _ _ _ [] _ _ []); [exact Hn|].
Qed.

Lemma getCached_ok owned d (s : St) :
  cache_ok contains (MkShared (st_oci s) owned) ->
  wp (getCached d) (fun o s' t => t = [] /\ exists ol, o = Ret ol /\
    match ol with
    | Some l => contains d (heap_get (st_oci s') l) /\ l ∉ owned /\
                cache_ok contains (MkShared (st_oci s') (owned ∪ {[l]}))
    | None => cache_ok contains (MkShared (st_oci s') owned)
    end) s.
Proof.
  intros Hc. unfold getCached. apply wp_get.
  destruct (oci_cache (st_oci s) !! d) as [entry|] eqn:Hd; [|by split; [|eexists]].
  destruct (now_run s) as (t & w & Hn). eapply wp_step; [exact Hn|].
  destruct (get_entry d entry t (st_oci s)) as [ol f'] eqn:Hg. eapply wp_run; [by apply upd_oci_run, Hg|].
  cbn [st_oci set].
  split; [done|]. exists ol. split; [done|].
  pose proof (cache_ok_get _ _ _ _ _ _ _ Hd Hg Hc) as Hc'. destruct ol as [l|].
  - unfold get_entry in Hg. destruct (expired t entry); [done|]. unfold copyStringBoolMap in Hg.
    destruct (alloc _ _) as [l0 f0] eqn:Hal. injection Hg as -> ->. split_and!.
    + rewrite (heap_get_alloc _ _ _ _ l Hal), bool_decide_eq_true_2 by done. by apply Hc.
    + by destruct (cache_ok_make _ _ _ _ _ Hal Hc).
    + eapply cache_ok_less; [|exact Hc']. simpl. set_solver.
  - eapply cache_ok_less; [|exact Hc']. set_solver.
Qed.

(** What a fetch leaves behind: on success the names of the image the registry
    serves for the reference, in a map of the caller's own. *)
Definition fetched (ref : string) (owned : gset loc) (s : St) (o : outcome loc) (s' : St) : Prop :=
  match o with
  | Ret l => (exists (img : Image) d, (remote_image ref (st_world s)).1 = inl img /\ image_digest img = inl d /\
                contains d (heap_get (st_oci s') l)) /\
             l ∉ owned /\ cache_ok contains (MkShared (st_oci s') (owned ∪ {[l]}))
  | Fail _ => cache_ok contains (MkShared (st_oci s') owned)
  | Panic _ => False
  end.

Lemma FetchPipelineNames_wp ref owned (s : St) :
  cache_ok contains (MkShared (st_oci s) owned) ->
  wp (FetchPipelineNames ref) (fun o s' _ => fetched ref owned s o s') s.
Proof.
  intros Hc. unfold fetched, FetchPipelineNames. apply wp_bind. unfold wp at 1.
  pose proof (resolveImageDigest_keeps ref s) as Hk. pose proof (resolveImageDigest_digest ref s) as Hd.
  rewrite <- Hk in Hc. destruct (resolveImageDigest ref s) as [o s1 t1]. simpl in *. 
  destruct o as [[img d]|e|p]; [|done|done].
  apply wp_bind. eapply wp_mono; [by apply getCached_ok|]. intros o s2 t2 (_ & ol & -> & Hol).
  destruct ol as [l|]; [split; [exists img, d; split; [apply Hd|split; [apply Hd|apply Hol]]|apply Hol]|].
  apply wp_bind. unfold wp at 1. rewrite extractManifestFromImage_run.
  destruct (image_layers img (st_world s2)) as [[layers|e] w] eqn:Hlay; [|done].
  pose proof (fun b => scan_layers_overlay ref b layers (Z.of_nat (length layers) - 1)) as Hov.
  destruct (scan_layers _ _ _) as [data|e]; [|done]. cbn [out fin evs].
  destruct (ParseManagedPipelinesManifest data) as [names|e] eqn:Hp; [|done].
  apply wp_bind, wp_ret. destruct (alloc names (st_oci s2)) as [l f1] eqn:Hal.
  eapply wp_step; [by apply upd_oci_run, Hal|].
  destruct (putCache_run d l (s2 <| st_world := w |> <| st_oci := f1 |>)) as (t & w' & Hput).
  eapply wp_step; [exact Hput|]. 
  destruct (copyStringBoolMap l (put_entry d l t f1)) as [l' f2] eqn:Hcp.
  eapply wp_run; [by apply upd_oci_run, Hcp|].
  destruct (cache_ok_make _ _ _ _ _ Hal Hol) as [_ Hc1].
  assert (contains d (heap_get f1 l)) as Hcont.
  { rewrite (heap_get_alloc _ _ _ _ l Hal), bool_decide_eq_true_2 by done.
    exists img, (st_world s2), layers, data. rewrite Hlay. split_and!; [apply Hd|done|exact Hov|done]. }
  assert (l ∈ owned ∪ {[l]}) as Hin by set_solver.
  pose proof (cache_ok_put _ _ _ t _ Hin Hcont Hc1) as Hc2.
  unfold copyStringBoolMap in Hcp. destruct (cache_ok_make _ _ _ _ _ Hcp Hc2) as [Hl' Hc3].
  split; [|split; [set_solver|eapply cache_ok_less; [|exact Hc3]; set_solver]].
  exists img, d. split; [apply Hd|split; [apply Hd|]]. cbn [st_oci set].
  rewrite (heap_get_alloc _ _ _ _ l' Hcp), bool_decide_eq_true_2 by done.
  rewrite put_entry_get; [done|]. apply Hc1. simpl. set_solver.
Qed.

(** C5: A fetch that succeeds returns, in a map that neither the cache nor any
    other caller holds, exactly the names in the image with the digest of the
    image that the registry serves for the reference; and whether it succeeds
    or fails, it does not panic and leaves the shared cache sound. *)
Theorem FetchPipelineNames_sound ref owned (s : St) :
  cache_ok contains (MkShared (st_oci s) owned) ->
  wp (FetchPipelineNames ref) (fun o s' _ =>
    match o with
    | Ret l => (exists (img : Image) d, (remote_image ref (st_world s)).1 = inl img /\ image_digest img = inl d /\
                  contains d (heap_get (st_oci s') l)) /\
               l ∉ owned /\ cache_ok contains (MkShared (st_oci s') (owned ∪ {[l]}))
    | Fail _ => cache_ok contains (MkShared (st_oci s') owned)
    | Panic _ => False
    end) s.
Proof. intros Hc. exact (FetchPipelineNames_wp ref owned s Hc). Qed.

(** A reference whose digest has an entry within the time to live is answered
    from the cache: the registry is asked for the digest only, no layer is
    downloaded, and the answer is the cached names. *)
Theorem cache_hit_downloads_nothing ref registry (img : Image) w d entry t w' (s : St) :
  parse_reference ref = inl registry ->
  oci_AllowedRegistries (st_oci s) = [] \/ isRegistryAllowed (st_oci s) registry = true ->
  remote_image ref (st_world s) = (inl img, w) -> image_digest img = inl d ->
  oci_cache (st_oci s) !! d = Some entry ->
  time_now w = (t, w') -> (t - ce_fetchedAt entry <= cacheTTL)%Z ->
  wp (FetchPipelineNames ref) (fun o s' tr => tr = [Ev (CRegistry ref) true] /\
    oci_cache (st_oci s') = oci_cache (st_oci s) /\
    exists l, o = Ret l /\ heap_get (st_oci s') l = heap_get (st_oci s) (ce_names entry)) s.
Proof.
  intros Hp Ha Hi Hd He Ht Hage.
  assert (resolveImageDigest ref s = Run (Ret (img, d)) (s <| st_world := w |>) [Ev (CRegistry ref) true]) as Hr.
  { unfold resolveImageDigest. rewrite Hp, bind_lift, bind_get.
    assert (bool_decide (0 < length (oci_AllowedRegistries (st_oci s))) &&
            negb (isRegistryAllowed (st_oci s) registry) = false) as ->.
    { destruct Ha as [Ha|Ha]; rewrite Ha; [done|apply andb_false_r]. }
    rewrite bind_ret, bind_try_io, Hi. cbv zeta. by rewrite bind_lift, Hd, bind_lift. }
  eapply wp_step; [exact Hr|]. eapply wp_bind. unfold getCached. apply wp_get. simpl. rewrite He.
  eapply wp_step; [by apply now_run_at|]. unfold wp, upd_oci, get_entry. simpl.
  assert (expired t entry = false) as -> by (by apply Z.ltb_ge). simpl. split_and!; [done..|].
  eexists. split; [done|]. unfold heap_get. simpl. by rewrite lookup_insert_eq.
Qed.
End FetchProofs.

(** ** Examples *)

#[local] Existing Instance sim_platform.

Definition tar_file (name content : string) : TarItem := TarEntry name (len content) (inl content).

(** an old layer with the file, a newer one that replaces the directory *)
Definition sample_layers : list (list TarItem + error) :=
  [inl [tar_file managedPipelinesJSONPath "[]"];
   inl [tar_file "app/.wh..wh..opq" ""; tar_file managedPipelinesJSONPath sample_manifest];
   inl [tar_file "etc/hosts" ""]].

Definition sample_ref : string := "quay.io/org/pipelines:v1".
Definition sample_image : Image := ("sha256:aa", sample_layers).

Definition sample_fetch : St :=
  sim_state (sim_empty <| sim_images := {[ sample_ref := sample_image ]} |>) sim_dspa.

Lemma extractManifestFromImage_overlay_witness :
  out (extractManifestFromImage sample_image sample_ref sample_fetch) = Ret sample_manifest /\
  (forall broken, overlay broken sample_layers = Some sample_manifest).
Proof.
  pose proof (extractManifestFromImage_overlay sample_image sample_ref sample_fetch sample_layers eq_refl) as H.
  assert (out (extractManifestFromImage sample_image sample_ref sample_fetch) = Ret sample_manifest) as Ho
    by (vm_compute; reflexivity).
  split; [exact Ho|]. unfold wp in H. rewrite Ho in H. exact H.
Defined.

Lemma registry_allowlist_enforced_witness :
  exists e, FetchPipelineNames sample_ref
              (sample_fetch <| st_oci := NewOCIManifestFetcher ["registry.redhat.io"] |>) =
            Run (Fail (ErrPermanent e)) (sample_fetch <| st_oci := NewOCIManifestFetcher ["registry.redhat.io"] |>) [].
Proof.
  apply (registry_allowlist_enforced sample_ref "quay.io"); [reflexivity|discriminate|].
  intros a Ha. apply list_elem_of_singleton in Ha as ->. vm_compute. discriminate.
Defined.

Lemma FetchPipelineNames_sound_witness :
  cache_ok contains (MkShared (st_oci sample_fetch) ∅) /\
  exists l, out (FetchPipelineNames sample_ref sample_fetch) = Ret l /\
    exists d, contains d (heap_get (st_oci (fin (FetchPipelineNames sample_ref sample_fetch))) l).
Proof.
  assert (cache_ok contains (MkShared (st_oci sample_fetch) ∅)) as Hc.
  { split; simpl; [intros l Hl; destruct (not_elem_of_empty (C := gset loc) _ Hl)|].
    intros d e He. rewrite lookup_empty in He. discriminate He. }
  split; [exact Hc|].
  pose proof (FetchPipelineNames_sound sample_ref ∅ sample_fetch Hc) as H. unfold wp in H.
  assert (out (FetchPipelineNames sample_ref sample_fetch) = Ret 3%N) as Ho by (vm_compute; reflexivity).
  rewrite Ho in H. exists 3%N. split; [exact Ho|]. destruct H as [(img & d & _ & _ & Hd) _]. exists d. exact Hd.
Defined.

(** the state after a first fetch: the entry is 1 s old *)
Definition sample_cached : St := fin (FetchPipelineNames sample_ref sample_fetch).

Lemma cache_hit_downloads_nothing_witness :
  evs (FetchPipelineNames sample_ref sample_cached) = [Ev (CRegistry sample_ref) true].
Proof.
  destruct (oci_cache (st_oci sample_cached) !! "sha256:aa"%string) as [entry|] eqn:He;
    [|vm_compute in He; discriminate He].
  assert (ce_fetchedAt entry = 0%Z) as Ht.
  { vm_compute in He. injection He as <-. reflexivity. }
  eapply (cache_hit_downloads_nothing sample_ref "quay.io" sample_image (st_world sample_cached) "sha256:aa"
    entry (sim_clock (st_world sample_cached)) _ sample_cached);
    [reflexivity|left; reflexivity|vm_compute; reflexivity|reflexivity|exact He|reflexivity|].
  rewrite Ht. vm_compute. discriminate.
Defined.

Lemma cache_hit_sound_witness :
  exists sh d entry t l f',
    rtc (fetch_step (fun _ names => names = {["alpha" := true]}))
        (MkShared (NewOCIManifestFetcher []) ∅) sh /\
    oci_cache (sh_fetcher sh) !! d = Some entry /\ get_entry d entry t (sh_fetcher sh) = (Some l, f') /\
    heap_get f' l = {["alpha" := true]}.
Proof.
  set (f0 := NewOCIManifestFetcher []).
  set (f1 := (alloc {["alpha" := true]} f0).2).
  set (f2 := put_entry "sha256:aa" 1%N 5%Z f1).
  set (f3 := f2 <| oci_heap ::= <[1%N := ∅]> |>).
  assert (rtc (fetch_step (fun _ names => names = {["alpha" := true]}))
    (MkShared f0 ∅) (MkShared f3 (∅ ∪ {[1%N]}))) as Hr.
  { apply rtc_l with (MkShared f1 (∅ ∪ {[1%N]})); [apply (step_make _ f0 ∅ {["alpha" := true]}); reflexivity|].
    apply rtc_l with (MkShared f2 (∅ ∪ {[1%N]})); [apply step_put; [set_solver|reflexivity]|].
    apply rtc_once. apply step_write. set_solver. }
  exists (MkShared f3 (∅ ∪ {[1%N]})), "sha256:aa", (MkcacheEntry 2%N 5%Z), 6%Z, 3%N,
    (snd (get_entry "sha256:aa" (MkcacheEntry 2%N 5%Z) 6%Z f3)).
  split; [exact Hr|]. split; [reflexivity|]. split; [reflexivity|].
  apply (cache_hit_sound _ [] _ "sha256:aa" (MkcacheEntry 2%N 5%Z) 6%Z 3%N _ Hr); reflexivity.
Defined.
