(* ===== verification/Reconciler.v ===== *)
(** * The reconciler object and its MLflow endpoint cache
    (controllers/dspipeline_controller.go, first part; controllers/dspipeline_params.go)

    The endpoint of the MLflow service is read from the API server and kept
    for a time to live per namespace; the cache is shared by all reconciles. *)

From stdpp Require Import base gmap strings list fin_maps.
From Stdlib Require Import ZArith Lia.
From S2P Require Import Prelude GoStd GoJson KubeTypes ApiTypes Data Platform Config Util Sim.

Definition finalizerName : string := "datasciencepipelinesapplications.opendatahub.io/finalizer".
Definition errorUpdatingDspaStatusMsg : string := "Encountered error when updating the DSPA status".
Definition k8sWebhookName : string := "ds-pipelines-webhook".
Definition mlflowCRName : string := "mlflow".
Definition DefaultMLflowEndpointCacheTTL : Z := 45 * Second.

Section Reconciler.
  Context {P : Platform}.

(** An implementation of the interface [PipelineNamesFetcher]: the map of the
    valid names is returned by its location.  Whoever implements it touches
    nothing of a reconcile but the outside world and the shared fetcher state. *)
Record PipelineNamesFetcher := {
  FetchPipelineNames_of : string -> M loc;
  fetch_keeps_dspa imageRef : keeps st_dspa (FetchPipelineNames_of imageRef);
  fetch_keeps_copy imageRef : keeps st_copy (FetchPipelineNames_of imageRef);
  fetch_keeps_params imageRef : keeps st_params (FetchPipelineNames_of imageRef);
  fetch_keeps_status imageRef : keeps st_status (FetchPipelineNames_of imageRef);
  fetch_keeps_mlflow imageRef : keeps st_mlflow (FetchPipelineNames_of imageRef);
  fetch_keeps_gauges imageRef : keeps st_gauges (FetchPipelineNames_of imageRef);
  (** it only ever talks to registries *)
  fetch_emits imageRef : emits (fun e => match ev_call e with
                                          | CRegistry _ | CLayers _ => True
                                          | _ => False end) (FetchPipelineNames_of imageRef);
  fetch_no_panic imageRef : no_panic (FetchPipelineNames_of imageRef)
}.

Record DSPAReconciler := MkDSPAReconciler {
  r_TemplatesPath : string;
  r_MaxConcurrentReconciles : Z;
  r_WebhookAnnotations : gmap string string;
  r_ManifestFetcher : option PipelineNamesFetcher;
  r_AllowedRegistries : list string;
  (** whether the uncached reader is set *)
  r_APIReader : bool;
  r_MLflowEndpointCacheTTL : Z
}.
#[export] Instance settable_DSPAReconciler : Settable DSPAReconciler := fun r =>
  MkDSPAReconciler (r_TemplatesPath r) (r_MaxConcurrentReconciles r) (r_WebhookAnnotations r)
    (r_ManifestFetcher r) (r_AllowedRegistries r) (r_APIReader r) (r_MLflowEndpointCacheTTL r).

(** ** The endpoint *)

(** what is wrong with an endpoint, if anything *)
Definition validateMLflowEndpointURL (raw : string) : option error :=
  let bad := Some (ErrNew ("invalid MLflow endpoint " +:+ fmt_q raw +:+
                           ": must be http/https with non-empty host")) in
  match url_parse (TrimSpace raw) with
  | inr _ => bad
  | inl (scheme, host) =>
      if bool_decide (host = "") ||
         (negb (bool_decide (scheme = "http")) && negb (bool_decide (scheme = "https")))
      then bad else None
  end.

Definition lookupMLflowEndpoint (uncached : bool) (namespace : string) : M string :=
  if bool_decide (namespace = "")
  then fail (ErrNew "namespace must be set for MLflow endpoint lookup")
  else
    mlflowObj ← io (CGet "MLflow" (NN namespace mlflowCRName)) (get_mlflow uncached (NN namespace mlflowCRName));
    match mlf_Address mlflowObj with
    | None | Some EmptyString =>
        fail (ErrNew "MLflow resource missing Status.Address.URL field. Unable to resolve endpoint")
    | Some endpoint =>
        match validateMLflowEndpointURL endpoint with
        | Some err => fail (ErrWrap "MLflow resource has invalid Status.Address.URL: " err "")
        | None => mret endpoint
        end
    end.

(** [now.Before(entry.expires)] *)
Definition fresh (now : Z) (entry : mlflowEndpointCacheEntry) : bool := (now <? mce_expires entry)%Z.

Definition removeExpiredMLflowCacheLocked (now : Z) (cache : gmap string mlflowEndpointCacheEntry) :
    gmap string mlflowEndpointCacheEntry :=
  filter (fun kv => fresh now kv.2 = true) cache.

Definition upd_mlflow (f : gmap string mlflowEndpointCacheEntry -> gmap string mlflowEndpointCacheEntry) :
    M unit := modify (fun s => s <| st_mlflow ::= f |>).

(** the locked deletion of an expired entry, which looks the entry up again *)
Definition drop_expired (now : Z) (namespace : string) (cache : gmap string mlflowEndpointCacheEntry) :
    gmap string mlflowEndpointCacheEntry :=
  match cache !! namespace with
  | Some entry => if negb (fresh now entry) then delete namespace cache else cache
  | None => cache
  end.

(** the part after the lookup in the cache failed *)
Definition fetch_and_store (r : DSPAReconciler) (namespace : string) (now ttl : Z) : M string :=
  endpoint ← lookupMLflowEndpoint (r_APIReader r) namespace;
  upd_mlflow (fun c => <[namespace := MkmlflowEndpointCacheEntry endpoint (now + ttl)]>
                         (removeExpiredMLflowCacheLocked now c)) ;;
  mret endpoint.

Definition retrieveMLflowEndpointCached (r : DSPAReconciler) (namespace : string) : M string :=
  let ttl := if (r_MLflowEndpointCacheTTL r <=? 0)%Z then DefaultMLflowEndpointCacheTTL
             else r_MLflowEndpointCacheTTL r in
  t ← now;
  cache ← gets st_mlflow;
  match cache !! namespace with
  | Some entry =>
      if fresh t entry then mret (mce_endpoint entry)
      else upd_mlflow (drop_expired t namespace) ;; fetch_and_store r namespace t ttl
  | None => fetch_and_store r namespace t ttl
  end.
End Reconciler.

(** ** The cache never serves an endpoint that is stale or not valid *)

Section MLflowProofs.
  Context {P : Platform}.

(** Every cached endpoint is a valid one. *)
Definition mlflow_ok (cache : gmap string mlflowEndpointCacheEntry) : Prop :=
  map_Forall (fun _ e => validateMLflowEndpointURL (mce_endpoint e) = None) cache.

Definition effective_ttl (r : DSPAReconciler) : Z :=
  if (r_MLflowEndpointCacheTTL r <=? 0)%Z then DefaultMLflowEndpointCacheTTL
  else r_MLflowEndpointCacheTTL r.

Lemma lookupMLflowEndpoint_cases b ns (s : St) :
  match lookupMLflowEndpoint b ns s with
  | Run (Ret e) s' t =>
      ns ≠ ""%string /\ e ≠ ""%string /\ validateMLflowEndpointURL e = None /\
      (exists w, s' = s <| st_world := w |> /\ get_mlflow b (NN ns mlflowCRName) (st_world s) = (inl {| mlf_Address := Some e |}, w)) /\
      t = [Ev (CGet "MLflow" (NN ns mlflowCRName)) true]
  | Run (Fail _) s' t => (exists w, s' = s <| st_world := w |>)
  | Run (Panic _) _ _ => False
  end.
Proof.
  unfold lookupMLflowEndpoint. case_bool_decide as Hns.
  { exists (st_world s). by destruct s. }
  rewrite bind_io. destruct (get_mlflow _ _ _) as [[[a]|e] w] eqn:Hg; [|by exists w].
  destruct a as [[|c u]|]; cbn; try by exists w.
  destruct (validateMLflowEndpointURL _) eqn:Hv; cbn; [by exists w|].
  split_and!; [done..| |done]. by exists w.
Qed.

(** What a miss at time [t0] leads to, from the cache [c0] of before. *)
Definition miss_outcome (ns : string) (t0 ttl : Z) (c0 : gmap string mlflowEndpointCacheEntry)
    (o : outcome string) (s' : St) (tr : list event) : Prop :=
  match o with
  | Ret e => validateMLflowEndpointURL e = None /\
      tr = [Ev (CGet "MLflow" (NN ns mlflowCRName)) true] /\
      st_mlflow s' !! ns = Some (MkmlflowEndpointCacheEntry e (t0 + ttl)) /\
      forall ns', ns' ≠ ns ->
        st_mlflow s' !! ns' = (entry ← c0 !! ns'; if fresh t0 entry then Some entry else None)
  | Fail _ => st_mlflow s' !! ns = None /\
              forall ns', ns' ≠ ns -> st_mlflow s' !! ns' = c0 !! ns'
  | Panic _ => False
  end.

Lemma drop_expired_lookup t0 ns c ns' :
  (forall e, c !! ns = Some e -> fresh t0 e = false) ->
  drop_expired t0 ns c !! ns' = if bool_decide (ns' = ns) then None else c !! ns'.
Proof.
  intros Hexp. unfold drop_expired. destruct (c !! ns) as [e|] eqn:He.
  - rewrite Hexp by done. simpl. case_bool_decide; [subst; apply lookup_delete_eq|by apply lookup_delete_ne].
  - case_bool_decide; [by subst|done].
Qed.

Lemma removeExpired_lookup t0 c ns :
  removeExpiredMLflowCacheLocked t0 c !! ns = (entry ← c !! ns; if fresh t0 entry then Some entry else None).
Proof.
  unfold removeExpiredMLflowCacheLocked. apply option_eq. intros e.
  rewrite map_lookup_filter_Some, bind_Some. simpl. split.
  - intros [? Hf]. exists e. by rewrite Hf.
  - intros (e0 & ? & Hf). destruct (fresh t0 e0) eqn:?; naive_solver.
Qed.

Lemma fetch_and_store_spec (r : DSPAReconciler) ns t0 ttl c0 (s1 : St) :
  mlflow_ok c0 -> (forall e, c0 !! ns = Some e -> fresh t0 e = false) ->
  st_mlflow s1 = drop_expired t0 ns c0 ->
  wp (fetch_and_store r ns t0 ttl)
     (fun o s' tr => mlflow_ok (st_mlflow s') /\ miss_outcome ns t0 ttl c0 o s' tr) s1.
Proof.
  intros Hok Hexp Hs1. pose proof (fun ns' => drop_expired_lookup t0 ns c0 ns' Hexp) as Hlk.
  rewrite <- Hs1 in Hlk.
  assert (mlflow_ok (st_mlflow s1)) as Hok1.
  { intros k e. rewrite Hlk. case_bool_decide; [done|]. apply Hok. }
  apply wp_bind. unfold wp at 1. pose proof (lookupMLflowEndpoint_cases (r_APIReader r) ns s1) as Hc.
  destruct (lookupMLflowEndpoint (r_APIReader r) ns s1) as [[e|e|p] s2 tr2]; cbn [out fin evs]; [|..|done].
  - destruct Hc as (_ & _ & Hv & (w & -> & _) & ->). unfold upd_mlflow. apply wp_modify, wp_ret. simpl.
    split_and!; [|done|done|by rewrite lookup_insert_eq|].
    + intros k e'. rewrite lookup_insert_Some. intros [[_ <-]|[_ [He' _]%map_lookup_filter_Some]]; [done|].
      by eapply Hok1.
    + intros ns' Hne. by rewrite lookup_insert_ne, removeExpired_lookup, Hlk, bool_decide_eq_false_2 by done.
  - destruct Hc as (w & ->). simpl. split_and!; [done| |].
    + by rewrite Hlk, bool_decide_eq_true_2.
    + intros ns' Hne. by rewrite Hlk, bool_decide_eq_false_2.
Qed.

(** C38: A cached endpoint is used exactly while it has not expired, without any
    call; otherwise the API server is asked, and an answer is stored for the
    time to live while every expired entry of any namespace is dropped; a
    failure stores nothing and leaves no expired entry for the namespace.
    An endpoint that is returned is a valid http or https URL. *)
Theorem retrieveMLflowEndpointCached_spec (r : DSPAReconciler) ns (s : St) t0 w0 :
  time_now (st_world s) = (t0, w0) -> mlflow_ok (st_mlflow s) ->
  wp (retrieveMLflowEndpointCached r ns) (fun o s' tr =>
    mlflow_ok (st_mlflow s') /\
    match o with
    | Ret e => validateMLflowEndpointURL e = None /\
        ((exists entry, st_mlflow s !! ns = Some entry /\ (t0 < mce_expires entry)%Z /\
            e = mce_endpoint entry /\ tr = [] /\ st_mlflow s' = st_mlflow s) \/
         ((forall entry, st_mlflow s !! ns = Some entry -> (mce_expires entry <= t0)%Z) /\
            tr = [Ev (CGet "MLflow" (NN ns mlflowCRName)) true] /\
            st_mlflow s' !! ns = Some (MkmlflowEndpointCacheEntry e (t0 + effective_ttl r)) /\
            forall ns', ns' ≠ ns ->
              st_mlflow s' !! ns' = (entry ← st_mlflow s !! ns';
                                     if fresh t0 entry then Some entry else None)))
    | Fail _ => st_mlflow s' !! ns = None /\
                forall ns', ns' ≠ ns -> st_mlflow s' !! ns' = st_mlflow s !! ns'
    | Panic _ => False
    end) s.
Proof.
  intros Ht Hok. unfold retrieveMLflowEndpointCached. fold (effective_ttl r).
  eapply wp_step; [by apply now_run_at|]. apply wp_get. cbn [st_mlflow set].
  destruct (st_mlflow s !! ns) as [entry|] eqn:He; [destruct (fresh t0 entry) eqn:Hf|].
  - apply wp_ret. split; [done|]. split; [by eapply Hok|]. left. exists entry.
    apply Z.ltb_lt in Hf. done.
  - unfold upd_mlflow at 1. apply wp_modify. eapply wp_mono.
    + apply (fetch_and_store_spec r ns t0 _ (st_mlflow s)); [done| |done]. intros e. rewrite He. by intros [= <-].
    + intros [e|e|p] s' tr [H1 H2]; (split; [done|]); try done.
      destruct H2 as (? & -> & ? & ?). split; [done|]. right. split; [|done].
      intros ? [= <-]. by apply Z.ltb_ge in Hf.
  - eapply wp_mono.
    + apply (fetch_and_store_spec r ns t0 _ (st_mlflow s)); [done|intros e; by rewrite He|].
      unfold drop_expired. by rewrite He.
    + intros [e|e|p] s' tr [H1 H2]; (split; [done|]); try done.
      destruct H2 as (? & -> & ? & ?). split; [done|]. by right.
Qed.
End MLflowProofs.

(** ** Examples *)

#[local] Existing Instance sim_platform.

Definition sample_reconciler : DSPAReconciler := MkDSPAReconciler "/templates/" 10 ∅ None [] true 0.

Definition sample_mlflow : St :=
  (sim_state (sim_empty <| sim_mlflows := {[ NN "dspo" "mlflow" := {| mlf_Address := Some "https://mlflow:8443" |} ]} |>)
    sim_dspa) <| st_mlflow := {[ "old" := MkmlflowEndpointCacheEntry "http://x" 0 ]} |>.

Lemma retrieveMLflowEndpointCached_witness :
  mlflow_ok (st_mlflow sample_mlflow) /\
  mlflow_ok (st_mlflow (fin (retrieveMLflowEndpointCached sample_reconciler "dspo" sample_mlflow))) /\
  out (retrieveMLflowEndpointCached sample_reconciler "dspo" sample_mlflow) = Ret "https://mlflow:8443"%string.
Proof.
  assert (mlflow_ok (st_mlflow sample_mlflow)) as Hok.
  { apply map_Forall_singleton. vm_compute. reflexivity. }
  split; [exact Hok|].
  destruct (retrieveMLflowEndpointCached_spec sample_reconciler "dspo" sample_mlflow _ _ eq_refl Hok) as [H _].
  split; [exact H|vm_compute; reflexivity].
Defined.
