(* ===== verification/Params.v ===== *)
(** * The parameters of a reconcile (controllers/dspipeline_params.go)

    The helpers of [ExtractParams]: credentials, database and object-store
    connections, ML metadata, defaults of managed pipelines, the pipeline spec
    patch, certificates and the MLflow plugin configuration.  They read the
    application [dsp] and change the parameters of the state. *)

From stdpp Require Import base gmap strings list.
From Stdlib Require Import ZArith Lia Ascii.
From Stdlib Require Import SpecFloat.
From S2P Require Import Prelude GoStd GoJson GoCodec KubeTypes ApiTypes Data Platform Config Util Reconciler.

Definition MlmdIsRequired : string :=
  "MLMD explicitly disabled in DSPA, but is a required component for DSP".

(** prefixes of the names of deployments, declared next to each component *)
Definition apiServerDefaultResourceNamePrefix : string := "ds-pipeline-".
Definition persistenceAgentDefaultResourceNamePrefix : string := "ds-pipeline-persistenceagent-".
Definition scheduledWorkflowDefaultResourceNamePrefix : string := "ds-pipeline-scheduledworkflow-".
Definition workflowControllerDefaultResourceNamePrefix : string := "ds-pipeline-workflow-controller-".
Definition mlmdProxyDefaultResourceNamePrefix : string := "ds-pipeline-scheduledworkflow-".

(** ** What the application asks for *)

Definition UsingExternalDB (dsp : DataSciencePipelinesApplication) : bool :=
  match spec_Database (dspa_Spec dsp) with
  | Some db => match db_ExternalDB db with Some _ => true | None => false end
  | None => false
  end.

Definition DatabaseHealthCheckDisabled (dsp : DataSciencePipelinesApplication) : bool :=
  match spec_Database (dspa_Spec dsp) with
  | Some db => db_DisableHealthCheck db
  | None => false
  end.

Definition UsingExternalStorage (dsp : DataSciencePipelinesApplication) : bool :=
  match spec_ObjectStorage (dspa_Spec dsp) with
  | Some os => match os_ExternalStorage os with Some _ => true | None => false end
  | None => false
  end.

Definition ObjectStorageHealthCheckDisabled (dsp : DataSciencePipelinesApplication) : bool :=
  match spec_ObjectStorage (dspa_Spec dsp) with
  | Some os => os_DisableHealthCheck os
  | None => false
  end.

Definition ExternalRouteEnabled (dsp : DataSciencePipelinesApplication) : bool :=
  match spec_ObjectStorage (dspa_Spec dsp) with
  | Some os => os_EnableExternalRoute os
  | None => false
  end.

(** ** Defaults *)

Definition setStringDefault (defaultValue value : string) : string :=
  if bool_decide (value = "") then defaultValue else value.

Definition setResourcesDefault (defaultValue : ResourceRequirements)
    (value : option ResourceRequirements) : option ResourceRequirements :=
  match value with None => Some defaultValue | Some v => Some v end.

(** [time.Duration.Seconds()], in IEEE double precision *)
Definition float_of (z : Z) : spec_float := binary_normalize 53 1024 z 0 false.
Definition Seconds (d : Z) : spec_float :=
  SFadd 53 1024 (float_of (Z.quot d Second))
    (SFdiv 53 1024 (float_of (Z.rem d Second)) (float_of 1000000000)).

(** the integer part of a finite number, towards zero *)
Definition float_trunc (f : spec_float) : Z :=
  match f with
  | S754_finite s m e =>
      let a := if (0 <=? e)%Z then Z.shiftl (Zpos m) e else Z.shiftr (Zpos m) (- e) in
      if s then (- a)%Z else a
  | _ => 0%Z
  end.

Section Pure.
  Context {P : Platform}.

(** [int32(f)]: out of range, what the machine gives *)
Definition to_int32 (f : spec_float) : Z :=
  let z := float_trunc f in
  if ((- 2 ^ 31 <=? z) && (z <? 2 ^ 31))%Z then z else int32_wrap z.

(** the two halves of a set of resources *)
Definition fill_resources (def : Resources) (r : option Resources) : Resources :=
  match r with
  | None => def
  | Some r =>
      {| res_CPU := if q_is_zero (res_CPU r) then res_CPU def else res_CPU r;
         res_Memory := if q_is_zero (res_Memory r) then res_Memory def else res_Memory r |}
  end.

Definition default_resources : Resources := MkResources (must_parse "0") (must_parse "0").

Definition ensureManagedPipelinesInitResourceDefaults (mp : option ManagedPipelinesSpec) :
    option ManagedPipelinesSpec :=
  match mp with
  | None => None
  | Some mp =>
      let def := ManagedPipelinesInitResourceRequirements in
      let defRequests := default default_resources (rr_Requests def) in
      let defLimits := default default_resources (rr_Limits def) in
      match mps_Resources mp with
      | None => Some (mp <| mps_Resources := Some def |>)
      | Some r =>
          match rr_Requests r, rr_Limits r with
          | None, None => Some (mp <| mps_Resources := Some def |>)
          | req, lim =>
              Some (mp <| mps_Resources := Some
                {| rr_Limits := Some (fill_resources defLimits lim);
                   rr_Requests := Some (fill_resources defRequests req) |} |>)
          end
      end
  end.

Definition ensureManagedPipelinesVolumeSizeLimit (mp : option ManagedPipelinesSpec) :
    option ManagedPipelinesSpec + error :=
  match mp with
  | None => inl None
  | Some mp =>
      if bool_decide (mps_VolumeSizeLimit mp = "")
      then inl (Some (mp <| mps_VolumeSizeLimit := DefaultManagedPipelinesVolumeSizeLimit |>))
      else match parse_quantity (mps_VolumeSizeLimit mp) with
           | inr e => inr (ErrWrap "managedPipelines.volumeSizeLimit must be a valid Kubernetes quantity: " e "")
           | inl q =>
               if (q_sign q <=? 0)%Z
               then inr (ErrNew ("managedPipelines.volumeSizeLimit must be a positive quantity, got " +:+
                                 fmt_q (mps_VolumeSizeLimit mp)))
               else inl (Some mp)
           end
  end.

(** the JSON patch: empty without a time to live *)
Definition compiled_pipeline_spec_patch (api : option APIServer) : string :=
  match api ≫= api_ResourceTTL with
  | None => ""
  | Some ttl =>
      Marshal (JObj [("ttlStrategy", JObj [("secondsAfterCompletion", JNum (fmt_d (to_int32 (Seconds ttl))))])])
  end.
End Pure.

(** members of a JSON object that are left out when empty *)
Definition omit_string (k v : string) : list (string * json) :=
  if bool_decide (v = "") then [] else [(k, JStr v)].
Definition omit_bool (k : string) (v : bool) : list (string * json) :=
  if v then [(k, JBool v)] else [].

Definition json_settings (s : MLflowPluginSettings) : json :=
  JObj (omit_bool "workspacesEnabled" (mset_WorkspacesEnabled s) ++
        omit_string "experimentDescription" (mset_ExperimentDescription s) ++
        [("defaultExperimentName", JStr (mset_DefaultExperimentName s))] ++
        omit_string "kfpBaseURL" (mset_KFPBaseURL s) ++
        omit_string "kfpRunURLPathTemplate" (mset_KFPRunURLPathTemplate s) ++
        omit_string "mlflowBaseURL" (mset_MLflowBaseURL s) ++
        omit_string "mlflowUIPathPrefix" (mset_MLflowUIPathPrefix s) ++
        [("injectUserEnvVars", JBool (mset_InjectUserEnvVars s))]).

Definition json_plugin (c : PluginConfig) : json :=
  JObj (omit_string "endpoint" (plug_Endpoint c) ++
        omit_string "timeout" (plug_Timeout c) ++
        [("tls", JObj (("insecureSkipVerify", JBool (tls_InsecureSkipVerify (plug_TLS c))) ::
                       omit_string "caBundlePath" (tls_CABundlePath (plug_TLS c))));
         ("settings", json_settings (plug_Settings c))]).

(** Marshalling these structs does not fail. *)
Definition BuildMLflowPluginConfigJson (mlflowEndpoint caBundlePath : string) (injectUserEnvVars : bool)
    (kfpBaseURL : string) : string + error :=
  let settings := {|
    mset_WorkspacesEnabled := true;
    mset_ExperimentDescription := "Created by AI Pipelines.";
    mset_DefaultExperimentName := "AIP-default";
    mset_KFPBaseURL := kfpBaseURL;
    mset_KFPRunURLPathTemplate := "/develop-train/pipelines/runs/{namespace}/runs/{run_id}";
    mset_MLflowBaseURL := kfpBaseURL;
    mset_MLflowUIPathPrefix := "/mlflow";
    mset_InjectUserEnvVars := injectUserEnvVars |} in
  inl (Marshal (json_plugin {|
    plug_Endpoint := mlflowEndpoint;
    plug_Timeout := "30s";
    plug_TLS := {| tls_InsecureSkipVerify := false; tls_CABundlePath := caBundlePath |};
    plug_Settings := settings |})).

Section Operations.
  Context {P : Platform}.

Definition prm : M DSPAParams := gets st_params.
Definition upd_api (f : APIServer -> APIServer) : M unit :=
  upd_params (fun p => p <| p_APIServer ::= fmap f |>).
Definition upd_db (f : DBConnection -> DBConnection) : M unit :=
  upd_params (fun p => p <| p_DBConnection ::= f |>).
Definition upd_os (f : ObjectStorageConnection -> ObjectStorageConnection) : M unit :=
  upd_params (fun p => p <| p_ObjectStorageConnection ::= f |>).

(** ** Secrets *)

(** the route, the zero one when it cannot be had, and the error *)
Definition RetrieveAndSetExternalRoute : M (Route * option error) :=
  p ← prm;
  let nn := NN (p_Namespace p) ("minio-" +:+ p_Name p) in
  r ← try (io (CGet "Route" nn) (get_route nn));
  mret (match r with inl route => (route, None) | inr e => (zero_Route, Some e) end).

Definition password_chars : list ascii :=
  String.list_ascii_of_string "abcdefghijklmnopqrstuvwxyzABCDEFGHIJKLMNOPQRSTUVWXYZ1234567890".

Fixpoint password_loop (n : nat) : M string :=
  match n with
  | O => mret ""
  | S n' =>
      i ← draw (rand_intn (Z.of_nat (length password_chars)));
      c ← deref "index out of range" (if (i <? 0)%Z then None else password_chars !! Z.to_nat i);
      rest ← password_loop n';
      mret (String c rest)
  end.

(** the generator is seeded with the clock; [make] panics on a negative length *)
Definition passwordGen (n : Z) : M string :=
  now ;;
  if (n <? 0)%Z then panic "makeslice: len out of range" else password_loop (Z.to_nat n).

Definition RetrieveSecret (secretName secretKey : string) : M string :=
  p ← prm;
  secret ← GetSecret secretName (p_Namespace p);
  mret (EncodeToString (map_get (sec_Data secret) secretKey)).

Definition IsAPIServerDeploymentReady : M bool :=
  p ← prm;
  let nn := NN (p_Namespace p) (p_APIServerDefaultResourceName p) in
  r ← try (io (CGet "Deployment" nn) (get_deployment nn));
  match r with
  | inr e => if IsNotFound e then mret false else fail e
  | inl deployment =>
      mret (match GetDeploymentCondition (dep_Conditions deployment) DeploymentAvailable with
            | Some c => bool_decide (dc_Status c = ConditionTrue)
            | None => false
            end)
  end.

Definition RetrieveOrCreateSecret (secretName secretKey : string) (generatedPasswordLength : Z) : M string :=
  r ← try (RetrieveSecret secretName secretKey);
  match r with
  | inr e =>
      if IsNotFound e then
        generatedPass ← passwordGen generatedPasswordLength;
        mret (EncodeToString generatedPass)
      else fail e
  | inl v => mret v
  end.

Definition RetrieveOrCreateDBSecret (secret : SecretKeyValue) : M string :=
  RetrieveOrCreateSecret (skv_Name secret) (skv_Key secret) GeneratedDBPasswordLength.

Definition RetrieveOrCreateObjectStoreSecret (secret : S3CredentialSecret) : M (string * string) :=
  accessKey ← RetrieveOrCreateSecret (s3_SecretName secret) (s3_AccessKey secret)
                GeneratedObjectStorageAccessKeyLength;
  secretKey ← RetrieveOrCreateSecret (s3_SecretName secret) (s3_SecretKey secret)
                GeneratedObjectStorageSecretKeyLength;
  mret (accessKey, secretKey).

(** a secret that may be missing: the empty string when it is *)
Definition secret_or_empty (secretName secretKey : string) : M string :=
  r ← try (RetrieveSecret secretName secretKey);
  match r with
  | inr e => if IsNotFound e then mret "" else fail e
  | inl v => mret v
  end.

(** [p.DBConnection.Password] and its decoded form *)
Definition set_db_password (password : string) : M unit :=
  upd_db (fun d => d <| dbc_Password := password |> <| dbc_DecodedPassword := (DecodeString password).1 |>).

(** ** The database connection *)

Definition setup_external_db (edb : ExternalDB) : M unit :=
  upd_db (fun d => d <| dbc_Host := edb_Host edb |> <| dbc_Port := edb_Port edb |>
                     <| dbc_Username := edb_Username edb |> <| dbc_DBName := edb_DBName edb |>
                     <| dbc_CredentialsSecret := edb_PasswordSecret edb |>) ;;
  dbExtraParams ← lift (GetDefaultDBExtraParams {["tls" := "true"]});
  upd_db (fun d => d <| dbc_ExtraParams := dbExtraParams |>) ;;
  secret ← deref "CredentialsSecret" (edb_PasswordSecret edb);
  password ← secret_or_empty (skv_Name secret) (skv_Key secret);
  set_db_password password.

Definition setup_mariadb : M unit :=
  p ← prm;
  m ← (match p_MariaDB p with
       | Some m => mret m
       | None =>
           image ← GetStringConfigWithDefault MariaDBImagePath DefaultImageValue;
           mret (MkMariaDB true image MariaDBUser None MariaDBName (must_parse MariaDBNamePVCSize) ""
                   (Some MariaDBResourceRequirements))
       end);
  image ← (if bool_decide (maria_Image m = "")
           then GetStringConfigWithDefault MariaDBImagePath DefaultImageValue else mret (maria_Image m));
  let m := m <| maria_Image := image |>
             <| maria_Username ::= setStringDefault MariaDBUser |>
             <| maria_DBName ::= setStringDefault MariaDBName |>
             <| maria_Resources ::= setResourcesDefault MariaDBResourceRequirements |> in
  upd_params (fun p => p <| p_MariaDB := Some m |>) ;;
  upd_db (fun d => d
    <| dbc_Host := MariaDBHostPrefix +:+ "-" +:+ p_Name p +:+ "." +:+ p_Namespace p +:+ ".svc.cluster.local" |>
    <| dbc_Port := MariaDBHostPort |>
    <| dbc_Username := maria_Username m |>
    <| dbc_DBName := maria_DBName m |>) ;;
  dbExtraParams ← lift (GetDefaultDBExtraParams {["tls" := if p_PodToPodTLS p then "true" else "false"]});
  let secret := match maria_PasswordSecret m with
                | Some s => s
                | None => MkSecretKeyValue (DefaultDBSecretNamePrefix +:+ p_Name p) DefaultDBSecretKey
                end in
  upd_db (fun d => d <| dbc_ExtraParams := dbExtraParams |> <| dbc_CredentialsSecret := Some secret |>) ;;
  dbPassword ← RetrieveOrCreateDBSecret secret;
  set_db_password dbPassword.

Definition SetupDBParams (dsp : DataSciencePipelinesApplication) : M unit :=
  (if UsingExternalDB dsp then
     edb ← deref "ExternalDB" (spec_Database (dspa_Spec dsp) ≫= db_ExternalDB);
     setup_external_db edb
   else setup_mariadb) ;;
  db ← deref "dsp.Spec.Database" (spec_Database (dspa_Spec dsp));
  (match db_CustomExtraParams db with
   | None => mret tt
   | Some custom =>
       lift (UnmarshalStringMap custom) ;;
       upd_db (fun d => d <| dbc_ExtraParams := custom |>)
   end) ;;
  p ← prm;
  if bool_decide (dbc_Password (p_DBConnection p) = "") then
    secret ← deref "CredentialsSecret" (dbc_CredentialsSecret (p_DBConnection p));
    fail (ErrNew ("db password from secret [" +:+ skv_Name secret +:+ "] for key [" +:+ skv_Key secret +:+
      "] was not successfully retrieved, ensure that the secret with this key exist"))
  else mret tt.

(** ** The object store connection *)

Definition setup_external_storage (es : ExternalStorage) : M unit :=
  upd_os (fun o => o
    <| osc_Bucket := es_Bucket es |> <| osc_Host := es_Host es |> <| osc_Scheme := es_Scheme es |>
    <| osc_BasePath := es_BasePath es |>
    <| osc_Region := if bool_decide (es_Region es = "") then "auto" else es_Region es |>
    <| osc_Secure := match es_Secure es with
                     | None => BoolPointer (bool_decide (es_Scheme es = "https"))
                     | Some b => Some b
                     end |>
    <| osc_Port := es_Port es |>
    <| osc_CredentialsSecret := es_S3CredentialSecret es |>) ;;
  secret ← deref "CredentialsSecret" (es_S3CredentialSecret es);
  accesskey ← secret_or_empty (s3_SecretName secret) (s3_AccessKey secret);
  secretkey ← secret_or_empty (s3_SecretName secret) (s3_SecretKey secret);
  upd_os (fun o => o <| osc_AccessKeyID := accesskey |> <| osc_SecretAccessKey := secretkey |>).

Definition setup_minio (dsp : DataSciencePipelinesApplication) : M unit :=
  p ← prm;
  match p_Minio p with
  | None => fail (ErrNew ("either [spec.objectStorage.minio] or [spec.objectStorage.externalStorage] " +:+
                          "need to be specified in DSPA spec"))
  | Some m =>
      if bool_decide (minio_Image m = "")
      then fail (ErrNew "minio specified, but no image provided in the DSPA CR Spec")
      else
        spec ← deref "dsp.Spec.ObjectStorage.Minio" (spec_ObjectStorage (dspa_Spec dsp) ≫= os_Minio);
        let m := m <| minio_Image := minio_Image spec |>
                   <| minio_Bucket ::= setStringDefault MinioDefaultBucket |>
                   <| minio_Resources ::= setResourcesDefault MinioResourceRequirements |> in
        let secret := match minio_S3CredentialSecret m with
                      | Some s => s
                      | None => MkS3CredentialSecret (DefaultObjectStorageSecretNamePrefix +:+ p_Name p)
                                  DefaultObjectStorageAccessKey DefaultObjectStorageSecretKey
                      end in
        upd_params (fun p => p <| p_Minio := Some m |>) ;;
        upd_os (fun o => o
          <| osc_Bucket := MinioDefaultBucket |>
          <| osc_Host := MinioHostPrefix +:+ "-" +:+ p_Name p +:+ "." +:+ p_Namespace p +:+ ".svc.cluster.local" |>
          <| osc_Port := MinioPort |>
          <| osc_Scheme := MinioScheme |>
          <| osc_Secure := BoolPointer false |>
          <| osc_Region := "minio" |>
          <| osc_CredentialsSecret := Some secret |>) ;;
        '(accessKey, secretKey) ← RetrieveOrCreateObjectStoreSecret secret;
        upd_os (fun o => o <| osc_AccessKeyID := accessKey |> <| osc_SecretAccessKey := secretKey |>)
  end.

(** the external route replaces host, scheme and port *)
Definition setup_external_route : M unit :=
  '(route, _) ← RetrieveAndSetExternalRoute;
  upd_os (fun o => o
    <| osc_ExternalRouteURL := route_Host route |>
    <| osc_Endpoint := route_Host route |>
    <| osc_Secure := BoolPointer true |>
    <| osc_Host := route_Host route |>
    <| osc_Scheme := "https" |>
    <| osc_Port := "" |>).

Definition endpoint_of (o : ObjectStorageConnection) : string :=
  let endpoint := osc_Scheme o +:+ "://" +:+ osc_Host o in
  if bool_decide (osc_Port o = "") then endpoint else endpoint +:+ ":" +:+ osc_Port o.

Definition SetupObjectParams (dsp : DataSciencePipelinesApplication) : M unit :=
  (if UsingExternalStorage dsp then
     es ← deref "ExternalStorage" (spec_ObjectStorage (dspa_Spec dsp) ≫= os_ExternalStorage);
     setup_external_storage es
   else setup_minio dsp) ;;
  whenb (ExternalRouteEnabled dsp) setup_external_route ;;
  upd_os (fun o => o <| osc_Endpoint := endpoint_of o |>) ;;
  p ← prm;
  let o := p_ObjectStorageConnection p in
  if bool_decide (osc_AccessKeyID o = "") || bool_decide (osc_SecretAccessKey o = "") then
    secret ← deref "CredentialsSecret" (osc_CredentialsSecret o);
    fail (ErrNew ("object storage password from secret [" +:+ s3_SecretName secret +:+ "] for keys [" +:+
      s3_AccessKey secret +:+ ", " +:+ s3_SecretKey secret +:+ "] was not " +:+
      "successfully retrieved, ensure that the secret with this key exist"))
  else mret tt.

(** ** ML metadata, owner, patch, certificates *)

(** the defaults of the parts of ML metadata *)
Definition fill_mlmd (envoyImage grpcImage : string) (m : MLMD) : MLMD :=
  let envoy := match mlmd_Envoy m with
               | Some e => e
               | None => MkEnvoy None envoyImage true
               end in
  let grpc := match mlmd_GRPC m with
              | Some g => g
              | None => MkGRPC None grpcImage ""
              end in
  m <| mlmd_Envoy := Some (envoy <| envoy_Image ::= setStringDefault envoyImage |>
                                 <| envoy_Resources ::= setResourcesDefault MlmdEnvoyResourceRequirements |>) |>
    <| mlmd_GRPC := Some (grpc <| grpc_Image ::= setStringDefault grpcImage |>
                               <| grpc_Resources ::= setResourcesDefault MlmdGRPCResourceRequirements |>
                               <| grpc_Port ::= setStringDefault MlmdGrpcPort |>) |>.

Definition SetupMLMD (dsp : DataSciencePipelinesApplication) : M unit :=
  p ← prm;
  m ← (match p_MLMD p with
       | None => mret (MkMLMD true (Some (MkEnvoy None "" true)) None)
       | Some m => if negb (mlmd_Deploy m) then fail (ErrNew MlmdIsRequired) else mret m
       end);
  mlmdEnvoyImageFromConfig ← GetStringConfigWithDefault MlmdEnvoyImagePath DefaultImageValue;
  mlmdGRPCImageFromConfig ← GetStringConfigWithDefault MlmdGRPCImagePath DefaultImageValue;
  upd_params (fun p => p <| p_MLMD := Some (fill_mlmd mlmdEnvoyImageFromConfig mlmdGRPCImageFromConfig m) |>).

Definition SetupOwner (dsp : DataSciencePipelinesApplication) : M unit :=
  include ← GetBoolConfigWithDefault ApiServerIncludeOwnerReferenceConfigName
              DefaultApiServerIncludeOwnerReferenceConfigName;
  upd_params (fun p => p <| p_IncludeOwnerReference := include |>) ;;
  whenb include
    (upd_params (fun p => p <| p_UID := dspa_UID dsp |> <| p_Name := dspa_Name dsp |>
                            <| p_APIVersion := dspa_APIVersion dsp |> <| p_Kind := dspa_Kind dsp |>)).

Definition SetupCompiledPipelineSpecPatch : M unit :=
  upd_params (fun p => p <| p_CompiledPipelineSpecPatch := compiled_pipeline_spec_patch (p_APIServer p) |>).

(** line ends of a PEM text, escaped *)
Definition escape_newlines (s : string) : string := ReplaceByte (byte 10) "\n" s.

Definition LoadMlmdCertificates : M bool :=
  p ← prm;
  r ← try (GetSecret ("ds-pipeline-metadata-grpc-tls-certs-" +:+ p_Name p) (p_Namespace p));
  match r with
  | inr e => if IsNotFound e then mret false else fail e
  | inl secret =>
      upd_params (fun p => p
        <| p_MlmdGrpcCertificateContents := escape_newlines (map_get (sec_Data secret) "tls.crt") |>
        <| p_MlmdGrpcPrivateKeyContents := escape_newlines (map_get (sec_Data secret) "tls.key") |>) ;;
      mret true
  end.
End Operations.
