(* ===== verification/Extract.v ===== *)
(** * [ExtractParams] (controllers/dspipeline_params.go)

    The parameters of a reconcile, from the application, the operator's
    configuration and the cluster.  One definition per stretch of the
    function, in its order; [ExtractParams] composes them. *)

From stdpp Require Import base gmap strings list.
From Stdlib Require Import ZArith Lia Ascii.
From S2P Require Import Prelude GoStd GoJson GoCodec KubeTypes ApiTypes Data Platform Config Util.
From S2P Require Import Reconciler ManagedPipelines Params.

Section Extract.
  Context {P : Platform}.
  Variable r : DSPAReconciler.

(** the call of the function value [p.ResolveMLflowEndpoint] *)
Definition call_resolver (f : MLflowResolver) (namespace : string) : M string :=
  match f with RetrieveMLflowEndpointCached => retrieveMLflowEndpointCached r namespace end.

(** [p.Owner = dsp]: what is asked of an owner *)
Definition owner_of (dsp : DataSciencePipelinesApplication) : Owner :=
  {| own_APIVersion := dspa_APIVersion dsp; own_Kind := dspa_Kind dsp; own_Name := dspa_Name dsp;
     own_Namespace := dspa_Namespace dsp; own_UID := dspa_UID dsp |}.

(** the effective MLflow configuration: automatic detection unless told
    otherwise *)
Definition effective_mlflow (m : option MLflowConfig) : MLflowConfig :=
  {| mlflow_IntegrationMode := Some (default AutoDetect (m ≫= mlflow_IntegrationMode));
     mlflow_InjectUserEnvVars := Some (default false (m ≫= mlflow_InjectUserEnvVars)) |}.

(** names, copies of the specification, simple defaults *)
Definition extract_basics (dsp : DataSciencePipelinesApplication) : M unit :=
  dspoNamespace ← ask (getenv "DSPO_NAMESPACE");
  upd_params (fun p => p <| p_Name := dspa_Name dsp |> <| p_Namespace := dspa_Namespace dsp |>
    <| p_DSPONamespace := dspoNamespace |> <| p_DSPVersion := spec_DSPVersion (dspa_Spec dsp) |>
    <| p_Owner := Some (owner_of dsp) |> <| p_APIServer := spec_APIServer (dspa_Spec dsp) |>) ;;
  platformVersion ← ResolvedPlatformVersion;
  let serviceName := DSPServicePrefix +:+ "-" +:+ dspa_Name dsp in
  upd_params (fun p => p <| p_PlatformVersion := platformVersion |>
    <| p_APIServerDefaultResourceName := apiServerDefaultResourceNamePrefix +:+ dspa_Name dsp |>
    <| p_APIServerServiceName := serviceName |>
    <| p_APIServerServiceDNSName := serviceName +:+ "." +:+ dspa_Namespace dsp +:+ ".svc.cluster.local" |>
    <| p_ScheduledWorkflow := spec_ScheduledWorkflow (dspa_Spec dsp) |>
    <| p_ScheduledWorkflowDefaultResourceName := scheduledWorkflowDefaultResourceNamePrefix +:+ dspa_Name dsp |>
    <| p_WorkflowController := spec_WorkflowController (dspa_Spec dsp) |>
    <| p_WorkflowControllerDefaultResourceName := workflowControllerDefaultResourceNamePrefix +:+ dspa_Name dsp |>
    <| p_PersistenceAgent := spec_PersistenceAgent (dspa_Spec dsp) |>
    <| p_PersistentAgentDefaultResourceName := persistenceAgentDefaultResourceNamePrefix +:+ dspa_Name dsp |>) ;;
  db ← deref "dsp.Spec.Database" (spec_Database (dspa_Spec dsp));
  upd_params (fun p => p <| p_MariaDB := db_MariaDB db |>) ;;
  os ← deref "dsp.Spec.ObjectStorage" (spec_ObjectStorage (dspa_Spec dsp));
  upd_params (fun p => p <| p_Minio := os_Minio os |>) ;;
  kubeRBACProxy ← GetStringConfigWithDefault KubeRBACProxyImagePath DefaultImageValue;
  upd_params (fun p => p <| p_KubeRBACProxy := kubeRBACProxy |>
    <| p_MLMD := spec_MLMD (dspa_Spec dsp) |>
    <| p_MlmdProxyDefaultResourceName := mlmdProxyDefaultResourceNamePrefix +:+ dspa_Name dsp |>
    <| p_CustomCABundleRootMountPath := CustomCABundleRootMountPath |>
    <| p_PiplinesCABundleMountPath := GetCABundleFileMountPath |>
    <| p_WebhookName := "ds-pipelines-webhook" |>
    <| p_PodToPodTLS := default true (spec_PodToPodTLS (dspa_Spec dsp)) |>
    <| p_MLflow := Some (effective_mlflow (spec_MLflow (dspa_Spec dsp))) |>
    <| p_ProxyConfig := spec_Proxy (dspa_Spec dsp) |>) ;;
  SetupCompiledPipelineSpecPatch.

(** the API server's images *)
Definition extract_api_images : M unit :=
  serverImage ← GetStringConfigWithDefault APIServerImagePath DefaultImageValue;
  argoLauncherImage ← GetStringConfigWithDefault LauncherImagePath DefaultImageValue;
  argoDriverImage ← GetStringConfigWithDefault DriverImagePath DefaultImageValue;
  upd_api (fun a => a <| api_Image ::= setStringDefault serverImage |>
                      <| api_ArgoLauncherImage ::= setStringDefault argoLauncherImage |>
                      <| api_ArgoDriverImage ::= setStringDefault argoDriverImage |>).

(** the managed pipelines' container *)
Definition extract_managed_pipelines (api : APIServer) : M unit :=
  match api_ManagedPipelines api with
  | None => mret tt
  | Some mp =>
      fromConfig ← GetStringConfigWithDefault PipelinesComponentsImagePath DefaultImageValue;
      let image := setStringDefault fromConfig (TrimSpace (mps_Image mp)) in
      let mp := mp <| mps_Image := image |> in
      upd_api (fun a => a <| api_ManagedPipelines := Some mp |>) ;;
      if bool_decide (image = DefaultImageValue) || bool_decide (image = "")
      then fail (ErrWrap "" ErrManagedPipelinesImageUnset
             ": specify spec.apiServer.managedPipelines.image or configure operator Images.PipelinesComponents (IMAGES_PIPELINES_COMPONENTS in DSPO params/config)")
      else
        let mp := ensureManagedPipelinesInitResourceDefaults (Some mp) in
        upd_api (fun a => a <| api_ManagedPipelines := mp |>) ;;
        mp ← lift (ensureManagedPipelinesVolumeSizeLimit mp);
        upd_api (fun a => a <| api_ManagedPipelines := mp |>) ;;
        upd_params (fun p => p <| p_ManagedPipelinesUploadTags :=
                                    BuildManagedPipelinesUploadTags (p_PlatformVersion p) |>) ;;
        env ← ask environ;
        vars ← lift (ManagedPipelineImageEnvFromEnviron env);
        upd_params (fun p => p <| p_ManagedPipelineImageEnvVars := vars |>)
  end.

(** the URL under which the API server is reached, empty when there is none
    yet; lookups that fail count as none *)
Definition api_server_url (p : DSPAParams) : M string :=
  route ← try (GetRouteHostname (p_APIServerServiceName p) (p_Namespace p));
  match route with
  | inl (String c u) => mret (String c u)
  | _ =>
      service ← try (GetServiceHostname (p_APIServerServiceName p) (p_Namespace p));
      mret (match service with inl u => u | inr _ => "" end)
  end.

(** the MLflow plugin of the API server: configured only for a ready API
    server with a known endpoint and URL, and put off otherwise *)
Definition extract_mlflow_plugin (api : APIServer) : M unit :=
  p ← prm;
  mlflow ← deref "p.MLflow" (p_MLflow p);
  mlflowMode ← deref "p.MLflow.IntegrationMode" (mlflow_IntegrationMode mlflow);
  whenb (bool_decide (mlflowMode = AutoDetect))
    (ready ← try IsAPIServerDeploymentReady;
     match ready, p_ResolveMLflowEndpoint p with
     | inl true, Some resolve =>
         if bool_decide (p_DSPONamespace p = "") then mret tt
         else
           endpoint ← try (call_resolver resolve (p_DSPONamespace p));
           match endpoint with
           | inr _ => mret tt
           | inl mlflowEndpoint =>
               url ← api_server_url p;
               if bool_decide (url = "") then mret tt
               else
                 let root := if bool_decide (api_CABundleFileMountPath api = "")
                             then p_CustomCABundleRootMountPath p else api_CABundleFileMountPath api in
                 let file := if bool_decide (api_CABundleFileName api = "")
                             then CustomDSPTrustedCAConfigMapKey else api_CABundleFileName api in
                 inject ← deref "p.MLflow.InjectUserEnvVars" (mlflow_InjectUserEnvVars mlflow);
                 match BuildMLflowPluginConfigJson mlflowEndpoint (root +:+ "/" +:+ file) inject url with
                 | inr _ => mret tt
                 | inl cfg => upd_params (fun p => p <| p_APIServerPluginsJson := cfg |>)
                 end
           end
     | _, _ => mret tt
     end).

(** [json.Marshal] of the data of a config map: the API server leaves out an
    empty map, which comes back as nil *)
Definition marshal_data (data : gmap string string) : string :=
  if bool_decide (data = ∅) then Marshal JNull else Marshal (json_string_map data).

(** the custom server configuration and the launcher's config map *)
Definition extract_api_config (dsp : DataSciencePipelinesApplication) (api : APIServer) : M unit :=
  upd_params (fun p => p <| p_GrantMlflowWorkloadRBAC := negb (bool_decide (p_APIServerPluginsJson p = "")) |>) ;;
  upd_api (fun a => a <| api_CustomServerConfig ::= fun c =>
    match c with
    | None => Some (MkScriptConfigMap (CustomServerConfigMapNamePrefix +:+ dspa_Name dsp) CustomServerConfigMapNameKey)
    | Some c => Some c
    end |>) ;;
  if bool_decide (api_CustomKfpLauncherConfigMap api = "") then mret tt
  else
    cm ← GetConfigMap (api_CustomKfpLauncherConfigMap api) (dspa_Namespace dsp);
    upd_params (fun p => p <| p_CustomKfpLauncherConfigMapData := marshal_data (cm_Data cm) |>).

(** ** Certificates *)

Definition add_cert (cert : string) : M unit :=
  upd_params (fun p => p <| p_APICustomPemCerts ::= fun l => l ++ [cert] |>).
(** a certificate, unless it is blank *)
Definition add_cert_unless_blank (cert : string) : M unit :=
  whenb (negb (bool_decide (TrimSpace cert = ""))) (add_cert cert).

(** the platform's bundle, if there is one; whether it has the well-known key *)
Definition global_certs (dsp : DataSciencePipelinesApplication) : M bool :=
  cm ← try (GetConfigMap GlobalODHCaBundleConfigMapName (dspa_Namespace dsp));
  match cm with
  | inr e => if negb (IsNotFound e) then fail e else mret false
  | inl cm =>
      globalCerts ← GetConfigMapValues cm;
      iter add_cert_unless_blank globalCerts ;;
      mret (bool_decide (is_Some (cm_Data cm !! GlobalODHCaBundleConfigMapSystemBundleKey)))
  end.

(** the user's bundle *)
Definition user_certs (dsp : DataSciencePipelinesApplication) (api : APIServer) : M unit :=
  match api_CABundle api with
  | None => mret tt
  | Some b =>
      cm ← GetConfigMap (cab_ConfigMapName b) (dspa_Namespace dsp);
      add_cert_unless_blank (GetConfigMapValue (cab_ConfigMapKey b) cm)
  end.

(** the service CA, required with TLS between pods *)
Definition service_certs (dsp : DataSciencePipelinesApplication) : M unit :=
  p ← prm;
  whenb (p_PodToPodTLS p)
    (serviceCA ← GetConfigMap OpenshiftServiceCAConfigMapName (dspa_Namespace dsp);
     let serviceCABundle := GetConfigMapValue OpenshiftServiceCAConfigMapKey serviceCA in
     if bool_decide (TrimSpace serviceCABundle = "")
     then fail (ErrNew ("expected key " +:+ OpenshiftServiceCAConfigMapKey +:+ " from configmap " +:+
                        OpenshiftServiceCAConfigMapName +:+ " not found"))
     else add_cert serviceCABundle).

(** the config map that holds the certificates, joined *)
Definition bundle_configmap (dsp : DataSciencePipelinesApplication) (p : DSPAParams) (key : string) : ConfigMap :=
  zero_ConfigMap
    <| cm_Name := CustomDSPTrustedCAConfigMapNamePrefix +:+ "-" +:+ p_Name p |>
    <| cm_Namespace := p_Namespace p |>
    <| cm_OwnerReferences := [{| or_APIVersion := dspa_APIVersion dsp; or_Kind := dspa_Kind dsp;
         or_Name := dspa_Name dsp; or_UID := dspa_UID dsp; or_Controller := BoolPointer true;
         or_BlockOwnerDeletion := BoolPointer true |}] |>
    <| cm_Data := {[key := Join (bytes [10]%N) (p_APICustomPemCerts p)]} |>.

(** [client.Create], and [client.Update] when it already exists *)
Definition create_or_update (cm : ConfigMap) : M unit :=
  let nn := NN (cm_Namespace cm) (cm_Name cm) in
  c ← try (io (CCreate "ConfigMap" nn) (create_configmap cm));
  match c with
  | inl _ => mret tt
  | inr e => if IsAlreadyExists e then io (CUpdate "ConfigMap" nn) (update_configmap cm) else fail e
  end.

(** The bundle: made only when there is some certificate; the system's
    certificates are added unless the platform's bundle has them. *)
Definition extract_ca_bundle (dsp : DataSciencePipelinesApplication) (wellKnownCABundleAdded : bool)
    (key : string) : M unit :=
  p ← prm;
  whenb (bool_decide (0 < length (p_APICustomPemCerts p)))
    (whenb (negb wellKnownCABundleAdded)
       (certs ← GetSystemCerts; add_cert_unless_blank certs) ;;
     upd_params (fun p => p <| p_CustomCABundle := Some (MkCABundle
        (CustomDSPTrustedCAConfigMapNamePrefix +:+ "-" +:+ p_Name p) key) |>) ;;
     p ← prm;
     create_or_update (bundle_configmap dsp p key) ;;
     upd_params (fun p => p <| p_CustomSSLCertDir := Some (Join ":"
        [p_CustomCABundleRootMountPath p; "/etc/ssl/certs"; "/etc/pki/tls/certs"]) |>)).

(** all about certificates *)
Definition extract_certs (dsp : DataSciencePipelinesApplication) (api : APIServer) : M unit :=
  wellKnownCABundleAdded ← global_certs dsp;
  user_certs dsp api ;;
  service_certs dsp ;;
  let key := if bool_decide (api_CABundleFileName api = "") then CustomDSPTrustedCAConfigMapKey
             else api_CABundleFileName api in
  upd_params (fun p =>
    let root := if bool_decide (api_CABundleFileMountPath api = "") then p_CustomCABundleRootMountPath p
                else api_CABundleFileMountPath api in
    p <| p_CustomCABundleRootMountPath := root |> <| p_PiplinesCABundleMountPath := root +:+ "/" +:+ key |>) ;;
  extract_ca_bundle dsp wellKnownCABundleAdded key.

(** expiry of signed URLs, cache, workspace *)
Definition extract_api_rest (spec api : APIServer) : M unit :=
  upd_api (fun a => a
    <| api_ArtifactSignedURLExpirySeconds ::= fun e =>
         match e with None => Some DefaultSignedUrlExpiryTimeSeconds | Some e => Some e end |>
    <| api_CacheEnabled ::= fun c => match api_CacheEnabled spec with Some b => Some b | None => c end |>) ;;
  match api_Workspace api with
  | None => mret tt
  | Some w =>
      upd_params (fun p => p <| p_APIServerWorkspaceJSON :=
        Marshal (json_map {["VolumeClaimTemplateSpec" := ws_VolumeClaimTemplateSpec w]}) |>)
  end.

(** [if p.APIServer != nil { ... }] *)
Definition extract_apiserver (dsp : DataSciencePipelinesApplication) : M unit :=
  match spec_APIServer (dspa_Spec dsp) with
  | None => mret tt
  | Some api =>
      extract_api_images ;;
      extract_managed_pipelines api ;;
      upd_api (fun a => a <| api_Resources ::= setResourcesDefault APIServerResourceRequirements |>) ;;
      extract_mlflow_plugin api ;;
      extract_api_config dsp api ;;
      extract_certs dsp api ;;
      extract_api_rest api api
  end.

(** the other components *)
Definition extract_components (dsp : DataSciencePipelinesApplication) : M unit :=
  persistenceAgentImage ← GetStringConfigWithDefault PersistenceAgentImagePath DefaultImageValue;
  upd_params (fun p => p <| p_PersistenceAgent ::= fmap (fun a : PersistenceAgent =>
    a <| pa_Image ::= setStringDefault persistenceAgentImage |>
      <| pa_Resources ::= setResourcesDefault PersistenceAgentResourceRequirements |>) |>) ;;
  scheduledWorkflowImage ← GetStringConfigWithDefault ScheduledWorkflowImagePath DefaultImageValue;
  upd_params (fun p => p <| p_ScheduledWorkflow ::= fmap (fun w : ScheduledWorkflow =>
    w <| sw_Image ::= setStringDefault scheduledWorkflowImage |>
      <| sw_Resources ::= setResourcesDefault ScheduledWorkflowResourceRequirements |>) |>) ;;
  (** the application itself gets the default *)
  let wc := default (MkWorkflowController true "" "" "" None) (spec_WorkflowController (dspa_Spec dsp)) in
  put_cur (dsp <| dspa_Spec ::= fun s => s <| spec_WorkflowController := Some wc |> |>) ;;
  argoWorkflowImage ← GetStringConfigWithDefault ArgoWorkflowControllerImagePath DefaultImageValue;
  argoExecImage ← GetStringConfigWithDefault ArgoExecImagePath DefaultImageValue;
  upd_params (fun p => p <| p_WorkflowController := Some (wc
    <| wc_Image ::= setStringDefault argoWorkflowImage |>
    <| wc_ArgoExecImage ::= setStringDefault argoExecImage |>
    <| wc_Resources ::= setResourcesDefault WorkflowControllerResourceRequirements |>) |>).

Definition ExtractParams : M unit :=
  dsp ← gets cur;
  extract_basics dsp ;;
  extract_apiserver dsp ;;
  extract_components dsp ;;
  SetupMLMD dsp ;;
  SetupDBParams dsp ;;
  SetupObjectParams dsp ;;
  SetupOwner dsp.
End Extract.

(** ** What extraction calls *)

(** Down to the calls and the updates of the parameters. *)
Ltac unfold_lookups := unfold GetRouteHostname, GetServiceHostname, GetRouteIfAvailable,
  GetServiceIfAvailable, if_available, GetConfigMapValues, GetConfigMap, GetSystemCerts,
  RetrieveAndSetExternalRoute, secret_or_empty, RetrieveSecret, GetSecret, IsAPIServerDeploymentReady,
  call_resolver, retrieveMLflowEndpointCached, fetch_and_store, lookupMLflowEndpoint, upd_mlflow,
  add_cert_unless_blank, add_cert, set_db_password, upd_api, upd_db, upd_os, prm, put_cur.

Section ExtractCalls.
  Context {P : Platform}.
  Variable r : DSPAReconciler.

Lemma password_loop_emits Q n : emits Q (password_loop n).
Proof. induction n as [|n IH]; cbn [password_loop]; go_solve. Qed.
Lemma passwordGen_emits Q n : emits Q (passwordGen n).
Proof. unfold passwordGen. go_solve. apply password_loop_emits. Qed.

Lemma RetrieveOrCreateSecret_emits name key n : emits reads (RetrieveOrCreateSecret name key n).
Proof. unfold RetrieveOrCreateSecret. unfold_lookups. go_solve. apply passwordGen_emits. Qed.

Lemma extract_basics_emits d : emits reads (extract_basics d).
Proof. unfold extract_basics, SetupCompiledPipelineSpecPatch. unfold_lookups. go_solve. Qed.

Lemma extract_managed_pipelines_emits api : emits reads (extract_managed_pipelines api).
Proof. unfold extract_managed_pipelines. unfold_lookups. go_solve. Qed.

Lemma extract_mlflow_plugin_emits api : emits reads (extract_mlflow_plugin r api).
Proof. unfold extract_mlflow_plugin, api_server_url. unfold_lookups. go_solve. Qed.

Lemma extract_api_config_emits d api : emits reads (extract_api_config d api).
Proof. unfold extract_api_config. unfold_lookups. go_solve. Qed.

Lemma certs_emits d api : emits reads (global_certs d) /\ emits reads (user_certs d api) /\ emits reads (service_certs d).
Proof. unfold global_certs, user_certs, service_certs. unfold_lookups. split_and!; go_solve. Qed.

Lemma SetupDBParams_emits d : emits reads (SetupDBParams d).
Proof.
  unfold SetupDBParams, setup_external_db, setup_mariadb, RetrieveOrCreateDBSecret. unfold_lookups. go_solve.
  all: apply RetrieveOrCreateSecret_emits.
Qed.

Lemma SetupObjectParams_emits d : emits reads (SetupObjectParams d).
Proof.
  unfold SetupObjectParams, setup_external_storage, setup_minio, setup_external_route,
    RetrieveOrCreateObjectStoreSecret. unfold_lookups. go_solve.
  all: apply RetrieveOrCreateSecret_emits.
Qed.

(** the names under which a reconcile writes *)
Definition ident (s : St) : string * string := (p_Name (st_params s), p_Namespace (st_params s)).
Definition ident_of (d : DataSciencePipelinesApplication) : string * string := (dspa_Name d, dspa_Namespace d).

(** the config map with the application's certificates *)
Definition bundle_of (d : DataSciencePipelinesApplication) : NamespacedName :=
  NN (dspa_Namespace d) (CustomDSPTrustedCAConfigMapNamePrefix +:+ "-" +:+ dspa_Name d).

(** reading, and writing the application's own bundle *)
Definition reads_or_bundles (d : DataSciencePipelinesApplication) (e : event) : Prop :=
  reads e \/ ev_call e = CCreate "ConfigMap" (bundle_of d) \/ ev_call e = CUpdate "ConfigMap" (bundle_of d).

Lemma extract_basics_ident d s : ensures (extract_basics d) (fun _ s' => ident s' = ident_of d) s.
Proof.
  unfold extract_basics. apply ensures_then. intros ns s0.
  apply (ensures_first ident (fun i => i = ident_of d)); [by apply ensures_modify|intros _].
  unfold SetupCompiledPipelineSpecPatch. go_solve.
Qed.

Lemma extract_api_keeps_ident d api :
  keeps ident extract_api_images /\ keeps ident (extract_managed_pipelines api) /\
  keeps ident (extract_mlflow_plugin r api) /\ keeps ident (extract_api_config d api) /\
  keeps ident (global_certs d) /\ keeps ident (user_certs d api) /\ keeps ident (service_certs d).
Proof.
  unfold extract_api_images, extract_managed_pipelines, extract_mlflow_plugin, api_server_url,
    extract_api_config, global_certs, user_certs, service_certs. unfold_lookups.
  split_and!; go_solve.
Qed.

Lemma extract_apiserver_keeps d : keeps ident (extract_apiserver r d).
Proof.
  unfold extract_apiserver. destruct (spec_APIServer (dspa_Spec d)) as [api|]; [|apply keeps_ret].
  destruct (extract_api_keeps_ident d api) as (K1 & K2 & K3 & K4 & K5 & K6 & K7).
  unfold extract_certs, extract_ca_bundle, create_or_update, extract_api_rest. unfold_lookups. go_solve.
Qed.

Lemma extract_ca_bundle_calls d wk key (s : St) :
  ident s = ident_of d -> Forall (reads_or_bundles d) (evs (extract_ca_bundle d wk key s)).
Proof.
  intros Hid. unfold extract_ca_bundle, prm. rewrite bind_get. unfold whenb. case_match; [|constructor].
  apply (emits_known ident (ident_of d)); [done| |unfold_lookups; go_solve|].
  { assert (emits reads (if negb wk then certs ← GetSystemCerts; add_cert_unless_blank certs else mret tt)) as H'
      by (unfold_lookups; go_solve).
    eapply Forall_impl; [apply H'|]. intros e He. by left. }
  intros [] s1 H1. apply (emits_known ident (ident_of d)); [done|constructor|go_solve|]. intros [] s2 H2.
  rewrite bind_get. apply (emits_known ident (ident_of d)); [done| |unfold create_or_update; go_solve|intros [] s3 _; constructor].
  injection H2 as Hn Hns. unfold create_or_update, bundle_configmap. cbn [cm_Namespace cm_Name set zero_ConfigMap].
  match goal with |- Forall _ (evs (?m s2)) => assert (emits (reads_or_bundles d) m) as H'; [|apply H'] end.
  unfold reads_or_bundles, bundle_of. rewrite <- Hn, <- Hns. go_solve; apply emits_io; intros b; right; by auto.
Qed.

(** A stretch that only reads, then the rest. *)
Lemma calls_after {A B} d (m : M A) (k : A -> M B) (s : St) :
  ident s = ident_of d -> emits reads m -> keeps ident m ->
  (forall a s', ident s' = ident_of d -> Forall (reads_or_bundles d) (evs (k a s'))) ->
  Forall (reads_or_bundles d) (evs ((m ≫= k) s)).
Proof.
  intros Hid Hm Hk. apply (emits_known ident (ident_of d)); [done| |done].
  eapply Forall_impl; [apply Hm|]. intros e He. by left.
Qed.

Lemma extract_certs_calls d api (s : St) :
  ident s = ident_of d -> Forall (reads_or_bundles d) (evs (extract_certs d api s)).
Proof.
  intros Hid. destruct (certs_emits d api) as (E1 & E2 & E3).
  destruct (extract_api_keeps_ident d api) as (_ & _ & _ & _ & K1 & K2 & K3). unfold extract_certs.
  do 3 (apply calls_after; [done..|]; intros ? ? ?).
  apply calls_after; [done|go_solve|go_solve|]. intros. by apply extract_ca_bundle_calls.
Qed.

Lemma extract_components_emits d : emits reads (extract_components d).
Proof. unfold extract_components. unfold_lookups. go_solve. Qed.
Lemma SetupMLMD_emits d : emits reads (SetupMLMD d).
Proof. unfold SetupMLMD. unfold_lookups. go_solve. Qed.
Lemma SetupOwner_emits d : emits reads (SetupOwner d).
Proof. unfold SetupOwner. unfold_lookups. go_solve. Qed.

Lemma extract_apiserver_calls d (s : St) :
  ident s = ident_of d -> Forall (reads_or_bundles d) (evs (extract_apiserver r d s)).
Proof.
  intros Hid. unfold extract_apiserver. destruct (spec_APIServer (dspa_Spec d)) as [api|]; [|constructor].
  destruct (extract_api_keeps_ident d api) as (K1 & K2 & K3 & K4 & _).
  apply calls_after; [done|unfold extract_api_images; unfold_lookups; go_solve|done|intros ? ? ?].
  apply calls_after; [done|apply extract_managed_pipelines_emits|done|intros ? ? ?].
  apply calls_after; [done|unfold_lookups; go_solve|unfold_lookups; go_solve|intros ? ? ?].
  apply calls_after; [done|apply extract_mlflow_plugin_emits|done|intros ? ? ?].
  apply calls_after; [done|apply extract_api_config_emits|done|intros ? s1 Hs1].
  assert (emits reads (extract_api_rest api api)) as Hrest by (unfold extract_api_rest; unfold_lookups; go_solve).
  unfold mbind, prog_bind. pose proof (extract_certs_calls d api s1 Hs1) as Hc.
  destruct (out (extract_certs d api s1)) as [[]| |]; cbn; [|done..]. apply Forall_app. split; [done|].
  eapply Forall_impl; [apply Hrest|]. intros e He. by left.
Qed.

Lemma extract_rest_emits d :
  emits reads (extract_components d ;; SetupMLMD d ;; SetupDBParams d ;; SetupObjectParams d ;; SetupOwner d).
Proof.
  apply emits_bind; [apply extract_components_emits|intros _]. apply emits_bind; [apply SetupMLMD_emits|intros _].
  apply emits_bind; [apply SetupDBParams_emits|intros _]. apply emits_bind; [apply SetupObjectParams_emits|intros _].
  apply SetupOwner_emits.
Qed.

Lemma ExtractParams_calls (s : St) : Forall (reads_or_bundles (cur s)) (evs (ExtractParams r s)).
Proof.
  unfold ExtractParams. rewrite bind_get. set (d := cur s).
  pose proof (extract_basics_ident d s) as Hid. pose proof (extract_basics_emits d s) as He.
  assert (forall e, reads e -> reads_or_bundles d e) as Hreads by (intros e; by left).
  unfold mbind at 1, prog_bind at 1. destruct (out (extract_basics d s)) as [[]| |] eqn:Ho; cbn.
  2,3: eapply Forall_impl; [apply He|done].
  specialize (Hid tt Ho). apply Forall_app. split; [eapply Forall_impl; [apply He|done]|].
  pose proof (extract_apiserver_calls d _ Hid) as Ha.
  unfold mbind at 1, prog_bind at 1. destruct (out (extract_apiserver r d _)) as [[]| |]; cbn; [|done..].
  apply Forall_app. split; [done|]. eapply Forall_impl; [apply extract_rest_emits|done].
Qed.

Lemma extract_basics_panics d (s : St) :
  spec_Database (dspa_Spec d) = None \/ spec_ObjectStorage (dspa_Spec d) = None ->
  wp (extract_basics d) (fun o _ t => t = [] /\ exists why, o = Panic why) s.
Proof.
  intros H. unfold extract_basics, ask, upd_params. apply wp_get, wp_modify.
  eapply wp_step; [unfold ResolvedPlatformVersion; eapply bind_run; [apply GetStringConfigWithDefault_run|done]|].
  apply wp_modify. destruct (spec_Database (dspa_Spec d)) as [db|]; [|split; [done|by eexists]].
  apply wp_ret_bind, wp_modify. destruct H as [|H]; [done|]. rewrite H. split; [done|by eexists].
Qed.

(** C15: Extracting the parameters of an application reads, and writes nothing but
    the application's own config map of certificates, named after it and in its
    namespace, whatever the cluster and the configuration answer.  An
    application without a section on the database or without one on the object
    store makes the operator panic before any call. *)
Theorem ExtractParams_writes (s : St) :
  wp (ExtractParams r) (fun o _ t =>
    Forall (reads_or_bundles (cur s)) t /\
    (spec_Database (dspa_Spec (cur s)) = None \/ spec_ObjectStorage (dspa_Spec (cur s)) = None ->
       t = [] /\ exists why, o = Panic why)) s.
Proof.
  split; [apply ExtractParams_calls|]. intros H. unfold ExtractParams. rewrite bind_get.
  destruct (extract_basics_panics (cur s) s H) as [Ht [why Ho]].
  unfold mbind, prog_bind. rewrite Ho. cbn. split; [done|by eexists].
Qed.
End ExtractCalls.
