(* ===== verification/Contract.v ===== *)
(** * What extraction promises to the components

    [ExtractParams] fills a structure of parameters that every component reads
    later, and dereferences.  This file states what they may rely on, as a
    well-formedness predicate, and proves that extraction establishes it. *)

From stdpp Require Import base gmap strings list.
From Stdlib Require Import ZArith.
From S2P Require Import Prelude GoStd GoJson GoCodec KubeTypes ApiTypes Data Platform Config Util Sim.
From S2P Require Import Reconciler Params Extract.

(** The parameters of the application [d]. *)
Record params_ok (d : DataSciencePipelinesApplication) (p : DSPAParams) : Prop := {
  ok_name : p_Name p = dspa_Name d;
  ok_namespace : p_Namespace p = dspa_Namespace d;
  ok_secure : osc_Secure (p_ObjectStorageConnection p) ≠ None;
  ok_access_key : osc_AccessKeyID (p_ObjectStorageConnection p) ≠ ""%string;
  ok_secret_key : osc_SecretAccessKey (p_ObjectStorageConnection p) ≠ ""%string;
  ok_endpoint : osc_Endpoint (p_ObjectStorageConnection p) = endpoint_of (p_ObjectStorageConnection p);
  ok_password : dbc_Password (p_DBConnection p) ≠ ""%string;
  ok_mariadb : UsingExternalDB d = false -> p_MariaDB p ≠ None;
  ok_mlmd : exists m, p_MLMD p = Some m /\ mlmd_Deploy m = true /\ mlmd_Envoy m ≠ None /\ mlmd_GRPC m ≠ None;
  ok_workflow_controller : p_WorkflowController p ≠ None
}.

(** the application with the workflow controller the operator writes into it *)
Definition with_default_wc (d : DataSciencePipelinesApplication) : DataSciencePipelinesApplication :=
  d <| dspa_Spec ::= fun s => s <| spec_WorkflowController :=
    Some (default (MkWorkflowController true "" "" "" None) (spec_WorkflowController (dspa_Spec d))) |> |>.

Section Contract.
  Context {P : Platform}.
  Variable r : DSPAReconciler.

Ltac unfold_setup := unfold SetupMLMD, SetupDBParams, setup_external_db, setup_mariadb, RetrieveOrCreateDBSecret,
  SetupObjectParams, setup_external_storage, setup_minio, setup_external_route,
  RetrieveOrCreateObjectStoreSecret, RetrieveAndSetExternalRoute, SetupOwner, extract_components,
  secret_or_empty, RetrieveSecret, GetSecret, set_db_password, upd_api, upd_db, upd_os, prm, put_cur in *.

Lemma password_keeps {X} (f : St -> X) n : inner f -> keeps f (passwordGen n).
Proof.
  intros Hf. unfold passwordGen. apply keeps_bind; [by apply keeps_now|intros _].
  destruct (n <? 0)%Z; [apply keeps_panic|].
  induction (Z.to_nat n) as [|m IH]; cbn [password_loop]; [apply keeps_ret|].
  go_solve. by apply keeps_draw.
Qed.

Lemma RetrieveOrCreateSecret_keeps {X} (f : St -> X) name key n :
  inner f -> keeps f (RetrieveOrCreateSecret name key n).
Proof.
  intros Hf. unfold RetrieveOrCreateSecret. unfold_setup. go_solve; [by apply keeps_io|by apply password_keeps].
Qed.

(** what later steps leave alone *)
Definition db_part (s : St) := (p_DBConnection (st_params s), p_MariaDB (st_params s)).
Definition names_part (s : St) := (p_Name (st_params s), p_Namespace (st_params s), cur s).

Lemma SetupOwner_keeps d {X} (f : St -> X) :
  (forall s g, f (s <| st_params ::= g |>) = f s) -> keeps f (SetupOwner d).
Proof. intros H. unfold SetupOwner. unfold_setup. go_solve; intros s; apply H. Qed.

Lemma SetupObjectParams_keeps d :
  keeps db_part (SetupObjectParams d) /\ keeps names_part (SetupObjectParams d) /\
  keeps (fun s => p_MLMD (st_params s)) (SetupObjectParams d) /\
  keeps (fun s => p_WorkflowController (st_params s)) (SetupObjectParams d).
Proof. unfold_setup. split_and!; go_solve. all: by apply RetrieveOrCreateSecret_keeps. Qed.

Lemma SetupDBParams_keeps d :
  keeps names_part (SetupDBParams d) /\ keeps (fun s => p_MLMD (st_params s)) (SetupDBParams d) /\
  keeps (fun s => p_WorkflowController (st_params s)) (SetupDBParams d).
Proof. unfold_setup. split_and!; go_solve. all: by apply RetrieveOrCreateSecret_keeps. Qed.

(** ** What each step establishes *)

Definition os_conn (s : St) : ObjectStorageConnection := p_ObjectStorageConnection (st_params s).

Lemma SetupDBParams_password d s :
  ensures (SetupDBParams d) (fun _ s' => dbc_Password (db_part s').1 ≠ ""%string) s.
Proof.
  unfold SetupDBParams, prm. do 3 (apply ensures_then; intros ? ?).
  apply ensures_bind, ensures_gets. case_bool_decide as Hp.
  - apply ensures_then. intros. apply ensures_fail.
  - by apply ensures_ret.
Qed.

Lemma SetupDBParams_mariadb d s :
  UsingExternalDB d = false -> ensures (SetupDBParams d) (fun _ s' => (db_part s').2 ≠ None) s.
Proof.
  intros Hd. unfold SetupDBParams. rewrite Hd.
  apply (ensures_first (fun s => (db_part s).2) (fun m => m ≠ None)); [|intros _; unfold_setup; go_solve].
  unfold setup_mariadb. do 3 (apply ensures_then; intros ? ?).
  apply (ensures_first (fun s => (db_part s).2) (fun m => m ≠ None)); [by apply ensures_modify|intros _].
  unfold_setup. go_solve. all: by apply RetrieveOrCreateSecret_keeps.
Qed.

Lemma SetupObjectParams_keys d s :
  ensures (SetupObjectParams d) (fun _ s' =>
    osc_AccessKeyID (os_conn s') ≠ ""%string /\ osc_SecretAccessKey (os_conn s') ≠ ""%string /\
    osc_Endpoint (os_conn s') = endpoint_of (os_conn s')) s.
Proof.
  unfold SetupObjectParams, prm. do 2 (apply ensures_then; intros ? ?).
  apply ensures_bind, ensures_modify, ensures_bind, ensures_gets.
  destruct (_ || _) eqn:Hk.
  - apply ensures_then. intros. apply ensures_fail.
  - apply orb_false_iff in Hk as [Hk1%bool_decide_eq_false Hk2%bool_decide_eq_false].
    apply ensures_ret. by split_and!.
Qed.

Lemma SetupObjectParams_secure d s :
  ensures (SetupObjectParams d) (fun _ s' => osc_Secure (os_conn s') ≠ None) s.
Proof.
  set (R := fun b : option bool => b ≠ None).
  unfold SetupObjectParams. apply ensures_bind.
  apply (ensures_mono _ (fun _ s' => R (osc_Secure (os_conn s')))).
  - destruct (UsingExternalStorage d).
    + apply ensures_then. intros es s1. unfold setup_external_storage.
      apply (ensures_first (fun s => osc_Secure (os_conn s)) R); [|intros _; unfold_setup; go_solve].
      apply ensures_modify. cbn. by destruct (es_Secure es).
    + unfold setup_minio. apply ensures_then. intros p s1. destruct (p_Minio p) as [m|]; [|apply ensures_fail].
      case_bool_decide; [apply ensures_fail|]. do 2 (apply ensures_then; intros ? ?).
      apply (ensures_first (fun s => osc_Secure (os_conn s)) R); [by apply ensures_modify|intros _].
      unfold_setup. go_solve. all: by apply RetrieveOrCreateSecret_keeps.
  - intros _ s1 H1. apply (ensures_first (fun s => osc_Secure (os_conn s)) R); [|intros _; unfold_setup; go_solve].
    apply ensures_whenb; [|done]. intros _. unfold setup_external_route. apply ensures_then. intros [route e] s2.
    by apply ensures_modify.
Qed.

Lemma fill_mlmd_ok e g m :
  mlmd_Deploy (fill_mlmd e g m) = mlmd_Deploy m /\ mlmd_Envoy (fill_mlmd e g m) ≠ None /\
  mlmd_GRPC (fill_mlmd e g m) ≠ None.
Proof. by split_and!. Qed.

Lemma SetupMLMD_deploys d s :
  ensures (SetupMLMD d) (fun _ s' => exists m, p_MLMD (st_params s') = Some m /\ mlmd_Deploy m = true /\
    mlmd_Envoy m ≠ None /\ mlmd_GRPC m ≠ None) s.
Proof.
  unfold SetupMLMD, prm. apply ensures_bind, ensures_gets, ensures_bind.
  apply (ensures_mono _ (fun m _ => mlmd_Deploy m = true)).
  - destruct (p_MLMD (st_params s)) as [m|]; [|by apply ensures_ret].
    destruct (mlmd_Deploy m) eqn:Hm; [by apply ensures_ret|apply ensures_fail].
  - intros m s1 Hm. do 2 (apply ensures_then; intros ? ?). apply ensures_modify. cbn.
    eexists. split; [reflexivity|]. destruct (fill_mlmd_ok a a0 m) as (-> & ? & ?). by split_and!.
Qed.

Lemma extract_components_wc d s :
  ensures (extract_components d) (fun _ s' => p_WorkflowController (st_params s') ≠ None /\ cur s' = with_default_wc d /\
    p_Name (st_params s') = p_Name (st_params s) /\ p_Namespace (st_params s') = p_Namespace (st_params s)) s.
Proof.
  unfold extract_components, put_cur.
  assert (forall n v, keeps (fun s : St => s) (GetStringConfigWithDefault n v)) as Hc by (intros; auto with go).
  do 2 (apply ensures_bind; eapply ensures_mono; [apply (ensures_keeps _ _ _ (Hc _ _))|intros ? ? ->];
        apply ensures_bind, ensures_modify).
  apply ensures_bind, ensures_modify.
  do 2 (apply ensures_bind; eapply ensures_mono; [apply (ensures_keeps _ _ _ (Hc _ _))|intros ? ? ->]).
  apply ensures_modify. unfold set_cur. cbn. by destruct (st_copy s).
Qed.

Lemma SetupOwner_names d s :
  p_Name (st_params s) = dspa_Name d -> ensures (SetupOwner d) (fun _ s' => p_Name (st_params s') = dspa_Name d) s.
Proof.
  intros Hn. unfold SetupOwner. apply ensures_bind.
  eapply ensures_mono; [apply (ensures_keeps (fun s => p_Name (st_params s))); auto with go|].
  cbn beta. intros b s1 H1. apply ensures_bind, ensures_modify, ensures_whenb.
  - intros _. by apply ensures_modify.
  - intros _. cbn. congruence.
Qed.

(** the steps after the basics and the API server *)
Definition extract_tail (d : DataSciencePipelinesApplication) : M unit :=
  extract_components d ;; SetupMLMD d ;; SetupDBParams d ;; SetupObjectParams d ;; SetupOwner d.

Lemma SetupMLMD_keeps d :
  keeps names_part (SetupMLMD d) /\ keeps (fun s => p_WorkflowController (st_params s)) (SetupMLMD d).
Proof. unfold_setup. split_and!; go_solve. Qed.

Lemma SetupOwner_keeps_parts d :
  keeps db_part (SetupOwner d) /\ keeps cur (SetupOwner d) /\ keeps os_conn (SetupOwner d) /\
  keeps (fun s => p_Namespace (st_params s)) (SetupOwner d) /\ keeps (fun s => p_MLMD (st_params s)) (SetupOwner d) /\
  keeps (fun s => p_WorkflowController (st_params s)) (SetupOwner d).
Proof. unfold SetupOwner. unfold_setup. split_and!; go_solve. Qed.

(** what the tail establishes in its own right *)
Lemma extract_tail_ok d s :
  p_Name (st_params s) = dspa_Name d -> p_Namespace (st_params s) = dspa_Namespace d ->
  ensures (extract_tail d) (fun _ s' => params_ok d (st_params s') /\ cur s' = with_default_wc d) s.
Proof.
  intros Hn Hns. unfold extract_tail.
  destruct (SetupDBParams_keeps d) as (D1 & D2 & D3). destruct (SetupObjectParams_keeps d) as (O1 & O2 & O3 & O4).
  destruct (SetupMLMD_keeps d) as (L1 & L2). destruct (SetupOwner_keeps_parts d) as (W1 & W2 & W3 & W4 & W5 & W6).
  apply ensures_bind. eapply ensures_mono; [apply extract_components_wc|]. cbn beta. intros _ s1 (Hwc & Hc & Hn1 & Hns1).
  apply ensures_bind. intros [] Ho1. pose proof (SetupMLMD_deploys d s1 tt Ho1) as Hm.
  pose proof (L1 s1) as Hl1. pose proof (L2 s1) as Hl2. cbn beta in *. set (s2 := fin (SetupMLMD d s1)) in *.
  apply ensures_bind. intros [] Ho2. pose proof (SetupDBParams_password d s2 tt Ho2) as Hp.
  pose proof (fun Hx => SetupDBParams_mariadb d s2 Hx tt Ho2) as Hmaria.
  pose proof (D1 s2) as Hd1. pose proof (D2 s2) as Hd2. pose proof (D3 s2) as Hd3.
  set (s3 := fin (SetupDBParams d s2)) in *. cbn beta in *.
  apply ensures_bind. intros [] Ho3. pose proof (SetupObjectParams_keys d s3 tt Ho3) as (Hk1 & Hk2 & Hk3).
  pose proof (SetupObjectParams_secure d s3 tt Ho3) as Hsec.
  pose proof (O1 s3) as Ho1'. pose proof (O2 s3) as Ho2'. pose proof (O3 s3) as Ho3'. pose proof (O4 s3) as Ho4'.
  set (s4 := fin (SetupObjectParams d s3)) in *. cbn beta in *.
  assert (p_Name (st_params s4) = dspa_Name d /\ p_Namespace (st_params s4) = dspa_Namespace d /\ cur s4 = with_default_wc d)
    as (Hn4 & Hns4 & Hc4).
  { unfold names_part in *. split_and!; congruence. }
  intros [] Ho4. pose proof (SetupOwner_names d s4 Hn4 tt Ho4) as Hn5.
  specialize (W1 s4). specialize (W2 s4). specialize (W3 s4). specialize (W4 s4). specialize (W5 s4). specialize (W6 s4).
  set (s5 := fin (SetupOwner d s4)) in *. cbn beta in *. unfold db_part, os_conn in *.
  split; [|congruence]. rewrite <- W3 in Hk1, Hk2, Hk3, Hsec. rewrite <- Ho1', <- W1 in Hp, Hmaria.
  split; try done; [congruence| |congruence]. rewrite W5, Ho3', Hd2. exact Hm.
Qed.

(** C16: Whenever extraction succeeds, the parameters are well formed for the
    application: its name and namespace, an object store with a scheme decision,
    non-empty keys and the endpoint they determine, a non-empty database
    password, a MariaDB unless the database is external, a deployed ML metadata
    with both its parts, and a workflow controller.  So nothing the components
    dereference of the parameters later is nil (the sections of the application
    itself are another matter).  The application is changed in one place only: it
    gets a workflow controller section if it had none. *)
Theorem ExtractParams_well_formed (s : St) :
  wp (ExtractParams r) (fun o s' _ =>
    o = Ret tt -> params_ok (cur s) (st_params s') /\ cur s' = with_default_wc (cur s)) s.
Proof.
  assert (ensures (ExtractParams r)
    (fun _ s' => params_ok (cur s) (st_params s') /\ cur s' = with_default_wc (cur s)) s) as H; [|exact (H tt)].
  unfold ExtractParams. apply ensures_bind, ensures_gets. set (d := cur s).
  apply ensures_bind. eapply ensures_mono; [apply extract_basics_ident|]. cbn beta. intros _ s1 Hi1.
  apply ensures_bind. intros [] Ho. apply extract_tail_ok.
  all: pose proof (extract_apiserver_keeps r d s1) as Hk; unfold ident, ident_of in *; congruence.
Qed.

(** ** Where credentials come from *)

Definition from_alphabet (p : string) : Prop := Forall (fun c => c ∈ password_chars) (String.list_ascii_of_string p).

Lemma password_loop_strong n (s : St) :
  returns (password_loop n) (fun p s' t => t = [] /\ String.length p = n /\ from_alphabet p /\
    st_params s' = st_params s) s.
Proof.
  revert s. induction n as [|n IH]; intros s; cbn [password_loop]; [apply returns_ret; by split_and!; [| |constructor|]|].
  apply returns_bind. intros i Hi. unfold draw in *. destruct (rand_intn _ _) as [k w]. cbn in *.
  apply returns_bind. intros c Hc. unfold deref in *. destruct (if (i <? 0)%Z then None else _) as [c'|] eqn:Hl; [|done].
  injection Hc as ->. cbn [fin evs]. apply returns_bind. eapply returns_mono; [apply IH|]. cbn beta.
  intros p s' t (-> & Hlen & Ha & Hp). apply returns_ret. split_and!; [done|by simpl; rewrite Hlen| |by rewrite Hp].
  constructor; [|done]. destruct (i <? 0)%Z; [done|]. by eapply list_elem_of_lookup_2.
Qed.

(** C39: A generated password has the requested length and only letters and digits,
    and generating it never fails or calls anything, as long as the generator
    of random numbers stays within the bound it is given; it panics exactly
    on a negative length. *)
Theorem passwordGen_strength n (s : St) :
  (forall k w, (0 < k)%Z -> (0 <= (rand_intn k w).1 < k)%Z) ->
  wp (passwordGen n) (fun o s' t => t = [] /\ st_params s' = st_params s /\
    if (n <? 0)%Z then exists why, o = Panic why
    else exists p, o = Ret p /\ Z.of_nat (String.length p) = n /\ from_alphabet p) s.
Proof.
  intros Hrand. unfold passwordGen. destruct (now_run s) as (t0 & w0 & Hn). eapply wp_step; [exact Hn|].
  cbn [app]. destruct (Z.ltb_spec n 0); [split_and!; [done..|by eexists]|].
  assert (Z.of_nat (Z.to_nat n) = n) as Hz by lia. revert Hz. generalize (Z.to_nat n). intros m Hz.
  assert (forall (s : St), exists p, out (password_loop m s) = Ret p) as Hret.
  { clear s w0 Hn Hz. induction m as [|m IH]; intros s; cbn [password_loop]; [by eexists|].
    unfold mbind, prog_bind, draw, deref.
    pose proof (Hrand (Z.of_nat (length password_chars)) (st_world s) ltac:(by vm_compute)) as Hk.
    destruct (rand_intn _ _) as [k w]. cbn [fst out fin evs] in *.
    destruct (Z.ltb_spec k 0); [lia|].
    destruct (lookup_lt_is_Some_2 password_chars (Z.to_nat k)) as [c ->]; [lia|]. cbn.
    match goal with |- context [password_loop m ?s1] => destruct (IH s1) as [p' ->] end. by eexists. }
  destruct (Hret (s <| st_world := w0 |>)) as [p Hp].
  destruct (password_loop_strong m _ p Hp) as (Ht & Hl & Ha & Hs). unfold wp. rewrite Hp.
  split_and!; [done|by rewrite Hs|]. exists p. by rewrite Hl.
Qed.

(** A base64 text for an entry of a secret that was read, or for a password that
    was generated because there is no such secret. *)
Definition credential (ns name key : string) (generated : option Z) (v : string) : Prop :=
  exists plain, v = EncodeToString plain /\
  ((exists sec w w', get_secret (NN ns name) w = (inl sec, w') /\ plain = map_get (sec_Data sec) key) \/
   (exists n, generated = Some n /\ String.length plain = Z.to_nat n /\ from_alphabet plain)).

Lemma RetrieveSecret_returns name key (s : St) :
  returns (RetrieveSecret name key) (fun v s' _ => st_params s' = st_params s /\
    exists sec w w', get_secret (NN (p_Namespace (st_params s)) name) w = (inl sec, w') /\
      v = EncodeToString (map_get (sec_Data sec) key)) s.
Proof.
  unfold RetrieveSecret, GetSecret, prm. apply returns_bind, returns_gets, returns_bind.
  unfold returns, wp, io. destruct (get_secret _ _) as [[sec|e] w] eqn:Hg; [|done].
  intros a [= <-] v [= <-]. split; [done|]. eauto.
Qed.

Lemma RetrieveSecret_fails name key : keeps st_params (RetrieveSecret name key).
Proof. unfold RetrieveSecret, GetSecret, prm. go_solve. Qed.

Lemma RetrieveOrCreateSecret_credential name key n (s : St) :
  ensures (RetrieveOrCreateSecret name key n) (fun v s' =>
    credential (p_Namespace (st_params s)) name key (Some n) v /\ st_params s' = st_params s) s.
Proof.
  intros v. unfold RetrieveOrCreateSecret. rewrite bind_try.
  pose proof (RetrieveSecret_returns name key s) as Hr. pose proof (RetrieveSecret_fails name key s) as Hk.
  destruct (out (RetrieveSecret name key s)) as [x|e|p] eqn:Ho; cbn [out fin]; [|destruct (IsNotFound e); [|done]|done].
  - intros [= <-]. destruct (Hr x Ho) as (Hp & sec & w & w' & Hg & ->). split; [|done].
    eexists. split; [reflexivity|]. left. eauto.
  - set (s1 := fin (RetrieveSecret name key s)) in *. unfold passwordGen.
    destruct (now_run s1) as (t0 & w0 & Hn). unfold mbind, prog_bind. rewrite Hn. cbn [out fin evs].
    set (s2 := s1 <| st_world := w0 |>). destruct (n <? 0)%Z; [done|].
    pose proof (password_loop_strong (Z.to_nat n) s2) as Hpw.
    destruct (out (password_loop (Z.to_nat n) s2)) as [p| |] eqn:Hp; cbn; [|done..]. intros [= <-].
    destruct (Hpw p Hp) as (_ & Hl & Ha & Hs). split; [|by rewrite Hs].
    exists p. split; [done|]. right. eauto.
Qed.

Lemma secret_or_empty_credential name key (s : St) :
  ensures (secret_or_empty name key) (fun v s' =>
    (v = ""%string \/ credential (p_Namespace (st_params s)) name key None v) /\ st_params s' = st_params s) s.
Proof.
  intros v. unfold secret_or_empty. rewrite bind_try.
  pose proof (RetrieveSecret_returns name key s) as Hr. pose proof (RetrieveSecret_fails name key s) as Hk.
  destruct (out (RetrieveSecret name key s)) as [x|e|p] eqn:Ho; cbn [out fin]; [|destruct (IsNotFound e); [|done]|done].
  - intros [= <-]. destruct (Hr x Ho) as (Hp & sec & w & w' & Hg & ->). split; [|done]. right.
    eexists. split; [reflexivity|]. left. eauto.
  - intros [= <-]. split; [by left|done].
Qed.

(** the database credentials of a state: where they come from, the password and
    its decoded form *)
Definition db_triple (s : St) : option SecretKeyValue * string * string :=
  let c := p_DBConnection (st_params s) in (dbc_CredentialsSecret c, dbc_Password c, dbc_DecodedPassword c).

Definition db_credentials (ns : string) (external : bool) (c : option SecretKeyValue * string * string) : Prop :=
  exists secret, c.1.1 = Some secret /\
    (c.1.2 = ""%string \/
     credential ns (skv_Name secret) (skv_Key secret) (if external then None else Some GeneratedDBPasswordLength) c.1.2) /\
    c.2 = (DecodeString c.1.2).1.

Definition namespace (s : St) : string := p_Namespace (st_params s).

(** a step that leaves the namespace alone, then the rest *)
Lemma ensures_same_ns {A B} (m : M A) (k : A -> M B) ns Q (s : St) :
  keeps namespace m -> namespace s = ns -> (forall a s', namespace s' = ns -> ensures (k a) Q s') ->
  ensures (m ≫= k) Q s.
Proof.
  intros Hm Hs Hk. apply ensures_bind. eapply ensures_mono; [apply (ensures_keeps namespace), Hm|].
  cbn beta. intros a s' Ha. apply Hk. congruence.
Qed.

(** The last two steps, once the credentials are named: the password is fetched
    and stored with its decoded form. *)
Lemma store_password (external : bool) (secret : SecretKeyValue) (fetch : M string) ns (s : St) :
  namespace s = ns -> (db_triple s).1.1 = Some secret ->
  ensures fetch (fun v s' =>
     (v = ""%string \/ credential ns (skv_Name secret) (skv_Key secret)
        (if external then None else Some GeneratedDBPasswordLength) v) /\ st_params s' = st_params s) s ->
  ensures (v ← fetch; set_db_password v) (fun _ s' => db_credentials ns external (db_triple s')) s.
Proof.
  intros Hns Hsec Hf. apply ensures_bind. eapply ensures_mono; [exact Hf|]. cbn beta. intros v s2 [Hv Hp].
  apply ensures_modify. exists secret. unfold db_triple in *. cbn. rewrite Hp. by split_and!.
Qed.

Lemma setup_external_db_credentials edb (s : St) :
  ensures (setup_external_db edb) (fun _ s' => db_credentials (namespace s) true (db_triple s')) s.
Proof.
  unfold setup_external_db, upd_db. apply ensures_bind, ensures_modify, ensures_bind, ensures_lift. intros extra _.
  apply ensures_bind, ensures_modify, ensures_bind, ensures_deref. intros secret Hsec.
  match goal with |- ensures _ _ ?s0 => assert (namespace s0 = namespace s /\ (db_triple s0).1.1 = Some secret)
    as [Hns1 Hsec1] by done; generalize dependent s0 end.
  intros s1 Hns1 Hsec1. apply (store_password true secret); [done..|].
  eapply ensures_mono; [apply secret_or_empty_credential|]. cbn beta. fold (namespace s1). by rewrite Hns1.
Qed.

Lemma setup_mariadb_credentials (s : St) :
  ensures setup_mariadb (fun _ s' => db_credentials (namespace s) false (db_triple s')) s.
Proof.
  unfold setup_mariadb, prm, RetrieveOrCreateDBSecret. apply ensures_bind, ensures_gets.
  do 4 (eapply (ensures_same_ns _ _ (namespace s)); [unfold_setup; go_solve|done|intros ? ? ?]).
  apply ensures_bind, ensures_lift. intros extra _.
  match goal with |- ensures (upd_db _ ;; v ← RetrieveOrCreateSecret (skv_Name ?x) _ _; _) _ _ => set (secret := x) end.
  unfold upd_db. apply ensures_bind, ensures_modify.
  match goal with |- ensures _ _ ?s0 => assert (namespace s0 = namespace s /\ (db_triple s0).1.1 = Some secret)
    as [Hns1 Hsec1] by done; generalize dependent s0 end.
  intros s1 Hns1 Hsec1. apply (store_password false secret); [done..|].
  eapply ensures_mono; [apply RetrieveOrCreateSecret_credential|]. cbn beta. intros v s2 [Hv Hp].
  fold (namespace s1) in Hv. rewrite Hns1 in Hv. by split; [right|].
Qed.

Lemma SetupDBParams_credentials d (s : St) :
  ensures (SetupDBParams d) (fun _ s' =>
    db_credentials (namespace s) (UsingExternalDB d) (db_triple s')) s.
Proof.
  unfold SetupDBParams. destruct (UsingExternalDB d).
  all: apply (ensures_first db_triple (db_credentials (namespace s) _)); [|intros _; unfold_setup; go_solve].
  - apply ensures_bind, ensures_deref. intros edb _. apply setup_external_db_credentials.
  - apply setup_mariadb_credentials.
Qed.

(** C17: The database password survives its encoding: whenever the database
    parameters are set up, the password is the base64 text, and its decoded form
    the exact bytes, of the entry the credentials name in a secret of the
    application's namespace, or, for a database of the operator without such a
    secret, of a freshly generated password of twelve letters and digits.  It is
    never empty. *)
Theorem SetupDBParams_roundtrip d (s : St) :
  wp (SetupDBParams d) (fun o s' _ => o = Ret tt ->
    let c := p_DBConnection (st_params s') in
    DecodeString (dbc_Password c) = (dbc_DecodedPassword c, true) /\ dbc_DecodedPassword c ≠ ""%string /\
    exists secret, dbc_CredentialsSecret c = Some secret /\
      credential (p_Namespace (st_params s)) (skv_Name secret) (skv_Key secret)
        (if UsingExternalDB d then None else Some GeneratedDBPasswordLength) (dbc_Password c)) s.
Proof.
  intros Ho. pose proof (SetupDBParams_password d s tt Ho) as Hne.
  destruct (SetupDBParams_credentials d s tt Ho) as (secret & Hs & Hv & Hd). unfold db_part, db_triple in *. cbn zeta in *. cbn [fst snd] in Hs, Hv, Hd, Hne.
  destruct Hv as [Hv|Hv]; [done|]. cbn zeta. destruct Hv as (plain & Hp & Hfrom). rewrite Hd.
  rewrite Hp in Hne |- *. rewrite base64_roundtrip. cbn [fst]. split_and!; [done| |].
  - intros ->. by apply Hne.
  - exists secret. split; [done|]. exists plain. split; [done|]. by destruct (UsingExternalDB d).
Qed.
End Contract.

(** ** Examples *)

#[local] Existing Instance sim_platform.

Lemma sim_rand_bounded k (w : World) : (0 < k)%Z -> (0 <= (rand_intn k w).1 < k)%Z.
Proof.
  intros Hk. cbn. destruct (sim_second w) as [t w']. cbn. by apply Z.mod_pos_bound.
Qed.

Lemma passwordGen_strength_witness :
  exists p, out (passwordGen 12 (sim_state sim_empty sim_dspa)) = Ret p /\
    Z.of_nat (String.length p) = 12%Z /\ from_alphabet p.
Proof.
  destruct (passwordGen_strength 12 (sim_state sim_empty sim_dspa) sim_rand_bounded) as (_ & _ & H). exact H.
Defined.
