(* ===== verification/Manifests.v ===== *)
(** * Manifests (controllers/config/templating.go, controllers/config/manifest.go,
    and the appliers of controllers/dspipeline_controller.go)

    A template file is read, executed on the parameters and parsed into
    objects, which are given an owner and labels and applied, or deleted. *)

From stdpp Require Import base gmap strings list.
From Stdlib Require Import ZArith.
From S2P Require Import Prelude GoStd GoJson KubeTypes ApiTypes Data Platform Config Util.
From S2P Require Import Reconciler Params Extract.

(** not set outside of tests *)
Definition PathPrefix : string := "".

Definition prefixedPath (p : string) : string :=
  if bool_decide (PathPrefix ≠ ""%string) then PathPrefix +:+ "/" +:+ p else p.

Section Manifests.
  Context {P : Platform}.

Definition Transformer : Type := Unstructured -> Unstructured + error.

(** ** Templates *)

Definition templateSource (text : string) (context : DSPAParams) : string + error :=
  match template_parse text with
  | inr e => inr e
  | inl t => template_execute t context
  end.

Definition PathTemplateSource (path : string) (context : DSPAParams) : M string :=
  text ← io (CReadFile (prefixedPath path)) (read_file (prefixedPath path));
  lift (templateSource text context).

Definition Manifest (templatePath : string) (context : DSPAParams) : M (list Unstructured) :=
  pathTmplSrc ← PathTemplateSource templatePath context;
  lift (manifest_from pathTmplSrc).

(** ** Applying and deleting *)

Variable r : DSPAReconciler.

(** the manifest of a template, or the error of the appliers *)
Definition load (template : string) (params : DSPAParams) : M (list Unstructured) :=
  m ← try (Manifest (r_TemplatesPath r +:+ template) params);
  match m with
  | inl m => mret m
  | inr e => fail (ErrWrap ("error loading template (" +:+ template +:+ ") yaml: ") e "")
  end.

Definition Apply (owner : Owner) (template : string) (fns : list Transformer) : M unit :=
  params ← prm;
  m ← load template params;
  m ← lift (mf_transform [mf_inject_owner owner;
                          AddLabelTransformer DSPVersionk8sLabel (p_DSPVersion params);
                          AddDeploymentPodLabelTransformer DSPVersionk8sLabel (p_DSPVersion params)] m);
  m ← lift (mf_transform fns m);
  io (CApply template) (mf_apply m).

(** The transformers are not passed on. *)
Definition ApplyAll (owner : Owner) (templates : list string) (fns : list Transformer) : M unit :=
  iter (fun template => Apply owner template []) templates.

Definition ApplyDir (owner : Owner) (directory : string) (fns : list Transformer) : M unit :=
  templates ← GetTemplatesInDir (r_TemplatesPath r) directory;
  ApplyAll owner templates [].

Definition ApplyWithoutOwner (template : string) (fns : list Transformer) : M unit :=
  params ← prm;
  m ← load template params;
  m ← lift (mf_transform fns m);
  io (CApply template) (mf_apply m).

Definition DeleteResource (template : string) (fns : list Transformer) : M unit :=
  params ← prm;
  m ← load template params;
  m ← lift (mf_transform fns m);
  io (CDeleteManifest template) (mf_delete m).

Definition DeleteResourceAll (templates : list string) : M unit :=
  iter (fun template =>
    d ← try (DeleteResource template []);
    match d with
    | inl _ => mret tt
    | inr e => if negb (IsNotFound e) then fail e else mret tt
    end) templates.

Definition DeleteResourceDir (directory : string) : M unit :=
  templates ← GetTemplatesInDir (r_TemplatesPath r) directory;
  DeleteResourceAll templates.

(** an object that may already be gone *)
Definition DeleteResourceIfItExists (kind : string) (nn : NamespacedName) : M unit :=
  g ← try (io (CGet kind nn) (get_object kind nn));
  match g with
  | inl _ => io (CDelete kind nn) (delete_object kind nn)
  | inr e => if IsNotFound e then mret tt else fail e
  end.

(** the owner of what a reconcile applies: the application *)
Definition current_owner : M Owner :=
  d ← gets cur; mret (owner_of d).
End Manifests.

(** ** What appliers may touch *)

Section ManifestProofs.
  Context {P : Platform}.

(** if it returns, a call was made *)
Definition ensures_event {A} (m : M A) (e : event) (s : St) : Prop :=
  forall a, out (m s) = Ret a -> e ∈ evs (m s).

(** Reading templates and applying or deleting one of [ts]. *)
Definition applies (ts : list string) (e : event) : Prop :=
  match ev_call e with
  | CApply t => t ∈ ts
  | CReadFile _ | CReadDir _ => True
  | _ => False
  end.
Definition deletes (ts : list string) (e : event) : Prop :=
  match ev_call e with
  | CDeleteManifest t => t ∈ ts
  | CReadFile _ | CReadDir _ => True
  | _ => False
  end.

Lemma load_emits (Q : event -> Prop) r t p :
  (forall b f, Q (Ev (CReadFile f) b)) -> emits Q (load r t p).
Proof.
  intros HQ. unfold load, Manifest, PathTemplateSource. go_solve.
Qed.

Lemma load_keeps {X} (f : St -> X) r t p : inner f -> keeps f (load r t p).
Proof.
  intros Hf. unfold load, Manifest, PathTemplateSource. go_solve. by apply keeps_io.
Qed.

Lemma Apply_emits r o t fns : emits (applies [t]) (Apply r o t fns).
Proof.
  unfold Apply, prm. go_solve; [by apply load_emits|].
  apply emits_io. intros b. unfold applies. simpl. set_solver.
Qed.

Lemma Apply_keeps {X} (f : St -> X) r o t fns : inner f -> keeps f (Apply r o t fns).
Proof. intros Hf. unfold Apply, prm. go_solve; [by apply load_keeps|by apply keeps_io]. Qed.

Lemma ApplyWithoutOwner_emits r t fns : emits (applies [t]) (ApplyWithoutOwner r t fns).
Proof.
  unfold ApplyWithoutOwner, prm. go_solve; [by apply load_emits|].
  apply emits_io. intros b. unfold applies. simpl. set_solver.
Qed.

Lemma ApplyWithoutOwner_keeps {X} (f : St -> X) r t fns : inner f -> keeps f (ApplyWithoutOwner r t fns).
Proof. intros Hf. unfold ApplyWithoutOwner, prm. go_solve; [by apply load_keeps|by apply keeps_io]. Qed.

Lemma DeleteResource_emits r t fns : emits (deletes [t]) (DeleteResource r t fns).
Proof.
  unfold DeleteResource, prm. go_solve; [by apply load_emits|].
  apply emits_io. intros b. unfold deletes. simpl. set_solver.
Qed.

Lemma DeleteResource_keeps {X} (f : St -> X) r t fns : inner f -> keeps f (DeleteResource r t fns).
Proof. intros Hf. unfold DeleteResource, prm. go_solve; [by apply load_keeps|by apply keeps_io]. Qed.

Lemma iter_emits_list {A} (Q : event -> Prop) (f : A -> M unit) l :
  (forall x, x ∈ l -> emits Q (f x)) -> emits Q (iter f l).
Proof.
  intros Hf. induction l as [|x l IH]; [apply emits_ret|]. cbn [iter]. apply emits_bind.
  - apply Hf. set_solver.
  - intros _. apply IH. set_solver.
Qed.

(** Applying the templates of a directory. *)
Definition in_dir (dir template : string) : Prop := exists name, template = path_Join dir name.
Definition applies_dir (dir : string) (e : event) : Prop :=
  match ev_call e with
  | CApply t => in_dir dir t
  | CReadFile _ | CReadDir _ => True
  | _ => False
  end.

Lemma GetTemplatesInDir_in_dir root dir (s : St) ts :
  out (GetTemplatesInDir root dir s) = Ret ts -> Forall (in_dir dir) ts.
Proof.
  unfold GetTemplatesInDir. rewrite bind_io. destruct (read_dir _ _) as [[fs|e] w]; [|done].
  cbn. intros [= <-]. apply Forall_fmap, Forall_true. intros f. by exists f.1.
Qed.

(** A program that goes on with the templates of a directory. *)
Lemma with_templates_emits {A} (Q : event -> Prop) root dir (k : list string -> M A) :
  (forall b, Q (Ev (CReadDir (root +:+ dir)) b)) ->
  (forall ts, Forall (in_dir dir) ts -> emits Q (k ts)) ->
  emits Q (GetTemplatesInDir root dir ≫= k).
Proof.
  intros HQ Hk s. pose proof (GetTemplatesInDir_in_dir root dir s) as Hts.
  assert (emits Q (GetTemplatesInDir root dir)) as Hg.
  { unfold GetTemplatesInDir. apply emits_bind; [by apply emits_io|]. intros. apply emits_ret. }
  specialize (Hg s). unfold mbind, prog_bind in *.
  destruct (out (GetTemplatesInDir root dir s)) as [ts| |]; simpl; [|done..].
  apply Forall_app. split; [done|]. apply Hk. by apply Hts.
Qed.

Lemma ApplyAll_emits (Q : event -> Prop) r o ts fns :
  (forall t e, t ∈ ts -> applies [t] e -> Q e) -> emits Q (ApplyAll r o ts fns).
Proof.
  intros HQ. apply iter_emits_list. intros t Ht. eapply emits_mono; [|apply Apply_emits].
  intros e He. by apply (HQ t).
Qed.

Lemma applies_in_dir dir t e : in_dir dir t -> applies [t] e -> applies_dir dir e.
Proof. unfold applies, applies_dir. destruct (ev_call e); try done. by intros ? ->%list_elem_of_singleton. Qed.

Lemma ApplyDir_emits r o dir fns : emits (applies_dir dir) (ApplyDir r o dir fns).
Proof.
  apply with_templates_emits; [done|]. intros ts Hts. apply ApplyAll_emits. intros t e Ht.
  apply applies_in_dir. rewrite Forall_forall in Hts. auto.
Qed.

Lemma ApplyDir_keeps {X} (f : St -> X) r o dir fns : inner f -> keeps f (ApplyDir r o dir fns).
Proof.
  intros Hf. unfold ApplyDir, GetTemplatesInDir, ApplyAll. go_solve; [by apply keeps_io|by apply Apply_keeps].
Qed.

Definition deletes_dir (dir : string) (e : event) : Prop :=
  match ev_call e with
  | CDeleteManifest t => in_dir dir t
  | CReadFile _ | CReadDir _ => True
  | _ => False
  end.

Lemma DeleteResourceDir_emits r dir : emits (deletes_dir dir) (DeleteResourceDir r dir).
Proof.
  apply with_templates_emits; [done|]. intros ts Hts. apply iter_emits_list. intros t Ht.
  apply emits_bind; [|intros []; go_solve]. apply emits_try. eapply emits_mono; [|apply DeleteResource_emits].
  intros e. unfold deletes, deletes_dir. destruct (ev_call e); try done. intros ->%list_elem_of_singleton.
  rewrite Forall_forall in Hts. auto.
Qed.

Lemma DeleteResourceDir_keeps {X} (f : St -> X) r dir : inner f -> keeps f (DeleteResourceDir r dir).
Proof.
  intros Hf. unfold DeleteResourceDir, GetTemplatesInDir, DeleteResourceAll. go_solve; [by apply keeps_io|].
  by apply DeleteResource_keeps.
Qed.

Lemma DeleteResourceIfItExists_emits kind nn :
  emits (fun e => ev_call e = CGet kind nn \/ ev_call e = CDelete kind nn) (DeleteResourceIfItExists kind nn).
Proof. unfold DeleteResourceIfItExists. go_solve; apply emits_io; auto. Qed.

Lemma DeleteResourceIfItExists_keeps {X} (f : St -> X) kind nn :
  inner f -> keeps f (DeleteResourceIfItExists kind nn).
Proof. intros Hf. unfold DeleteResourceIfItExists. go_solve; by apply keeps_io. Qed.

(** ** Plans: which templates are applied, in which order *)

Definition applied (t : list event) : list string :=
  omap (fun e => match ev_call e with CApply x => Some x | _ => None end) t.

(** A program applies the templates of a list in order, all of them if it
    returns. *)
Definition plan {A} (l : list string) (m : M A) : Prop :=
  forall s, applied (evs (m s)) `prefix_of` l /\ forall a, out (m s) = Ret a -> applied (evs (m s)) = l.

Lemma applied_app t u : applied (t ++ u) = applied t ++ applied u.
Proof. apply omap_app. Qed.

Lemma applied_none t : Forall (fun e => forall x, ev_call e ≠ CApply x) t -> applied t = [].
Proof. induction 1 as [|[[] b] t He _ IH]; cbn; auto. by destruct (He template). Qed.

Lemma plan_bind {A B} l1 l2 (m : M A) (k : A -> M B) :
  plan l1 m -> (forall a, plan l2 (k a)) -> plan (l1 ++ l2) (m ≫= k).
Proof.
  intros Hm Hk s. unfold mbind, prog_bind. destruct (Hm s) as [Hp Hr].
  destruct (out (m s)) as [a|e|w]; simpl.
  - rewrite applied_app, (Hr a) by done. destruct (Hk a (fin (m s))) as [Hp' Hr'].
    split; [by apply prefix_app|]. intros b Hb. by rewrite (Hr' b).
  - split; [by apply prefix_app_r|done].
  - split; [by apply prefix_app_r|done].
Qed.

Lemma plan_quiet {A} (m : M A) : emits (fun e => forall x, ev_call e ≠ CApply x) m -> plan [] m.
Proof. intros H s. rewrite applied_none by apply H. by split. Qed.

Lemma plan_ret {A} (a : A) : plan [] (mret a : M A).
Proof. apply plan_quiet, emits_ret. Qed.

Lemma plan_quiet_bind {A B} l (m : M A) (k : A -> M B) :
  emits (fun e => forall x, ev_call e ≠ CApply x) m -> (forall a, plan l (k a)) -> plan l (m ≫= k).
Proof. intros Hm Hk. apply (plan_bind [] l); [by apply plan_quiet|done]. Qed.

Lemma plan_quiet_after {A B} l (m : M A) (k : A -> M B) :
  plan l m -> (forall a, emits (fun e => forall x, ev_call e ≠ CApply x) (k a)) -> plan l (m ≫= k).
Proof.
  intros Hm Hk. rewrite <- (app_nil_r l). apply plan_bind; [done|]. intros a. by apply plan_quiet.
Qed.

Lemma plan_iter {A} (f : A -> M unit) (g : A -> list string) l :
  (forall x, plan (g x) (f x)) -> plan (l ≫= g) (iter f l).
Proof. intros Hf. induction l as [|x l IH]; [apply plan_ret|]. by apply plan_bind. Qed.

Lemma plan_whenb (c : bool) (l : list string) (m : M unit) : plan l m -> plan (if c then l else []) (whenb c m).
Proof. destruct c; [done|intros _; apply plan_ret]. Qed.

Lemma plan_apply {A} (m : M A) (k : A -> M unit) t :
  emits (fun e => forall x, ev_call e ≠ CApply x) m ->
  (forall a, exists f, k a = io (CApply t) f) -> plan [t] (m ≫= k).
Proof.
  intros Hm Hk. apply plan_quiet_bind; [done|]. intros a s. destruct (Hk a) as [f ->].
  unfold io. destruct (f (st_world s)) as [[u|e] w]; done.
Qed.

Lemma load_quiet r t p : emits (fun e => forall x, ev_call e ≠ CApply x) (load r t p).
Proof. apply load_emits. by intros b f x. Qed.

Lemma Apply_plan r o t fns : plan [t] (Apply r o t fns).
Proof.
  unfold Apply, prm. apply plan_quiet_bind; [apply emits_gets|intros p].
  apply plan_quiet_bind; [apply load_quiet|intros m]. apply plan_quiet_bind; [apply emits_lift|intros m'].
  apply plan_apply; [apply emits_lift|]. eauto.
Qed.

Lemma ApplyWithoutOwner_plan r t fns : plan [t] (ApplyWithoutOwner r t fns).
Proof.
  unfold ApplyWithoutOwner, prm. apply plan_quiet_bind; [apply emits_gets|intros p].
  apply plan_quiet_bind; [apply load_quiet|intros m]. apply plan_apply; [apply emits_lift|]. eauto.
Qed.

Lemma ApplyAll_plan r o ts fns : plan ts (ApplyAll r o ts fns).
Proof.
  induction ts as [|t ts IH]; [apply plan_ret|]. apply (plan_bind [t] ts); [apply Apply_plan|done].
Qed.

(** ** Appliers

    What a sequence of appliers promises to the operations built from them: it
    applies its templates in order, all of them if it returns, makes no other
    calls that write, changes only the outside, and does not panic. *)
Record applier {A} (l : list string) (m : M A) : Prop := {
  applier_plan : plan l m;
  applier_emits : emits (applies l) m;
  applier_keeps X (f : St -> X) : inner f -> keeps f m;
  applier_no_panic : no_panic m
}.

Lemma applies_mono l1 l2 e : l1 ⊆ l2 -> applies l1 e -> applies l2 e.
Proof. unfold applies. destruct (ev_call e); try done. set_solver. Qed.

Lemma applier_bind {A B} l1 l2 (m : M A) (k : A -> M B) :
  applier l1 m -> (forall a, applier l2 (k a)) -> applier (l1 ++ l2) (m ≫= k).
Proof.
  intros [Hp He Hk Hn] H2. split.
  - apply plan_bind; [done|]. intros a. apply H2.
  - apply emits_bind; [|intros a].
    + eapply emits_mono; [|exact He]. intros e. apply applies_mono. set_solver.
    + eapply emits_mono; [|apply H2]. intros e. apply applies_mono. set_solver.
  - intros X f Hf. apply keeps_bind; [by apply Hk|]. intros a. by apply H2.
  - apply no_panic_bind; [done|]. intros a. apply H2.
Qed.

Lemma applier_ret {A} (a : A) : applier [] (mret a : M A).
Proof. split; [apply plan_ret|apply emits_ret|by intros|by intros]. Qed.

Lemma applier_ext {A} l (m m' : M A) : (forall s, m s = m' s) -> applier l m' -> applier l m.
Proof.
  intros H [Hp He Hk Hn]. split.
  - intros s. rewrite H. apply Hp.
  - intros s. rewrite H. apply He.
  - intros X f Hf s. rewrite H. by apply Hk.
  - intros s p. rewrite H. apply Hn.
Qed.

Lemma applier_ret_bind {A B} l (a : A) (k : A -> M B) : applier l (k a) -> applier l (mret a ≫= k).
Proof. apply applier_ext. intros s. apply bind_ret. Qed.

Lemma applier_whenb (c : bool) l (m : M unit) : applier l m -> applier (if c then l else []) (whenb c m).
Proof. destruct c; [done|intros _; apply applier_ret]. Qed.

Lemma load_no_panic r t p : no_panic (load r t p).
Proof. unfold load, Manifest, PathTemplateSource. go_solve. Qed.

Lemma Apply_applier r o t fns : applier [t] (Apply r o t fns).
Proof.
  split; [apply Apply_plan|apply Apply_emits|intros X f; apply Apply_keeps|].
  unfold Apply, prm. go_solve. apply load_no_panic.
Qed.

Lemma ApplyWithoutOwner_applier r t fns : applier [t] (ApplyWithoutOwner r t fns).
Proof.
  split; [apply ApplyWithoutOwner_plan|apply ApplyWithoutOwner_emits|intros X f; apply ApplyWithoutOwner_keeps|].
  unfold ApplyWithoutOwner, prm. go_solve. apply load_no_panic.
Qed.

Lemma applier_iter (f : string -> M unit) (g : string -> list string) l :
  (forall x, applier (g x) (f x)) -> applier (concat (map g l)) (iter f l).
Proof. intros Hf. induction l as [|x l IH]; [apply applier_ret|]. by apply applier_bind. Qed.

Lemma ApplyAll_applier r o ts fns : applier ts (ApplyAll r o ts fns).
Proof.
  unfold ApplyAll. induction ts as [|t ts IH]; [apply applier_ret|].
  apply (applier_bind [t] ts); [apply Apply_applier|done].
Qed.

(** what a run of an applier leaves behind *)
Lemma applier_wp {A} l (m : M A) (s : St) :
  applier l m ->
  wp m (fun o s' t =>
    applied t `prefix_of` l /\ Forall (applies l) t /\ (forall X (f : St -> X), inner f -> f s' = f s) /\
    match o with Ret _ => applied t = l | Fail _ => True | Panic _ => False end) s.
Proof.
  intros [Hp He Hk Hn]. unfold wp. destruct (Hp s) as [H1 H2]. specialize (Hn s).
  split_and!; [done|apply He|intros X f Hf; by apply Hk|].
  destruct (out (m s)) as [a| |w]; [by apply (H2 a)|done|by apply (Hn w)].
Qed.

(** ** Directories of templates *)

(** what a directory of templates holds: its files, in order *)
Definition dir_templates (root dir : string) (w : World) : list string + error :=
  match (read_dir (root +:+ dir) w).1 with
  | inl entries => inl ((fun f => path_Join dir f.1) <$> List.filter (fun f => negb f.2) entries)
  | inr e => inr e
  end.

Lemma GetTemplatesInDir_run root dir (s : St) :
  exists w ok, GetTemplatesInDir root dir s =
    Run (match dir_templates root dir (st_world s) with inl ts => Ret ts | inr e => Fail e end)
      (s <| st_world := w |>) [Ev (CReadDir (root +:+ dir)) ok].
Proof.
  unfold GetTemplatesInDir, dir_templates. rewrite bind_io. destruct (read_dir _ _) as [[ts|e] w]; by eexists w, _.
Qed.

(** Applying a directory, as far as it returns: each of its templates, in order. *)
Lemma ApplyDir_returns r o dir fns (s : St) :
  returns (ApplyDir r o dir fns) (fun _ _ t =>
    dir_templates (r_TemplatesPath r) dir (st_world s) = inl (applied t)) s.
Proof.
  unfold ApplyDir. destruct (GetTemplatesInDir_run (r_TemplatesPath r) dir s) as (w & ok & Hg).
  intros [] Ho. unfold mbind, prog_bind in *. rewrite Hg in *. cbn [out fin evs] in *.
  destruct (dir_templates _ _ _) as [ts|e]; [|done]. cbn [out fin evs] in *.
  destruct (ApplyAll_plan r o ts [] (s <| st_world := w |>)) as [_ Hp]. f_equal. cbn. symmetry. by apply (Hp tt).
Qed.

(** Deleting an object that may be gone, as far as it returns: it was looked
    for, and if it was there, deleted. *)
Lemma DeleteResourceIfItExists_returns kind nn (s : St) :
  returns (DeleteResourceIfItExists kind nn) (fun _ _ t =>
    t = [Ev (CGet kind nn) false] \/ t = [Ev (CGet kind nn) true; Ev (CDelete kind nn) true]) s.
Proof.
  intros [] Ho. unfold DeleteResourceIfItExists in *. rewrite bind_try_io in *.
  destruct (get_object kind nn (st_world s)) as [[[]|e] w]; cbn [out fin evs] in *.
  - right. unfold io in *. destruct (delete_object _ _ _) as [[[]|e] w']; [done|by cbn in Ho].
  - left. destruct (IsNotFound e); [done|by cbn in Ho].
Qed.

Lemma Apply_returns r o t fns (s : St) : returns (Apply r o t fns) (fun _ _ ev => applied ev = [t]) s.
Proof. intros [] Ho. destruct (Apply_plan r o t fns s) as [_ Hp]. by apply (Hp tt). Qed.

(** An applier that returns made its call successfully. *)
Lemma last_call_ok {A B} (m : M A) (k : A -> M B) e :
  (forall a s, ensures_event (k a) e s) -> forall s, ensures_event (m ≫= k) e s.
Proof.
  intros Hk s b. unfold mbind, prog_bind. destruct (out (m s)) as [a| |]; [|done..]. simpl. intros Hb.
  apply elem_of_app. right. by apply (Hk a _ b).
Qed.

Lemma Apply_ok r o t fns (s : St) : ensures_event (Apply r o t fns) (Ev (CApply t) true) s.
Proof.
  unfold Apply. do 4 (apply last_call_ok; intros ? ?). intros b. unfold io.
  destruct (mf_apply _ _) as [[[]|e] w]; [|done]. intros _. by apply list_elem_of_singleton.
Qed.
End ManifestProofs.

#[export] Hint Resolve load_keeps Apply_keeps ApplyWithoutOwner_keeps DeleteResource_keeps ApplyDir_keeps
  DeleteResourceDir_keeps DeleteResourceIfItExists_keeps : go.
