(* ===== verification/Database.v ===== *)
(** * The database (controllers/database.go)

    The health check, with its choice of TLS, and the reconciliation, which
    deploys MariaDB unless an external database is given. *)

From stdpp Require Import base gmap strings list.
From Stdlib Require Import ZArith Lia.
From S2P Require Import Prelude GoStd GoJson GoCodec KubeTypes ApiTypes Data Platform Config Util.
From S2P Require Import Reconciler Params Extract Manifests Sim.

Definition dbSecret : string := "mariadb/generated-secret/secret.yaml.tmpl".

Definition mariadbTemplates : list string :=
  ["mariadb/default/deployment.yaml.tmpl"; "mariadb/default/pvc.yaml.tmpl";
   "mariadb/default/service.yaml.tmpl"; "mariadb/default/mariadb-sa.yaml.tmpl";
   "mariadb/default/networkpolicy.yaml.tmpl"; "mariadb/default/tls-config.yaml.tmpl"].

Definition createMySQLConfig (user password mysqlServiceHost mysqlServicePort dbName : string)
    (mysqlExtraParams : gmap string string) : MySQLConfig :=
  {| my_User := user;
     my_Passwd := password;
     my_Net := "tcp";
     my_Addr := mysqlServiceHost +:+ ":" +:+ mysqlServicePort;
     my_Params := mysqlExtraParams ∪ {["charset" := "utf8"; "parseTime" := "True"; "loc" := "Local"]};
     my_DBName := dbName;
     my_AllowNativePasswords := true;
     my_TLSConfig := "" |}.

(** the name of the TLS configuration a connection uses: the parameter wins *)
Definition my_tls (c : MySQLConfig) : string :=
  match my_Params c !! "tls" with Some t => t | None => my_TLSConfig c end.

Section Database.
  Context {P : Platform}.

Definition tLSClientConfig (pems : list string) : M ClientTLS :=
  f ← ask (getenv "SSL_CERT_FILE");
  env ← (if bool_decide (f = "") then mret []
         else data ← try (io (CReadFile f) (read_file f));
              mret (match data with inl d => [d] | inr _ => [] end));
  if forallb pem_ok pems then mret (RootCAs (env ++ pems))
  else fail (ErrNew "error parsing CA Certificate, ensure provided certs are in valid PEM format").

Definition is_verifying (t : ClientTLS) : bool :=
  match t with RootCAs _ => true | InsecureSkipVerify => false end.

(** the switch on the tls parameter *)
Definition tls_config (tls : string) (pemCerts : list string) : M (option ClientTLS) :=
  if bool_decide (tls = "false") || bool_decide (tls = "") then mret None
  else if bool_decide (tls = "true") then c ← tLSClientConfig pemCerts; mret (Some c)
  else if bool_decide (tls = "skip-verify") || bool_decide (tls = "preferred")
  then mret (Some InsecureSkipVerify)
  else mret None.

Definition ConnectAndQueryDatabase (host port username password dbname tls : string)
    (dbConnectionTimeout : Z) (pemCerts : list string) (extraParams : gmap string string) : M bool :=
  let mysqlConfig := createMySQLConfig username password host port "" extraParams in
  tlsConfig ← tls_config tls pemCerts;
  mysqlConfig ← (match tlsConfig with
                 | None => mret mysqlConfig
                 | Some c =>
                     io (CRegisterTLS "custom" (is_verifying c)) (register_tls "custom" c) ;;
                     mret (mysqlConfig
                       <| my_Params ::= fun ps => match ps !! "tls" with
                                                  | Some _ => <["tls" := "custom"]> ps
                                                  | None => ps
                                                  end |>
                       <| my_TLSConfig := "custom" |>)
                 end);
  io (CSqlOpen (my_Addr mysqlConfig) (my_tls mysqlConfig)) (sql_open mysqlConfig) ;;
  io (CSqlQuery (my_Addr mysqlConfig) (my_tls mysqlConfig))
     (sql_query mysqlConfig "SELECT 1;" dbConnectionTimeout) ;;
  mret true.

(** the tls mode: true for an external database and false otherwise, unless
    the extra parameters say *)
Definition tls_mode (usingExternalDB : bool) (extraParams : gmap string string) : string :=
  default (if usingExternalDB then "true" else "false") (extraParams !! "tls").

Definition isDatabaseAccessible (dsp : DataSciencePipelinesApplication) : M bool :=
  params ← prm;
  if DatabaseHealthCheckDisabled dsp then mret true
  else
    let databaseSpecified := bool_decide (is_Some (spec_Database (dspa_Spec dsp))) in
    let usingExternalDB := UsingExternalDB dsp in
    let usingMariaDB := negb databaseSpecified ||
      bool_decide (is_Some (spec_Database (dspa_Spec dsp) ≫= db_MariaDB)) in
    if negb usingMariaDB && negb usingExternalDB
    then fail (ErrNew "could not connect to database: unsupported type")
    else
      let db := p_DBConnection params in
      let decodePass := (DecodeString (dbc_Password db)).1 in
      dbConnectionTimeout ← GetDurationConfigWithDefault DBConnectionTimeoutConfigName DefaultDBConnectionTimeout;
      extraParamsJson ← lift (k8s_unmarshal_string_map (dbc_ExtraParams db));
      ConnectAndQueryDatabase (dbc_Host db) (dbc_Port db) (dbc_Username db) decodePass (dbc_DBName db)
        (tls_mode usingExternalDB extraParamsJson) dbConnectionTimeout (p_APICustomPemCerts params)
        extraParamsJson.

Definition ReconcileDatabase (r : DSPAReconciler) : M unit :=
  dsp ← gets cur;
  let databaseSpecified := bool_decide (is_Some (spec_Database (dspa_Spec dsp))) in
  let externalDBSpecified := UsingExternalDB dsp in
  db ← deref "dsp.Spec.Database" (spec_Database (dspa_Spec dsp));
  let mariaDBSpecified := bool_decide (is_Some (db_MariaDB db)) in
  let defaultDBRequired := negb databaseSpecified || (negb externalDBSpecified && negb mariaDBSpecified) in
  let deployMariaDB := match db_MariaDB db with Some m => maria_Deploy m | None => false end in
  let deployDefaultDB := negb databaseSpecified || defaultDBRequired in
  let externalDBCredentialsProvided := bool_decide (is_Some (db_ExternalDB db ≫= edb_PasswordSecret)) in
  let mariaDBCredentialsProvided := bool_decide (is_Some (db_MariaDB db ≫= maria_PasswordSecret)) in
  let databaseCredentialsProvided := externalDBCredentialsProvided || mariaDBCredentialsProvided in
  if externalDBSpecified then mret tt
  else if deployMariaDB || deployDefaultDB then
    whenb (negb databaseCredentialsProvided) (Apply r (owner_of dsp) dbSecret []) ;;
    iter (fun template => Apply r (owner_of dsp) template []) mariadbTemplates ;;
    whenb (negb databaseSpecified || defaultDBRequired)
      (params ← prm;
       m ← deref "params.MariaDB" (p_MariaDB params);
       put_cur (dsp <| dspa_Spec ::= fun s => s <| spec_Database :=
         Some (db <| db_MariaDB := Some (m <| maria_Deploy := true |>) |>) |> |>) ;;
       Update_dspa)
  else mret tt.
End Database.

(** ** The health check: what it connects to, and over which TLS *)

(** What the mode asks for: certificates verified, not verified, or nothing. *)
Definition registered (tls : string) : option bool :=
  if bool_decide (tls = "true") then Some true
  else if bool_decide (tls = "skip-verify") || bool_decide (tls = "preferred") then Some false
  else None.

(** The name of the TLS configuration connections then use. *)
Definition tls_name (tls : string) (extraParams : gmap string string) : string :=
  match registered tls with Some _ => "custom" | None => default "" (extraParams !! "tls") end.

(** The calls of a health check of a server over a TLS configuration. *)
Definition health_check_call (addr tls : string) (extraParams : gmap string string) (e : event) : Prop :=
  match ev_call e with
  | CReadFile _ => registered tls = Some true
  | CRegisterTLS name verify => name = "custom" /\ registered tls = Some verify
  | CSqlOpen a n | CSqlQuery a n => a = addr /\ n = tls_name tls extraParams
  | _ => False
  end.

(** The calls of a health check that succeeds. *)
Definition health_check_passed (addr tls : string) (extraParams : gmap string string) (t : list event) : Prop :=
  (forall verify, registered tls = Some verify -> Ev (CRegisterTLS "custom" verify) true ∈ t) /\
  Ev (CSqlOpen addr (tls_name tls extraParams)) true ∈ t /\
  Ev (CSqlQuery addr (tls_name tls extraParams)) true ∈ t.

Section DatabaseProofs.
  Context {P : Platform}.

Lemma tls_config_registered tls pems (s : St) :
  wp (tls_config tls pems) (fun o _ t =>
    match o with
    | Ret c => is_verifying <$> c = registered tls
    | Fail _ => True
    | Panic _ => False
    end /\ Forall (fun e => registered tls = Some true /\ exists f, ev_call e = CReadFile f) t) s.
Proof.
  unfold tls_config, registered. destruct (bool_decide (tls = "true")) eqn:Ht.
  - apply bool_decide_eq_true in Ht. subst tls. simpl.
    unfold tLSClientConfig, ask, gets, wp, mbind, prog_bind, try, io. cbn [out fin evs app].
    case_bool_decide; simpl; [by destruct (forallb pem_ok pems)|].
    destruct (read_file _ _) as [[d|e] w]; simpl; destruct (forallb pem_ok pems); simpl; eauto 8.
  - destruct (bool_decide (tls = "false") || bool_decide (tls = "")) eqn:Hf.
    + apply orb_true_iff in Hf as [Hf|Hf]; apply bool_decide_eq_true in Hf; subst tls; by split.
    + destruct (bool_decide (tls = "skip-verify") || _); by split.
Qed.

(** the last two calls, over a configuration *)
Lemma open_and_query addr n c timeout (s : St) :
  my_Addr c = addr -> my_tls c = n ->
  wp (io (CSqlOpen (my_Addr c) (my_tls c)) (sql_open c) ;;
      io (CSqlQuery (my_Addr c) (my_tls c)) (sql_query c "SELECT 1;" timeout) ;; mret true)
    (fun o _ t =>
       match o with Ret b => b = true /\ t = [Ev (CSqlOpen addr n) true; Ev (CSqlQuery addr n) true]
                  | Fail _ => True | Panic _ => False end /\
       Forall (fun e => ev_call e = CSqlOpen addr n \/ ev_call e = CSqlQuery addr n) t) s.
Proof.
  intros -> ->. unfold wp. rewrite bind_io. destruct (sql_open c (st_world s)) as [[[]|e] w]; simpl; [|by eauto].
  rewrite bind_io. destruct (sql_query _ _ _ _) as [[[]|e] w']; simpl; eauto 8.
Qed.

Lemma my_tls_custom (c : MySQLConfig) :
  my_tls (c <| my_Params ::= fun ps => match ps !! "tls" with Some _ => <["tls" := "custom"]> ps | None => ps end |>
            <| my_TLSConfig := "custom" |>) = "custom".
Proof.
  unfold my_tls. cbn. destruct (my_Params c !! "tls") eqn:Hl; [by rewrite lookup_insert_eq|by rewrite Hl].
Qed.

Lemma my_tls_created user pass host port db extra :
  my_tls (createMySQLConfig user pass host port db extra) = default "" (extra !! "tls").
Proof.
  unfold my_tls. cbn. rewrite lookup_union. destruct (extra !! "tls"); cbn; [done|].
  by rewrite !lookup_insert_ne.
Qed.

Lemma health_check_calls_cons tls extra addr e t :
  health_check_call addr tls extra e ->
  Forall (fun e => ev_call e = CSqlOpen addr (tls_name tls extra) \/ ev_call e = CSqlQuery addr (tls_name tls extra)) t ->
  Forall (health_check_call addr tls extra) (e :: t).
Proof.
  intros He Ht. constructor; [done|]. eapply Forall_impl; [exact Ht|].
  intros [c b]. unfold health_check_call. simpl. by intros [->| ->].
Qed.

(** One connection and query: over the TLS configuration the mode asks for. *)
Lemma ConnectAndQueryDatabase_calls host port user pass db tls timeout pems extra (s : St) :
  wp (ConnectAndQueryDatabase host port user pass db tls timeout pems extra) (fun o _ t =>
    match o with
    | Ret b => b = true /\ health_check_passed (host +:+ ":" +:+ port) tls extra t
    | Fail _ => True
    | Panic _ => False
    end /\ Forall (health_check_call (host +:+ ":" +:+ port) tls extra) t) s.
Proof.
  unfold ConnectAndQueryDatabase. apply wp_bind. eapply wp_mono; [apply tls_config_registered|].
  cbn beta. intros [c|e|p] s1 t1 [Ho Ht1]; [|split; [done|]|done].
  2: { eapply Forall_impl; [exact Ht1|]. intros [c b] [Hr [f Hf]]. unfold health_check_call. simpl in *. by rewrite Hf. }
  assert (Forall (health_check_call (host +:+ ":" +:+ port) tls extra) t1) as Hpre.
  { eapply Forall_impl; [exact Ht1|]. intros [c' b] [Hr [f Hf]]. unfold health_check_call. simpl in *. by rewrite Hf. }
  destruct c as [c|]; simpl in Ho.
  - assert (tls_name tls extra = "custom") as Hn by (unfold tls_name; by rewrite <- Ho).
    assert (forall b, health_check_call (host +:+ ":" +:+ port) tls extra (Ev (CRegisterTLS "custom" (is_verifying c)) b))
      as Hreg by (unfold health_check_call; simpl; by rewrite <- Ho).
    apply wp_assoc, wp_io.
    + intros [] w _. apply wp_ret_bind. eapply wp_mono.
      * apply (open_and_query (host +:+ ":" +:+ port) (tls_name tls extra)); [done|]. by rewrite my_tls_custom.
      * cbn beta. intros o s2 t2 [Hr Hf]. split.
        -- destruct o as [b|e|p]; [|done..]. destruct Hr as [-> ->]. split; [done|]. unfold health_check_passed.
           rewrite <- Ho. split_and!; [intros v [= <-]; set_solver|set_solver..].
        -- apply Forall_app. split; [done|]. by apply health_check_calls_cons.
    + intros e w _. split; [done|]. apply Forall_app. split; [done|]. by apply health_check_calls_cons.
  - apply wp_ret_bind. eapply wp_mono.
    + apply (open_and_query (host +:+ ":" +:+ port) (tls_name tls extra)); [done|].
      rewrite my_tls_created. unfold tls_name. by rewrite <- Ho.
    + cbn beta. intros o s2 t2 [Hr Hf]. split.
      * destruct o as [b|e|p]; [|done..]. destruct Hr as [-> ->]. split; [done|]. unfold health_check_passed.
        rewrite <- Ho. split_and!; [done|set_solver..].
      * apply Forall_app. split; [done|]. eapply Forall_impl; [exact Hf|].
        intros [c b]. unfold health_check_call. simpl. by intros [->| ->].
Qed.


(** ** What is deployed *)

(** The templates of the database an application asks for. *)
Definition db_plan (dsp : DataSciencePipelinesApplication) : list string :=
  match spec_Database (dspa_Spec dsp) with
  | None => []
  | Some db =>
      match db_ExternalDB db, db_MariaDB db with
      | Some _, _ => []
      | None, None => dbSecret :: mariadbTemplates
      | None, Some m =>
          if negb (maria_Deploy m) then []
          else match maria_PasswordSecret m with
               | Some _ => mariadbTemplates
               | None => dbSecret :: mariadbTemplates
               end
      end
  end.

(** whether the application leaves the database to the operator *)
Definition db_defaulted (dsp : DataSciencePipelinesApplication) : bool :=
  match spec_Database (dspa_Spec dsp) with
  | Some db => bool_decide (db_ExternalDB db = None) && bool_decide (db_MariaDB db = None)
  | None => false
  end.

(** the application with the default database the operator writes into it *)
Definition with_default_db (dsp : DataSciencePipelinesApplication) (m : MariaDB) : DataSciencePipelinesApplication :=
  dsp <| dspa_Spec ::= fun s => s <| spec_Database ::= fmap (fun db : Database =>
    db <| db_MariaDB := Some (m <| maria_Deploy := true |>) |>) |> |>.

(** A run that deploys the database: what is known at its end. *)
Definition db_deployed (s : St) (o : outcome unit) (s' : St) (t : list event) : Prop :=
  applied t `prefix_of` db_plan (cur s) /\
  Forall (fun e => applies (db_plan (cur s)) e \/
                   ev_call e = CUpdate "DSPA" (nn_of (cur s)) /\ db_defaulted (cur s) = true) t /\
  st_params s' = st_params s /\
  match o with
  | Ret _ => applied t = db_plan (cur s) /\
      if db_defaulted (cur s)
      then exists m w d w', p_MariaDB (st_params s) = Some m /\
             update_dspa (with_default_db (cur s) m) w = (inl d, w') /\ cur s' = d
      else cur s' = cur s
  | Fail _ => True
  | Panic _ => db_defaulted (cur s) = true /\ p_MariaDB (st_params s) = None
  end.

(** the tail: the default database is written into the application *)
Lemma write_default_db db (s : St) (Q : outcome unit -> St -> list event -> Prop) :
  spec_Database (dspa_Spec (cur s)) = Some db ->
  (p_MariaDB (st_params s) = None -> forall w, Q (Panic w) s []) ->
  (forall m, p_MariaDB (st_params s) = Some m ->
    let s1 := set_cur (with_default_db (cur s) m) s in
    (forall d w, update_dspa (with_default_db (cur s) m) (st_world s1) = (inl d, w) ->
      Q (Ret tt) (set_cur d (s1 <| st_world := w |>)) [Ev (CUpdate "DSPA" (nn_of (cur s))) true]) /\
    (forall e w, Q (Fail e) (s1 <| st_world := w |>) [Ev (CUpdate "DSPA" (nn_of (cur s))) false])) ->
  wp (params ← prm;
      m ← deref "params.MariaDB" (p_MariaDB params);
      put_cur ((cur s) <| dspa_Spec ::= fun s => s <| spec_Database :=
        Some (db <| db_MariaDB := Some (m <| maria_Deploy := true |>) |>) |> |>) ;;
      Update_dspa) Q s.
Proof.
  intros Hdb Hnone Hsome. unfold prm. apply wp_get. destruct (p_MariaDB (st_params s)) as [m|]; [|by apply Hnone].
  destruct (Hsome m eq_refl) as [Hok Herr]. apply wp_ret_bind. unfold put_cur at 1. apply wp_modify.
  assert ((cur s) <| dspa_Spec ::= fun s => s <| spec_Database :=
        Some (db <| db_MariaDB := Some (m <| maria_Deploy := true |>) |>) |> |> = with_default_db (cur s) m) as ->.
  { unfold with_default_db. simpl. by rewrite Hdb. }
  unfold Update_dspa. apply wp_get. rewrite cur_set_cur. apply wp_io.
  - intros d w Hu. unfold put_cur, modify. by apply Hok.
  - intros e w _. apply Herr.
Qed.

#[local] Arguments iter : simpl never.

Lemma deploy_templates_applier r o (secret : bool) ts :
  applier (if secret then dbSecret :: ts else ts)
    (whenb secret (Apply r o dbSecret []) ;; iter (fun template => Apply r o template []) ts).
Proof.
  pose proof (ApplyAll_applier r o ts []) as H. unfold ApplyAll in H. destruct secret; cbn [whenb].
  - apply (applier_bind [dbSecret] ts); [apply Apply_applier|done].
  - by apply applier_ret_bind.
Qed.

Lemma deploy_applier r o (secret : bool) :
  applier (if secret then dbSecret :: mariadbTemplates else mariadbTemplates)
    (whenb secret (Apply r o dbSecret []) ;; iter (fun template => Apply r o template []) mariadbTemplates).
Proof. exact (deploy_templates_applier r o secret mariadbTemplates). Qed.

Lemma ReconcileDatabase_run (r : DSPAReconciler) (s : St) db :
  spec_Database (dspa_Spec (cur s)) = Some db -> wp (ReconcileDatabase r) (db_deployed s) s.
Proof.
  intros Hdb. unfold ReconcileDatabase. apply wp_get. unfold db_deployed, db_plan, db_defaulted, UsingExternalDB.
  rewrite Hdb.
  apply wp_ret_bind. cbn [option_bind mbind].
  destruct (db_ExternalDB db) as [edb|] eqn:He; [by apply wp_ret; split_and!|].
  destruct (db_MariaDB db) as [m|] eqn:Hm; cbn [is_Some].
  - destruct (maria_Deploy m) eqn:Hd; cbn; [|by apply wp_ret; split_and!].
    eapply (wp_unassoc (whenb _ _) (fun _ => iter _ _)). apply wp_bind.
    eapply wp_mono; [apply (applier_wp _ _ _ (deploy_applier r _ _))|]. cbn beta.
    intros o s1 t1 (Hp & Hf & Hk & Ho). rewrite <- !(Hk _ _ inner_params), <- (Hk _ _ inner_cur).
    destruct (maria_PasswordSecret m); cbn in Hp, Hf, Ho |- *.
    all: destruct o as [[]| |]; [apply wp_ret; rewrite app_nil_r| |done].
    all: split_and!; [done|by eapply Forall_impl; [exact Hf|auto]|done|try done..].
  - cbn. eapply (wp_unassoc (Apply _ _ _ _) (fun _ => iter _ _)). apply wp_bind.
    eapply wp_mono; [apply (applier_wp _ _ _ (deploy_applier r (owner_of (cur s)) true))|]. cbn beta.
    intros o s1 t1 (Hp & Hf & Hk & Ho). pose proof (Hk _ _ inner_params) as Hps. pose proof (Hk _ _ inner_cur) as Hc.
    destruct o as [[]| |]; [|split_and!; [done|by eapply Forall_impl; [exact Hf|auto]|done|done]|done].
    rewrite <- Hc in Hdb |- *. rewrite <- Hps. apply write_default_db; [done|..].
    + intros Hnone w. cbn beta. rewrite app_nil_r. split_and!; [done| |done..].
      eapply Forall_impl; [exact Hf|auto].
    + intros m Hps' s2. subst s2. assert (forall b, applied (t1 ++ [Ev (CUpdate "DSPA" (nn_of (cur s1))) b]) = applied t1) as Ha.
      { intros b. rewrite applied_app. apply app_nil_r. }
      assert (forall b, Forall (fun e => applies (dbSecret :: mariadbTemplates) e \/
                 ev_call e = CUpdate "DSPA" (nn_of (cur s1)) /\ true = true)
               (t1 ++ [Ev (CUpdate "DSPA" (nn_of (cur s1))) b])) as Hall.
      { intros b. apply Forall_app. split; [eapply Forall_impl; [exact Hf|auto]|]. apply Forall_singleton. by right. }
      split; [intros d w Hu|intros e w]; cbn beta; rewrite Ha; (split; [done|]); (split; [apply Hall|]).
      * split_and!; [by rewrite set_cur_params; cbn; rewrite set_cur_params| |].
        -- done.
        -- eexists m, _, d, w. split_and!; [done|exact Hu|]. apply cur_set_cur.
      * split; [|done]. cbn. by rewrite set_cur_params.
Qed.

Lemma ReconcileDatabase_none (r : DSPAReconciler) (s : St) :
  spec_Database (dspa_Spec (cur s)) = None ->
  wp (ReconcileDatabase r) (fun o s' t => t = [] /\ s' = s /\ exists why, o = Panic why) s.
Proof. intros Hn. unfold ReconcileDatabase. apply wp_get. rewrite Hn. unfold wp. simpl. eauto. Qed.

(** C33: The database is deployed exactly as the application asks: an external
    database, or a MariaDB that is not to be deployed, gets nothing; otherwise
    the generated secret (unless credentials are given) and then the MariaDB
    templates are applied in order, stopping at the first failure.  The
    application is updated only when it leaves the choice to the operator, once
    everything is applied, with the MariaDB of the parameters.  An application
    without a database section makes the operator panic before any call. *)
Theorem ReconcileDatabase_plan (r : DSPAReconciler) (s : St) :
  wp (ReconcileDatabase r) (fun o s' t =>
    match spec_Database (dspa_Spec (cur s)) with
    | None => t = [] /\ s' = s /\ exists why, o = Panic why
    | Some _ => db_deployed s o s' t
    end) s.
Proof.
  destruct (spec_Database (dspa_Spec (cur s))) as [db|] eqn:Hdb; [by eapply ReconcileDatabase_run|by apply ReconcileDatabase_none].
Qed.
End DatabaseProofs.
