(* ===== verification/Storage.v ===== *)
(** * The object store (controllers/storage.go)

    The health check and the reconciliation, which deploys MinIO when asked. *)

From stdpp Require Import base gmap strings list.
From Stdlib Require Import ZArith Lia.
From S2P Require Import Prelude GoStd GoJson GoCodec KubeTypes ApiTypes Data Platform Config Util.
From S2P Require Import Reconciler Params Extract Manifests Sim.

Definition storageSecret : string := "minio/generated-secret/secret.yaml.tmpl".
Definition storageRoute : string := "minio/route.yaml.tmpl".

Definition minioTemplates : list string :=
  ["minio/default/deployment.yaml.tmpl"; "minio/default/pvc.yaml.tmpl";
   "minio/default/service.yaml.tmpl"; "minio/default/service.minioservice.yaml.tmpl";
   "minio/default/minio-sa.yaml.tmpl"; storageRoute].

Definition joinHostPort (host port : string) : string + error :=
  if bool_decide (host = "") then inr (ErrNew "object storage connection missing host")
  else if bool_decide (port = "") then inl host
  else inl (host +:+ ":" +:+ port).

Definition createCredentialProvidersChain (accessKey secretKey : string) : Credentials :=
  if bool_decide (accessKey ≠ ""%string) && bool_decide (secretKey ≠ ""%string)
  then StaticV4 accessKey secretKey else ChainedProviders.

(** The errors of the health check are made anew; this is what they say. *)
Definition stat_error (endpoint : string) (err : error) : option error :=
  let other :=
    if IsX509UnknownAuthorityError err then
      Some (ErrNew ("encountered x509 UnknownAuthorityError when connecting to ObjectStore: " +:+
        "if using a TLS S3 connection with self-signed certs, you may specify a custom CABundle " +:+
        "to mount on the DSP API Server via the DSPA cr under the spec.apiServer.cABundle field; if you have already " +:+
        "provided a CABundle, verify the validity of the provided CABundle"))
    else Some (ErrNew ("Could not connect to (" +:+ endpoint +:+ "), Error: " +:+ err_msg err)) in
  match err with
  | ErrMinio code _ =>
      if bool_decide (code = "NoSuchKey") || bool_decide (code = "NoSuchBucket") then None
      else if bool_decide (code = "503 Service Unavailable") then
        Some (ErrNew ("503 service unavailable: this could be a special condition when minio external route is used " +:+
          "and health check is trying to reach the service, where the pod is up and running but takes long time " +:+
          "to pass the successful readiness checks"))
      else other
  | _ => other
  end.

Section Storage.
  Context {P : Platform}.

(** the extra root certificates of a transport *)
Definition addCustomCACerts (pemCerts : list string) : list string + error :=
  if forallb pem_ok pemCerts then inl pemCerts
  else inr (ErrNew "error parsing CA Certificate, ensure provided certs are in valid PEM format").

Definition configureProxyForTransport (pems : list string) (proxyConfig : option ProxyConfig) :
    list string * option ProxyConfig := (pems, proxyConfig).

Definition getTransportWithProxyAndCACert (pemCerts : list string) (proxyConfig : option ProxyConfig)
    (secure : bool) : (list string * option ProxyConfig) + error :=
  match minio_default_transport secure with
  | inr err => inr (ErrNew ("error creating default transport : " +:+ err_msg err))
  | inl _ =>
      match addCustomCACerts pemCerts with
      | inr err => inr err
      | inl pems => inl (configureProxyForTransport pems proxyConfig)
      end
  end.

Definition ConnectAndQueryObjStore (endpoint bucket accesskey secretkey : string) (secure : bool)
    (pemCerts : list string) (proxyConfig : option ProxyConfig) (objStoreConnectionTimeout : Z) : M bool :=
  let opts := {| mo_Creds := createCredentialProvidersChain accesskey secretkey;
                 mo_Secure := secure; mo_Transport := None |} in
  opts ← (if bool_decide (0 < length pemCerts) || bool_decide (is_Some proxyConfig)
          then match getTransportWithProxyAndCACert pemCerts proxyConfig secure with
               | inr _ => fail (ErrNew "encountered error when processing custom ca bundle or proxy configuration")
               | inl tr => mret (opts <| mo_Transport := Some tr |>)
               end
          else mret opts);
  lift (match minio_new endpoint opts with
        | inr _ => inr (ErrNew ("Could not connect to object storage endpoint: " +:+ endpoint))
        | inl u => inl u
        end) ;;
  stat ← try (io (CStat endpoint secure)
               (minio_stat endpoint opts bucket "some-random-object" objStoreConnectionTimeout));
  match stat with
  | inl _ => mret true
  | inr err => match stat_error endpoint err with
               | None => mret true
               | Some e => fail e
               end
  end.

Definition isObjectStorageAccessible (dsp : DataSciencePipelinesApplication) : M bool :=
  params ← prm;
  if ObjectStorageHealthCheckDisabled dsp then mret true
  else
    let o := p_ObjectStorageConnection params in
    endpoint ← lift (match joinHostPort (osc_Host o) (osc_Port o) with
                     | inl e => inl e
                     | inr _ => inr (ErrNew "could not determine object storage endpoint")
                     end);
    accesskey ← lift (let '(k, ok) := DecodeString (osc_AccessKeyID o) in
                      if ok : bool then inl k else inr (ErrNew "could not decode object storage access key ID"));
    secretkey ← lift (let '(k, ok) := DecodeString (osc_SecretAccessKey o) in
                      if ok : bool then inl k else inr (ErrNew "could not decode object storage secret access key"));
    objStoreConnectionTimeout ← GetDurationConfigWithDefault ObjStoreConnectionTimeoutConfigName
                                  DefaultObjStoreConnectionTimeout;
    secure ← deref "params.ObjectStorageConnection.Secure" (osc_Secure o);
    ConnectAndQueryObjStore endpoint (osc_Bucket o) accesskey secretkey secure
      (p_APICustomPemCerts params) (p_ProxyConfig params) objStoreConnectionTimeout.

Definition ReconcileStorage (r : DSPAReconciler) : M unit :=
  dsp ← gets cur;
  let storage := spec_ObjectStorage (dspa_Spec dsp) in
  let storageSpecified := bool_decide (is_Some storage) in
  let externalStorageSpecified := UsingExternalStorage dsp in
  let minioSpecified := negb storageSpecified || bool_decide (is_Some (storage ≫= os_Minio)) in
  let deployMinio := negb storageSpecified ||
    (minioSpecified && match storage ≫= os_Minio with Some m => minio_Deploy m | None => false end) in
  let externalStorageCredentialsProvided :=
    bool_decide (is_Some ((storage ≫= os_ExternalStorage) ≫= es_S3CredentialSecret)) in
  minioCredentialsProvided ←
    (if minioSpecified then
       os ← deref "dsp.Spec.ObjectStorage" storage;
       m ← deref "dsp.Spec.ObjectStorage.Minio" (os_Minio os);
       mret (bool_decide (is_Some (minio_S3CredentialSecret m)))
     else mret false);
  let storageCredentialsProvided := externalStorageCredentialsProvided || minioCredentialsProvided in
  if externalStorageSpecified then mret tt
  else if deployMinio then
    whenb (negb storageCredentialsProvided) (Apply r (owner_of dsp) storageSecret []) ;;
    iter (fun template =>
      os ← deref "dsp.Spec.ObjectStorage" storage;
      whenb (os_EnableExternalRoute os || negb (bool_decide (template = storageRoute)))
        (Apply r (owner_of dsp) template [])) minioTemplates ;;
    whenb (negb storageSpecified)
      (params ← prm;
       m ← deref "params.Minio" (p_Minio params);
       put_cur (dsp <| dspa_Spec ::= fun s => s <| spec_ObjectStorage :=
         Some (MkObjectStorage (Some (m <| minio_Deploy := true |>)) None false false) |> |>) ;;
       Update_dspa)
  else mret tt.
End Storage.

(** ** What is deployed *)

(** the MinIO templates, without the route unless it is enabled *)
Definition minio_templates_for (os : ObjectStorage) : list string :=
  List.filter (fun t => os_EnableExternalRoute os || negb (bool_decide (t = storageRoute))) minioTemplates.

(** The templates of the object store an application asks for. *)
Definition storage_plan (dsp : DataSciencePipelinesApplication) : list string :=
  match spec_ObjectStorage (dspa_Spec dsp) with
  | None => []
  | Some os =>
      match os_ExternalStorage os, os_Minio os with
      | None, Some m =>
          if negb (minio_Deploy m) then []
          else match minio_S3CredentialSecret m with
               | Some _ => []
               | None => [storageSecret]
               end ++ minio_templates_for os
      | _, _ => []
      end
  end.

(** ** What the answer of the health check means *)

(** The server answered: there was an object, or it said there is none. *)
Definition answered (r : unit + error) : Prop :=
  r = inl tt \/ exists msg, r = inr (ErrMinio "NoSuchKey" msg) \/ r = inr (ErrMinio "NoSuchBucket" msg).

Section StorageProofs.
  Context {P : Platform}.

Lemma stat_error_none endpoint e : stat_error endpoint e = None <-> answered (inr e).
Proof.
  unfold stat_error, answered. split.
  - destruct e; try (by destruct (IsX509UnknownAuthorityError _)).
    destruct (bool_decide (code = "NoSuchKey")) eqn:H1; [apply bool_decide_eq_true in H1; subst; eauto|].
    destruct (bool_decide (code = "NoSuchBucket")) eqn:H2; [apply bool_decide_eq_true in H2; subst; eauto|]. cbn.
    by repeat case_match.
  - intros [H|(msg & [H|H])]; by simplify_eq.
Qed.

#[local] Arguments iter : simpl never.
#[local] Arguments minio_templates_for : simpl never.

Lemma minio_applier r o (os : ObjectStorage) (l : list string) :
  applier (List.filter (fun t : string => os_EnableExternalRoute os || negb (bool_decide (t = storageRoute))) l)
    (iter (fun template =>
       os ← deref "dsp.Spec.ObjectStorage" (Some os);
       whenb (os_EnableExternalRoute os || negb (bool_decide (template = storageRoute))) (Apply r o template [])) l).
Proof.
  induction l as [|t l IH]; [apply applier_ret|]. cbn [List.filter].
  change (iter ?f (t :: l)) with (f t ;; iter f l). cbn beta.
  destruct (os_EnableExternalRoute os || negb (bool_decide (t = storageRoute))) eqn:Ht.
  - apply (applier_bind [t]); [|done]. apply applier_ret_bind. rewrite Ht. apply Apply_applier.
  - apply (applier_bind []); [|done]. apply applier_ret_bind. rewrite Ht. apply applier_ret.
Qed.

Lemma deploy_minio_applier r o (os : ObjectStorage) (secret : bool) :
  applier ((if secret then [storageSecret] else []) ++ minio_templates_for os)
    (whenb secret (Apply r o storageSecret []) ;;
     iter (fun template =>
       os ← deref "dsp.Spec.ObjectStorage" (Some os);
       whenb (os_EnableExternalRoute os || negb (bool_decide (template = storageRoute))) (Apply r o template []))
       minioTemplates).
Proof. apply applier_bind; [apply applier_whenb, Apply_applier|]. intros _. apply minio_applier. Qed.

(** A run that deploys the object store: what is known at its end. *)
Definition storage_deployed (s : St) (o : outcome unit) (s' : St) (t : list event) : Prop :=
  applied t `prefix_of` storage_plan (cur s) /\ Forall (applies (storage_plan (cur s))) t /\
  st_params s' = st_params s /\ cur s' = cur s /\
  match o with Ret _ => applied t = storage_plan (cur s) | Fail _ => True | Panic _ => False end.

Lemma ReconcileStorage_run (r : DSPAReconciler) (s : St) os :
  spec_ObjectStorage (dspa_Spec (cur s)) = Some os -> wp (ReconcileStorage r) (storage_deployed s) s.
Proof.
  intros Hos. unfold ReconcileStorage. apply wp_get. unfold storage_deployed, storage_plan, UsingExternalStorage.
  rewrite Hos.
  cbn [option_bind mbind bool_decide negb orb].
  destruct (os_Minio os) as [m|] eqn:Hm; cbn.
  - apply wp_assoc, wp_ret_bind. rewrite Hm. apply wp_assoc, wp_ret_bind, wp_ret_bind.
    destruct (os_ExternalStorage os); cbn; [by apply wp_ret; split_and!|].
    destruct (minio_Deploy m); cbn; [|by apply wp_ret; split_and!].
    eapply (wp_unassoc (whenb _ _) (fun _ => iter _ _)). apply wp_bind.
    eapply wp_mono; [apply (applier_wp _ _ _ (deploy_minio_applier r _ os _))|]. cbn beta.
    intros o s1 t1 (Hp & Hf & Hk & Ho). rewrite (Hk _ _ inner_params), (Hk _ _ inner_cur).
    destruct (minio_S3CredentialSecret m); cbn in Hp, Hf, Ho |- *.
    all: destruct o as [[]| |]; [apply wp_ret; rewrite app_nil_r|..]; split_and!; by auto using inner_params, inner_cur.
  - destruct (os_ExternalStorage os); cbn; by apply wp_ret; split_and!.
Qed.

Lemma ReconcileStorage_none (r : DSPAReconciler) (s : St) :
  spec_ObjectStorage (dspa_Spec (cur s)) = None ->
  wp (ReconcileStorage r) (fun o s' t => t = [] /\ s' = s /\ exists why, o = Panic why) s.
Proof. intros Hn. unfold ReconcileStorage. apply wp_get. rewrite Hn. unfold wp. simpl. eauto. Qed.

(** C34: The object store is deployed exactly as the application asks: an external
    store, no MinIO section, or a MinIO that is not to be deployed, gets
    nothing; otherwise the generated secret (unless credentials are given) and
    then the MinIO templates in order, the route only if the external route is
    enabled, stopping at the first failure.  Nothing else is written, the
    application is not updated, and an application without a section on object
    storage makes the operator panic before any call. *)
Theorem ReconcileStorage_plan (r : DSPAReconciler) (s : St) :
  wp (ReconcileStorage r) (fun o s' t =>
    match spec_ObjectStorage (dspa_Spec (cur s)) with
    | None => t = [] /\ s' = s /\ exists why, o = Panic why
    | Some _ => storage_deployed s o s' t
    end) s.
Proof.
  destruct (spec_ObjectStorage (dspa_Spec (cur s))) as [os|] eqn:Hos; [by eapply ReconcileStorage_run|by apply ReconcileStorage_none].
Qed.

(** the extra certificates and the proxy of a connection, if any *)
Definition transport_of (pems : list string) (proxy : option ProxyConfig) :
    option (list string * option ProxyConfig) :=
  if bool_decide (0 < length pems) || bool_decide (is_Some proxy) then Some (pems, proxy) else None.

(** a transport that cannot be made *)
Definition transport_refused (pems : list string) (secure : bool) : Prop :=
  (exists e, minio_default_transport secure = inr e) \/ exists pem, pem ∈ pems /\ pem_ok pem = false.

Lemma getTransport_spec pems proxy secure :
  match getTransportWithProxyAndCACert pems proxy secure with
  | inl tr => tr = (pems, proxy) /\ ~ transport_refused pems secure
  | inr _ => transport_refused pems secure
  end.
Proof.
  unfold getTransportWithProxyAndCACert, addCustomCACerts, transport_refused.
  destruct (minio_default_transport secure) as [[]|e]; [|left; by eexists].
  destruct (forallb pem_ok pems) eqn:Hp.
  - split; [done|]. intros [[e He]|(pem & Hin & Hbad)]; [done|]. rewrite forallb_forall in Hp.
    apply list_elem_of_In, Hp in Hin. congruence.
  - right. apply not_true_iff_false in Hp. rewrite <- Exists_exists.
    apply dec_stable. intros Hn. apply Hp, forallb_forall.
    intros pem Hin%list_elem_of_In. destruct (pem_ok pem) eqn:Hb; [done|]. destruct Hn. apply Exists_exists. by exists pem.
Qed.

(** the one call, and what its answer means *)
Lemma stat_wp endpoint secure f (s : St) :
  wp (stat ← try (io (CStat endpoint secure) f);
      match stat with
      | inl _ => mret true
      | inr err => match stat_error endpoint err with None => mret true | Some e => fail e end
      end)
    (fun o _ t => let r := (f (st_world s)).1 in
       t = [Ev (CStat endpoint secure) (match r with inl _ => true | inr _ => false end)] /\
       (o = Ret true <-> answered r) /\ (o ≠ Ret true -> exists e, o = Fail e)) s.
Proof.
  apply wp_try_io.
  - intros [] w Hf. apply wp_ret. rewrite Hf. split_and!; [done| |done]. split; [by left|done].
  - intros e w Hf. rewrite Hf. cbn [fst]. pose proof (stat_error_none endpoint e) as Hn.
    destruct (stat_error endpoint e) as [e'|]; unfold wp; cbn.
    + split_and!; [done| |by eauto]. split; [done|]. by intros ?%Hn.
    + split_and!; [done| |done]. split; [|done]. intros _. by apply Hn.
Qed.

(** ** What the health check depends on *)

(** the host, and the port if there is one *)
Definition endpoint_of (c : ObjectStorageConnection) : string :=
  if bool_decide (osc_Port c = "") then osc_Host c else osc_Host c +:+ ":" +:+ osc_Port c.

(** the given keys, or without them what the environment provides *)
Definition credentials_of (c : ObjectStorageConnection) : Credentials :=
  let access := (DecodeString (osc_AccessKeyID c)).1 in
  let secret := (DecodeString (osc_SecretAccessKey c)).1 in
  if bool_decide (access = "" \/ secret = "") then ChainedProviders else StaticV4 access secret.

Definition client_options (p : DSPAParams) (secure : bool) : MinioOptions :=
  MkMinioOptions (credentials_of (p_ObjectStorageConnection p)) secure
    (transport_of (p_APICustomPemCerts p) (p_ProxyConfig p)).

(** Why a check may fail without asking the server: no host, keys that do not
    decode, a custom transport that cannot be made, or a client that cannot. *)
Definition refused_unasked (p : DSPAParams) (secure : bool) : Prop :=
  let c := p_ObjectStorageConnection p in
  osc_Host c = "" \/ (DecodeString (osc_AccessKeyID c)).2 = false \/ (DecodeString (osc_SecretAccessKey c)).2 = false \/
  (is_Some (transport_of (p_APICustomPemCerts p) (p_ProxyConfig p)) /\ transport_refused (p_APICustomPemCerts p) secure) \/
  exists e, minio_new (endpoint_of c) (client_options p secure) = inr e.

Definition store_timeout (w : World) : Z :=
  if viper_is_set ObjStoreConnectionTimeoutConfigName w
  then viper_duration ObjStoreConnectionTimeoutConfigName w else DefaultObjStoreConnectionTimeout.

(** what the server says when it is asked *)
Definition store_answer (p : DSPAParams) (secure : bool) (w : World) : unit + error :=
  let c := p_ObjectStorageConnection p in
  (minio_stat (endpoint_of c) (client_options p secure) (osc_Bucket c) "some-random-object" (store_timeout w) w).1.

(** What a health check that is not disabled comes to: an error before any
    call, for one of the reasons there are, or else one stat whose answer
    decides. *)
Definition store_checked (s : St) (secure : bool) (o : outcome bool) (t : list event) : Prop :=
  let p := st_params s in
  (refused_unasked p secure -> t = [] /\ exists e, o = Fail e) /\
  (~ refused_unasked p secure ->
     let answer := store_answer p secure (st_world s) in
     t = [Ev (CStat (endpoint_of (p_ObjectStorageConnection p)) secure) (match answer with inl _ => true | inr _ => false end)] /\
     (o = Ret true <-> answered answer) /\ (o ≠ Ret true -> exists e, o = Fail e)).

Lemma joinHostPort_spec c :
  match joinHostPort (osc_Host c) (osc_Port c) with
  | inl endpoint => osc_Host c ≠ "" /\ endpoint = endpoint_of c
  | inr _ => osc_Host c = ""
  end.
Proof. unfold joinHostPort, endpoint_of. by repeat case_bool_decide. Qed.

Lemma createCredentialProvidersChain_spec c :
  createCredentialProvidersChain (DecodeString (osc_AccessKeyID c)).1 (DecodeString (osc_SecretAccessKey c)).1 = credentials_of c.
Proof. unfold createCredentialProvidersChain, credentials_of. repeat case_bool_decide; cbn; tauto. Qed.

(** an error before any call, for a reason that is given *)
Lemma refused_checked (s s1 : St) secure e :
  refused_unasked (st_params s) secure -> wp (fail e) (fun o _ t => store_checked s secure o t) s1.
Proof. intros H. split; [intros _; split; [done|by eexists]|done]. Qed.

(** the stat with a client that could be made *)
Lemma asked_checked (s s1 : St) secure :
  st_world s1 = st_world s -> ~ refused_unasked (st_params s) secure ->
  let c := p_ObjectStorageConnection (st_params s) in
  wp (stat ← try (io (CStat (endpoint_of c) secure)
        (minio_stat (endpoint_of c) (client_options (st_params s) secure) (osc_Bucket c) "some-random-object" (store_timeout (st_world s))));
      match stat with
      | inl _ => mret true
      | inr err => match stat_error (endpoint_of c) err with None => mret true | Some e => fail e end
      end) (fun o _ t => store_checked s secure o t) s1.
Proof.
  intros Hw Hn c. eapply wp_mono; [apply stat_wp|]. cbn beta zeta. rewrite Hw. intros o _ t (-> & Hr & Hf).
  split; [done|]. intros _. by split_and!.
Qed.

(** from the settings that were decoded on *)
Lemma ConnectAndQueryObjStore_checked (s : St) secure :
  let p := st_params s in let c := p_ObjectStorageConnection p in
  osc_Host c ≠ "" -> (DecodeString (osc_AccessKeyID c)).2 = true -> (DecodeString (osc_SecretAccessKey c)).2 = true ->
  wp (ConnectAndQueryObjStore (endpoint_of c) (osc_Bucket c) (DecodeString (osc_AccessKeyID c)).1
        (DecodeString (osc_SecretAccessKey c)).1 secure (p_APICustomPemCerts p) (p_ProxyConfig p) (store_timeout (st_world s)))
    (fun o _ t => store_checked s secure o t) s.
Proof.
  intros p c Hh Ha Hs. unfold ConnectAndQueryObjStore. rewrite createCredentialProvidersChain_spec.
  pose proof (eq_refl (transport_of (p_APICustomPemCerts p) (p_ProxyConfig p))) as Htr. unfold transport_of in Htr at 1.
  assert (forall tr e, tr = transport_of (p_APICustomPemCerts p) (p_ProxyConfig p) ->
    minio_new (endpoint_of c) (MkMinioOptions (credentials_of c) secure tr) = inr e -> refused_unasked p secure) as Hnew.
  { intros tr e -> He. do 4 right. by exists e. }
  assert (forall tr, tr = transport_of (p_APICustomPemCerts p) (p_ProxyConfig p) ->
    minio_new (endpoint_of c) (MkMinioOptions (credentials_of c) secure tr) = inl tt ->
    (is_Some tr -> ~ transport_refused (p_APICustomPemCerts p) secure) -> ~ refused_unasked p secure) as Hok.
  { intros tr -> He Ht. unfold refused_unasked, client_options. fold c. rewrite Ha, Hs, He. naive_solver. }
  destruct (bool_decide (0 < length _) || bool_decide (is_Some _)) eqn:Hb.
  - pose proof (getTransport_spec (p_APICustomPemCerts p) (p_ProxyConfig p) secure) as Hg.
    destruct (getTransportWithProxyAndCACert _ _ _) as [tr|e].
    2: { apply refused_checked. do 3 right. left. split; [eexists; symmetry; exact Htr|done]. }
    destruct Hg as [-> Hg]. apply wp_ret_bind. cbn [mo_Creds mo_Secure mo_Transport set].
    match goal with |- context [minio_new _ ?op] =>
      change op with (MkMinioOptions (credentials_of c) secure (Some (p_APICustomPemCerts p, p_ProxyConfig p))) end.
    destruct (minio_new _ _) as [[]|e] eqn:He; [|by eapply refused_checked, Hnew].
    apply wp_ret_bind. specialize (Hok _ Htr He (fun _ => Hg)). rewrite Htr.
    exact (asked_checked s s secure eq_refl Hok).
  - apply wp_ret_bind. destruct (minio_new _ _) as [[]|e] eqn:He; [|by eapply refused_checked, Hnew].
    apply wp_ret_bind. specialize (Hok _ Htr He ltac:(by intros [])). rewrite Htr.
    exact (asked_checked s s secure eq_refl Hok).
Qed.

Lemma isObjectStorageAccessible_cases (dsp : DataSciencePipelinesApplication) (s : St) :
  wp (isObjectStorageAccessible dsp) (fun o s' t =>
    if ObjectStorageHealthCheckDisabled dsp then o = Ret true /\ t = [] else
    match osc_Secure (p_ObjectStorageConnection (st_params s)) with
    | None => t = [] /\ forall b, o ≠ Ret b
    | Some secure => store_checked s secure o t
    end) s.
Proof.
  unfold isObjectStorageAccessible, prm. apply wp_get.
  destruct (ObjectStorageHealthCheckDisabled dsp); [by apply wp_ret|].
  set (p := st_params s). set (c := p_ObjectStorageConnection p).
  assert (forall e, (forall secure, refused_unasked p secure) ->
    wp (fail e) (fun (o : outcome bool) _ t => match osc_Secure c with
      | None => t = [] /\ forall b, o ≠ Ret b | Some secure => store_checked s secure o t end) s) as Hfail.
  { intros e Hr. destruct (osc_Secure c) as [secure|]; [by apply refused_checked|by split]. }
  pose proof (joinHostPort_spec c) as Hj.
  destruct (joinHostPort _ _) as [endpoint|e]; [destruct Hj as [Hh ->]|apply Hfail; intros; by left].
  apply wp_ret_bind. destruct (DecodeString (osc_AccessKeyID c)) as [ak []] eqn:Ha.
  2: { apply Hfail. intros. right. left. fold c. by rewrite Ha. }
  apply wp_ret_bind. destruct (DecodeString (osc_SecretAccessKey c)) as [sk []] eqn:Hs.
  2: { apply Hfail. intros. do 2 right. left. fold c. by rewrite Hs. }
  apply wp_ret_bind. eapply wp_step; [apply GetDurationConfigWithDefault_run|].
  destruct (osc_Secure c) as [secure|]; [apply wp_ret_bind|by split].
  pose proof (ConnectAndQueryObjStore_checked s secure) as H. cbn zeta in H. fold p c in H. rewrite Ha, Hs in H. by apply H.
Qed.

(** C35: The health check of the object store, case by case.  With the check
    disabled it passes and nothing is contacted.  Otherwise, without a host,
    with credentials that do not decode, with certificates or a proxy for which
    no transport can be made, or with settings that the client refuses, and in
    no other case, it is an error before any call.  In every other case the
    only call is one stat, at the configured host and port, with TLS or without
    as configured, with the given keys, or the environment's without them, and
    with the custom certificates and the proxy if there are any; and the check
    passes exactly when the stat succeeds or the server answers that there is no
    such key or bucket; any other answer is an error.  Whether to use TLS is
    always known after extraction; without it, nothing is contacted and the
    check does not pass. *)
Theorem isObjectStorageAccessible_exact (dsp : DataSciencePipelinesApplication) (s : St) :
  wp (isObjectStorageAccessible dsp) (fun o s' t =>
    if ObjectStorageHealthCheckDisabled dsp then o = Ret true /\ t = [] else
    match osc_Secure (p_ObjectStorageConnection (st_params s)) with
    | None => t = [] /\ forall b, o ≠ Ret b
    | Some secure => store_checked s secure o t
    end) s.
Proof. apply isObjectStorageAccessible_cases. Qed.
End StorageProofs.

(** ** Examples *)

#[local] Existing Instance sim_platform.

(** a bucket that is there, reached without TLS *)
Definition sample_store : St :=
  (sim_state sim_empty sim_dspa) <| st_params ::= fun p => p <| p_ObjectStorageConnection :=
    MkObjectStorageConnection "mlpipeline" None "minio" "9000" "http" "" "" (Some false) ""
      (EncodeToString "key") (EncodeToString "secret") "" |> |>.

Lemma isObjectStorageAccessible_witness :
  ~ refused_unasked (st_params sample_store) false /\
  evs (isObjectStorageAccessible sim_dspa sample_store) = [Ev (CStat "minio:9000" false) true] /\
  answered (store_answer (st_params sample_store) false (st_world sample_store)).
Proof.
  assert (~ refused_unasked (st_params sample_store) false) as Hn.
  { intros [H|[H|[H|[[[x H] _]|[e H]]]]]; vm_compute in H; discriminate H. }
  split; [exact Hn|]. pose proof (isObjectStorageAccessible_exact sim_dspa sample_store) as H.
  destruct H as [_ H]. destruct (H Hn) as (Ht & Hr & _). split.
  - rewrite Ht. vm_compute. reflexivity.
  - apply Hr. vm_compute. reflexivity.
Defined.
