(* ===== verification/Components.v ===== *)
(** * The smaller components (controllers/common.go, webhook.go,
    persistence_agent.go, scheduled_workflow.go, workflow_controller.go, mlmd.go)

    One [Reconcile...] operation each, and the clean-up of what garbage
    collection does not reach. *)

From stdpp Require Import base gmap strings list.
From Stdlib Require Import ZArith Lia.
From S2P Require Import Prelude GoStd GoJson GoCodec KubeTypes ApiTypes Data Platform Config Util.
From S2P Require Import Reconciler Params Extract Manifests.

Definition commonTemplatesDir : string := "common/default".
Definition commonCusterRolebindingTemplate : string := "common/no-owner/clusterrolebinding.yaml.tmpl".
Definition webhookTemplatesDir : string := "webhook/".
Definition operatorName : string := "data-science-pipelines-operator-controller-manager".
Definition persistenceAgentTemplatesDir : string := "persistence-agent".
Definition scheduledWorkflowTemplatesDir : string := "scheduled-workflow".
Definition workflowControllerTemplatesDir : string := "workflow-controller".
Definition mlmdTemplatesDir : string := "ml-metadata".
Definition mlmdEnvoyRoute : string := mlmdTemplatesDir +:+ "/route/metadata-envoy.route.yaml.tmpl".
Definition mlmdGrpcService : string := "grpc-service".
Definition webhookConfigName : string := "pipelineversions.pipelines.kubeflow.org".

(** ** The workflow controller's management state *)

Definition ArgoWorkflowsControllersConfig := string.

(** [json.Unmarshal] into the configuration: its one field *)
Definition unmarshal_argo_config (data : string) : ArgoWorkflowsControllersConfig + error :=
  match parse_json data with
  | None => inr json_syntax_error
  | Some JNull => inl ""
  | Some (JObj l) => match decode_field "managementState" l with
                     | Some s => inl s
                     | None => inr json_type_error
                     end
  | Some _ => inr json_type_error
  end.

Definition GetManagementState (c : ArgoWorkflowsControllersConfig) : string :=
  if bool_decide (c = "") then DefaultArgoWorkflowsControllersManagementState else c.

Section Components.
  Context {P : Platform}.
  Variable r : DSPAReconciler.

(** ** Common *)

Definition ReconcileCommon : M unit :=
  dsp ← gets cur;
  ApplyDir r (owner_of dsp) commonTemplatesDir [] ;;
  ApplyWithoutOwner r commonCusterRolebindingTemplate [].

Definition CleanUpCommon : M unit := DeleteResource r commonCusterRolebindingTemplate [].

(** ** Webhook *)

Definition owner_of_deployment (d : Deployment) : Owner :=
  {| own_APIVersion := dep_APIVersion d; own_Kind := dep_Kind d; own_Name := dep_Name d;
     own_Namespace := dep_Namespace d; own_UID := dep_UID d |}.

Definition ReconcileWebhook : M unit :=
  params ← prm;
  let nn := NN (p_DSPONamespace params) operatorName in
  operator ← io (CGet "Deployment" nn) (get_deployment nn);
  ApplyDir r (owner_of_deployment operator) webhookTemplatesDir [].

(** does an application other than the named one use the store kubernetes *)
Definition checkAvailableKubernetesDSPAs (excludeName excludeNamespace : string) : M bool :=
  items ← io (CList "DSPA") (list_dspas None);
  mret (existsb (fun d =>
    negb (bool_decide (dspa_Name d = excludeName) && bool_decide (dspa_Namespace d = excludeNamespace)) &&
    match spec_APIServer (dspa_Spec d) with
    | Some a => bool_decide (api_PipelineStore a = "kubernetes")
    | None => false
    end) items).

(** the objects of the webhook, in the order they are deleted *)
Definition webhook_objects (namespace : string) : list (string * NamespacedName) :=
  let webhookNamespaced := NN namespace k8sWebhookName in
  [("MutatingWebhookConfiguration", NN "" webhookConfigName);
   ("ValidatingWebhookConfiguration", NN "" webhookConfigName);
   ("Deployment", webhookNamespaced);
   ("ClusterRole", NN "" k8sWebhookName);
   ("ClusterRoleBinding", NN "" k8sWebhookName);
   ("Service", webhookNamespaced);
   ("ServiceAccount", webhookNamespaced)].

Definition cleanupWebhookResources (namespace : string) : M unit :=
  iter (fun o => DeleteResourceIfItExists o.1 o.2) (webhook_objects namespace).

Definition CleanUpWebhookIfUnused (dspa : DataSciencePipelinesApplication) : M unit :=
  params ← prm;
  hasK8sDSPAs ← checkAvailableKubernetesDSPAs (dspa_Name dspa) (dspa_Namespace dspa);
  whenb (negb hasK8sDSPAs) (cleanupWebhookResources (p_DSPONamespace params)).

Definition checkWebhookStatus : M (bool * string) :=
  params ← prm;
  let nn := NN (p_DSPONamespace params) (p_WebhookName params) in
  d ← try (io (CGet "Deployment" nn) (get_deployment nn));
  mret (match d with
        | inr e => (false, if IsNotFound e then ComponentDeploymentNotFound else FailingToDeploy)
        | inl d =>
            match GetDeploymentCondition (dep_Conditions d) DeploymentAvailable with
            | Some c => if bool_decide (dc_Status c = ConditionTrue) then (true, "")
                        else (false, MinimumReplicasAvailable)
            | None => (false, MinimumReplicasAvailable)
            end
        end).

(** ** Persistence agent, scheduled workflow *)

Definition ReconcilePersistenceAgent : M unit :=
  dsp ← gets cur;
  pa ← deref "dsp.Spec.PersistenceAgent" (spec_PersistenceAgent (dspa_Spec dsp));
  if negb (pa_Deploy pa) then mret tt
  else ApplyDir r (owner_of dsp) persistenceAgentTemplatesDir [].

Definition ReconcileScheduledWorkflow : M unit :=
  dsp ← gets cur;
  sw ← deref "dsp.Spec.ScheduledWorkflow" (spec_ScheduledWorkflow (dspa_Spec dsp));
  if negb (sw_Deploy sw) then mret tt
  else ApplyDir r (owner_of dsp) scheduledWorkflowTemplatesDir [].

(** ** Workflow controller: whether it is enabled *)

Definition ReconcileWorkflowController : M bool :=
  dsp ← gets cur;
  value ← GetStringConfigWithDefault "DSPO.ArgoWorkflowsControllers" DefaultArgoWorkflowsControllers;
  let cfg := match unmarshal_argo_config (TrimByte dquote value) with
             | inl c => c
             | inr _ => DefaultArgoWorkflowsControllersManagementState
             end in
  let state := GetManagementState cfg in
  if bool_decide (state = "Managed") || bool_decide (state = "") then
    if match spec_WorkflowController (dspa_Spec dsp) with
       | None => true
       | Some wc => negb (wc_Deploy wc)
       end
    then mret false
    else ApplyDir r (owner_of dsp) workflowControllerTemplatesDir [] ;; mret true
  else if bool_decide (state = "Removed") then
    DeleteResourceDir r workflowControllerTemplatesDir ;; mret false
  else fail (ErrNew ("invalid management state for WorkflowController Resources: " +:+ state)).

(** ** ML metadata *)

Definition mlmd_deployed (m : option MLMD) : bool :=
  match m with Some m => mlmd_Deploy m | None => false end.

Definition ReconcileMLMD : M unit :=
  dsp ← gets cur;
  params ← prm;
  if negb (mlmd_deployed (p_MLMD params)) && negb (mlmd_deployed (spec_MLMD (dspa_Spec dsp))) then mret tt
  else
    ApplyDir r (owner_of dsp) (mlmdTemplatesDir +:+ "/" +:+ mlmdGrpcService) [] ;;
    whenb (p_PodToPodTLS params)
      (certificatesExist ← LoadMlmdCertificates;
       if certificatesExist : bool then mret tt
       else fail (ErrNew "secret containing the certificate for MLMD gRPC Server was not created yet")) ;;
    ApplyDir r (owner_of dsp) mlmdTemplatesDir [] ;;
    whenb (match spec_MLMD (dspa_Spec dsp) ≫= mlmd_Envoy with
           | Some envoy => envoy_DeployRoute envoy
           | None => true
           end)
      (Apply r (owner_of dsp) mlmdEnvoyRoute []).
End Components.

(** ** The webhook is shared: it goes with the last application that uses it *)

(** whether some other application uses the store kubernetes *)
Definition needed_by_other (d : DataSciencePipelinesApplication) (items : list DataSciencePipelinesApplication) : Prop :=
  exists d', d' ∈ items /\ nn_of d' ≠ nn_of d /\
    exists a, spec_APIServer (dspa_Spec d') = Some a /\ api_PipelineStore a = "kubernetes"%string.

(** An object was looked up, and deleted if it was there. *)
Definition gone (t : list event) (o : string * NamespacedName) : Prop :=
  Ev (CGet o.1 o.2) false ∈ t \/ (Ev (CGet o.1 o.2) true ∈ t /\ Ev (CDelete o.1 o.2) true ∈ t).

Section ComponentProofs.
  Context {P : Platform}.

Lemma DeleteResourceIfItExists_gone kind nn (s : St) :
  wp (DeleteResourceIfItExists kind nn) (fun o _ t =>
    Forall (fun e => ev_call e = CGet kind nn \/ ev_call e = CDelete kind nn) t /\
    match o with Ret _ => gone t (kind, nn) | Fail _ => True | Panic _ => False end) s.
Proof.
  split; [apply (DeleteResourceIfItExists_emits kind nn s)|]. unfold DeleteResourceIfItExists.
  rewrite bind_try_io. destruct (get_object kind nn _) as [[[]|e] w].
  - unfold io. destruct (delete_object kind nn _) as [[[]|e] w']; cbn; [|done]. right. simpl. set_solver.
  - destruct (IsNotFound e); cbn; [|done]. left. set_solver.
Qed.

Lemma gone_mono t u o : t ⊆ u -> gone t o -> gone u o.
Proof. unfold gone. set_solver. Qed.

(** the objects a clean-up may touch *)
Definition touches (objs : list (string * NamespacedName)) (e : event) : Prop :=
  exists o, o ∈ objs /\ (ev_call e = CGet o.1 o.2 \/ ev_call e = CDelete o.1 o.2).

Lemma delete_all_gone objs (s : St) :
  wp (iter (fun o => DeleteResourceIfItExists o.1 o.2) objs) (fun o _ t =>
    Forall (touches objs) t /\
    match o with Ret _ => Forall (gone t) objs | Fail _ => True | Panic _ => False end) s.
Proof.
  revert s. induction objs as [|ob objs IH]; intros s; [by apply wp_ret|].
  cbn [iter]. apply wp_bind. eapply wp_mono; [apply DeleteResourceIfItExists_gone|].
  cbn beta. intros o s1 t1 [Ht1 Ho].
  assert (forall e, e ∈ t1 -> touches (ob :: objs) e) as Hin.
  { intros e He. rewrite Forall_forall in Ht1. exists ob. split; [set_solver|]. by apply Ht1. }
  destruct o as [[]|e|p]; [|split; [by apply Forall_forall|done]|done].
  eapply wp_mono; [apply IH|]. cbn beta. intros o s2 t2 [Ht2 Ho2]. split.
  - apply Forall_app. split; [by apply Forall_forall|]. eapply Forall_impl; [exact Ht2|].
    intros e (ob' & ? & ?). exists ob'. split; [set_solver|done].
  - destruct o as [[]| |]; [|done..]. constructor; [|eapply Forall_impl; [exact Ho2|]].
    + destruct ob. eapply gone_mono; [|exact Ho]. set_solver.
    + intros ob'. apply gone_mono. set_solver.
Qed.

Lemma checkAvailable_spec (d : DataSciencePipelinesApplication) items :
  existsb (fun d' =>
    negb (bool_decide (dspa_Name d' = dspa_Name d) && bool_decide (dspa_Namespace d' = dspa_Namespace d)) &&
    match spec_APIServer (dspa_Spec d') with
    | Some a => bool_decide (api_PipelineStore a = "kubernetes")
    | None => false
    end) items = true <-> needed_by_other d items.
Proof.
  rewrite existsb_exists. unfold needed_by_other. split.
  - intros (d' & Hin%list_elem_of_In & [Hn Hk]%andb_prop). exists d'. split; [done|].
    destruct (spec_APIServer (dspa_Spec d')) as [a|]; [|done]. apply bool_decide_eq_true in Hk. split; [|by eauto].
    intros [= Hns Hnm]. rewrite Hns, Hnm, !bool_decide_eq_true_2 in Hn by done. done.
  - intros (d' & Hin%list_elem_of_In & Hn & a & Ha & Hk). exists d'. split; [done|].
    rewrite Ha, Hk. cbn. rewrite andb_true_r. apply negb_true_iff, andb_false_iff.
    destruct (decide (dspa_Name d' = dspa_Name d)) as [Hnm|]; [right|left]; apply bool_decide_eq_false_2; [|done].
    intros Hns. apply Hn. unfold nn_of. by rewrite Hnm, Hns.
Qed.

(** C36: Deleting an application takes the shared webhook with it exactly when no
    other application of the cluster stores its pipelines in kubernetes: if one
    does, or if that could not be found out, nothing is touched (and in the
    second case the deletion fails and is retried); otherwise each of the seven
    objects of the webhook, and nothing else, is looked up and deleted if it is
    there, and success means they are all gone. *)
Theorem CleanUpWebhookIfUnused_exact (d : DataSciencePipelinesApplication) (s : St) :
  wp (CleanUpWebhookIfUnused d) (fun o _ t =>
    let objs := webhook_objects (p_DSPONamespace (st_params s)) in
    match (list_dspas None (st_world s)).1 with
    | inr e => o = Fail e /\ t = [Ev (CList "DSPA") false]
    | inl items =>
        exists t', t = Ev (CList "DSPA") true :: t' /\
        (needed_by_other d items -> o = Ret tt /\ t' = []) /\
        (~ needed_by_other d items -> Forall (touches objs) t' /\
           match o with Ret _ => Forall (gone t') objs | Fail _ => True | Panic _ => False end)
    end) s.
Proof.
  unfold CleanUpWebhookIfUnused, checkAvailableKubernetesDSPAs, prm. apply wp_get, wp_assoc, wp_io.
  - intros items w Hl. rewrite Hl. apply wp_ret_bind. pose proof (checkAvailable_spec d items) as Hc.
    destruct (existsb _ items); cbn [whenb negb].
    + apply wp_ret. exists []. split_and!; [done..|]. intros Hn. by destruct Hn; apply Hc.
    + eapply wp_mono; [apply delete_all_gone|]. cbn beta. intros o s' t' H. exists t'. split_and!; [done| |done].
      intros Hn%Hc. done.
  - intros e w Hl. by rewrite Hl.
Qed.

(** ** The workflow controller follows its management state *)

(** the state an operator configuration asks for; what cannot be parsed counts
    as the default *)
Definition management_state (value : string) : string :=
  GetManagementState (match unmarshal_argo_config (TrimByte dquote value) with
                      | inl c => c
                      | inr _ => DefaultArgoWorkflowsControllersManagementState
                      end).

Definition configured_argo (s : St) : string :=
  if viper_is_set "DSPO.ArgoWorkflowsControllers" (st_world s)
  then viper_string "DSPO.ArgoWorkflowsControllers" (st_world s) else DefaultArgoWorkflowsControllers.

Definition wc_wanted (d : DataSciencePipelinesApplication) : bool :=
  match spec_WorkflowController (dspa_Spec d) with Some wc => wc_Deploy wc | None => false end.

(** Managed, the workflow controller's templates are applied when the
    application wants it deployed and nothing happens when it does not; Removed,
    its templates are deleted and never applied, whatever the application
    wants; any other state is an error before any call.  It is reported enabled
    exactly when it was applied. *)
Theorem ReconcileWorkflowController_state (r : DSPAReconciler) (s : St) :
  wp (ReconcileWorkflowController r) (fun o s' t =>
    let state := management_state (configured_argo s) in
    (forall X (f : St -> X), inner f -> f s' = f s) /\
    (state = "Managed"%string ->
       if wc_wanted (cur s)
       then Forall (applies_dir workflowControllerTemplatesDir) t /\ (forall b, o = Ret b -> b = true)
       else o = Ret false /\ t = []) /\
    (state = "Removed"%string ->
       Forall (deletes_dir workflowControllerTemplatesDir) t /\ (forall b, o = Ret b -> b = false)) /\
    (state ≠ "Managed"%string -> state ≠ "Removed"%string -> t = [] /\ exists e, o = Fail e)) s.
Proof.
  unfold ReconcileWorkflowController. apply wp_get.
  eapply wp_step; [apply GetStringConfigWithDefault_run|]. fold (configured_argo s).
  fold (management_state (configured_argo s)). cbn [app].
  assert (management_state (configured_argo s) ≠ ""%string) as Hne.
  { unfold management_state, GetManagementState. case_bool_decide; done. }
  set (state := management_state (configured_argo s)) in *.
  rewrite (bool_decide_eq_false_2 (state = "")), orb_false_r by done.
  destruct (bool_decide (state = "Managed")) eqn:Hm;
    [apply bool_decide_eq_true in Hm|apply bool_decide_eq_false in Hm].
  - rewrite Hm. unfold wc_wanted. destruct (spec_WorkflowController _) as [wc|]; [|by apply wp_ret].
    destruct (wc_Deploy wc); [|by apply wp_ret]. cbn [negb].
    set (m := ApplyDir _ _ _ _). apply wp_bind.
    pose proof (ApplyDir_emits r (owner_of (cur s)) workflowControllerTemplatesDir [] s) as He.
    pose proof (fun X (f : St -> X) Hf => ApplyDir_keeps f r (owner_of (cur s)) workflowControllerTemplatesDir [] Hf s) as Hk.
    fold m in He, Hk. unfold wp. destruct (out (m s)) as [[]| |]; cbn; rewrite ?app_nil_r;
      (split_and!; [done|intros _; split; [done|naive_solver]|done|done]).
  - destruct (bool_decide (state = "Removed")) eqn:Hr;
      [apply bool_decide_eq_true in Hr|apply bool_decide_eq_false in Hr; unfold wp; cbn; naive_solver].
    rewrite Hr. set (m := DeleteResourceDir _ _). apply wp_bind.
    pose proof (DeleteResourceDir_emits r workflowControllerTemplatesDir s) as He.
    pose proof (fun X (f : St -> X) Hf => DeleteResourceDir_keeps f r workflowControllerTemplatesDir Hf s) as Hk.
    fold m in He, Hk. unfold wp. destruct (out (m s)) as [[]| |]; cbn; rewrite ?app_nil_r;
      (split_and!; [done|done|intros _; split; [done|naive_solver]|done]).
Qed.

(** ** ML metadata waits for its certificate *)

Definition mlmd_secret (p : DSPAParams) : NamespacedName :=
  NN (p_Namespace p) ("ds-pipeline-metadata-grpc-tls-certs-" +:+ p_Name p).

Lemma LoadMlmdCertificates_wp (s : St) :
  wp LoadMlmdCertificates (fun o s' t =>
    exists ok, t = [Ev (CGet "Secret" (mlmd_secret (st_params s))) ok] /\ cur s' = cur s /\
    match o with Ret b => b = ok | Fail _ => ok = false | Panic _ => False end) s.
Proof.
  unfold LoadMlmdCertificates, prm, GetSecret. apply wp_get. apply wp_try_io.
  - intros sec w _. by exists true.
  - intros e w _. exists false. by destruct (IsNotFound e).
Qed.

Definition mlmd_wanted (s : St) : bool :=
  mlmd_deployed (p_MLMD (st_params s)) || mlmd_deployed (spec_MLMD (dspa_Spec (cur s))).

(** the last phase: everything but the service *)
Definition mlmd_call (e : event) : Prop :=
  applies_dir mlmdTemplatesDir e \/ applies [mlmdEnvoyRoute] e.

Lemma mlmd_rest_emits r d :
  emits mlmd_call
    (ApplyDir r (owner_of d) mlmdTemplatesDir [] ;;
     whenb (match spec_MLMD (dspa_Spec d) ≫= mlmd_Envoy with Some envoy => envoy_DeployRoute envoy | None => true end)
       (Apply r (owner_of d) mlmdEnvoyRoute [])).
Proof.
  apply emits_bind; [|intros _; apply emits_whenb; intros _].
  - eapply emits_mono; [|apply ApplyDir_emits]. by left.
  - eapply emits_mono; [|apply Apply_emits]. by right.
Qed.

(** The certificate: read, and there, or not needed. *)
Definition certificate_seen (s : St) (t : list event) : Prop :=
  if p_PodToPodTLS (st_params s) then t = [Ev (CGet "Secret" (mlmd_secret (st_params s))) true] else t = [].

(** whether the route of the proxy is wanted: unless the application says no *)
Definition route_wanted (d : DataSciencePipelinesApplication) : bool :=
  match spec_MLMD (dspa_Spec d) ≫= mlmd_Envoy with Some envoy => envoy_DeployRoute envoy | None => true end.

(** the rest of the templates *)
Lemma mlmd_rest_returns r d (s : St) :
  returns (ApplyDir r (owner_of d) mlmdTemplatesDir [] ;; whenb (route_wanted d) (Apply r (owner_of d) mlmdEnvoyRoute []))
    (fun _ _ t => exists ts, dir_templates (r_TemplatesPath r) mlmdTemplatesDir (st_world s) = inl ts /\
       applied t = ts ++ (if route_wanted d then [mlmdEnvoyRoute] else [])) s.
Proof.
  apply returns_bind. eapply returns_mono; [apply ApplyDir_returns|]. cbn beta. intros [] s1 t1 Ht1.
  destruct (route_wanted d); cbn [whenb].
  - eapply returns_mono; [apply Apply_returns|]. cbn beta. intros [] s2 t2 Ht2. exists (applied t1). by rewrite applied_app, Ht2.
  - apply returns_ret. exists (applied t1). by rewrite applied_app.
Qed.

(** C37: ML metadata is applied in three steps: every template of its gRPC
    service, whose creation makes the platform issue a certificate; with TLS
    between pods, the secret with that certificate, without which the reconcile
    fails and nothing more is applied; then every one of the rest of its
    templates, and the route of its proxy unless the application does not want
    it.  No step begins before the one before it is complete, and a reconcile
    that succeeds went through all of them.  Without TLS between pods no secret
    is read.  If ML metadata is wanted neither by the parameters nor by the
    application, nothing happens. *)
Theorem ReconcileMLMD_certificate_first (r : DSPAReconciler) (s : St) :
  wp (ReconcileMLMD r) (fun o s' t =>
    if negb (mlmd_wanted s) then o = Ret tt /\ s' = s /\ t = [] else
    exists t1 t2 t3, t = t1 ++ t2 ++ t3 /\
      Forall (applies_dir "ml-metadata/grpc-service") t1 /\ Forall mlmd_call t3 /\
      (p_PodToPodTLS (st_params s) = false -> t2 = []) /\
      (t2 ≠ [] \/ t3 ≠ [] \/ o = Ret tt ->
         dir_templates (r_TemplatesPath r) "ml-metadata/grpc-service" (st_world s) = inl (applied t1)) /\
      (t3 ≠ [] \/ o = Ret tt -> certificate_seen s t2) /\
      (o = Ret tt -> exists w ts, dir_templates (r_TemplatesPath r) "ml-metadata" w = inl ts /\
         applied t3 = ts ++ (if route_wanted (cur s) then ["ml-metadata/route/metadata-envoy.route.yaml.tmpl"] else []))) s.
Proof.
  unfold ReconcileMLMD, prm. apply wp_get, wp_get. rewrite <- negb_orb. fold (mlmd_wanted s) (route_wanted (cur s)).
  destruct (mlmd_wanted s); cbn [negb]; [|by apply wp_ret].
  set (m := ApplyDir _ _ (mlmdTemplatesDir +:+ "/" +:+ mlmdGrpcService) _).
  pose proof (ApplyDir_emits r (owner_of (cur s)) (mlmdTemplatesDir +:+ "/" +:+ mlmdGrpcService) [] s) as He.
  pose proof (ApplyDir_keeps st_params r (owner_of (cur s)) (mlmdTemplatesDir +:+ "/" +:+ mlmdGrpcService) [] inner_params s) as Hk.
  pose proof (ApplyDir_returns r (owner_of (cur s)) (mlmdTemplatesDir +:+ "/" +:+ mlmdGrpcService) [] s) as Hr.
  fold m in He, Hk, Hr. unfold returns, wp in Hr. apply wp_bind. unfold wp at 1. unfold certificate_seen.
  destruct (out (m s)) as [[]|e|p];
    [specialize (Hr tt eq_refl)|exists (evs (m s)), [], []; rewrite !app_nil_r; split_and!; try done; naive_solver..].
  set (rest := fun u : unit => ApplyDir _ _ _ _ ≫= _).
  assert (forall u s1, Forall mlmd_call (evs (rest u s1))) as Hrest by (intros u s1; apply mlmd_rest_emits).
  assert (forall u s1, out (rest u s1) = Ret tt -> exists w ts, dir_templates (r_TemplatesPath r) "ml-metadata" w = inl ts /\
    applied (evs (rest u s1)) = ts ++ (if route_wanted (cur s) then ["ml-metadata/route/metadata-envoy.route.yaml.tmpl"] else [])) as Hall.
  { intros u s1 Ho. exists (st_world s1). by apply (mlmd_rest_returns r (cur s) s1 tt). }
  destruct (p_PodToPodTLS (st_params s)); cbn [whenb].
  - apply wp_assoc, wp_bind. eapply wp_mono; [apply LoadMlmdCertificates_wp|]. cbn beta. rewrite Hk.
    intros o s1 t1 (ok & -> & _ & Ho). destruct o as [b| |]; [subst ok|subst ok|done].
    + destruct b; [apply wp_ret_bind; eexists _, [_], _; split; [reflexivity|]; split_and!; try done; by apply Hall|].
      eexists _, [_], []. split; [reflexivity|]. split_and!; try done. by intros [|].
    + eexists _, [_], []. rewrite app_nil_r. split_and!; try done. by intros [|].
  - apply wp_ret_bind. eexists _, [], _. split; [reflexivity|]. split_and!; try done; [apply (Hrest tt)|by apply Hall].
Qed.
End ComponentProofs.
