(* ===== verification/ApiServer.v ===== *)
(** * The API server (controllers/apiserver.go) *)

From stdpp Require Import base gmap strings list.
From Stdlib Require Import ZArith Lia.
From S2P Require Import Prelude GoStd GoJson GoCodec KubeTypes ApiTypes Data Platform Config Util.
From S2P Require Import Reconciler ManagedPipelines Params Extract Manifests Sim.

Definition apiServerTemplatesDir : string := "apiserver/default".
Definition apiServerServerConfigTemplate : string := "apiserver/default/server-config.yaml.tmpl".
Definition serverRoute : string := "apiserver/route/route.yaml.tmpl".

Definition samplePipelineTemplates : gmap string string :=
  {["sample-pipeline" := "apiserver/sample-pipeline/sample-pipeline.yaml.tmpl";
    "sample-config" := "apiserver/sample-pipeline/sample-config.yaml.tmpl"]}.

(** ** JSON of the parts of the specification that enter the configuration hash *)

Definition json_res (r : Resources) : json :=
  JObj [("cpu", JStr (q_text (res_CPU r))); ("memory", JStr (q_text (res_Memory r)))].

Definition omit_nil {A} (k : string) (f : A -> json) (v : option A) : list (string * json) :=
  match v with Some a => [(k, f a)] | None => [] end.

Definition json_requirements (r : ResourceRequirements) : json :=
  JObj (omit_nil "limits" json_res (rr_Limits r) ++ omit_nil "requests" json_res (rr_Requests r)).

Definition json_managed (m : ManagedPipelinesSpec) : json :=
  JObj (omit_string "image" (mps_Image m) ++
        (if bool_decide (mps_Pipelines m = []) then []
         else [("pipelines", JArr ((fun p => JObj [("name", JStr (mp_Name p))]) <$> mps_Pipelines m))]) ++
        omit_nil "resources" json_requirements (mps_Resources m) ++
        omit_string "volumeSizeLimit" (mps_VolumeSizeLimit m)).

Definition json_env (vars : list ManagedPipelineImageEnvVar) : json :=
  JArr ((fun v => JObj [("Name", JStr (env_Name v)); ("Value", JStr (env_Value v))]) <$> vars).

(** what the configuration hash covers *)
Definition hash_input (sampleConfigJSON : string) (p : DSPAParams) : string :=
  sampleConfigJSON +:+ p_APIServerWorkspaceJSON p +:+ p_APIServerPluginsJson p +:+ p_PlatformVersion p +:+
  match p_APIServer p ≫= api_ManagedPipelines with
  | Some m => Marshal (json_managed m) +:+ Marshal (json_env (p_ManagedPipelineImageEnvVars p))
  | None => ""
  end.

Definition config_hash (sampleConfigJSON : string) (p : DSPAParams) : string :=
  fmt_x (Sum256 (hash_input sampleConfigJSON p)).

(** ** The sample configuration *)

Definition metadata_key (pipeline field : string) : string :=
  "ManagedPipelinesMetadata." +:+ pipeline +:+ "." +:+ field.

Section ApiServer.
  Context {P : Platform}.
  Variable r : DSPAReconciler.

Definition GenerateSamplePipelineMetadataBlock (pipeline platformVersion : string) : M (gmap string string) :=
  pName ← GetStringConfig (metadata_key pipeline "Name");
  pFile ← GetStringConfig (metadata_key pipeline "Filepath");
  pDesc ← GetStringConfigWithDefault (metadata_key pipeline "Description") "";
  pVerName ← GetStringConfigWithDefault (metadata_key pipeline "VersionName") pName;
  pVerDesc ← GetStringConfigWithDefault (metadata_key pipeline "VersionDescription") "";
  mret {["name" := pName; "file" := pFile; "description" := pDesc;
         "versionName" := pVerName +:+ " - " +:+ platformVersion; "versionDescription" := pVerDesc]}.

Definition managedPipelineSampleEntry (pipelineName platformVersion : string) : M (gmap string string) :=
  item ← try (GenerateSamplePipelineMetadataBlock pipelineName platformVersion);
  mret (match item with
        | inl item => <["versionName" := platformVersion]> item
        | inr _ => {["name" := pipelineName;
                     "file" := "/config/managed-pipelines/" +:+ pipelineName +:+ ".yaml";
                     "description" := ""; "versionName" := platformVersion; "versionDescription" := ""]}
        end).

(** the loop over the requested pipelines: names are unique up to case *)
Fixpoint managed_entries (enableSample : bool) (platformVersion : string) (seenManaged : gset string)
    (pipelines : list ManagedPipeline) : M (list (gmap string string)) :=
  match pipelines with
  | [] => mret []
  | p :: ps =>
      let key := ToLower (mp_Name p) in
      if bool_decide (key ∈ seenManaged)
      then fail (ErrNew ("duplicate managed pipeline name " +:+ fmt_q (mp_Name p)))
      else if enableSample && EqualFold (mp_Name p) "iris"
      then managed_entries enableSample platformVersion ({[key]} ∪ seenManaged) ps
      else
        e ← managedPipelineSampleEntry (mp_Name p) platformVersion;
        es ← managed_entries enableSample platformVersion ({[key]} ∪ seenManaged) ps;
        mret (e :: es)
  end.

Definition generateSampleConfigJSON (dsp : DataSciencePipelinesApplication) (platformVersion : string) : M string :=
  api ← deref "dsp.Spec.APIServer" (spec_APIServer (dspa_Spec dsp));
  sample ← (if api_EnableSamplePipeline api
            then item ← GenerateSamplePipelineMetadataBlock "iris" platformVersion; mret [item]
            else mret []);
  managed ← (match api_ManagedPipelines api with
             | Some mp => managed_entries (api_EnableSamplePipeline api) platformVersion ∅ (mps_Pipelines mp)
             | None => mret []
             end);
  mret (Marshal (json_map {["pipelines" := JArr (json_string_map <$> sample ++ managed);
                            "loadSamplesOnRestart" := JBool true]})).

Definition ReconcileAPIServer : M unit :=
  dsp ← gets cur;
  api ← deref "dsp.Spec.APIServer" (spec_APIServer (dspa_Spec dsp));
  if negb (api_Deploy api) then mret tt
  else
    params ← prm;
    sampleConfigJSON ← generateSampleConfigJSON dsp (p_PlatformVersion params);
    upd_params (fun p => p <| p_SampleConfigJSON := sampleConfigJSON |>
                           <| p_APIServerConfigHash := config_hash sampleConfigJSON p |>) ;;
    Apply r (owner_of dsp) apiServerServerConfigTemplate [] ;;
    templates ← GetTemplatesInDir (r_TemplatesPath r) apiServerTemplatesDir;
    ApplyAll r (owner_of dsp)
      (List.filter (fun t => negb (bool_decide (t = apiServerServerConfigTemplate))) templates) [] ;;
    (if api_EnableRoute api then Apply r (owner_of dsp) serverRoute []
     else DeleteResourceIfItExists "Route" (NN (dspa_Namespace dsp) ("ds-pipeline-" +:+ dspa_Name dsp))) ;;
    samples ← draw (map_order samplePipelineTemplates);
    iter (fun template => Apply r (owner_of dsp) template []) samples.*2.
End ApiServer.

(** ** The sample configuration lists each managed pipeline once *)

(** an iris that the sample pipeline already provides *)
Definition provided (enableSample : bool) (p : ManagedPipeline) : bool :=
  enableSample && EqualFold (mp_Name p) "iris".

Section ApiServerProofs.
  Context {P : Platform}.

Lemma GenerateSample_quiet pipeline v : silent (GenerateSamplePipelineMetadataBlock pipeline v).
Proof.
  unfold GenerateSamplePipelineMetadataBlock. do 2 (apply silent_bind; [apply silent_GetStringConfig|intros ?]).
  do 3 (apply silent_bind; [apply silent_GetStringConfigWithDefault|intros ?]). apply silent_ret.
Qed.

Lemma sample_entry_run name v (s : St) :
  exists item, managedPipelineSampleEntry name v s = Run (Ret item) s [].
Proof.
  unfold managedPipelineSampleEntry. destruct (GenerateSample_quiet name v s) as (o & Ho & Hp).
  unfold mbind, prog_bind, try. rewrite Ho. destruct o as [item|e|w]; [..|by destruct (Hp w)]; simpl; eauto.
Qed.

(** the names of pipelines, as far as they count *)
Definition keys (ps : list ManagedPipeline) : list string := ToLower ∘ mp_Name <$> ps.

(** the first pipeline whose name, up to case, was [seen] or is that of an earlier one *)
Definition first_duplicate (seen : gset string) (ps : list ManagedPipeline) (p : ManagedPipeline) : Prop :=
  exists before after, ps = before ++ p :: after /\ NoDup (keys before) /\ Forall (fun k => k ∉ seen) (keys before) /\
    (ToLower (mp_Name p) ∈ seen \/ ToLower (mp_Name p) ∈ keys before).

Lemma first_duplicate_cons seen p p' ps : ToLower (mp_Name p) ∉ seen ->
  first_duplicate ({[ToLower (mp_Name p)]} ∪ seen) ps p' -> first_duplicate seen (p :: ps) p'.
Proof.
  intros Hn (before & after & -> & Hd & Hf & Hin). exists (p :: before), after. split; [done|].
  rewrite Forall_forall in Hf. change (keys (p :: before)) with (ToLower (mp_Name p) :: keys before). split_and!.
  - apply NoDup_cons. split; [|done]. intros Hx%Hf. set_solver.
  - apply Forall_cons. split; [done|]. apply Forall_forall. intros k Hk%Hf. set_solver.
  - set_solver.
Qed.

Definition duplicate_error (p : ManagedPipeline) : error :=
  ErrNew ("duplicate managed pipeline name " +:+ fmt_q (mp_Name p)).

Lemma managed_entries_run enable v seen ps (s : St) :
  (NoDup (keys ps) /\ Forall (fun k => k ∉ seen) (keys ps) /\
   exists es, managed_entries enable v seen ps s = Run (Ret es) s [] /\
     Forall2 (fun p e => out (managedPipelineSampleEntry (mp_Name p) v s) = Ret e)
       (List.filter (fun p => negb (provided enable p)) ps) es) \/
  (exists p, first_duplicate seen ps p /\ managed_entries enable v seen ps s = Run (Fail (duplicate_error p)) s []).
Proof.
  revert seen. induction ps as [|p ps IH]; intros seen.
  { left. split_and!; [constructor..|]. exists []. by split. }
  cbn [managed_entries List.filter]. change (keys (p :: ps)) with (ToLower (mp_Name p) :: keys ps).
  destruct (bool_decide (ToLower (mp_Name p) ∈ seen)) eqn:Hin.
  { apply bool_decide_eq_true in Hin. right. exists p. split; [|done].
    exists [], ps. split_and!; [done|constructor..|by left]. }
  apply bool_decide_eq_false in Hin. fold (provided enable p).
  destruct (IH ({[ToLower (mp_Name p)]} ∪ seen)) as [(Hd & Hf & es & Hes & Hall)|(p' & Hp' & He)].
  - left. rewrite Forall_forall in Hf. split_and!.
    + apply NoDup_cons. split; [|done]. intros Hx%Hf. set_solver.
    + apply Forall_cons. split; [done|]. apply Forall_forall. intros k Hk%Hf. set_solver.
    + destruct (provided enable p); cbn [negb]; [by exists es|].
      destruct (sample_entry_run (mp_Name p) v s) as [item Hi]. exists (item :: es). split.
      * eapply (bind_run _ _ _ _ _ []); [exact Hi|]. eapply (bind_run _ _ _ _ _ [] _ _ []); [exact Hes|done].
      * constructor; [by rewrite Hi|done].
  - right. exists p'. split; [by apply first_duplicate_cons|]. destruct (provided enable p); [done|].
    destruct (sample_entry_run (mp_Name p) v s) as [item Hi].
    eapply (bind_run _ _ _ _ _ []); [exact Hi|]. by apply bind_fail.
Qed.

(** the pipelines an API server is asked to manage *)
Definition asked_for (api : APIServer) : list ManagedPipeline := from_option mps_Pipelines [] (api_ManagedPipelines api).

(** the entry of the sample pipeline, if it is enabled *)
Definition iris_entries (api : APIServer) (v : string) (s : St) : outcome (list (gmap string string)) :=
  if api_EnableSamplePipeline api then
    match out (GenerateSamplePipelineMetadataBlock "iris" v s) with
    | Ret item => Ret [item]
    | Fail e => Fail e
    | Panic w => Panic w
    end
  else Ret [].

(** the entry of a managed pipeline: what the configuration says of it, or
    else a minimal one; under the version of the platform either way *)
Definition managed_entry (name v : string) (s : St) (e : gmap string string) : Prop :=
  match out (GenerateSamplePipelineMetadataBlock name v s) with
  | Ret item => e = <["versionName" := v]> item
  | Fail _ => e = {["name" := name; "file" := "/config/managed-pipelines/" +:+ name +:+ ".yaml";
                    "description" := ""; "versionName" := v; "versionDescription" := ""]}
  | Panic _ => False
  end.

Lemma managed_entry_spec name v (s : St) e : out (managedPipelineSampleEntry name v s) = Ret e -> managed_entry name v s e.
Proof.
  unfold managed_entry, managedPipelineSampleEntry. rewrite bind_try. destruct (GenerateSample_quiet name v s) as (o & -> & Ho).
  destruct o as [item|err|w]; [..|by destruct (Ho w)]; cbn; by intros [= <-].
Qed.

Definition sample_config (entries : list (gmap string string)) : string :=
  Marshal (json_map {["pipelines" := JArr (json_string_map <$> entries); "loadSamplesOnRestart" := JBool true]}).

(** Making the configuration: iris first, then the requested pipelines. *)
Lemma generateSampleConfigJSON_run (d : DataSciencePipelinesApplication) v api (s : St) :
  spec_APIServer (dspa_Spec d) = Some api ->
  match iris_entries api v s with
  | Ret iris => generateSampleConfigJSON d v s =
      (managed ← managed_entries (api_EnableSamplePipeline api) v ∅ (asked_for api); mret (sample_config (iris ++ managed))) s
  | Fail e => generateSampleConfigJSON d v s = Run (Fail e) s []
  | Panic _ => False
  end.
Proof.
  intros Hapi. unfold generateSampleConfigJSON, iris_entries, asked_for. rewrite Hapi, bind_some.
  destruct (api_EnableSamplePipeline api).
  - destruct (GenerateSample_quiet "iris" v s) as (o & Ho & Hn). rewrite Ho. cbn [out].
    destruct o as [item|e|w]; [|by do 2 apply bind_fail|by destruct (Hn w)].
    rewrite bind_assoc. transitivity ((mret [item] ≫= fun sample => managed ← managed_entries true v ∅
      (from_option mps_Pipelines [] (api_ManagedPipelines api)); mret (sample_config (sample ++ managed))) s).
    + unfold mbind, prog_bind at 1. rewrite Ho. cbn. by destruct (api_ManagedPipelines api).
    + by rewrite bind_ret.
  - rewrite bind_ret. by destruct (api_ManagedPipelines api).
Qed.

(** C32: The sample configuration of an API server, whatever the request.  With
    the sample pipeline enabled it needs the metadata of iris, without which it
    fails with the error of the look-up.  Then it is made exactly when the
    requested managed pipelines have different names up to case, and lists iris,
    if it is enabled, and then, in the order of the request, one entry per
    pipeline, leaving out an iris that the sample pipeline provides; otherwise
    it fails and names the first pipeline whose name is, up to case, that of an
    earlier one.  Making it calls nothing and changes nothing. *)
Theorem generateSampleConfigJSON_exact (d : DataSciencePipelinesApplication) v api (s : St) :
  spec_APIServer (dspa_Spec d) = Some api ->
  match iris_entries api v s with
  | Fail e => generateSampleConfigJSON d v s = Run (Fail e) s []
  | Panic _ => False
  | Ret iris =>
      (NoDup (keys (asked_for api)) /\
         exists es, generateSampleConfigJSON d v s = Run (Ret (sample_config (iris ++ es))) s [] /\
           Forall2 (fun p e => managed_entry (mp_Name p) v s e)
             (List.filter (fun p => negb (provided (api_EnableSamplePipeline api) p)) (asked_for api)) es) \/
      (exists p, first_duplicate ∅ (asked_for api) p /\
         generateSampleConfigJSON d v s = Run (Fail (duplicate_error p)) s [])
  end.
Proof.
  intros Hapi. pose proof (generateSampleConfigJSON_run d v api s Hapi) as Hrun.
  destruct (iris_entries api v s) as [iris|e|w]; [|done..]. rewrite Hrun.
  destruct (managed_entries_run (api_EnableSamplePipeline api) v ∅ (asked_for api) s) as [(Hd & _ & es & Hes & Hall)|(p & Hp & He)].
  - left. split; [done|]. exists es. split; [by eapply (bind_run _ _ _ _ _ [] _ _ []); [exact Hes|]|].
    eapply Forall2_impl; [exact Hall|]. intros p e. apply managed_entry_spec.
  - right. exists p. split; [done|]. by apply bind_fail.
Qed.

(** ** The order in which the API server is deployed *)

Lemma silent_generate d v : is_Some (spec_APIServer (dspa_Spec d)) -> silent (generateSampleConfigJSON d v).
Proof.
  intros [api Hapi]. unfold generateSampleConfigJSON. rewrite Hapi. apply silent_bind; [apply silent_ret|intros api'].
  apply silent_bind; [|intros sample; apply silent_bind; [|intros; apply silent_ret]].
  - destruct (api_EnableSamplePipeline api'); [|apply silent_ret].
    apply silent_bind; [apply GenerateSample_quiet|intros; apply silent_ret].
  - destruct (api_ManagedPipelines api') as [mp|]; [|apply silent_ret]. intros s.
    destruct (managed_entries_run (api_EnableSamplePipeline api') v ∅ (mps_Pipelines mp) s) as [(_ & _ & es & -> & _)|(p & _ & ->)].
    all: eauto.
Qed.

(** the calls about the route: applied, or deleted if it is there *)
Definition route_call (d : DataSciencePipelinesApplication) (api : APIServer) (e : event) : Prop :=
  if api_EnableRoute api then applies [serverRoute] e
  else let nn := NN (dspa_Namespace d) ("ds-pipeline-" +:+ dspa_Name d) in
       ev_call e = CGet "Route" nn \/ ev_call e = CDelete "Route" nn.

Definition samples : list string := (map_to_list samplePipelineTemplates).*2.

(** the phases after the server configuration *)
Definition api_phases (d : DataSciencePipelinesApplication) (api : APIServer) : list (event -> Prop) :=
  [fun e => applies_dir apiServerTemplatesDir e /\ ev_call e ≠ CApply apiServerServerConfigTemplate;
   route_call d api; applies samples].

Lemma api_templates_emits r o :
  emits (fun e => applies_dir apiServerTemplatesDir e /\ ev_call e ≠ CApply apiServerServerConfigTemplate)
    (templates ← GetTemplatesInDir (r_TemplatesPath r) apiServerTemplatesDir;
     ApplyAll r o (List.filter (fun t => negb (bool_decide (t = apiServerServerConfigTemplate))) templates) []).
Proof.
  apply with_templates_emits; [done|]. intros ts Hts. apply ApplyAll_emits. intros t e Ht He.
  apply list_elem_of_In, filter_In in Ht as [Ht Hn]. apply negb_true_iff, bool_decide_eq_false in Hn. split.
  - eapply applies_in_dir; [|exact He]. rewrite Forall_forall in Hts. by apply Hts, list_elem_of_In.
  - unfold applies in He. destruct (ev_call e); try done. apply list_elem_of_singleton in He as ->.
    by intros [= ->].
Qed.

Lemma api_route_emits r (d : DataSciencePipelinesApplication) api :
  emits (route_call d api)
    (if api_EnableRoute api then Apply r (owner_of d) serverRoute []
     else DeleteResourceIfItExists "Route" (NN (dspa_Namespace d) ("ds-pipeline-" +:+ dspa_Name d))).
Proof.
  unfold route_call. destruct (api_EnableRoute api); [apply Apply_emits|apply DeleteResourceIfItExists_emits].
Qed.

Lemma api_samples_emits r o :
  map_order_ok ->
  emits (applies samples)
    (entries ← draw (map_order samplePipelineTemplates);
     iter (fun template => Apply r o template []) entries.*2).
Proof.
  intros Hord s. unfold mbind, prog_bind, draw. specialize (Hord samplePipelineTemplates (st_world s)).
  destruct (map_order samplePipelineTemplates (st_world s)) as [l w]. cbn in *.
  apply iter_emits_list. intros t Ht. eapply emits_mono; [|apply Apply_emits].
  intros e. apply applies_mono. intros x ->%list_elem_of_singleton. unfold samples. by rewrite <- Hord.
Qed.

(** what follows the server configuration *)
Definition api_after_config r (d : DataSciencePipelinesApplication) (api : APIServer) : M unit :=
  templates ← GetTemplatesInDir (r_TemplatesPath r) apiServerTemplatesDir;
  ApplyAll r (owner_of d)
    (List.filter (fun t => negb (bool_decide (t = apiServerServerConfigTemplate))) templates) [] ;;
  (if api_EnableRoute api then Apply r (owner_of d) serverRoute []
   else DeleteResourceIfItExists "Route" (NN (dspa_Namespace d) ("ds-pipeline-" +:+ dspa_Name d))) ;;
  samples ← draw (map_order samplePipelineTemplates);
  iter (fun template => Apply r (owner_of d) template []) samples.*2.

Lemma api_after_config_phases r d api : map_order_ok -> in_phases (api_phases d api) (api_after_config r d api).
Proof.
  intros Hord. unfold api_after_config, api_phases.
  apply (in_phases_unassoc _ _ (fun ts => ApplyAll r (owner_of d) _ [])).
  apply (in_phases_bind [_]); [apply in_phases_emits, api_templates_emits|intros _].
  apply (in_phases_bind [_]); [apply in_phases_emits, api_route_emits|intros _].
  by apply in_phases_emits, api_samples_emits.
Qed.

Lemma api_after_config_keeps {X} (f : St -> X) r d api : inner f -> keeps f (api_after_config r d api).
Proof.
  intros Hf. unfold api_after_config, GetTemplatesInDir, ApplyAll.
  go_solve; first [by apply keeps_io|by apply keeps_draw|by auto with go].
Qed.

(** A route that is not enabled was looked for and is gone. *)
Definition route_settled (d : DataSciencePipelinesApplication) (api : APIServer) (t : list event) : Prop :=
  let nn := NN (dspa_Namespace d) ("ds-pipeline-" +:+ dspa_Name d) in
  api_EnableRoute api = false ->
  Ev (CGet "Route" nn) false ∈ t \/ (Ev (CGet "Route" nn) true ∈ t /\ Ev (CDelete "Route" nn) true ∈ t).

Definition sample_templates : list string :=
  ["apiserver/sample-pipeline/sample-pipeline.yaml.tmpl"; "apiserver/sample-pipeline/sample-config.yaml.tmpl"].

(** what is applied after the server configuration: the other templates [ts] of
    the directory, the route if it is enabled, the samples in some order [sl] *)
Definition api_plan (api : APIServer) (ts sl : list string) : list string :=
  List.filter (fun t => negb (bool_decide (t = "apiserver/default/server-config.yaml.tmpl"))) ts ++
  (if api_EnableRoute api then ["apiserver/route/route.yaml.tmpl"] else []) ++ sl.

(** What a deployment applied after the server configuration is its plan, in
    order; all of it if it succeeded.  Without the list of the templates it
    applied nothing. *)
Definition followed_up (r : DSPAReconciler) (d : DataSciencePipelinesApplication) (api : APIServer)
    (o : outcome unit) (t : list event) : Prop :=
  exists w sl, sl ≡ₚ sample_templates /\
    match dir_templates (r_TemplatesPath r) "apiserver/default" w with
    | inl ts => applied t `prefix_of` api_plan api ts sl /\
                (o = Ret tt -> applied t = api_plan api ts sl /\ route_settled d api t)
    | inr _ => applied t = [] /\ o ≠ Ret tt
    end.

Lemma not_followed r d api o (w : World) : o ≠ Ret tt -> followed_up r d api o [].
Proof.
  intros Ho. exists w, sample_templates. split; [done|].
  destruct (dir_templates _ _ _); [|done]. split; [apply prefix_nil|done].
Qed.

(** A list of templates and then the samples, in some order, were applied. *)
Definition follows (l : list string) (Q : list event -> Prop) (o : outcome unit) (t : list event) : Prop :=
  exists sl, sl ≡ₚ sample_templates /\ applied t `prefix_of` l ++ sl /\ (o = Ret tt -> applied t = l ++ sl /\ Q t).

Lemma follows_bind l1 l2 (Q1 Q : list event -> Prop) (m : M unit) (k : unit -> M unit) (s : St) :
  plan l1 m -> returns m (fun _ _ t1 => Q1 t1) s ->
  (forall s1, wp (k tt) (fun o _ t2 => follows l2 (fun t2 => forall t1, Q1 t1 -> Q (t1 ++ t2)) o t2) s1) ->
  wp (m ≫= k) (fun o _ t => follows (l1 ++ l2) Q o t) s.
Proof.
  intros Hm HQ Hk. destruct (Hm s) as [Hp Hr]. apply wp_bind. unfold wp at 1.
  destruct (out (m s)) as [[]|e|w] eqn:Ho.
  2-3: exists sample_templates; split_and!; [done|rewrite <- app_assoc; by apply prefix_app_r|done].
  eapply wp_mono; [apply Hk|]. cbn beta. intros o s2 t2 (sl & Hsl & Hp2 & Hr2). exists sl.
  rewrite applied_app, (Hr tt), <- app_assoc by done. split_and!; [done|by apply prefix_app|].
  intros [-> H2]%Hr2. split; [done|]. apply H2. by apply (HQ tt).
Qed.

Lemma samples_eq : (map_to_list samplePipelineTemplates).*2 ≡ₚ sample_templates.
Proof.
  unfold samplePipelineTemplates, sample_templates. rewrite map_to_list_insert by done.
  by rewrite map_to_list_singleton.
Qed.

Lemma samples_follow r o (Q : list event -> Prop) (s : St) :
  map_order_ok -> (forall t, Q t) ->
  wp (entries ← draw (map_order samplePipelineTemplates); iter (fun template => Apply r o template []) entries.*2)
    (fun oc _ t => follows [] Q oc t) s.
Proof.
  intros Hord HQ. unfold wp, mbind, prog_bind, draw. specialize (Hord samplePipelineTemplates (st_world s)).
  destruct (map_order samplePipelineTemplates (st_world s)) as [l w]. cbn [fst out fin evs app] in *.
  exists l.*2. destruct (ApplyAll_plan r o l.*2 [] (s <| st_world := w |>)) as [Hp Hr].
  split_and!; [by rewrite Hord, samples_eq|exact Hp|]. intros Ho. split; [by apply (Hr tt)|done].
Qed.

Lemma route_plan r d api :
  plan (if api_EnableRoute api then [serverRoute] else [])
    (if api_EnableRoute api then Apply r (owner_of d) serverRoute []
     else DeleteResourceIfItExists "Route" (NN (dspa_Namespace d) ("ds-pipeline-" +:+ dspa_Name d))).
Proof.
  destruct (api_EnableRoute api); [apply Apply_plan|]. apply plan_quiet.
  eapply emits_mono; [|apply DeleteResourceIfItExists_emits]. intros e [He|He] x; by rewrite He.
Qed.

Lemma route_returns r d api (s : St) :
  returns (if api_EnableRoute api then Apply r (owner_of d) serverRoute []
           else DeleteResourceIfItExists "Route" (NN (dspa_Namespace d) ("ds-pipeline-" +:+ dspa_Name d)))
    (fun _ _ t => route_settled d api t) s.
Proof.
  unfold route_settled. destruct (api_EnableRoute api); [by intros ? ?|].
  eapply returns_mono; [apply DeleteResourceIfItExists_returns|]. cbn beta. intros _ _ t [->| ->] _; set_solver.
Qed.

Lemma api_after_config_follows r d api (s : St) :
  map_order_ok -> wp (api_after_config r d api) (fun o _ t => followed_up r d api o t) s.
Proof.
  intros Hord. unfold api_after_config, followed_up, api_plan.
  fold apiServerTemplatesDir apiServerServerConfigTemplate serverRoute.
  destruct (GetTemplatesInDir_run (r_TemplatesPath r) apiServerTemplatesDir s) as (w & ok & Hg).
  apply wp_bind. unfold wp at 1. rewrite Hg. cbn [out fin evs].
  destruct (dir_templates _ _ _) as [ts|e] eqn:Hts; [|by exists (st_world s), sample_templates; rewrite Hts].
  eapply wp_mono; [eapply (follows_bind _ (_ ++ []) (fun _ => True) (route_settled d api)); [apply ApplyAll_plan|by intros ? ?|intros s1]|].
  - eapply follows_bind; [apply route_plan|apply route_returns|intros s2]. apply samples_follow; [done|].
    intros t t1 Ht1 t2 _ Hoff. specialize (Ht1 Hoff). set_solver.
  - cbn beta. intros o _ t (sl & Hsl & Hp & Hr). exists (st_world s), sl. rewrite Hts. split; [done|].
    rewrite app_nil_r, <- app_assoc in Hp, Hr. change (applied (Ev (CReadDir _) _ :: t)) with (applied t).
    split; [done|]. intros [Ha Hroute]%Hr. split; [done|]. intros Hoff. specialize (Hroute Hoff). set_solver.
Qed.

(** what the hash of the configuration covers, so that the pods restart when any
    of it changes *)
Definition covered_texts (json : string) (p : DSPAParams) : list string :=
  [json; p_APIServerWorkspaceJSON p; p_APIServerPluginsJson p; p_PlatformVersion p] ++
  match p_APIServer p ≫= api_ManagedPipelines with
  | Some m => [Marshal (json_managed m); Marshal (json_env (p_ManagedPipelineImageEnvVars p))]
  | None => []
  end.

Lemma config_hash_covers json p : config_hash json p = fmt_x (Sum256 (String.concat "" (covered_texts json p))).
Proof.
  unfold config_hash, hash_input, covered_texts. do 2 f_equal.
  destruct (p_APIServer p ≫= api_ManagedPipelines); cbn; by rewrite ?str_app_nil_r.
Qed.

(** C31: Deploying the API server.  Nothing happens for an application that does not
    want it deployed, and the deployment fails before any call when the sample
    configuration cannot be made.  Otherwise the sample configuration is put into
    the parameters, with the hash of everything the server is configured by (the
    sample configuration, workspace, plugins, version of the platform, and the
    managed pipelines with their environment), and the server configuration is
    applied first.  Only once that has succeeded come every other template of the
    directory, in its order and never that one again, then the route, which is
    applied if it is enabled and otherwise looked for and deleted, then both
    samples; whatever fails, what was applied is a prefix of this plan, and a
    deployment that succeeds carried out all of it. *)
Theorem ReconcileAPIServer_order (r : DSPAReconciler) (s : St) :
  map_order_ok ->
  wp (ReconcileAPIServer r) (fun o s' t =>
    match spec_APIServer (dspa_Spec (cur s)) with
    | None => t = [] /\ exists why, o = Panic why
    | Some api =>
        if negb (api_Deploy api) then o = Ret tt /\ s' = s /\ t = [] else
        match out (generateSampleConfigJSON (cur s) (p_PlatformVersion (st_params s)) s) with
        | Ret json =>
            let hash := fmt_x (Sum256 (String.concat "" (covered_texts json (st_params s)))) in
            st_params s' = (st_params s) <| p_SampleConfigJSON := json |> <| p_APIServerConfigHash := hash |> /\
            exists t1 t2, t = t1 ++ t2 /\ Forall (applies ["apiserver/default/server-config.yaml.tmpl"]) t1 /\
              phased (api_phases (cur s) api) t2 /\ followed_up r (cur s) api o t2 /\
              (t2 ≠ [] \/ o = Ret tt -> Ev (CApply "apiserver/default/server-config.yaml.tmpl") true ∈ t1)
        | _ => t = [] /\ s' = s /\ exists e, o = Fail e
        end
    end) s.
Proof.
  intros Hord. unfold ReconcileAPIServer, prm. apply wp_get.
  destruct (spec_APIServer (dspa_Spec (cur s))) as [api|] eqn:Hapi; [|unfold wp; simpl; eauto].
  apply wp_ret_bind. destruct (api_Deploy api); cbn [negb]; [|by apply wp_ret]. apply wp_get.
  destruct (silent_generate (cur s) (p_PlatformVersion (st_params s)) ltac:(by rewrite Hapi) s) as (o & Ho & Hn).
  rewrite Ho. cbn [out]. destruct o as [json|e|w]; [..|by destruct (Hn w)].
  2: { unfold wp. erewrite bind_fail by done. simpl. eauto. }
  eapply wp_step; [exact Ho|]. cbn [app]. unfold upd_params. apply wp_modify.
  match goal with |- wp _ _ ?s' => set (s1 := s') end. fold (api_after_config r (cur s) api).
  rewrite <- config_hash_covers. apply wp_bind. unfold wp at 1.
  pose proof (Apply_keeps st_params r (owner_of (cur s)) apiServerServerConfigTemplate [] inner_params s1) as Hk.
  pose proof (Apply_emits r (owner_of (cur s)) apiServerServerConfigTemplate [] s1) as He.
  pose proof (Apply_ok r (owner_of (cur s)) apiServerServerConfigTemplate [] s1) as Hok.
  set (m := Apply _ _ _ _) in *. destruct (out (m s1)) as [[]|e|p] eqn:Hm.
  { split; [by rewrite api_after_config_keeps, Hk|]. eexists _, _. split_and!;
      [reflexivity|done|by apply api_after_config_phases|by apply api_after_config_follows|]. intros _. by apply (Hok tt). }
  all: split; [by rewrite Hk|]; exists (evs (m s1)), []; rewrite app_nil_r;
    (split_and!; [done..|apply phased_nil|by apply (not_followed _ _ _ _ (st_world s))|by intros [|]]).
Qed.
End ApiServerProofs.

(** ** Examples *)

#[local] Existing Instance sim_platform.

Definition sample_api_reconciler : DSPAReconciler := MkDSPAReconciler sim_root 10 ∅ None [] true 0.

Lemma ReconcileAPIServer_order_witness :
  map_order_ok (P := sim_platform) /\
  out (ReconcileAPIServer sample_api_reconciler (sim_state sim_cluster sim_full_dspa)) = Ret tt /\
  exists t1 t2, evs (ReconcileAPIServer sample_api_reconciler (sim_state sim_cluster sim_full_dspa)) = t1 ++ t2 /\
    Ev (CApply apiServerServerConfigTemplate) true ∈ t1.
Proof.
  assert (map_order_ok (P := sim_platform)) as Hord by (intros m w; reflexivity).
  split; [exact Hord|].
  pose proof (ReconcileAPIServer_order sample_api_reconciler (sim_state sim_cluster sim_full_dspa) Hord) as H.
  assert (out (ReconcileAPIServer sample_api_reconciler (sim_state sim_cluster sim_full_dspa)) = Ret tt) as Ho
    by (vm_compute; reflexivity).
  split; [exact Ho|]. destruct H as (_ & t1 & t2 & Ht & _ & _ & Hc). exists t1, t2.
  split; [exact Ht|]. apply Hc. right. exact Ho.
Defined.

(** the application, asking for the pipelines of these names *)
Definition asking (names : list string) : DataSciencePipelinesApplication :=
  sim_full_dspa <| dspa_Spec := (dspa_Spec sim_full_dspa) <| spec_APIServer :=
    Some (sim_apiserver <| api_ManagedPipelines := Some (MkManagedPipelinesSpec "quay.io/pipelines"
            (MkManagedPipeline <$> names) None "") |>) |> |>.

Definition minimal_entry (name : string) : gmap string string :=
  {["name" := name; "file" := "/config/managed-pipelines/" +:+ name +:+ ".yaml";
    "description" := ""; "versionName" := "v1.0.0"; "versionDescription" := ""]}.

Lemma generateSampleConfigJSON_exact_witness :
  (exists es, generateSampleConfigJSON (asking ["train"; "test"]) "v1.0.0" (sim_state sim_cluster sim_full_dspa)
     = Run (Ret (sample_config es)) (sim_state sim_cluster sim_full_dspa) [] /\
     es = [minimal_entry "train"; minimal_entry "test"]) /\
  (exists p, generateSampleConfigJSON (asking ["train"; "test"; "Train"]) "v1.0.0" (sim_state sim_cluster sim_full_dspa)
     = Run (Fail (duplicate_error p)) (sim_state sim_cluster sim_full_dspa) []).
Proof.
  split.
  - pose proof (generateSampleConfigJSON_exact (asking ["train"; "test"]) "v1.0.0" _
      (sim_state sim_cluster sim_full_dspa) eq_refl) as [(_ & es & Hr & He)|(p & _ & Hr)].
    + exists es. split; [exact Hr|]. cbn in He. inversion He as [|p1 e1 ps1 es1 H1 He1]; subst.
      inversion He1 as [|p2 e2 ps2 es2 H2 He2]; subst. inversion He2; subst.
      f_equal; [exact H1|f_equal; exact H2].
    + exfalso. apply (f_equal (fun r => match out r with Ret _ => true | _ => false end)) in Hr.
      vm_compute in Hr. discriminate Hr.
  - pose proof (generateSampleConfigJSON_exact (asking ["train"; "test"; "Train"]) "v1.0.0" _
      (sim_state sim_cluster sim_full_dspa) eq_refl) as [(Hd & _)|(p & _ & Hr)].
    + exfalso. apply (bool_decide_eq_true_2 (NoDup _)) in Hd. vm_compute in Hd. discriminate Hd.
    + exists p. exact Hr.
Defined.
