(* ===== verification/JsonRoundtrip.v ===== *)
(** * Printing and reading JSON

    [encoding/json] prints a tree as a text from which it reads the same tree
    back, ill-formed UTF-8 replaced.  The proof goes through the grammar: the
    text of a tree is in the grammar of the tree.  What the operator writes for
    the API server to read, the sample configuration, says what it is meant to. *)

From stdpp Require Import base gmap strings list sorting.
From Stdlib Require Import ZArith Lia Ascii.
From S2P Require Import Prelude GoStd GoJson GoCodec KubeTypes ApiTypes Data Platform Config Util Sim.
From S2P Require Import Reconciler ManagedPipelines Grammar Params Extract Manifests ApiServer.

(** ** Runes *)

Definition multi (t : string) : Prop :=
  (exists a b, t = String a (String b "") /\ (code a <? 128)%N = false /\ utf8_2 a b = true) \/
  (exists a b c, t = String a (String b (String c "")) /\ (code a <? 128)%N = false /\ utf8_2 a b = false /\
     utf8_3 a b c = true) \/
  (exists a b c d, t = String a (String b (String c (String d ""))) /\ (code a <? 128)%N = false /\
     utf8_2 a b = false /\ utf8_3 a b c = false /\ utf8_4 a b c d = true).

Definition rune_ok (r : rune) : Prop :=
  match r with RAscii a => (code a <? 128)%N = true | RMulti t => multi t | RBad => True end.

(** the bytes a rune is read as *)
Definition rune_bytes (r : rune) : string :=
  match r with RAscii a => String a "" | RMulti t => t | RBad => replacement end.

Lemma sanitize_runes s : sanitize s = concat_str (rune_bytes <$> runes s).
Proof. done. Qed.

Lemma runes_ok s : Forall rune_ok (runes s).
Proof.
  induction (Nat.lt_wf_0_projected String.length s) as [s _ IH].
  destruct s as [|a s1]; [constructor|]. cbn [runes].
  destruct (code a <? 128)%N eqn:Ha; [constructor; [done|apply IH; cbn; lia]|].
  destruct s1 as [|b s2]; [by repeat constructor|].
  destruct (utf8_2 a b) eqn:H2; [constructor; [left; by exists a, b|apply IH; cbn; lia]|].
  destruct s2 as [|c s3]; [constructor; [done|apply IH; cbn; lia]|].
  destruct (utf8_3 a b c) eqn:H3; [constructor; [right; left; by exists a, b, c|apply IH; cbn; lia]|].
  destruct s3 as [|d s4]; [constructor; [done|apply IH; cbn; lia]|].
  destruct (utf8_4 a b c d) eqn:H4; constructor; try done; try (apply IH; cbn; lia).
  right; right. by exists a, b, c, d.
Qed.

Lemma app_cons a s u : String a s +:+ u = String a (s +:+ u).
Proof. done. Qed.
Lemma app_nil u : "" +:+ u = u.
Proof. done. Qed.

Lemma runes_multi t u : multi t -> runes (t +:+ u) = RMulti t :: runes u.
Proof.
  intros [(a & b & -> & Ha & H2)|[(a & b & c & -> & Ha & H2 & H3)|(a & b & c & d & -> & Ha & H2 & H3 & H4)]];
    rewrite !app_cons, app_nil; cbn [runes]; by rewrite Ha, H2, ?H3, ?H4.
Qed.

Lemma sanitize_multi t u : multi t -> sanitize (t +:+ u) = t +:+ sanitize u.
Proof. intros Ht. by rewrite !sanitize_runes, runes_multi. Qed.

Lemma sanitize_ascii a u : (code a <? 128)%N = true -> sanitize (String a u) = String a (sanitize u).
Proof. intros Ha. rewrite !sanitize_runes. cbn [runes]. by rewrite Ha. Qed.

Lemma sanitize_all_ascii t u :
  Forall (fun a => (code a <? 128)%N = true) (String.list_ascii_of_string t) -> sanitize (t +:+ u) = t +:+ sanitize u.
Proof.
  induction t as [|a t IH]; cbn; intros H; [done|]. rewrite !app_cons. apply Forall_cons in H as [Ha Ht].
  rewrite sanitize_ascii by done. f_equal. by apply IH.
Qed.

(** a multi-byte sequence has no byte that scanning looks at *)
Lemma multi_high t : multi t -> Forall (fun a => (128 <= code a)%N) (String.list_ascii_of_string t).
Proof.
  assert (forall lo hi a, in_range lo hi a = true -> (lo <= code a <= hi)%N) as Hr.
  { intros lo hi a H. unfold in_range in H. apply andb_true_iff in H as [?%N.leb_le ?%N.leb_le]. done. }
  assert (forall a, cont a = true -> (128 <= code a)%N) as Hc by (intros a H; apply Hr in H; lia).
  intros [(a & b & -> & Ha & H2)|[(a & b & c & -> & Ha & _ & H3)|(a & b & c & d & -> & Ha & _ & _ & H4)]];
    apply N.ltb_ge in Ha; cbn.
  - unfold utf8_2 in H2. apply andb_true_iff in H2 as [_ Hb%Hc]. by repeat constructor.
  - unfold utf8_3 in H3. apply andb_true_iff in H3 as [Hcc%Hc Hb].
    assert (128 <= code b)%N by (repeat case_match; [apply Hr in Hb; lia|apply Hr in Hb; lia|apply andb_true_iff in Hb as [_ Hb]; by apply Hc]).
    by repeat constructor.
  - unfold utf8_4 in H4. apply andb_true_iff in H4 as [[Hcc%Hc Hd%Hc]%andb_true_iff Hb].
    assert (128 <= code b)%N by (repeat case_match; [apply Hr in Hb; lia|apply Hr in Hb; lia|apply andb_true_iff in Hb as [_ Hb]; by apply Hc]).
    by repeat constructor.
Qed.

(** ** Hexadecimal escapes *)

Lemma small_cases (k : nat) (Q : N -> bool) :
  forallb (fun i => Q (N.of_nat i)) (seq 0 k) = true -> forall n, (n < N.of_nat k)%N -> Q n = true.
Proof.
  intros H n Hn. rewrite forallb_forall in H. specialize (H (N.to_nat n)).
  rewrite N2Nat.id in H. apply H, in_seq. lia.
Qed.

Lemma hexval_digit n : (n < 16)%N -> hexval (hexdigit n) = Some n.
Proof.
  intros Hn. apply (bool_decide_eq_true_1 (hexval (hexdigit n) = Some n)). revert n Hn.
  apply (small_cases 16 (fun n => bool_decide (hexval (hexdigit n) = Some n))). by vm_compute.
Qed.

Lemma is_hex_digit n : is_hex (hexdigit (n mod 16)) = true.
Proof. unfold is_hex. rewrite hexval_digit by (apply N.mod_lt; lia). by rewrite bool_decide_eq_true_2. Qed.

Lemma hex4_val_digits n : (n < 65536)%N ->
  hex4_val (hexdigit (n / 4096 mod 16)) (hexdigit (n / 256 mod 16)) (hexdigit (n / 16 mod 16)) (hexdigit (n mod 16)) = Some n.
Proof.
  intros Hn. unfold hex4_val. rewrite !hexval_digit by (apply N.mod_lt; lia). cbn. f_equal.
  rewrite (N.mod_small (n / 4096)) by (apply N.Div0.div_lt_upper_bound; lia).
  assert (forall m, m / 16 * 16 + m mod 16 = m)%N as H by (intros m; pose proof (N.div_mod m 16); lia).
  assert (n / 4096 = n / 256 / 16)%N as -> by (by rewrite N.Div0.div_div). rewrite (H (n / 256)%N).
  assert (n / 256 = n / 16 / 16)%N as -> by (by rewrite N.Div0.div_div). by rewrite (H (n / 16)%N), H.
Qed.

(** ** What an escaped rune is scanned and read as *)

Definition prepend (t : string) (r : string * string) : string * string := (t +:+ r.1, r.2).

Lemma scan_plain a u : a ≠ dquote -> (32 <= code a)%N -> a ≠ backslash ->
  scan_str (String a u) = prepend (String a "") <$> scan_str u.
Proof.
  intros H1 H2 H3. cbn [scan_str]. rewrite (bool_decide_eq_false_2 (a = dquote)) by done.
  apply N.ltb_ge in H2 as ->. by rewrite (bool_decide_eq_false_2 (a = backslash)).
Qed.

Lemma scan_simple b u :
  b ∈ [dquote; backslash; slash; byte 98; byte 102; byte 110; byte 114; byte 116] ->
  scan_str (String backslash (String b u)) = prepend (String backslash (String b "")) <$> scan_str u.
Proof. intros Hb. cbn [scan_str]. by rewrite (bool_decide_eq_true_2 (b ∈ _)). Qed.

Lemma esc_u_app n u : esc_u n +:+ u =
  String backslash (String (byte 117) (String (hexdigit (n / 4096 mod 16)) (String (hexdigit (n / 256 mod 16))
    (String (hexdigit (n / 16 mod 16)) (String (hexdigit (n mod 16)) u))))).
Proof. done. Qed.

Lemma scan_esc_u n u : scan_str (esc_u n +:+ u) = prepend (esc_u n) <$> scan_str u.
Proof.
  rewrite esc_u_app. cbn [scan_str].
  rewrite (bool_decide_eq_false_2 (backslash = dquote)) by done.
  change (code backslash <? 32)%N with false. cbv iota.
  rewrite (bool_decide_eq_true_2 (backslash = backslash)) by done.
  rewrite (bool_decide_eq_false_2 (_ ∈ _)) by (vm_compute; set_solver).
  rewrite (bool_decide_eq_true_2 (_ = byte 117)) by done. rewrite !is_hex_digit. cbn [andb].
  by destruct (scan_str u).
Qed.

Lemma scan_high t u : Forall (fun a => (128 <= code a)%N) (String.list_ascii_of_string t) ->
  scan_str (t +:+ u) = prepend t <$> scan_str u.
Proof.
  induction t as [|a t IH]; cbn; intros H; [rewrite app_nil; by destruct (scan_str u) as [[]|]|].
  apply Forall_cons in H as [Ha Ht]. rewrite app_cons, scan_plain, IH by (done || (by intros ->) || lia).
  by destruct (scan_str u) as [[]|].
Qed.

Lemma unescape_plain a u : a ≠ backslash -> unescape (String a u) = String a (unescape u).
Proof. intros Ha. cbn [unescape]. by rewrite bool_decide_eq_false_2. Qed.

Lemma unescape_high t u : Forall (fun a => (128 <= code a)%N) (String.list_ascii_of_string t) ->
  unescape (t +:+ u) = t +:+ unescape u.
Proof.
  induction t as [|a t IH]; cbn; intros H; [done|]. apply Forall_cons in H as [Ha Ht].
  rewrite !app_cons, unescape_plain, IH by (done || by intros ->). done.
Qed.

Lemma unescape_simple b u : b ≠ byte 117 ->
  unescape (String backslash (String b u)) = String (simple_escape b) (unescape u).
Proof. intros Hb. cbn [unescape]. by rewrite (bool_decide_eq_false_2 (b = _)). Qed.

Lemma unescape_esc_u n u : (n < 65536)%N -> is_surrogate n = false ->
  unescape (esc_u n +:+ u) = utf8_encode n +:+ unescape u.
Proof.
  intros Hn Hs. rewrite esc_u_app. cbn [unescape].
  rewrite (bool_decide_eq_true_2 (backslash = backslash)) by done.
  rewrite (bool_decide_eq_true_2 (_ = byte 117)) by done. rewrite hex4_val_digits by done. change (default 0%N (Some n)) with n. cbv zeta. by rewrite Hs.
Qed.

(** ** Escaping is undone *)

Lemma code_byte_eq (a : ascii) n : code a = n -> a = byte n.
Proof. intros <-. symmetry. apply byte_code. Qed.

(** an ASCII byte is escaped by a letter, by its number, or not at all *)
Inductive escaped (a : ascii) : string -> Prop :=
  | EscLetter b : b ∈ [dquote; backslash; slash; byte 98; byte 102; byte 110; byte 114; byte 116] ->
      simple_escape b = a -> escaped a (String backslash (String b ""))
  | EscNumber : escaped a (esc_u (code a))
  | EscNone : a ≠ dquote -> (32 <= code a)%N -> a ≠ backslash -> escaped a (String a "").

Lemma esc_ascii_cases a : escaped a (esc_ascii a).
Proof.
  unfold esc_ascii. cbv zeta.
  repeat match goal with
  | |- escaped _ (if (code a =? ?k)%N then _ else _) =>
      destruct (N.eqb_spec (code a) k) as [Heq|?];
        [apply code_byte_eq in Heq as ->; eapply EscLetter; [refine (bool_decide_unpack _ _); by vm_compute|reflexivity]|]
  end.
  match goal with |- escaped _ (if ?b then _ else _) => destruct b eqn:Hb end; [apply EscNumber|].
  rewrite !orb_false_iff in Hb. destruct Hb as [[[Hb%N.ltb_ge _] _] _]. apply EscNone; [by intros ->|done|by intros ->].
Qed.

Lemma ascii_not_surrogate a : (code a <? 128)%N = true -> is_surrogate (code a) = false /\ utf8_encode (code a) = String a "".
Proof.
  intros Ha. split.
  - unfold is_surrogate. apply N.ltb_lt in Ha. destruct (N.leb_spec 55296 (code a)); [lia|done].
  - unfold utf8_encode. rewrite Ha. unfold bytes. cbn. by rewrite byte_code.
Qed.

Lemma scan_rune r u : rune_ok r -> scan_str (esc_rune r +:+ u) = prepend (esc_rune r) <$> scan_str u.
Proof.
  destruct r as [a|t|]; cbn [esc_rune rune_ok]; intros Hr.
  - destruct (esc_ascii_cases a) as [b Hb _| |H1 H2 H3].
    + rewrite !app_cons, app_nil. by apply scan_simple.
    + apply scan_esc_u.
    + rewrite app_cons, app_nil. by apply scan_plain.
  - unfold esc_multi. case_bool_decide; [apply scan_esc_u|]. case_bool_decide; [apply scan_esc_u|].
    by apply scan_high, multi_high.
  - apply scan_esc_u.
Qed.

Lemma unescape_rune r u : rune_ok r -> unescape (esc_rune r +:+ u) = rune_bytes r +:+ unescape u.
Proof.
  destruct r as [a|t|]; cbn [esc_rune rune_ok rune_bytes]; intros Hr.
  - destruct (esc_ascii_cases a) as [b Hb <-| |H1 H2 H3].
    + rewrite !app_cons, !app_nil. apply unescape_simple. intros ->. vm_compute in Hb. set_solver.
    + destruct (ascii_not_surrogate a Hr) as [Hs He]. apply N.ltb_lt in Hr.
      by rewrite unescape_esc_u, He by (done || lia).
    + rewrite !app_cons, !app_nil. by apply unescape_plain.
  - unfold esc_multi. case_bool_decide; [subst t; by rewrite unescape_esc_u by done|].
    case_bool_decide; [subst t; by rewrite unescape_esc_u by done|]. by apply unescape_high, multi_high.
  - by rewrite unescape_esc_u by done.
Qed.

Lemma esc_u_ascii n : Forall (fun a => (code a <? 128)%N = true) (String.list_ascii_of_string (esc_u n)).
Proof.
  assert (forall m, (code (hexdigit (m mod 16)) <? 128)%N = true) as Hd.
  { intros m. apply (small_cases 16 (fun d => code (hexdigit d) <? 128)%N); [by vm_compute|]. apply N.mod_lt. lia. }
  cbn. by repeat constructor.
Qed.

Lemma sanitize_rune r u : rune_ok r -> sanitize (esc_rune r +:+ u) = esc_rune r +:+ sanitize u.
Proof.
  destruct r as [a|t|]; cbn [esc_rune rune_ok]; intros Hr; [|unfold esc_multi; repeat case_bool_decide|].
  - apply sanitize_all_ascii. destruct (esc_ascii_cases a) as [b Hb _| |_ _ _]; [|apply esc_u_ascii|by repeat constructor].
    cbn. constructor; [done|]. constructor; [|constructor].
    revert b Hb. refine (proj1 (Forall_forall _ _) _). by repeat constructor.
  - apply sanitize_all_ascii, esc_u_ascii.
  - apply sanitize_all_ascii, esc_u_ascii.
  - by apply sanitize_multi.
  - apply sanitize_all_ascii, esc_u_ascii.
Qed.

Lemma concat_str_cons a l : concat_str (a :: l) = a +:+ concat_str l.
Proof. done. Qed.

Lemma scan_esc s u : scan_str (esc s +:+ String dquote u) = Some (esc s, u).
Proof.
  unfold esc. pose proof (runes_ok s) as Hok. induction Hok as [|r rs Hr _ IH]; [done|].
  rewrite fmap_cons, concat_str_cons, <- str_app_assoc, scan_rune, IH by done. done.
Qed.

(** what is read is what was printed, ill-formed bytes replaced *)
Lemma unquote_esc s : unquote (esc s) = sanitize s.
Proof.
  unfold unquote. assert (sanitize (esc s) = esc s) as ->.
  { unfold esc. pose proof (runes_ok s) as Hok. induction Hok as [|r rs Hr _ IH]; [done|].
    by rewrite fmap_cons, concat_str_cons, sanitize_rune, IH by done. }
  rewrite (sanitize_runes s). unfold esc. pose proof (runes_ok s) as Hok. induction Hok as [|r rs Hr _ IH]; [done|].
  by rewrite !fmap_cons, !concat_str_cons, unescape_rune, IH by done.
Qed.

(** ** The text of a tree *)

(** what may follow a value *)
Definition terminator (u : string) : Prop :=
  u = "" \/ exists a u', u = String a u' /\ a ∈ [comma; bracket_close; brace_close].

(** a literal that is scanned as a whole, whatever value it is in *)
Definition number_ok (n : string) : Prop := forall u, terminator u -> scan_num (n +:+ u) = Some (n, u).

(** numbers are literals, and at most [d] arrays and objects are open at a time *)
Inductive tree_ok : nat -> json -> Prop :=
  | OkNull d : tree_ok d JNull
  | OkBool d b : tree_ok d (JBool b)
  | OkNum d n : number_ok n -> tree_ok d (JNum n)
  | OkStr d s : tree_ok d (JStr s)
  | OkArr d l : Forall (tree_ok d) l -> tree_ok (S d) (JArr l)
  | OkObj d m : Forall (fun kv => tree_ok d kv.2) m -> tree_ok (S d) (JObj m).

(** the tree that is read back *)
Fixpoint clean (j : json) : json :=
  match j with
  | JStr s => JStr (sanitize s)
  | JArr l => JArr (map clean l)
  | JObj m => JObj (map (fun kv => (sanitize kv.1, clean kv.2)) m)
  | _ => j
  end.

Lemma skip_prefix_app p u : skip_prefix p (p +:+ u) = Some u.
Proof.
  unfold skip_prefix. rewrite str_length_app, Nat.add_comm, Nat.add_sub.
  assert (String.prefix p (p +:+ u) = true) as ->.
  { induction p as [|a p IH]; [by destruct u|]. rewrite app_cons. cbn [String.prefix]. by destruct (ascii_dec a a). }
  f_equal. induction p as [|a p IH]; [|exact IH].
  rewrite app_nil. induction u as [|b u IH]; [done|]. cbn. by f_equal.
Qed.

Lemma skip_ws_head a u : is_ws a = false -> skip_ws (String a u) = String a u.
Proof. intros Ha. cbn [skip_ws]. by rewrite Ha. Qed.

Lemma number_head_ws a : number_head a = true -> is_ws a = false.
Proof.
  unfold number_head, is_ws, in_range. intros [->%bool_decide_eq_true|[H%N.leb_le _]%andb_true_iff]%orb_true_iff; [done|].
  by rewrite !(proj2 (N.eqb_neq _ _)) by lia.
Qed.

Lemma marshal_head d j : tree_ok d j -> exists a t, Marshal j = String a t /\ is_ws a = false.
Proof.
  intros []; cbn [Marshal]; try (by eexists _, _).
  - destruct b; by eexists _, _.
  - destruct (scan_num_head (n +:+ "") n "") as (a & t & Ht & Ha); [by apply H; left|].
    rewrite str_app_nil_r in Ht. exists a, t. split; [done|by apply number_head_ws].
Qed.

Lemma skip_ws_marshal d j u : tree_ok d j -> skip_ws (Marshal j +:+ u) = Marshal j +:+ u.
Proof. intros (a & t & -> & Ha)%marshal_head. rewrite app_cons. by apply skip_ws_head. Qed.

Lemma join_cons2 sep x y l : Join sep (x :: y :: l) = x +:+ sep +:+ Join sep (y :: l).
Proof. done. Qed.

(** the elements of an array and the members of an object, given their values *)
Section Nested.
  Context (d : nat).
  Hypothesis values : forall j u, tree_ok d j -> terminator u -> value_text d (Marshal j +:+ u) (clean j) u.

Lemma terminator_comma u : terminator (String comma u).
Proof. right. exists comma, u. split; [done|left]. Qed.
Lemma terminator_bracket u : terminator (String bracket_close u).
Proof. right. exists bracket_close, u. split; [done|right; left]. Qed.
Lemma terminator_brace u : terminator (String brace_close u).
Proof. right. exists brace_close, u. split; [done|right; right; left]. Qed.

Lemma elems_marshal j l u : Forall (tree_ok d) (j :: l) ->
  elems_text d (Join "," (map Marshal (j :: l)) +:+ String bracket_close u) (map clean (j :: l)) u.
Proof.
  revert j. induction l as [|k l IH]; intros j [Hj Hl]%Forall_cons.
  - apply (TLast d _ _ (String bracket_close u)); [|done]. apply values; [done|apply terminator_bracket].
  - cbn [map]. rewrite join_cons2, <- str_app_assoc.
    apply (TNext d _ _ (String comma (Join "," (map Marshal (k :: l)) +:+ String bracket_close u)) (Join "," (map Marshal (k :: l)) +:+ String bracket_close u)).
    + apply values; [done|apply terminator_comma].
    + done.
    + by apply IH.
Qed.

Definition member_text (kv : string * json) : string := quote_json kv.1 +:+ ":" +:+ Marshal kv.2.
Definition clean_member (kv : string * json) : string * json := (sanitize kv.1, clean kv.2).

Lemma member_marshal kv u :
  exists s1, skip_ws (member_text kv +:+ u) = String dquote s1 /\
    scan_str s1 = Some (esc kv.1, String colon (Marshal kv.2 +:+ u)).
Proof.
  exists (esc kv.1 +:+ String dquote (String colon (Marshal kv.2 +:+ u))). split; [|apply scan_esc].
  unfold member_text, quote_json. rewrite <- !str_app_assoc, !app_cons, skip_ws_head by done.
  by rewrite <- !str_app_assoc.
Qed.

Lemma members_marshal kv m u : Forall (fun kv => tree_ok d kv.2) (kv :: m) ->
  members_text d (Join "," (map member_text (kv :: m)) +:+ String brace_close u) (map clean_member (kv :: m)) u.
Proof.
  revert kv. induction m as [|kv' m IH]; intros kv [Hj Hl]%Forall_cons.
  - cbn [map]. destruct (member_marshal kv (String brace_close u)) as (s1 & H1 & H2).
    unfold clean_member. rewrite <- unquote_esc. eapply TLastM; [exact H1|exact H2|done|apply values; [done|apply terminator_brace]|done].
  - cbn [map]. rewrite join_cons2, <- str_app_assoc.
    destruct (member_marshal kv (String comma (Join "," (map member_text (kv' :: m)) +:+ String brace_close u))) as (s1 & H1 & H2).
    unfold clean_member at 1. rewrite <- unquote_esc. eapply TNextM; [exact H1|exact H2|done|apply values; [done|apply terminator_comma]|done|by apply IH].
Qed.
End Nested.

Lemma marshal_text d j u : tree_ok d j -> terminator u -> value_text d (Marshal j +:+ u) (clean j) u.
Proof.
  revert j u. induction d as [|d IH]; intros j u Hj Hu.
  all: pose proof (skip_ws_marshal _ j u Hj) as Hws; inversion Hj; subst; cbn [Marshal clean] in *.
  all: try (apply TNull; rewrite Hws; apply skip_prefix_app).
  all: try (destruct b; [apply TTrue|apply TFalse]; rewrite Hws; apply skip_prefix_app).
  all: try (apply TNum; rewrite Hws; by match goal with H : number_ok _ |- _ => apply H end).
  all: try (rewrite <- unquote_esc; unfold quote_json in *; rewrite app_cons, <- str_app_assoc in *;
            eapply TStr; [exact Hws|apply scan_esc]).
  - destruct l as [|k l]; [by apply (TArr0 d _ (String bracket_close u))|].
    eapply (TArr d); [exact Hws|]. rewrite <- str_app_assoc. by apply elems_marshal.
  - destruct m as [|kv m]; [by apply (TObj0 d _ (String brace_close u))|].
    eapply (TObj d); [exact Hws|]. rewrite <- str_app_assoc. by apply members_marshal.
Qed.

(** [json.Unmarshal] reads what [json.Marshal] wrote. *)
Lemma parse_json_marshal j : tree_ok maxNestingDepth j -> parse_json (Marshal j) = Some (clean j).
Proof.
  intros Hj. apply parse_json_document. exists "". split; [|done].
  rewrite <- (str_app_nil_r (Marshal j)). apply marshal_text; [done|by left].
Qed.

(** ** The sample configuration of the API server *)

Lemma depth_three : exists d, maxNestingDepth = S (S (S d)).
Proof. exists (maxNestingDepth - 3)%nat. unfold maxNestingDepth. lia. Qed.

Lemma string_map_ok d (m : gmap string string) : tree_ok (S d) (json_string_map m).
Proof.
  apply OkObj, Forall_forall. intros [k x] Hkv. apply elem_of_sorted_entries in Hkv. cbn [snd].
  rewrite lookup_fmap_Some in Hkv. destruct Hkv as (v & <- & _). apply OkStr.
Qed.

Definition sample_config (entries : list (gmap string string)) : json :=
  json_map {["pipelines" := JArr (json_string_map <$> entries); "loadSamplesOnRestart" := JBool true]}.

Lemma sample_config_members (x : json) :
  json_map {["pipelines" := x; "loadSamplesOnRestart" := JBool true]} =
  JObj [("loadSamplesOnRestart", JBool true); ("pipelines", x)].
Proof. reflexivity. Qed.

Lemma sample_config_ok entries : tree_ok maxNestingDepth (sample_config entries).
Proof.
  destruct depth_three as [d ->]. unfold sample_config. rewrite sample_config_members.
  apply OkObj. apply Forall_cons; split; [apply OkBool|]. apply Forall_cons; split; [|constructor]. cbn [snd].
  apply OkArr, Forall_forall. intros j (e & -> & _)%list_elem_of_fmap. apply string_map_ok.
Qed.

Section SampleConfig.
  Context {P : Platform}.

(** the entry of the iris sample, when the resource asks for it *)
Definition iris_entries (api : APIServer) (v : string) (s : St) (iris : list (gmap string string)) : Prop :=
  if api_EnableSamplePipeline api
  then exists item, iris = [item] /\ out (GenerateSamplePipelineMetadataBlock "iris" v s) = Ret item
  else iris = [].

(** the managed pipelines with an entry of their own, in the order of the
    resource: the iris sample is not written twice *)
Definition managed_of (api : APIServer) : list ManagedPipeline :=
  match api_ManagedPipelines api with
  | Some mp => List.filter (fun p => negb (provided (api_EnableSamplePipeline api) p)) (mps_Pipelines mp)
  | None => []
  end.

(** a run that stays in its state, of which the result is known *)
Definition gives {A} (m : M A) (s : St) (a : A) : Prop := m s = Run (Ret a) s [].

Lemma gives_bind {A B} (m : M A) (k : A -> M B) (s : St) b :
  (forall a, out (m s) = Ret a -> gives m s a) -> out ((m ≫= k) s) = Ret b ->
  exists a, gives m s a /\ out (k a s) = Ret b.
Proof.
  intros Hm. unfold mbind, prog_bind. destruct (out (m s)) as [a|e|w] eqn:Ha; [|done..].
  specialize (Hm a eq_refl). unfold gives in *. rewrite Hm. cbn. eauto.
Qed.

Lemma silent_gives {A} (m : M A) (s : St) a : silent m -> out (m s) = Ret a -> gives m s a.
Proof. intros Hm Ha. destruct (Hm s) as (o & Ho & _). unfold gives. rewrite Ho in *. by simplify_eq/=. Qed.

Lemma managed_gives enable v ps (s : St) es :
  out (managed_entries enable v ∅ ps s) = Ret es ->
  gives (managed_entries enable v ∅ ps) s es /\
  Forall2 (fun p e => out (managedPipelineSampleEntry (mp_Name p) v s) = Ret e)
    (List.filter (fun p => negb (provided enable p)) ps) es.
Proof.
  intros H. unfold gives. destruct (managed_entries_run enable v ∅ ps s) as [(_ & _ & es' & He & Hf)|(p & _ & He)].
  all: rewrite He in *; by simplify_eq/=.
Qed.

(** C19: round trip of the sample configuration.  Whatever names and texts the
    resource and the configuration hold, the JSON document the operator writes
    for the API server is one that [json.Unmarshal] accepts, and what it reads
    back is the flag that has the samples loaded again at a restart and one
    object per pipeline, in order: the iris sample when it is enabled, then
    each managed pipeline that is not the sample, with the texts the entries
    hold, ill-formed UTF-8 replaced. *)
Theorem sample_config_read_back d v (s : St) text :
  out (generateSampleConfigJSON d v s) = Ret text ->
  exists api iris es, spec_APIServer (dspa_Spec d) = Some api /\
    iris_entries api v s iris /\
    Forall2 (fun p e => out (managedPipelineSampleEntry (mp_Name p) v s) = Ret e) (managed_of api) es /\
    parse_json text =
      Some (JObj [("loadSamplesOnRestart", JBool true);
                  ("pipelines", JArr ((clean ∘ json_string_map) <$> iris ++ es))]).
Proof.
  unfold generateSampleConfigJSON. destruct (spec_APIServer (dspa_Spec d)) as [api|]; [|done].
  rewrite bind_some. intros (iris & Hiris & H)%gives_bind.
  2: { intros a. apply silent_gives. destruct (api_EnableSamplePipeline api); [|apply silent_ret].
       apply silent_bind; [apply GenerateSample_quiet|intros; apply silent_ret]. }
  apply gives_bind in H as (es & Hes & H).
  2: { intros es. destruct (api_ManagedPipelines api); [|by intros [= <-]]. apply managed_gives. }
  exists api, iris, es. split_and!; [done|..].
  - unfold iris_entries. destruct (api_EnableSamplePipeline api); [|by injection Hiris].
    assert (out ((item ← GenerateSamplePipelineMetadataBlock "iris" v; mret [item]) s) = Ret iris) as Ho
      by (by rewrite Hiris).
    apply gives_bind in Ho as (item & Hi & [= <-]); [|intros a; apply silent_gives, GenerateSample_quiet].
    exists item. by rewrite Hi.
  - unfold managed_of. destruct (api_ManagedPipelines api); [|injection Hes as <-; constructor].
    apply (managed_gives _ v). by rewrite Hes.
  - injection H as <-. etrans; [exact (parse_json_marshal _ (sample_config_ok (iris ++ es)))|].
    unfold sample_config. rewrite sample_config_members. cbn [clean map fst snd]. by rewrite list_fmap_compose.
Qed.
End SampleConfig.

(** ** Examples *)

#[local] Existing Instance sim_platform.

Lemma sample_config_read_back_witness :
  exists text, out (generateSampleConfigJSON sim_full_dspa "v1.0.0" (sim_state sim_cluster sim_full_dspa)) = Ret text /\
    exists js, parse_json text = Some (JObj [("loadSamplesOnRestart", JBool true); ("pipelines", JArr js)]).
Proof.
  destruct (out (generateSampleConfigJSON sim_full_dspa "v1.0.0" (sim_state sim_cluster sim_full_dspa))) as [text|e|w] eqn:Ho.
  2,3: vm_compute in Ho; discriminate Ho.
  exists text. split; [done|].
  destruct (sample_config_read_back sim_full_dspa "v1.0.0" (sim_state sim_cluster sim_full_dspa) text Ho)
    as (api & iris & es & _ & _ & _ & H). eauto.
Defined.
