(* ===== verification/Readiness.v ===== *)
(** * Readiness, status and metrics (controllers/dspipeline_controller.go, middle part)

    What a reconcile reports: the condition of a component's deployment, the
    URLs of the components, the status update and the gauges; and the
    validation of managed pipelines. *)

From stdpp Require Import base gmap strings list.
From Stdlib Require Import ZArith Lia.
From S2P Require Import Prelude GoStd GoJson GoCodec KubeTypes ApiTypes Data Platform Config Util.
From S2P Require Import Status Metrics ManagedPipelines Fetcher Reconciler Params Extract Manifests.

(** ** The condition of a deployment *)

(** the fields [evaluateCondition] sets *)
Definition verdict_of (c : Condition) (status reason message : string) : Condition :=
  c <| c_Reason := reason |> <| c_Status := status |> <| c_Message := message |>.

Definition q (s : string) : string := String dquote (s +:+ String dquote "").

(** a container of the pod that waits in a crash loop *)
Definition crash_loop (p : Pod) : option ContainerStateWaiting :=
  List.find (fun w => bool_decide (csw_Reason w = "CrashLoopBackOff")) (omap id (pod_ContainerStatuses p)).

(** The loop over the pods: a crash loop decides at once, failed pods
    accumulate a message. *)
Fixpoint scan_pods (component : string) (c : Condition) (pods : list Pod) (failures : bool)
    (message : string) : Condition :=
  match pods with
  | [] =>
      if failures then verdict_of c ConditionFalse FailingToDeploy message
      else verdict_of c ConditionFalse Deploying ("Component [" +:+ component +:+ "] is deploying.")
  | p :: pods' =>
      let failed := bool_decide (pod_Phase p = PodFailed) in
      let message := if failed
        then message +:+ "Pod named [" +:+ pod_Name p +:+ "] that is associated with this component [" +:+
             component +:+ "] is in failed phase."
        else message in
      match crash_loop p with
      | Some w => verdict_of c ConditionFalse FailingToDeploy
          ("Component [" +:+ component +:+ "] is in CrashLoopBackOff. Message from pod: [" +:+ csw_Message w +:+ "]")
      | None => scan_pods component c pods' (failures || failed) message
      end
  end.

(** progress failed: past its deadline, or the replica set could not be made *)
Definition progress_failed (component : string) (c : Condition) (d : Deployment) : option Condition :=
  p ← GetDeploymentCondition (dep_Conditions d) DeploymentProgressing;
  if bool_decide (dc_Status p = ConditionFalse) &&
     (bool_decide (dc_Reason p = "ProgressDeadlineExceeded") || bool_decide (dc_Reason p = "ReplicaSetCreateError"))
  then Some (verdict_of c ConditionFalse FailingToDeploy
         ("Component [" +:+ component +:+ "] has failed to progress. Reason: [" +:+ dc_Reason p +:+
          "]. Message: [" +:+ dc_Message p +:+ "]"))
  else None.

Definition replica_failed (component : string) (c : Condition) (d : Deployment) : option Condition :=
  f ← GetDeploymentCondition (dep_Conditions d) DeploymentReplicaFailure;
  if bool_decide (dc_Status f = ConditionTrue)
  then Some (verdict_of c ConditionFalse FailingToDeploy
         ("Component's replica [" +:+ component +:+ "] has failed to create. Reason: [" +:+ dc_Reason f +:+
          "]. Message: [" +:+ dc_Message f +:+ "]"))
  else None.

Definition is_available (d : Deployment) : bool :=
  match GetDeploymentCondition (dep_Conditions d) DeploymentAvailable with
  | Some a => bool_decide (dc_Status a = ConditionTrue)
  | None => false
  end.

(** what the deployment's own status says, if it decides *)
Definition deployment_verdict (component : string) (c : Condition) (d : Deployment) : option Condition :=
  if bool_decide (dep_Replicas d = Some 0%Z) then
    Some (verdict_of c ConditionFalse MinimumReplicasAvailable
            ("Deployment for component " +:+ q component +:+ " is scaled down."))
  else if is_available d then
    Some (verdict_of c ConditionTrue MinimumReplicasAvailable
            ("Component [" +:+ component +:+ "] is minimally available."))
  else match progress_failed component c d with
       | Some c => Some c
       | None => replica_failed component c d
       end.

Section Readiness.
  Context {P : Platform}.

(** The namespace is the application's; the pods are those with the
    deployment's labels, in any namespace. *)
Definition evaluateCondition (component conditionType : string) : M Condition :=
  t ← now;
  let condition := BuildUnknownCondition t conditionType in
  dspa ← gets cur;
  let nn := NN (dspa_Namespace dspa) component in
  d ← try (io (CGet "Deployment" nn) (get_deployment nn));
  match d with
  | inr e =>
      if IsNotFound e then
        mret (verdict_of condition ConditionFalse ComponentDeploymentNotFound
          ("Deployment for component " +:+ q component +:+
           " is missing - pre-requisite component may not yet be available."))
      else fail e
  | inl d =>
      match deployment_verdict component condition d with
      | Some c => mret c
      | None =>
          labels ← deref "deployment.Spec.Selector" (dep_Selector d);
          pods ← io (CList "Pod") (list_pods labels);
          mret (scan_pods component condition pods false "")
      end
  end.

(** The condition is stored even when it could not be evaluated: then it is the
    empty one. *)
Definition setStatus (resourceName conditionType : string) (set : Condition -> M unit) : M unit :=
  c ← try (evaluateCondition resourceName conditionType);
  set (match c with inl c => c | inr _ => zero_Condition end).

Definition setStatusAsNotReady (conditionType : string) (err : error) (set : Condition -> M unit) : M unit :=
  t ← now; set (BuildFalseCondition t conditionType FailingToDeploy (err_msg err)).

Definition setStatusAsUnsupported (conditionType : string) (err : error) (set : Condition -> M unit) : M unit :=
  t ← now; set (BuildFalseCondition t conditionType UnsupportedVersion (err_msg err)).

(** one previous condition put back *)
Definition preserve (conditionType : string) (set : Condition -> M unit) : M unit :=
  dspa ← gets cur;
  let prev := GetConditionByType conditionType (ds_Conditions (dspa_Status dspa)) in
  whenb (bool_decide (c_Type prev = conditionType)) (set prev).

Definition preservePostValidationConditions : M unit :=
  preserve APIServerReady SetApiServerStatus ;;
  preserve PersistenceAgentReady SetPersistenceAgentStatus ;;
  preserve ScheduledWorkflowReady SetScheduledWorkflowStatus ;;
  preserve WorkflowControllerReady SetWorkflowControllerStatus ;;
  preserve MLMDProxyReady SetMLMDProxyStatus.

(** ** Managed pipelines *)

(** [errors.As] for a permanent error *)
Definition is_permanent (e : error) : bool :=
  existsb (fun x => match x with ErrPermanent _ => true | _ => false end) (err_chain e).

(** whether to proceed, and whether to try again later *)
Definition validateManagedPipelines (r : DSPAReconciler) : M (bool * bool) :=
  dspa ← gets cur;
  match spec_APIServer (dspa_Spec dspa) ≫= api_ManagedPipelines with
  | None => SetManagedPipelineNotApplicable ;; mret (true, false)
  | Some mp =>
      if bool_decide (mps_Pipelines mp = []) then SetManagedPipelineNotApplicable ;; mret (true, false)
      else
        fetcher ← deref "r.ManifestFetcher" (r_ManifestFetcher r);
        names ← try (FetchPipelineNames_of fetcher (mps_Image mp));
        match names with
        | inr err =>
            if is_permanent err then
              SetManagedPipelineInvalid (Some err) ManagedPipelineInvalid ;; mret (false, false)
            else
              SetManagedPipelineInvalid (Some err) ManagedPipelinesFetchError ;; mret (true, true)
        | inl l =>
            manifestNames ← gets (fun s => heap_get (st_oci s) l);
            match ValidateManagedPipelineNames (mps_Pipelines mp) manifestNames with
            | Some err => SetManagedPipelineInvalid (Some err) ManagedPipelineInvalid ;; mret (false, false)
            | None => SetManagedPipelineValid ;; mret (true, false)
            end
        end
  end.

(** ** Components, metrics, status *)

(** a lookup whose error is only logged *)
Definition or_empty (m : M string) : M string :=
  u ← try m; mret (match u with inl u => u | inr _ => "" end).

(** both URLs or none *)
Definition component_detail (url externalUrl : string) : ComponentDetailStatus :=
  if bool_decide (url ≠ ""%string) && bool_decide (externalUrl ≠ ""%string)
  then MkComponentDetailStatus url externalUrl else MkComponentDetailStatus "" "".

Definition GetComponents (dspa : DataSciencePipelinesApplication) : M ComponentStatus :=
  let mlmdProxyResourceName := "ds-pipeline-md-" +:+ dspa_Name dspa in
  let apiServerResourceName := "ds-pipeline-" +:+ dspa_Name dspa in
  mlmdProxyUrl ← or_empty (GetServiceHostname mlmdProxyResourceName (dspa_Namespace dspa));
  mlmdProxyExternalUrl ← or_empty (GetRouteHostname mlmdProxyResourceName (dspa_Namespace dspa));
  apiServerUrl ← or_empty (GetServiceHostname apiServerResourceName (dspa_Namespace dspa));
  apiServerExternalUrl ← or_empty (GetRouteHostname apiServerResourceName (dspa_Namespace dspa));
  mret {| cs_MLMDProxy := component_detail mlmdProxyUrl mlmdProxyExternalUrl;
          cs_APIServer := component_detail apiServerUrl apiServerExternalUrl |}.

(** a map with conditions as keys: a later entry with an equal key replaces an
    earlier one *)
Fixpoint assign (c : Condition) (metric : string) (m : list (Condition * string)) : list (Condition * string) :=
  match m with
  | [] => [(c, metric)]
  | (c', metric') :: m' => if bool_decide (c' = c) then (c, metric) :: m' else (c', metric') :: assign c metric m'
  end.

Definition metrics_of_types : list (string * string) :=
  [(DatabaseAvailable, DBAvailableMetric); (ObjectStoreAvailable, ObjectStoreAvailableMetric);
   (APIServerReady, APIServerReadyMetric); (PersistenceAgentReady, PersistenceAgentReadyMetric);
   (ScheduledWorkflowReady, ScheduledWorkflowReadyMetric);
   (WorkflowControllerReady, WorkflowControllerReadyMetric); (MLMDProxyReady, MLMDProxyReadyMetric);
   (ManagedPipelineValid, ManagedPipelineValidMetric); (CrReady, CrReadyMetric)].

Definition metricsMap (conditions : list Condition) : list (Condition * string) :=
  fold_left (fun m tm => assign (GetConditionByType tm.1 conditions) tm.2 m) metrics_of_types [].

(** The entries go to different gauges, so the order in which the map is
    visited does not matter. *)
Definition PublishMetrics (dspa : DataSciencePipelinesApplication) (metricsMap : list (Condition * string)) : M unit :=
  iter (fun cm : Condition * string =>
    if bool_decide (c_Type cm.1 = ManagedPipelineValid)
    then setManagedPipelineValidMetricByReason (dspa_Name dspa) (dspa_Namespace dspa) (c_Reason cm.1)
    else SetGauge cm.2 [dspa_Name dspa; dspa_Namespace dspa]
           (if bool_decide (c_Status cm.1 = ConditionTrue) then 1 else 0)) metricsMap.

(** the second deferred function of a reconcile *)
Definition publish_unless_deleted : M unit :=
  dspa ← gets cur;
  match dspa_DeletionTimestamp dspa with
  | Some _ => mret tt
  | None => conditions ← GetConditions; PublishMetrics dspa (metricsMap conditions)
  end.

(** a failed refresh leaves the object as it was *)
Definition refreshDspa (req : NamespacedName) : M unit :=
  d ← try (io (CGet "DSPA" req) (get_dspa req));
  match d with
  | inl d => modify (fun s => s <| st_dspa := d |>)
  | inr _ => mret tt
  end.

(** the first deferred function: on the object that was fetched, refreshed *)
Definition updateStatus (req : NamespacedName) : M unit :=
  refreshDspa req ;;
  dspa ← gets st_dspa;
  match dspa_DeletionTimestamp dspa with
  | Some _ => mret tt
  | None =>
      components ← GetComponents dspa;
      modify (fun s => s <| st_dspa ::= fun d => d <| dspa_Status ::= fun st => st <| ds_Components := components |> |> |>) ;;
      conditions ← GetConditions;
      modify (fun s => s <| st_dspa ::= fun d => d <| dspa_Status ::= fun st => st <| ds_Conditions := conditions |> |> |>) ;;
      d ← gets st_dspa;
      u ← try (io (CUpdateStatus (nn_of d)) (update_dspa_status d));
      match u with
      | inl d' => modify (fun s => s <| st_dspa := d' |>)
      | inr _ => mret tt
      end
  end.
End Readiness.

(** ** What a deployment's condition means *)

(** The deployment runs: it is not scaled down and it is available. *)
Definition ready (d : Deployment) : Prop := dep_Replicas d ≠ Some 0%Z /\ is_available d = true.

(** a pod that failed, or that has a container in a crash loop *)
Definition broken (p : Pod) : bool :=
  bool_decide (pod_Phase p = PodFailed) || match crash_loop p with Some _ => true | None => false end.

(** the deployment's own status reports a failure *)
Definition rollout_failed (d : Deployment) : Prop :=
  (exists p, GetDeploymentCondition (dep_Conditions d) DeploymentProgressing = Some p /\
     dc_Status p = ConditionFalse /\
     (dc_Reason p = "ProgressDeadlineExceeded"%string \/ dc_Reason p = "ReplicaSetCreateError"%string)) \/
  (exists f, GetDeploymentCondition (dep_Conditions d) DeploymentReplicaFailure = Some f /\
     dc_Status f = ConditionTrue).

Lemma progress_failed_spec component c d :
  match progress_failed component c d with
  | Some c' => (exists p, GetDeploymentCondition (dep_Conditions d) DeploymentProgressing = Some p /\
       dc_Status p = ConditionFalse /\
       (dc_Reason p = "ProgressDeadlineExceeded"%string \/ dc_Reason p = "ReplicaSetCreateError"%string)) /\
     exists m, c' = verdict_of c ConditionFalse FailingToDeploy m
  | None => ~ exists p, GetDeploymentCondition (dep_Conditions d) DeploymentProgressing = Some p /\
       dc_Status p = ConditionFalse /\
       (dc_Reason p = "ProgressDeadlineExceeded"%string \/ dc_Reason p = "ReplicaSetCreateError"%string)
  end.
Proof.
  unfold progress_failed. destruct (GetDeploymentCondition _ _) as [p|]; cbn; [|naive_solver].
  destruct (_ && _) eqn:H.
  - apply andb_true_iff in H as [H1 H2]. apply orb_true_iff in H2. rewrite !bool_decide_eq_true in *. naive_solver.
  - apply andb_false_iff in H. rewrite orb_false_iff, !bool_decide_eq_false in *. naive_solver.
Qed.

Lemma replica_failed_spec component c d :
  match replica_failed component c d with
  | Some c' => (exists f, GetDeploymentCondition (dep_Conditions d) DeploymentReplicaFailure = Some f /\
       dc_Status f = ConditionTrue) /\ exists m, c' = verdict_of c ConditionFalse FailingToDeploy m
  | None => ~ exists f, GetDeploymentCondition (dep_Conditions d) DeploymentReplicaFailure = Some f /\
       dc_Status f = ConditionTrue
  end.
Proof.
  unfold replica_failed. destruct (GetDeploymentCondition _ _) as [f|]; cbn; [|naive_solver].
  case_bool_decide; naive_solver.
Qed.

(** Scanning the pods reports a failure exactly when some pod is broken. *)
Lemma scan_pods_spec component c pods failures message :
  exists m, scan_pods component c pods failures message =
    verdict_of c ConditionFalse (if failures || existsb broken pods then FailingToDeploy else Deploying) m.
Proof.
  revert failures message. induction pods as [|p pods IH]; intros failures message; cbn [scan_pods existsb].
  - rewrite orb_false_r. destruct failures; eauto.
  - unfold broken. destruct (crash_loop p) as [w|].
    + rewrite orb_true_r. cbn. rewrite orb_true_r. eauto.
    + rewrite orb_false_r, orb_assoc. apply IH.
Qed.

Section ReadinessProofs.
  Context {P : Platform}.

(** the verdict, when the deployment's own status decides *)
Lemma deployment_verdict_spec component c d :
  match deployment_verdict component c d with
  | Some c' => exists m,
      (ready d /\ c' = verdict_of c ConditionTrue MinimumReplicasAvailable m) \/
      (~ ready d /\ dep_Replicas d = Some 0%Z /\ c' = verdict_of c ConditionFalse MinimumReplicasAvailable m) \/
      (~ ready d /\ dep_Replicas d ≠ Some 0%Z /\ rollout_failed d /\
         c' = verdict_of c ConditionFalse FailingToDeploy m)
  | None => ~ ready d /\ dep_Replicas d ≠ Some 0%Z /\ ~ rollout_failed d
  end.
Proof.
  unfold deployment_verdict, ready, rollout_failed. case_bool_decide as Hr; [naive_solver|].
  destruct (is_available d); [naive_solver|].
  pose proof (progress_failed_spec component c d) as Hp. pose proof (replica_failed_spec component c d) as Hf.
  destruct (progress_failed component c d) as [c'|].
  { destruct Hp as [Hp [m ->]]. exists m. right; right. split_and!; [naive_solver|done|by left|done]. }
  destruct (replica_failed component c d) as [c'|].
  - destruct Hf as [Hf [m ->]]. exists m. right; right. split_and!; [naive_solver|done|by right|done].
  - split_and!; [naive_solver|done|]. by intros [|].
Qed.

(** What an evaluation comes to, in every case: the condition that is reported,
    or the error, or the panic. *)
Definition evaluated component ty (s : St) (o : outcome Condition) (s' : St) : Prop :=
  (exists w, s' = s <| st_world := w |>) /\
  let '(r, w1) := get_deployment (NN (dspa_Namespace (cur s)) component) (time_now (st_world s)).2 in
  let reports status reason := exists c, o = Ret c /\ c_Type c = ty /\ c_Status c = status /\ c_Reason c = reason in
  match r with
  | inr e => if IsNotFound e then reports ConditionFalse ComponentDeploymentNotFound else o = Fail e
  | inl d =>
      (ready d -> reports ConditionTrue MinimumReplicasAvailable) /\
      (dep_Replicas d = Some 0%Z -> reports ConditionFalse MinimumReplicasAvailable) /\
      (~ ready d -> dep_Replicas d ≠ Some 0%Z -> rollout_failed d -> reports ConditionFalse FailingToDeploy) /\
      (~ ready d -> dep_Replicas d ≠ Some 0%Z -> ~ rollout_failed d ->
         match dep_Selector d with
         | None => exists why, o = Panic why
         | Some labels =>
             match (list_pods labels w1).1 with
             | inr e => o = Fail e
             | inl pods => reports ConditionFalse (if existsb broken pods then FailingToDeploy else Deploying)
             end
         end)
  end.

Lemma evaluateCondition_cases component ty (s : St) :
  wp (evaluateCondition component ty) (fun o s' _ => evaluated component ty s o s') s.
Proof.
  unfold evaluateCondition, evaluated. destruct (time_now (st_world s)) as [t0 w0] eqn:Ht.
  eapply wp_step; [by apply now_run_at|]. apply wp_get. cbn [snd app].
  assert (cur (s <| st_world := w0 |>) = cur s) as -> by done.
  set (nn := NN (dspa_Namespace (cur s)) component). unfold wp. rewrite bind_try_io. cbn [st_world set].
  replace (st_world (s <| st_world := w0 |>)) with w0 by done.
  destruct (get_deployment nn w0) as [[d|e] w1].
  - pose proof (deployment_verdict_spec component (BuildUnknownCondition t0 ty) d) as Hv.
    destruct (deployment_verdict _ _ _) as [c|].
    + split; [by exists w1|]. destruct Hv as (m & [(Hr & ->)|[(Hr & Hz & ->)|(Hr & Hz & Hf & ->)]]).
      all: cbn; unfold ready in *; split_and!; intros; try naive_solver; eexists; split_and!; try done.
    + destruct Hv as (Hr & Hz & Hf). unfold ready in *. destruct (dep_Selector d) as [labels|] eqn:Hs; cbn beta iota.
      * go_run. rewrite bind_io. cbn [st_world set].
        replace (st_world (s <| st_world := w0 |> <| st_world := w1 |>)) with w1 by done.
        destruct (list_pods labels w1) as [[pods|e] w2] eqn:Hl.
        -- destruct (scan_pods_spec component (BuildUnknownCondition t0 ty) pods false "") as [m Hm].
           split; [by exists w2|]. cbn. rewrite Hm. split_and!; intros; try naive_solver.
        -- split; [by exists w2|]. cbn. split_and!; intros; naive_solver.
      * split; [by exists w1|]. cbn. split_and!; intros; naive_solver.
  - destruct (IsNotFound e); (split; [by exists w1|]); [|done]. eexists; split_and!; done.
Qed.

(** C30: The condition of a component is True exactly when its deployment in the
    application's namespace runs (available, not scaled down).  Otherwise it is
    False with the reason that applies: no such deployment; scaled down; a
    rollout that failed, or a failed or crash-looping pod; else still deploying.
    It is an error exactly when the deployment or its pods cannot be read, and a
    deployment without a selector makes the operator panic.  Nothing but the
    outside changes. *)
Theorem evaluateCondition_exact component ty (s : St) :
  wp (evaluateCondition component ty) (fun o s' _ => evaluated component ty s o s') s.
Proof. apply evaluateCondition_cases. Qed.
End ReadinessProofs.
