(* ===== verification/Gauges.v ===== *)
(** * The gauges of a reconcile

    [PublishMetrics] visits a Go map, whose order of iteration is not
    specified.  Registries are compared by what a scrape reads from them, the
    effect of an entry respects that equality, and two entries of the map
    commute; so every order publishes the same gauges, and each of them says
    what the condition of its component says. *)

From stdpp Require Import base gmap strings list.
From Stdlib Require Import ZArith.
From S2P Require Import Prelude GoStd GoJson KubeTypes ApiTypes Data Platform Config Util Sim.
From S2P Require Import Status Metrics ManagedPipelines Fetcher Reconciler Params Extract Manifests Readiness.

(** ** Registries up to what is read from them *)

Section Registry.
  Context {P : Platform} {L : GaugeLaws GaugeVecs}.

#[export] Instance gauges_equiv : Equiv GaugeVecs := fun g g' => forall m l, gauge_get m l g = gauge_get m l g'.

#[export] Instance gauges_equivalence : Equivalence (≡@{GaugeVecs}).
Proof.
  split; intros g; [done|by intros g' H m l|].
  intros g2 g3 H1 H2 m l. by rewrite (H1 m l).
Qed.

#[export] Instance gauge_get_proper m l : Proper ((≡) ==> eq) (gauge_get (G := GaugeVecs) m l).
Proof. intros g g' H. apply H. Qed.

#[export] Instance gauge_set_proper m l v : Proper ((≡) ==> (≡)) (gauge_set (G := GaugeVecs) m l v).
Proof. intros g g' H m' l'. rewrite !gauge_get_set. by rewrite H. Qed.

#[export] Instance gauges_fold_proper {A} (f : A -> GaugeVecs -> GaugeVecs) xs :
  (forall x, Proper ((≡) ==> (≡)) (f x)) ->
  Proper ((≡) ==> (≡)) (fun g : GaugeVecs => fold_left (fun g x => f x g) xs g).
Proof.
  intros Hf. induction xs as [|x xs IH]; intros g g' H; [done|]. cbn [fold_left]. apply IH. by apply Hf.
Qed.

(** effects that commute pairwise can be applied in any order *)
Lemma fold_perm {A} `{EqDecision A} (f : A -> GaugeVecs -> GaugeVecs) xs ys g :
  (forall x, Proper ((≡) ==> (≡)) (f x)) ->
  (forall x y, x ∈ xs -> y ∈ xs -> x ≠ y -> forall g, f x (f y g) ≡ f y (f x g)) ->
  xs ≡ₚ ys -> fold_left (fun g x => f x g) xs g ≡ fold_left (fun g x => f x g) ys g.
Proof.
  intros Hf Hc Hp. revert g Hc. induction Hp as [|x xs ys Hp IH|x y xs|xs ys zs H1 IH1 H2 IH2]; intros g Hc.
  - done.
  - cbn [fold_left]. apply IH. intros y z Hy Hz. apply Hc; by apply elem_of_cons; right.
  - cbn [fold_left]. apply (gauges_fold_proper f xs Hf). 
    destruct (decide (x = y)) as [->|Hne]; [done|]. apply Hc; [set_solver..|done].
  - etrans; [by apply IH1|]. apply IH2. intros y z Hy Hz. apply Hc; by rewrite H1.
Qed.

(** ** The effect of one entry *)

Section Entries.
  Context (d : DataSciencePipelinesApplication).

Definition entry_gauges (cm : Condition * string) (g : GaugeVecs) : GaugeVecs :=
  if bool_decide (c_Type cm.1 = ManagedPipelineValid)
  then fold_left (fun g r => gauge_set ManagedPipelineValidMetric [dspa_Name d; dspa_Namespace d; r]
         (if bool_decide (r = normalizeManagedPipelineValidationReason (c_Reason cm.1)) then 1 else 0)%Z g)
         managedPipelineValidationReasons g
  else gauge_set cm.2 [dspa_Name d; dspa_Namespace d]
         (if bool_decide (c_Status cm.1 = ConditionTrue) then 1 else 0)%Z g.

(** what the entry writes to a series, if anything *)
Definition entry_value (cm : Condition * string) (m : string) (l : list string) : option Z :=
  if bool_decide (c_Type cm.1 = ManagedPipelineValid)
  then if bool_decide (m = ManagedPipelineValidMetric)
       then (fun r => if bool_decide (r = normalizeManagedPipelineValidationReason (c_Reason cm.1)) then 1 else 0)%Z <$>
              List.find (fun r => bool_decide ([dspa_Name d; dspa_Namespace d; r] = l)) (rev managedPipelineValidationReasons)
       else None
  else if bool_decide ((m, l) = (cm.2, [dspa_Name d; dspa_Namespace d]))
       then Some (if bool_decide (c_Status cm.1 = ConditionTrue) then 1 else 0)%Z else None.

Lemma entry_get cm g m l :
  gauge_get m l (entry_gauges cm g) = match entry_value cm m l with Some v => Some v | None => gauge_get m l g end.
Proof.
  unfold entry_gauges, entry_value. case_bool_decide as Ht.
  - rewrite (fold_set_get _ (fun r => [dspa_Name d; dspa_Namespace d; r])). case_bool_decide; [|done].
    by destruct (List.find _ _).
  - rewrite gauge_get_set. by case_bool_decide.
Qed.

#[local] Instance entry_proper cm : Proper ((≡) ==> (≡)) (entry_gauges cm).
Proof. intros g g' H m l. rewrite !entry_get. by rewrite H. Qed.

Lemma PublishMetrics_run ms (s : St) :
  PublishMetrics d ms s =
  Run (Ret tt) (s <| st_gauges := fold_left (fun g cm => entry_gauges cm g) ms (st_gauges s) |>) [].
Proof.
  rewrite <- (upd_gauges_iter entry_gauges). unfold PublishMetrics. revert s.
  induction ms as [|cm ms IH]; intros s; [done|]. cbn [iter].
  assert ((if bool_decide (c_Type cm.1 = ManagedPipelineValid)
           then setManagedPipelineValidMetricByReason (dspa_Name d) (dspa_Namespace d) (c_Reason cm.1)
           else SetGauge cm.2 [dspa_Name d; dspa_Namespace d]
                  (if bool_decide (c_Status cm.1 = ConditionTrue) then 1 else 0)%Z) s
          = upd_gauges (entry_gauges cm) s) as Hs.
  { unfold upd_gauges, modify, entry_gauges. case_bool_decide; [|done].
    unfold setManagedPipelineValidMetricByReason, SetGauge. by rewrite upd_gauges_iter. }
  unfold mbind, prog_bind. rewrite Hs. cbn [out fin evs upd_gauges modify]. by rewrite IH.
Qed.

(** ** The map of a reconcile *)

Definition entries_ok (ms : list (Condition * string)) : Prop :=
  NoDup (snd <$> ms) /\
  (forall cm, cm ∈ ms -> c_Type cm.1 = ManagedPipelineValid -> cm.2 = ManagedPipelineValidMetric).

Lemma entries_ok_perm ms ms' : ms ≡ₚ ms' -> entries_ok ms' -> entries_ok ms.
Proof. intros Hp [Ha Hb]. split; [by rewrite Hp|]. intros cm. rewrite Hp. apply Hb. Qed.

Lemma entries_disjoint ms x y m l :
  entries_ok ms -> x ∈ ms -> y ∈ ms -> x ≠ y -> entry_value x m l = None \/ entry_value y m l = None.
Proof.
  intros [Hnd Hmp] Hx Hy Hne.
  assert (x.2 ≠ y.2) as Hm by (intros Heq; apply Hne; by eapply (nodup_key_eq snd)).
  unfold entry_value. destruct (bool_decide (c_Type x.1 = _)) eqn:Tx, (bool_decide (c_Type y.1 = _)) eqn:Ty.
  - apply bool_decide_eq_true in Tx, Ty. exfalso. apply Hm. by rewrite (Hmp x Hx Tx), (Hmp y Hy Ty).
  - destruct (bool_decide (m = _)); [|by left]. destruct (List.find _ _) as [r|] eqn:Hf; [|by left]. right.
    apply find_some in Hf as [_ Hf%bool_decide_eq_true]. rewrite bool_decide_eq_false_2; [done|]. by subst l.
  - destruct (bool_decide ((m, l) = _)) eqn:Hml; [|by left]. right.
    apply bool_decide_eq_true in Hml. simplify_eq. destruct (bool_decide (_ = ManagedPipelineValidMetric)); [|done].
    destruct (List.find _ _) as [r|] eqn:Hf; [|done]. by apply find_some in Hf as [_ Hf%bool_decide_eq_true].
  - destruct (bool_decide ((m, l) = (x.2, _))) eqn:Hml; [|by left]. right.
    apply bool_decide_eq_true in Hml. simplify_eq. rewrite bool_decide_eq_false_2; [done|]. congruence.
Qed.

Lemma entries_fold_perm ms ms' g :
  entries_ok ms -> ms ≡ₚ ms' ->
  fold_left (fun g cm => entry_gauges cm g) ms g ≡ fold_left (fun g cm => entry_gauges cm g) ms' g.
Proof.
  intros Hok Hp. apply fold_perm; [apply _| |done]. intros x y Hx Hy Hne g' m l. rewrite !entry_get.
  destruct (entries_disjoint ms x y m l Hok Hx Hy Hne) as [-> | ->]; [done|by destruct (entry_value x m l)].
Qed.

(** [metricsMap] has one entry per metric, and the managed-pipeline condition
    can only be the key of its own metric. *)
Lemma assign_metric c mt ms : snd <$> assign c mt ms ⊆ mt :: (snd <$> ms).
Proof.
  induction ms as [|[c' mt'] ms IH]; [done|]. cbn [assign]. case_bool_decide; rewrite !fmap_cons; set_solver.
Qed.

Lemma assign_elem c mt ms cm : cm ∈ assign c mt ms -> cm = (c, mt) \/ cm ∈ ms.
Proof.
  induction ms as [|[c' mt'] ms IH]; cbn [assign].
  - intros ->%list_elem_of_singleton. by left.
  - case_bool_decide; intros [->|Hin]%elem_of_cons; [by left|by right; right|by right; left|].
    destruct (IH Hin); [by left|by right; right].
Qed.

Lemma assign_nodup c mt ms : mt ∉ (snd <$> ms) -> NoDup (snd <$> ms) -> NoDup (snd <$> assign c mt ms).
Proof.
  induction ms as [|[c' mt'] ms IH]; cbn [assign]; rewrite ?fmap_cons; intros Hn Hd.
  - by apply NoDup_singleton.
  - apply NoDup_cons in Hd as [Hd1 Hd2]. apply not_elem_of_cons in Hn as [Hn1 Hn2].
    case_bool_decide; rewrite fmap_cons; apply NoDup_cons; cbn [snd] in *; split; try done.
    + intros [->|Hc]%assign_metric%elem_of_cons; done.
    + by apply IH.
Qed.

Lemma found_type ty conditions :
  c_Type (GetConditionByType ty conditions) = ty \/ c_Type (GetConditionByType ty conditions) = "".
Proof.
  unfold GetConditionByType. destruct (List.find _ _) as [c|] eqn:Hf; [left|by right].
  by apply find_some in Hf as [_ Hf%bool_decide_eq_true].
Qed.

Lemma managed_pipeline_key tm conditions :
  tm ∈ metrics_of_types -> c_Type (GetConditionByType tm.1 conditions) = ManagedPipelineValid ->
  tm.2 = ManagedPipelineValidMetric.
Proof.
  intros Hin Hty. destruct (found_type tm.1 conditions) as [Hf|Hf]; rewrite Hty in Hf; [|done].
  clear Hty. revert tm Hin Hf. refine (proj1 (Forall_forall _ metrics_of_types) _). repeat constructor; done.
Qed.

Lemma metricsMap_ok conditions : entries_ok (metricsMap conditions).
Proof.
  unfold metricsMap.
  assert (forall tms acc, NoDup (snd <$> tms) -> (forall tm, tm ∈ tms -> tm ∈ metrics_of_types) ->
    (forall mt, mt ∈ (snd <$> acc) -> mt ∉ (snd <$> tms)) -> entries_ok acc ->
    entries_ok (fold_left (fun m tm => assign (GetConditionByType tm.1 conditions) tm.2 m) tms acc)) as Hfold.
  { induction tms as [|[ty mt] tms IH]; intros acc Hnd Hin Hdis [Ha Hb]; [done|]. cbn [fold_left fst snd].
    rewrite fmap_cons in Hnd, Hdis. apply NoDup_cons in Hnd as [Hn1 Hn2]. apply IH; [done|..].
    - intros tm Htm. apply Hin. by right.
    - intros mt' [->|Hmt]%assign_metric%elem_of_cons; [done|]. intros Hc. apply (Hdis mt' Hmt). by right.
    - split.
      + apply assign_nodup; [|done]. intros Hc. apply (Hdis mt Hc). by left.
      + intros cm [->|Hcm]%assign_elem; [|by apply Hb]. cbn [fst snd]. intros Hty.
        apply (managed_pipeline_key (ty, mt) conditions); [apply Hin; by left|done]. }
  apply Hfold; [|done|set_solver|split; [apply NoDup_nil_2|set_solver]].
  refine (bool_decide_unpack _ _). by vm_compute.
Qed.

(** the series of an entry whose order does not matter: as if it came last *)
Lemma entry_published ms cm g m l v :
  entries_ok ms -> cm ∈ ms -> entry_value cm m l = Some v ->
  gauge_get m l (fold_left (fun g cm => entry_gauges cm g) ms g) = Some v.
Proof.
  intros Hok Hin Hv. apply elem_of_Permutation in Hin as [ms' Hp].
  rewrite (entries_fold_perm ms (ms' ++ [cm])) by (done || by rewrite Hp, Permutation_app_comm).
  rewrite fold_left_app. cbn [fold_left]. by rewrite entry_get, Hv.
Qed.

(** and a series no entry writes *)
Lemma entries_others ms g m l :
  (forall cm, cm ∈ ms -> entry_value cm m l = None) ->
  gauge_get m l (fold_left (fun g cm => entry_gauges cm g) ms g) = gauge_get m l g.
Proof.
  revert g. induction ms as [|cm ms IH]; intros g H; [done|]. cbn [fold_left].
  rewrite IH by (intros; apply H; by right). by rewrite entry_get, (H cm) by by left.
Qed.

Lemma entry_own cm m l v : entry_value cm m l = Some v -> exists rest, l = dspa_Name d :: dspa_Namespace d :: rest.
Proof.
  unfold entry_value. case_bool_decide; [destruct (bool_decide (m = _)); [|done]|].
  - destruct (List.find _ _) as [x|] eqn:Hf; [|done]. apply find_some in Hf as [_ <-%bool_decide_eq_true]. eauto.
  - case_bool_decide; [|done]. simplify_eq. eauto.
Qed.

Lemma reason_value c reason :
  c_Type c = ManagedPipelineValid -> reason ∈ managedPipelineValidationReasons ->
  entry_value (c, ManagedPipelineValidMetric) ManagedPipelineValidMetric [dspa_Name d; dspa_Namespace d; reason] =
  Some (if bool_decide (reason = normalizeManagedPipelineValidationReason (c_Reason c)) then 1 else 0)%Z.
Proof.
  intros Hty Hr. unfold entry_value. rewrite !bool_decide_eq_true_2 by done. cbn [fst].
  destruct (List.find _ _) as [r|] eqn:Hf.
  - apply find_some in Hf as [_ Hf%bool_decide_eq_true]. by simplify_eq.
  - exfalso. apply list_elem_of_In, in_rev in Hr. eapply find_none in Hf; [|exact Hr].
    by apply bool_decide_eq_false in Hf.
Qed.

(** two runs that a scrape cannot tell apart: they end alike, without a call, and
    in states that agree on everything, on the gauges up to what is read *)
Definition same_publication (a b : run event St unit) : Prop :=
  out a = out b /\ evs a = evs b /\ st_gauges (fin a) ≡ st_gauges (fin b) /\
  (forall g, (fin a) <| st_gauges := g |> = (fin b) <| st_gauges := g |>).

(** C21: Go leaves the order of iteration over a map open, and [PublishMetrics]
    iterates over one.  Every order of its entries publishes the same gauges:
    the run succeeds without a call, and a scrape afterwards reads the same
    value from every series, whatever conditions the map was built from. *)
Theorem PublishMetrics_any_order conditions ms (s : St) :
  ms ≡ₚ metricsMap conditions ->
  out (PublishMetrics d ms s) = Ret tt /\ evs (PublishMetrics d ms s) = [] /\
  same_publication (PublishMetrics d ms s) (PublishMetrics d (metricsMap conditions) s).
Proof.
  intros Hp. unfold same_publication. rewrite !PublishMetrics_run. cbn [out fin evs st_gauges set].
  split_and!; [done..| |by destruct s]. symmetry. apply entries_fold_perm; [apply metricsMap_ok|by symmetry].
Qed.

(** ** What each gauge says *)

(** an entry of the map stays there until another one has its key *)
Lemma assign_here c mt ms : (c, mt) ∈ assign c mt ms.
Proof.
  induction ms as [|[c' mt'] ms IH]; cbn [assign]; [by apply list_elem_of_singleton|].
  case_bool_decide; [by left|by right].
Qed.

Lemma assign_kept c mt ms cm : cm ∈ ms -> cm.1 ≠ c -> cm ∈ assign c mt ms.
Proof.
  intros Hin Hne. induction ms as [|[c' mt'] ms IH]; [set_solver|]. cbn [assign].
  apply elem_of_cons in Hin as [->|Hin]; case_bool_decide; simplify_eq; [by left|by right|right; by apply IH].
Qed.

(** The condition of a type keys its own metric. *)
Lemma metricsMap_entry conditions tm : tm ∈ metrics_of_types -> tm.1 ≠ "" ->
  c_Type (GetConditionByType tm.1 conditions) = tm.1 -> (GetConditionByType tm.1 conditions, tm.2) ∈ metricsMap conditions.
Proof.
  intros Hin Hne Hty. unfold metricsMap. set (cm := (GetConditionByType tm.1 conditions, tm.2)).
  assert (forall tms acc, NoDup (fst <$> tms) -> tm ∈ tms \/ (tm.1 ∉ (fst <$> tms) /\ cm ∈ acc) ->
    cm ∈ fold_left (fun m tm => assign (GetConditionByType tm.1 conditions) tm.2 m) tms acc) as Hfold.
  { induction tms as [|tm' tms IH]; intros acc Hnd [H|[Hn H]]; [set_solver|done|..]; cbn [fold_left].
    all: rewrite fmap_cons in Hnd; apply NoDup_cons in Hnd as [Hn1 Hn2]; apply IH; [done|].
    - apply elem_of_cons in H as [<-|H]; [right|by left]. split; [done|apply assign_here].
    - rewrite fmap_cons, not_elem_of_cons in Hn. destruct Hn as [Hn Hn']. right. split; [done|].
      apply assign_kept; [done|]. intros Heq. apply (f_equal c_Type) in Heq. subst cm. cbn [fst] in Heq.
      rewrite Hty in Heq. destruct (found_type tm'.1 conditions) as [Hf|Hf]; congruence. }
  apply Hfold; [refine (bool_decide_unpack _ _); by vm_compute|by left].
Qed.

Lemma metricsMap_from conditions cm : cm ∈ metricsMap conditions ->
  exists tm, tm ∈ metrics_of_types /\ cm = (GetConditionByType tm.1 conditions, tm.2).
Proof.
  unfold metricsMap.
  assert (forall tms acc, (forall cm, cm ∈ acc -> exists tm, tm ∈ metrics_of_types /\ cm = (GetConditionByType tm.1 conditions, tm.2)) ->
    tms ⊆ metrics_of_types -> cm ∈ fold_left (fun m tm => assign (GetConditionByType tm.1 conditions) tm.2 m) tms acc ->
    exists tm, tm ∈ metrics_of_types /\ cm = (GetConditionByType tm.1 conditions, tm.2)) as Hfold.
  { induction tms as [|tm tms IH]; intros acc Hacc Hsub; [by apply Hacc|]. cbn [fold_left]. apply IH; [|set_solver].
    intros cm' [->|Hc]%assign_elem; [exists tm; split; [set_solver|done]|by apply Hacc]. }
  apply Hfold; [set_solver|done].
Qed.

(** the first condition of a type, the one that counts *)
Definition first_of (ty : string) (conditions : list Condition) (c : Condition) : Prop :=
  exists before after, conditions = before ++ c :: after /\ c_Type c = ty /\ ty ∉ c_Type <$> before.

Lemma first_found ty conditions c : first_of ty conditions c -> GetConditionByType ty conditions = c.
Proof.
  intros (before & after & -> & Hty & Hn). unfold GetConditionByType. induction before as [|b before IH]; cbn.
  - by rewrite bool_decide_eq_true_2.
  - rewrite fmap_cons, not_elem_of_cons in Hn. destruct Hn as [Hne Hn]. rewrite bool_decide_eq_false_2 by done. by apply IH.
Qed.

Lemma none_found ty conditions : ty ∉ c_Type <$> conditions -> GetConditionByType ty conditions = zero_Condition.
Proof.
  intros Hn. unfold GetConditionByType. destruct (List.find _ _) as [c|] eqn:Hf; [|done]. exfalso.
  apply find_some in Hf as [Hin <-%bool_decide_eq_true]. apply Hn. by apply list_elem_of_fmap_2, list_elem_of_In.
Qed.

Lemma component_gauge_listed tm : tm ∈ component_gauges ->
  tm ∈ metrics_of_types /\ tm.1 ≠ "" /\ tm.1 ≠ ManagedPipelineValid.
Proof. revert tm. refine (proj1 (Forall_forall _ component_gauges) _). refine (bool_decide_unpack _ _). by vm_compute. Qed.

Lemma metric_of_type tm tm' : tm ∈ metrics_of_types -> tm' ∈ metrics_of_types -> tm.2 = tm'.2 -> tm = tm'.
Proof. apply nodup_key_eq. refine (bool_decide_unpack _ _). by vm_compute. Qed.

(** the gauge of the application with a metric's name *)
Definition own_gauge (metric : string) (g : GaugeVecs) : option Z :=
  gauge_get metric [dspa_Name d; dspa_Namespace d] g.

Definition gauge_value (c : Condition) : Z := if bool_decide (c_Status c = ConditionTrue) then 1%Z else 0%Z.

(** C20: The gauges say what the published conditions say.  Whatever is
    published, as long as there is a condition on the managed pipelines, and
    however the map is visited: the gauge of the database, the object store, the
    API server, the persistence agent, the scheduled workflow, the workflow
    controller, ML metadata and the whole application is 1 when the condition of
    that type is True and 0 otherwise; a type of which no condition is published
    never gets 1; of the managed-pipeline series exactly the one of the
    condition's reason is 1, that of Other for a reason that is not known; and
    no series of another application changes. *)
Theorem published_gauges_exact conditions mp ms (s : St) :
  first_of "ManagedPipelineValid" conditions mp -> ms ≡ₚ metricsMap conditions ->
  let g := st_gauges (fin (PublishMetrics d ms s)) in
  (forall ty metric c, (ty, metric) ∈ component_gauges -> first_of ty conditions c ->
     own_gauge metric g = Some (gauge_value c)) /\
  (forall ty metric, (ty, metric) ∈ component_gauges -> ty ∉ c_Type <$> conditions ->
     own_gauge metric g = Some 0%Z \/ own_gauge metric g = own_gauge metric (st_gauges s)) /\
  (forall reason, reason ∈ known_reasons ++ ["Other"] ->
     gauge_get reason_gauge [dspa_Name d; dspa_Namespace d; reason] g =
       Some (if bool_decide (reason = active_reason (c_Reason mp)) then 1 else 0)%Z) /\
  (forall m name ns rest, (name, ns) ≠ (dspa_Name d, dspa_Namespace d) ->
     gauge_get m (name :: ns :: rest) g = gauge_get m (name :: ns :: rest) (st_gauges s)).
Proof.
  intros Hmp Hp g. unfold g. rewrite PublishMetrics_run. cbn [fin st_gauges set].
  pose proof (metricsMap_ok conditions) as Hok. pose proof (entries_ok_perm _ _ Hp Hok) as Hok'.
  split_and!.
  - intros ty metric c Hin Hc. destruct (component_gauge_listed _ Hin) as (Hm & Hne & Hmp'). cbn [fst] in *.
    pose proof (first_found _ _ _ Hc) as Hg. destruct Hc as (_ & _ & _ & Hty & _).
    apply (entry_published _ (c, metric)); [done|rewrite Hp, <- Hg; apply (metricsMap_entry conditions (ty, metric) Hm Hne); cbn [fst]; rewrite Hg; exact Hty|].
    unfold entry_value. cbn [fst snd]. by rewrite bool_decide_eq_false_2, bool_decide_eq_true_2 by congruence.
  - intros ty metric Hin Hn%none_found. destruct (component_gauge_listed _ Hin) as (Hm & _ & _).
    destruct (decide ((zero_Condition, metric) ∈ ms)) as [Hz|Hz].
    + left. apply (entry_published _ (zero_Condition, metric)); [done..|]. unfold entry_value.
      by rewrite bool_decide_eq_false_2, bool_decide_eq_true_2 by done.
    + right. apply entries_others. intros cm Hcm. pose proof Hcm as Hcm'. rewrite Hp in Hcm'.
      destruct (metricsMap_from _ _ Hcm') as (tm & Htm & ->). unfold entry_value. cbn [fst snd].
      destruct (bool_decide (c_Type _ = _)) eqn:Hb.
      * destruct (bool_decide (metric = _)); [|done]. destruct (List.find _ _) as [r|] eqn:Hf; [|done].
        by apply find_some in Hf as [_ Hf%bool_decide_eq_true].
      * rewrite bool_decide_eq_false_2; [done|]. intros Heq. apply Hz. simplify_eq.
        pose proof (f_equal fst (metric_of_type tm (ty, tm.2) Htm Hm eq_refl)) as E. cbn [fst] in E. by rewrite E, Hn in Hcm.
  - intros reason Hr. rewrite <- normalize_active. pose proof (first_found _ _ _ Hmp) as Hg.
    destruct Hmp as (_ & _ & _ & Hty & _).
    apply (entry_published _ (mp, ManagedPipelineValidMetric)); [done| |by apply reason_value].
    rewrite Hp, <- Hg. apply (metricsMap_entry conditions (ManagedPipelineValid, ManagedPipelineValidMetric)); [|done|exact (eq_trans (f_equal c_Type Hg) Hty)].
    refine (bool_decide_unpack _ _). by vm_compute.
  - intros m name ns rest Hne. apply entries_others. intros cm _.
    destruct (entry_value cm m _) eqn:Hv; [|done]. apply entry_own in Hv as [rest' Hl]. congruence.
Qed.
End Entries.
End Registry.

(** ** Examples *)

#[local] Existing Instance sim_platform.

Definition sample_conditions : list Condition := conditions_at sim_dspa 10 sample_collector.

Lemma rev_perm {A} (l : list A) : rev l ≡ₚ l.
Proof. symmetry. apply Permutation_rev. Qed.

(** the map visited backwards *)
Lemma PublishMetrics_any_order_witness :
  st_gauges (fin (PublishMetrics sim_dspa (rev (metricsMap sample_conditions)) sample_st))
  ≡ st_gauges (fin (PublishMetrics sim_dspa (metricsMap sample_conditions) sample_st)).
Proof.
  destruct (PublishMetrics_any_order sim_dspa sample_conditions _ sample_st (rev_perm (metricsMap sample_conditions)))
    as (_ & _ & _ & _ & H & _). exact H.
Defined.

Lemma published_gauges_exact_witness :
  let g := st_gauges (fin (PublishMetrics sim_dspa (rev (metricsMap sample_conditions)) sample_st)) in
  gauge_get "data_science_pipelines_application_apiserver_ready" [dspa_Name sim_dspa; dspa_Namespace sim_dspa] g = Some 0%Z.
Proof.
  intros g.
  assert (forall i ty c, sample_conditions !! i = Some c -> c_Type c = ty ->
    ty ∉ c_Type <$> take i sample_conditions -> first_of ty sample_conditions c) as Hfirst.
  { intros i ty c Hi Hty Hn. exists (take i sample_conditions), (drop (S i) sample_conditions).
    split; [symmetry; by apply take_drop_middle|done]. }
  assert (first_of "ManagedPipelineValid" sample_conditions (carry_over sim_dspa (BuildTrueCondition 9 ManagedPipelineValid "ok"))) as Hmp.
  { apply (Hfirst 8); [reflexivity|reflexivity|]. refine (bool_decide_unpack _ _). vm_compute. exact I. }
  destruct (published_gauges_exact sim_dspa sample_conditions _ _ sample_st Hmp (rev_perm (metricsMap sample_conditions))) as (H & _).
  apply (H "APIServerReady" _ (carry_over sim_dspa (BuildFalseCondition 3 APIServerReady Deploying "starting"))).
  - refine (bool_decide_unpack _ _). vm_compute. exact I.
  - apply (Hfirst 2); [reflexivity|reflexivity|]. refine (bool_decide_unpack _ _). vm_compute. exact I.
Defined.
