(* ===== verification/Controller.v ===== *)
(** * [Reconcile] (controllers/dspipeline_controller.go)

    One reconcile of one application, in the order of the function, one
    definition per stretch. *)

From stdpp Require Import base gmap strings list.
From Stdlib Require Import ZArith Lia.
From S2P Require Import Prelude GoStd GoJson GoCodec KubeTypes ApiTypes Data Platform Config Util.
From S2P Require Import Status Metrics ManagedPipelines Fetcher Reconciler Params Extract Manifests.
From S2P Require Import Database Storage Components ApiServer Readiness.

(** [ctrl.Result] *)
Record Result := MkResult { res_Requeue : bool; res_RequeueAfter : Z }.
Definition no_requeue : Result := MkResult false 0.

Section Controller.
  Context {P : Platform}.
  Variable r : DSPAReconciler.

Definition unsupported_version (d : DataSciencePipelinesApplication) : error :=
  ErrNew ("unsupported DSP version " +:+ spec_DSPVersion (dspa_Spec d) +:+ " detected. Please manually remove " +:+
          "this DSP resource and re-apply with a supported version field set").

Definition reject_unsupported (d : DataSciencePipelinesApplication) : M Result :=
  let err1 := unsupported_version d in
  SetDatabaseNotReady (Some err1) UnsupportedVersion ;;
  SetObjStoreNotReady (Some err1) UnsupportedVersion ;;
  setStatusAsUnsupported APIServerReady err1 SetApiServerStatus ;;
  setStatusAsUnsupported PersistenceAgentReady err1 SetPersistenceAgentStatus ;;
  setStatusAsUnsupported ScheduledWorkflowReady err1 SetScheduledWorkflowStatus ;;
  setStatusAsUnsupported MLMDProxyReady err1 SetMLMDProxyStatus ;;
  SetDSPANotReady (Some err1) UnsupportedVersion ;;
  mret no_requeue.

(** an object without a kind is replaced by a copy with one *)
Definition ensure_kind : M unit :=
  d ← gets cur;
  whenb (bool_decide (dspa_Kind d = ""))
    (modify (fun s => s <| st_copy := Some (d <| dspa_APIVersion := "v1" |>
                                              <| dspa_Kind := "DataSciencePipelinesApplication" |>) |>)).

Definition cleanUpResources : M unit :=
  params ← prm;
  DeleteMetrics (p_Name params) (p_Namespace params) ;;
  CleanUpCommon r.

(** the application is live: it gets the finalizer *)
Definition ensure_finalizer (d : DataSciencePipelinesApplication) : M unit :=
  whenb (negb (bool_decide (finalizerName ∈ dspa_Finalizers d)))
    (put_cur (d <| dspa_Finalizers ::= fun l => l ++ [finalizerName] |>) ;;
     Update_dspa).

(** the application is being deleted: clean up, then let it go *)
Definition finalize (d : DataSciencePipelinesApplication) : M unit :=
  whenb (bool_decide (finalizerName ∈ dspa_Finalizers d))
    (dspoNamespace ← ask (getenv "DSPO_NAMESPACE");
     upd_params (fun p => p <| p_Name := dspa_Name d |> <| p_Namespace := dspa_Namespace d |>
                            <| p_DSPONamespace := dspoNamespace |>) ;;
     cleanUpResources ;;
     CleanUpWebhookIfUnused d ;;
     put_cur (d <| dspa_Finalizers ::= List.filter (fun f => negb (bool_decide (f = finalizerName))) |>) ;;
     Update_dspa).

(** [err := m(); if err != nil { on_error(err); return ..., err }] *)
Definition or_report {A} (m : M A) (on_error : error -> M unit) : M A :=
  x ← try m;
  match x with
  | inl a => mret a
  | inr err => on_error err ;; fail err
  end.

(** a health check: available or not, reported either way *)
Definition check_health (m : M bool) (on_error : error -> M unit) (on_ok : M unit) : M bool :=
  x ← try m;
  match x with
  | inl b => on_ok ;; mret b
  | inr err => on_error err ;; mret false
  end.

(** the database and the object store: deployed, then both reachable *)
Definition reconcile_prereqs : M bool :=
  or_report (ReconcileDatabase r) (fun err => SetDatabaseNotReady (Some err) FailingToDeploy) ;;
  SetDatabaseReady ;;
  or_report (ReconcileStorage r) (fun err => SetObjStoreNotReady (Some err) FailingToDeploy) ;;
  SetObjStoreReady ;;
  d ← gets cur;
  dbAvailable ← check_health (isDatabaseAccessible d)
    (fun err => SetDatabaseNotReady (Some err) FailingToDeploy) SetDatabaseReady;
  objStoreAvailable ← check_health (isObjectStorageAccessible d)
    (fun err => SetObjStoreNotReady (Some err) FailingToDeploy) SetObjStoreReady;
  mret (dbAvailable && objStoreAvailable).

(** the webhook: [false] when it is not ready yet *)
Definition reconcile_webhook : M bool :=
  d ← gets cur;
  if match spec_APIServer (dspa_Spec d) with
     | Some a => bool_decide (api_PipelineStore a = "kubernetes")
     | None => false
     end
  then
    or_report (ReconcileWebhook r) (fun err => SetWebhookNotReady (Some err) FailingToDeploy) ;;
    '(ready, reason) ← checkWebhookStatus;
    (if ready : bool then SetWebhookReady else SetWebhookNotReady None reason) ;;
    mret ready
  else SetWebhookNotApplicable ;; mret true.

(** one component: reconciled, then its deployment evaluated *)
Definition reconcile_component (m : M unit) (resourceName : DSPAParams -> string) (conditionType : string)
    (set : Condition -> M unit) : M unit :=
  or_report m (fun err => setStatusAsNotReady conditionType err set) ;;
  params ← prm;
  setStatus (resourceName params) conditionType set.

(** the components behind the managed-pipelines gate, in order *)
Definition reconcile_workloads : M unit :=
  reconcile_component (ReconcileAPIServer r) p_APIServerDefaultResourceName APIServerReady SetApiServerStatus ;;
  reconcile_component (ReconcilePersistenceAgent r) p_PersistentAgentDefaultResourceName
    PersistenceAgentReady SetPersistenceAgentStatus ;;
  reconcile_component (ReconcileScheduledWorkflow r) p_ScheduledWorkflowDefaultResourceName
    ScheduledWorkflowReady SetScheduledWorkflowStatus ;;
  workflowControllerEnabled ← or_report (ReconcileWorkflowController r)
    (fun err => SetWorkflowControllerNotReady (Some err) FailingToDeploy);
  params ← prm;
  (if workflowControllerEnabled : bool
   then setStatus (p_WorkflowControllerDefaultResourceName params) WorkflowControllerReady SetWorkflowControllerStatus
   else SetWorkflowControllerNotApplicable) ;;
  reconcile_component (ReconcileMLMD r) p_MlmdProxyDefaultResourceName MLMDProxyReady SetMLMDProxyStatus.

(** everything behind the prerequisites *)
Definition reconcile_components (requeueTime : Z) : M Result :=
  ReconcileCommon r ;;
  webhookReady ← reconcile_webhook;
  if negb webhookReady then mret (MkResult false requeueTime)
  else
    '(proceed, shouldRequeue) ← validateManagedPipelines r;
    if negb proceed then preservePostValidationConditions ;; mret no_requeue
    else
      reconcile_workloads ;;
      mret (if shouldRequeue : bool then MkResult false requeueTime else no_requeue).

(** a live application with its finalizer *)
Definition reconcile_live : M Result :=
  requeueTime ← GetDurationConfigWithDefault RequeueTimeConfigName DefaultRequeueTime;
  x ← try (ExtractParams r);
  match x with
  | inr err =>
      setStatusAsNotReady APIServerReady err SetApiServerStatus ;;
      SetDSPANotReady (Some err) FailingToDeploy ;;
      mret (MkResult true requeueTime)
  | inl _ =>
      dspaPrereqsReady ← reconcile_prereqs;
      if negb dspaPrereqsReady then mret (MkResult true requeueTime)
      else reconcile_components requeueTime
  end.

(** from the version check on *)
Definition reconcile_fetched : M Result :=
  d ← gets cur;
  if negb (DSPAWithSupportedDSPVersion d) then reject_unsupported d
  else
    ensure_kind ;;
    d ← gets cur;
    match dspa_DeletionTimestamp d with
    | Some _ => finalize d ;; mret no_requeue
    | None => ensure_finalizer d ;; reconcile_live
    end.

(** the parameters a reconcile starts from *)
Definition initial_params : DSPAParams :=
  zero_DSPAParams <| p_WebhookAnnotations := r_WebhookAnnotations r |>
                  <| p_ResolveMLflowEndpoint := Some RetrieveMLflowEndpointCached |>.

Definition Reconcile (req : NamespacedName) : M Result :=
  modify (fun s => s <| st_params := initial_params |> <| st_copy := None |>) ;;
  x ← try (io (CGet "DSPA" req) (get_dspa req));
  match x with
  | inr err => if IsNotFound err then mret no_requeue else fail err
  | inl d =>
      modify (fun s => s <| st_dspa := d |>) ;;
      st ← NewDSPAStatus;
      upd_status (fun _ => st) ;;
      defer (updateStatus req) (defer publish_unless_deleted reconcile_fetched)
  end.
End Controller.
