(* ===== verification/Watches.v ===== *)
(** * What triggers a reconcile (controllers/dspipeline_controller.go, [SetupWithManager])

    Besides the objects it owns, the controller watches three kinds of objects
    it does not own and maps each of their events to requests.  Setting the
    controller up also supplies the fetcher of managed-pipelines manifests:
    this file shows that [Fetcher.FetchPipelineNames] implements the interface
    the reconciler is written against. *)

From stdpp Require Import base gmap strings list.
From Stdlib Require Import ZArith.
From S2P Require Import Prelude GoStd GoJson KubeTypes ApiTypes Data Platform Config Sim Util.
From S2P Require Import Fetcher Reconciler.

Section Watches.
  Context {P : Platform}.

(** ** What the controller owns *)

(** The kinds of objects whose events concern the application that controls
    them.  Network policies and routes are among them, service monitors and
    pods are not. *)
Definition Owns : list string :=
  ["Deployment"; "Secret"; "ConfigMap"; "Service"; "ServiceAccount"; "PersistentVolumeClaim";
   "NetworkPolicy"; "Role"; "RoleBinding"; "Route"].

(** [handler.EnqueueRequestForOwner], of controller-runtime: the requests for
    the application that controls an object *)
Variable EnqueueRequestForOwner : Unstructured -> list NamespacedName.

(** an object of any kind: only an owned kind has the handler *)
Definition owned_requests (u : Unstructured) : list NamespacedName :=
  if existsb (fun k => bool_decide (u_kind u = k)) Owns then EnqueueRequestForOwner u else [].

(** ** The event handlers *)

(** a ConfigMap: the global CA bundle concerns every application of its namespace *)
Definition ca_bundle_requests (cm : ConfigMap) : M (list NamespacedName) :=
  let thisNamespace := cm_Namespace cm in
  if negb (bool_decide (cm_Name cm = "odh-trusted-ca-bundle")) then mret []
  else
    dspaList ← try (io (CList "DSPA") (list_dspas (Some thisNamespace)));
    match dspaList with
    | inr _ => mret []
    | inl items => mret ((fun d => NN thisNamespace (dspa_Name d)) <$> List.filter DSPAWithSupportedDSPVersion items)
    end.

(** a Pod *)
Definition pod_requests (pod : Pod) : M (list NamespacedName) :=
  match pod_Labels pod !! DSPComponentk8sLabel with
  | None => mret []
  | Some component =>
      if negb (bool_decide (component = DSPComponentk8sLabelValue)) then mret []
      else if negb (HasSupportedDSPVersionLabel (pod_Labels pod)) then mret []
      else match pod_Labels pod !! "dspa" with
           | None => mret []
           | Some dspaName => mret [NN (pod_Namespace pod) dspaName]
           end
  end.

(** a Secret: a certificate that the service CA issued for a service *)
Definition secret_requests (secret : Secret) : M (list NamespacedName) :=
  if negb (bool_decide (map_get (sec_Annotations secret) "openshift.io/owning-component" = "service-ca"))
  then mret []
  else
    let serviceName := map_get (sec_Annotations secret) "service.beta.openshift.io/originating-service-name" in
    let nn := NN (sec_Namespace secret) serviceName in
    service ← try (io (CGet "Service" nn) (get_service nn));
    match service with
    | inr _ => mret []
    | inl service =>
        match svc_Labels service !! "dspa" with
        | None => mret []
        | Some dspaName =>
            if negb (HasSupportedDSPVersionLabel (svc_Labels service)) then mret []
            else mret [NN (sec_Namespace secret) dspaName]
        end
    end.
End Watches.

(** ** The fetcher implements the interface *)

Section Implements.
  Context {P : Platform}.

Lemma keeps_upd_oci {A X} (f : St -> X) (g : OCIManifestFetcher -> A * OCIManifestFetcher) :
  (forall s o, f (s <| st_oci := o |>) = f s) -> keeps f (upd_oci g).
Proof. intros H s. unfold upd_oci. destruct (g (st_oci s)). apply H. Qed.

Lemma emits_upd_oci {A} Q (g : OCIManifestFetcher -> A * OCIManifestFetcher) : emits Q (upd_oci g).
Proof. intros s. unfold upd_oci. destruct (g (st_oci s)). constructor. Qed.

(** What does not depend on the outside or on the fetcher's own state is kept. *)
Lemma FetchPipelineNames_keeps {X} (f : St -> X) imageRef :
  (forall s w, f (s <| st_world := w |>) = f s) -> (forall s o, f (s <| st_oci := o |>) = f s) ->
  keeps f (FetchPipelineNames imageRef).
Proof.
  intros Hw Ho. pose proof (fun A => @keeps_upd_oci A X f) as Hu.
  pose proof (keeps_now f Hw) as Hn. pose proof (fun A c g => @keeps_io P A X f c g Hw) as Hio.
  unfold FetchPipelineNames, resolveImageDigest, extractManifestFromImage, getCached, putCache.
  repeat first [by auto | progress go_step]; auto.
Qed.

Definition registry_call (e : event) : Prop :=
  match ev_call e with CRegistry _ | CLayers _ => True | _ => False end.

Lemma FetchPipelineNames_emits imageRef : emits registry_call (FetchPipelineNames imageRef).
Proof.
  pose proof (fun A => @emits_upd_oci A registry_call) as Hu.
  unfold FetchPipelineNames, resolveImageDigest, extractManifestFromImage, getCached, putCache.
  repeat first [by auto | progress go_step]; auto.
Qed.

Lemma no_panic_upd_oci {A} (g : OCIManifestFetcher -> A * OCIManifestFetcher) : no_panic (upd_oci g).
Proof. intros s p. unfold upd_oci. by destruct (g (st_oci s)). Qed.

Lemma FetchPipelineNames_no_panic imageRef : no_panic (FetchPipelineNames imageRef).
Proof.
  pose proof (fun A => @no_panic_upd_oci A) as Hu.
  unfold FetchPipelineNames, resolveImageDigest, extractManifestFromImage, getCached, putCache.
  repeat first [by auto | progress go_step]; auto.
Qed.

(** the default fetcher *)
Definition OCI_PipelineNamesFetcher : PipelineNamesFetcher.
Proof.
  refine {| FetchPipelineNames_of := FetchPipelineNames |}; intros imageRef.
  7: exact (FetchPipelineNames_emits imageRef).
  7: exact (FetchPipelineNames_no_panic imageRef).
  all: by apply FetchPipelineNames_keeps.
Defined.

(** [SetupWithManager] on the reconciler and on the state of its fetcher: a
    fetcher that was injected is kept. *)
Definition SetupWithManager (r : DSPAReconciler) (f : OCIManifestFetcher) :
    DSPAReconciler * OCIManifestFetcher :=
  match r_ManifestFetcher r with
  | None => (r <| r_ManifestFetcher := Some OCI_PipelineNamesFetcher |>,
             NewOCIManifestFetcher (r_AllowedRegistries r))
  | Some _ => (r, f)
  end.
End Implements.
