(* ===== verification/Order.v ===== *)
(** * What a reconcile does, in which order

    The calls of each step of [Controller.Reconcile] as a phase, and the
    properties of the order in which the steps follow each other: nothing is
    deployed before the database and the object store answer, and invalid
    managed pipelines stop the workloads. *)

From stdpp Require Import base gmap strings list.
From Stdlib Require Import ZArith Lia.
From S2P Require Import Prelude GoStd GoJson GoCodec KubeTypes ApiTypes Data Platform Config Util Sim.
From S2P Require Import Status Metrics ManagedPipelines Fetcher Reconciler Params Extract Manifests.
From S2P Require Import Database Storage Components ApiServer Readiness Gauges Controller Watches.

(** ** Setters: no call, and only the collector and the clock change *)

Ltac unfold_setters := unfold SetDatabaseReady, SetDatabaseNotReady, SetObjStoreReady, SetObjStoreNotReady,
  SetWebhookReady, SetWebhookNotReady, SetWebhookNotApplicable, SetApiServerStatus,
  SetPersistenceAgentStatus, SetScheduledWorkflowStatus, SetWorkflowControllerStatus, SetMLMDProxyStatus,
  SetWorkflowControllerNotReady, SetWorkflowControllerReady, SetWorkflowControllerNotApplicable,
  SetManagedPipelineValid, SetManagedPipelineInvalid, SetManagedPipelineNotApplicable, SetDSPANotReady,
  setStatusAsNotReady, setStatusAsUnsupported in *.

Section Phases.
  Context {P : Platform}.
  Variable r : DSPAReconciler.

(** ** The phases *)

(** reading a deployment and its pods *)
Definition observes (e : event) : Prop :=
  match ev_call e with
  | CGet kind _ => kind = "Deployment"%string
  | CList kind => kind = "Pod"%string
  | _ => False
  end.

(** extraction of parameters: reads, and the config map with the certificates *)
Definition extracts (e : event) : Prop :=
  reads e \/ exists nn, ev_call e = CCreate "ConfigMap" nn \/ ev_call e = CUpdate "ConfigMap" nn.

Definition deploys_db (e : event) : Prop :=
  applies (dbSecret :: mariadbTemplates) e \/ exists nn, ev_call e = CUpdate "DSPA" nn.
Definition deploys_store (e : event) : Prop :=
  applies (storageSecret :: minioTemplates) e.
Definition checks_db (e : event) : Prop :=
  match ev_call e with CReadFile _ | CRegisterTLS _ _ | CSqlOpen _ _ | CSqlQuery _ _ => True | _ => False end.
Definition checks_store (e : event) : Prop :=
  match ev_call e with CStat _ _ => True | _ => False end.
Definition deploys_common (e : event) : Prop :=
  applies_dir commonTemplatesDir e \/ applies [commonCusterRolebindingTemplate] e.
Definition deploys_webhook (e : event) : Prop :=
  applies_dir webhookTemplatesDir e \/ exists nn, ev_call e = CGet "Deployment" nn.
Definition deploys_apiserver (e : event) : Prop :=
  applies_dir apiServerTemplatesDir e \/ applies (apiServerServerConfigTemplate :: serverRoute :: samples) e \/
  exists nn, ev_call e = CGet "Route" nn \/ ev_call e = CDelete "Route" nn.
Definition deploys_wc (e : event) : Prop :=
  applies_dir workflowControllerTemplatesDir e \/ deletes_dir workflowControllerTemplatesDir e.
Definition deploys_mlmd (e : event) : Prop :=
  applies_dir (mlmdTemplatesDir +:+ "/" +:+ mlmdGrpcService) e \/ mlmd_call e \/
  exists nn, ev_call e = CGet "Secret" nn.

Definition prereq_phases : list (event -> Prop) := [deploys_db; deploys_store; checks_db; checks_store].
Definition gate_phases : list (event -> Prop) := [deploys_common; deploys_webhook; registry_call].
Definition workload_phases_with (api : event -> Prop) : list (event -> Prop) :=
  [api; observes; applies_dir persistenceAgentTemplatesDir; observes;
   applies_dir scheduledWorkflowTemplatesDir; observes; deploys_wc; observes; deploys_mlmd; observes].
Definition workload_phases : list (event -> Prop) := workload_phases_with deploys_apiserver.

(** ** What each step calls *)

Lemma evaluateCondition_emits component ty : emits observes (evaluateCondition component ty).
Proof. unfold evaluateCondition. go_solve. Qed.

Lemma setStatus_emits name ty set :
  (forall c, emits observes (set c)) -> emits observes (setStatus name ty set).
Proof. intros H. unfold setStatus. go_solve; [apply evaluateCondition_emits|apply H..]. Qed.

Lemma or_report_emits {A} Q (m : M A) on_error :
  emits Q m -> (forall err, emits Q (on_error err)) -> emits Q (or_report m on_error).
Proof. intros H1 H2. unfold or_report. go_solve. Qed.

Lemma check_health_emits Q (m : M bool) on_error on_ok :
  emits Q m -> (forall err, emits Q (on_error err)) -> emits Q on_ok -> emits Q (check_health m on_error on_ok).
Proof. intros H1 H2 H3. unfold check_health. go_solve. Qed.

Lemma db_plan_templates d : db_plan d ⊆ dbSecret :: mariadbTemplates.
Proof.
  unfold db_plan. intros t. generalize mariadbTemplates. intros l.
  repeat case_match; rewrite ?list_elem_of_In; cbn [In]; tauto.
Qed.

Lemma storage_plan_templates d : storage_plan d ⊆ storageSecret :: minioTemplates.
Proof.
  unfold storage_plan, minio_templates_for. intros t. generalize minioTemplates. intros l.
  rewrite !list_elem_of_In. repeat case_match; cbn [app In]; rewrite ?filter_In; tauto.
Qed.

Lemma ReconcileDatabase_emits : emits deploys_db (ReconcileDatabase r).
Proof.
  intros s. destruct (spec_Database (dspa_Spec (cur s))) as [db|] eqn:Hdb.
  - destruct (ReconcileDatabase_run r s db Hdb) as (_ & H & _).
    eapply Forall_impl; [exact H|]. intros e [He|[He _]]; [left|right; eauto].
    eapply applies_mono; [|exact He]. apply db_plan_templates.
  - destruct (ReconcileDatabase_none r s Hdb) as [-> _]. constructor.
Qed.

Lemma ReconcileStorage_emits : emits deploys_store (ReconcileStorage r).
Proof.
  intros s. destruct (spec_ObjectStorage (dspa_Spec (cur s))) as [os|] eqn:Hos.
  - destruct (ReconcileStorage_run r s os Hos) as (_ & H & _).
    eapply Forall_impl; [exact H|]. intros e He.
    eapply applies_mono; [|exact He]. apply storage_plan_templates.
  - destruct (ReconcileStorage_none r s Hos) as [-> _]. constructor.
Qed.

Lemma isDatabaseAccessible_emits d : emits checks_db (isDatabaseAccessible d).
Proof.
  unfold isDatabaseAccessible, ConnectAndQueryDatabase, tls_config, tLSClientConfig, prm. go_solve.
Qed.

Lemma isObjectStorageAccessible_emits d : emits checks_store (isObjectStorageAccessible d).
Proof.
  unfold isObjectStorageAccessible, ConnectAndQueryObjStore, prm. go_solve.
Qed.

Lemma ReconcileCommon_emits : emits deploys_common (ReconcileCommon r).
Proof.
  unfold ReconcileCommon. go_solve.
  - eapply emits_mono; [|apply ApplyDir_emits]. by left.
  - eapply emits_mono; [|apply ApplyWithoutOwner_emits]. by right.
Qed.

Lemma reconcile_webhook_emits : emits deploys_webhook (reconcile_webhook r).
Proof.
  unfold reconcile_webhook. go_solve.
  all: unfold ReconcileWebhook, checkWebhookStatus, or_report, prm; unfold_setters; go_solve.
  all: first [eapply emits_mono; [|apply ApplyDir_emits]; by left
             |apply emits_io; intros b; right; by eexists].
Qed.

Lemma validateManagedPipelines_emits : emits registry_call (validateManagedPipelines r).
Proof.
  unfold validateManagedPipelines. go_solve. all: unfold_setters; try solve [go_solve]. apply fetch_emits.
Qed.

Lemma generate_emits Q d v : emits Q (generateSampleConfigJSON d v).
Proof.
  destruct (spec_APIServer (dspa_Spec d)) eqn:H.
  - apply silent_emits, silent_generate. by rewrite H.
  - unfold generateSampleConfigJSON. rewrite H. intros s. constructor.
Qed.

Lemma ReconcileAPIServer_emits : map_order_ok -> emits deploys_apiserver (ReconcileAPIServer r).
Proof.
  intros Hord. unfold ReconcileAPIServer, prm. go_step; [go_solve|]. go_step; [go_solve|].
  go_step; [apply emits_ret|]. go_step; [go_solve|]. go_step; [apply generate_emits|]. go_step; [go_solve|].
  go_step.
  - eapply emits_mono; [|apply Apply_emits]. intros e He. right; left. eapply applies_mono; [|exact He].
    intros t ->%list_elem_of_singleton. left.
  - fold (api_after_config r a a0). eapply in_phases_all; [apply api_after_config_phases, Hord|].
    unfold api_phases. apply Forall_cons; split; [|apply Forall_cons; split; [|apply Forall_singleton]]; intros e.
    + intros [He _]. by left.
    + unfold route_call. destruct (api_EnableRoute a0); intros He; right; [left|right; by eexists].
      eapply applies_mono; [|exact He]. intros t ->%list_elem_of_singleton. right; left.
    + intros He. right; left. eapply applies_mono; [|exact He]. intros t Ht. right; right. exact Ht.
Qed.

Lemma ReconcilePersistenceAgent_emits :
  emits (applies_dir persistenceAgentTemplatesDir) (ReconcilePersistenceAgent r).
Proof. unfold ReconcilePersistenceAgent. go_solve. apply ApplyDir_emits. Qed.

Lemma ReconcileScheduledWorkflow_emits :
  emits (applies_dir scheduledWorkflowTemplatesDir) (ReconcileScheduledWorkflow r).
Proof. unfold ReconcileScheduledWorkflow. go_solve. apply ApplyDir_emits. Qed.

Lemma ReconcileWorkflowController_emits : emits deploys_wc (ReconcileWorkflowController r).
Proof.
  unfold ReconcileWorkflowController. go_solve.
  - eapply emits_mono; [|apply ApplyDir_emits]. by left.
  - eapply emits_mono; [|apply DeleteResourceDir_emits]. by right.
Qed.

Lemma ReconcileMLMD_emits : emits deploys_mlmd (ReconcileMLMD r).
Proof.
  unfold ReconcileMLMD, LoadMlmdCertificates, GetSecret, prm. go_step; [go_solve|]. go_step; [go_solve|].
  go_step; [apply emits_ret|]. go_step.
  { eapply emits_mono; [|apply ApplyDir_emits]. by left. }
  go_step; [go_solve; apply emits_io; intros b; right; right; by eexists|].
  eapply emits_mono; [|apply mlmd_rest_emits]. intros e He. by right; left.
Qed.

(** ** Programs in phases *)

Lemma reconcile_component_phases Q (m : M unit) name ty set :
  emits Q m -> (forall Q' c, emits Q' (set c)) -> in_phases [Q; observes] (reconcile_component m name ty set).
Proof.
  intros Hm Hset. unfold reconcile_component, prm. apply (in_phases_bind [Q] [observes]).
  - apply in_phases_emits, or_report_emits; [done|]. intros err. unfold setStatusAsNotReady. go_solve.
  - intros _. apply in_phases_emits. go_solve. by apply setStatus_emits.
Qed.

Lemma emits_SetApiServerStatus Q c : emits Q (SetApiServerStatus c).
Proof. unfold_setters. go_solve. Qed.
Lemma emits_SetPersistenceAgentStatus Q c : emits Q (SetPersistenceAgentStatus c).
Proof. unfold_setters. go_solve. Qed.
Lemma emits_SetScheduledWorkflowStatus Q c : emits Q (SetScheduledWorkflowStatus c).
Proof. unfold_setters. go_solve. Qed.
Lemma emits_SetWorkflowControllerStatus Q c : emits Q (SetWorkflowControllerStatus c).
Proof. unfold_setters. go_solve. Qed.
Lemma emits_SetMLMDProxyStatus Q c : emits Q (SetMLMDProxyStatus c).
Proof. unfold_setters. go_solve. Qed.

Lemma reconcile_workloads_phases Qapi :
  emits Qapi (ReconcileAPIServer r) -> in_phases (workload_phases_with Qapi) (reconcile_workloads r).
Proof.
  intros Hapi. unfold reconcile_workloads, prm, workload_phases_with.
  apply (in_phases_bind [_; _]);
    [apply reconcile_component_phases; [exact Hapi|apply emits_SetApiServerStatus]|intros _].
  apply (in_phases_bind [_; _]);
    [apply reconcile_component_phases; [apply ReconcilePersistenceAgent_emits|apply emits_SetPersistenceAgentStatus]|intros _].
  apply (in_phases_bind [_; _]);
    [apply reconcile_component_phases; [apply ReconcileScheduledWorkflow_emits|apply emits_SetScheduledWorkflowStatus]|intros _].
  apply (in_phases_bind [_]);
    [apply in_phases_emits, or_report_emits; [apply ReconcileWorkflowController_emits|]|intros enabled].
  { intros err. unfold_setters. go_solve. }
  apply (in_phases_bind []); [apply in_phases_silent, emits_gets|intros params].
  apply (in_phases_bind [_]).
  { apply in_phases_emits. destruct enabled; [apply setStatus_emits, emits_SetWorkflowControllerStatus|].
    unfold_setters. go_solve. }
  intros _. apply reconcile_component_phases; [apply ReconcileMLMD_emits|apply emits_SetMLMDProxyStatus].
Qed.

Lemma preserve_emits Q : emits Q preservePostValidationConditions.
Proof. unfold preservePostValidationConditions, preserve. unfold_setters. go_solve. Qed.

Lemma reconcile_components_phases Qapi q :
  emits Qapi (ReconcileAPIServer r) ->
  in_phases (gate_phases ++ workload_phases_with Qapi) (reconcile_components r q).
Proof.
  intros Hapi. unfold reconcile_components.
  apply (in_phases_bind [_]); [apply in_phases_emits, ReconcileCommon_emits|intros _].
  apply (in_phases_bind [_]); [apply in_phases_emits, reconcile_webhook_emits|intros []; cbn [negb]].
  2: apply in_phases_silent, emits_ret.
  apply (in_phases_bind [_]); [apply in_phases_emits, validateManagedPipelines_emits|intros [[] requeue]; cbn [negb]].
  - rewrite <- (app_nil_r (workload_phases_with Qapi)).
    apply in_phases_bind; [by apply reconcile_workloads_phases|intros _; apply in_phases_silent, emits_ret].
  - apply in_phases_silent, emits_bind; [apply preserve_emits|intros _; apply emits_ret].
Qed.

Lemma reconcile_prereqs_phases : in_phases prereq_phases (reconcile_prereqs r).
Proof.
  unfold reconcile_prereqs, prereq_phases.
  apply (in_phases_bind [_]); [apply in_phases_emits, or_report_emits; [apply ReconcileDatabase_emits|]|intros _].
  { intros err. unfold_setters. go_solve. }
  apply (in_phases_bind []); [apply in_phases_silent; unfold_setters; go_solve|intros _].
  apply (in_phases_bind [_]); [apply in_phases_emits, or_report_emits; [apply ReconcileStorage_emits|]|intros _].
  { intros err. unfold_setters. go_solve. }
  apply (in_phases_bind []); [apply in_phases_silent; unfold_setters; go_solve|intros _].
  apply (in_phases_bind []); [apply in_phases_silent, emits_gets|intros d].
  apply (in_phases_bind [_]);
    [apply in_phases_emits, check_health_emits; [apply isDatabaseAccessible_emits|..]|intros b1].
  1,2: intros; unfold_setters; go_solve.
  apply (in_phases_bind [_] []);
    [apply in_phases_emits, check_health_emits; [apply isObjectStorageAccessible_emits|..]|intros b2].
  1,2: intros; unfold_setters; go_solve.
  apply in_phases_silent, emits_ret.
Qed.

Lemma ExtractParams_emits : emits extracts (ExtractParams r).
Proof.
  intros s. eapply Forall_impl; [apply ExtractParams_calls|]. intros e [He|He]; [by left|].
  right. by eexists.
Qed.

(** ** The prerequisites *)

Lemma returns_or_report {A} (m : M A) f Q s : returns m Q s -> returns (or_report m f) Q s.
Proof.
  intros H a. unfold or_report. rewrite bind_try.
  destruct (out (m s)) as [b|e|p] eqn:Hm; [|..].
  - cbn. rewrite app_nil_r. intros [= <-]. by apply H.
  - unfold mbind, prog_bind. by destruct (out (f e _)).
  - done.
Qed.

(** A health check that came out positive did so by itself. *)
Lemma check_health_true (m : M bool) f ok (s : St) :
  (forall Q, emits Q ok) -> keeps st_params ok -> keeps cur ok ->
  returns (check_health m f ok) (fun b s' t => b = true ->
    out (m s) = Ret true /\ t = evs (m s) /\ st_params s' = st_params (fin (m s)) /\ cur s' = cur (fin (m s))) s.
Proof.
  intros He Hp Hc b. unfold check_health. rewrite bind_try. destruct (out (m s)) as [x|e|p] eqn:Hm.
  - cbn [out fin evs]. set (s1 := fin (m s)). specialize (He (fun _ => False) s1). specialize (Hp s1). specialize (Hc s1).
    unfold mbind, prog_bind. destruct (out (ok s1)) as [[]| |]; cbn; [|done..].
    intros [= <-] ->. destruct (evs (ok s1)) as [|e t]; [by rewrite !app_nil_r|by inversion He].
  - unfold mbind, prog_bind. destruct (out (f e _)); cbn; [|done..]. by intros [= <-].
  - done.
Qed.

Lemma isDatabaseAccessible_returns d (s : St) :
  out (isDatabaseAccessible d s) = Ret true -> DatabaseHealthCheckDisabled d = true \/
  exists tls, Ev (CSqlQuery (dbc_Host (p_DBConnection (st_params s)) +:+ ":" +:+ dbc_Port (p_DBConnection (st_params s))) tls) true
                ∈ evs (isDatabaseAccessible d s).
Proof.
  intros H. unfold isDatabaseAccessible, prm in *. rewrite !bind_get in *. destruct (DatabaseHealthCheckDisabled d); [by left|right].
  destruct (negb _ && negb _); [done|].
  rewrite !bind_GetDurationConfigWithDefault in *.
  destruct (k8s_unmarshal_string_map _) as [extra|e]; [|done].
  rewrite !bind_lift in *.
  match goal with |- exists _, _ ∈ evs (ConnectAndQueryDatabase ?h ?p ?u ?pw ?n ?tls ?t ?pems ?ex ?s0) =>
    destruct (ConnectAndQueryDatabase_calls h p u pw n tls t pems ex s0) as [Hc _]; set (m := ConnectAndQueryDatabase _ _ _ _ _ _ _ _ _) in * end.
  rewrite H in Hc. destruct Hc as [_ (_ & _ & Hq)]. by eexists.
Qed.

(** what the trace shows of a stat with this answer *)
Definition ok_of {A} (r : A + error) : bool := match r with inl _ => true | inr _ => false end.

(** The object store was asked at its configured address, and from a state of the
    outside in which its answer shows that it is there. *)
Definition store_answered (p : DSPAParams) (t : list event) : Prop :=
  exists secure w, osc_Secure (p_ObjectStorageConnection p) = Some secure /\
    answered (store_answer p secure w) /\
    Ev (CStat (endpoint_of (p_ObjectStorageConnection p)) secure) (ok_of (store_answer p secure w)) ∈ t.

Lemma isObjectStorageAccessible_returns d (s : St) :
  out (isObjectStorageAccessible d s) = Ret true ->
  ObjectStorageHealthCheckDisabled d = true \/ store_answered (st_params s) (evs (isObjectStorageAccessible d s)).
Proof.
  pose proof (isObjectStorageAccessible_cases d s) as H. unfold wp in H.
  destruct (ObjectStorageHealthCheckDisabled d); [by left|]. intros Ho. rewrite Ho in H. right.
  destruct (osc_Secure _) as [secure|] eqn:Hs; [|by destruct H as [_ H]; destruct (H true)].
  destruct H as [H1 H2]. assert (~ refused_unasked (st_params s) secure) as Hn by by intros [_ [e He]]%H1.
  destruct (H2 Hn) as (-> & [Ha _] & _). exists secure, (st_world s).
  split_and!; [done|by apply Ha|by apply list_elem_of_singleton].
Qed.

(** What is known once the prerequisites are there: everything they need was
    applied, the database answered a query and the object store a stat, each
    unless its check is disabled. *)
Definition prereqs_passed (s : St) (t : list event) : Prop :=
  let p := st_params s in
  exists d, (db_defaulted (cur s) = false -> d = cur s) /\
    applied t = db_plan (cur s) ++ storage_plan d /\
    (DatabaseHealthCheckDisabled d = true \/
     exists tls, Ev (CSqlQuery (dbc_Host (p_DBConnection p) +:+ ":" +:+ dbc_Port (p_DBConnection p)) tls) true ∈ t) /\
    (ObjectStorageHealthCheckDisabled d = true \/ store_answered p t).

Lemma ReconcileDatabase_returns (s : St) :
  returns (ReconcileDatabase r) (fun _ s' t =>
    applied t = db_plan (cur s) /\ st_params s' = st_params s /\ (db_defaulted (cur s) = false -> cur s' = cur s)) s.
Proof.
  intros [] Ho. destruct (spec_Database (dspa_Spec (cur s))) as [db|] eqn:Hdb.
  - pose proof (ReconcileDatabase_run r s db Hdb) as (_ & _ & Hp & H). rewrite Ho in H. destruct H as [Ha Hd].
    split_and!; [done..|]. intros Hn. by rewrite Hn in Hd.
  - destruct (ReconcileDatabase_none r s Hdb) as (_ & _ & w & Hw). congruence.
Qed.

Lemma ReconcileStorage_returns (s : St) :
  returns (ReconcileStorage r) (fun _ s' t =>
    applied t = storage_plan (cur s) /\ st_params s' = st_params s /\ cur s' = cur s) s.
Proof.
  intros [] Ho. destruct (spec_ObjectStorage (dspa_Spec (cur s))) as [os|] eqn:Hos.
  - pose proof (ReconcileStorage_run r s os Hos) as (_ & _ & Hp & Hc & H). by rewrite Ho in H.
  - destruct (ReconcileStorage_none r s Hos) as (_ & _ & w & Hw). congruence.
Qed.

(** a setter, then the rest *)
Lemma returns_setter {B} (m : M unit) (k : unit -> M B) Q s :
  (forall Q, emits Q m) -> keeps st_params m -> keeps cur m ->
  (forall s', st_params s' = st_params s -> cur s' = cur s -> returns (k tt) Q s') -> returns (m ≫= k) Q s.
Proof.
  intros He Hp Hc Hk. apply returns_bind. intros [] _.
  specialize (He (fun _ => False) s). destruct (evs (m s)) as [|e t]; [|by inversion He]. apply Hk; [apply Hp|apply Hc].
Qed.

Lemma checks_quiet d :
  emits (fun e => forall x, ev_call e ≠ CApply x) (isDatabaseAccessible d) /\
  emits (fun e => forall x, ev_call e ≠ CApply x) (isObjectStorageAccessible d).
Proof.
  split; (eapply emits_mono; [|first [apply isDatabaseAccessible_emits|apply isObjectStorageAccessible_emits]]);
    intros e; unfold checks_db, checks_store; destruct (ev_call e); done.
Qed.

Lemma isDatabaseAccessible_keeps d : keeps st_params (isDatabaseAccessible d).
Proof. unfold isDatabaseAccessible, ConnectAndQueryDatabase, tls_config, tLSClientConfig, prm. go_solve. Qed.

Lemma reconcile_prereqs_passed (s : St) :
  returns (reconcile_prereqs r) (fun b s' t => b = true -> prereqs_passed s t) s.
Proof.
  unfold reconcile_prereqs. apply returns_bind, returns_or_report.
  eapply returns_mono; [apply ReconcileDatabase_returns|]. cbn beta. intros _ s1 t1 (Ha1 & Hp1 & Hc1).
  apply returns_setter; [unfold_setters; intros; go_solve..|intros s2 Hp2 Hc2].
  apply returns_bind, returns_or_report.
  eapply returns_mono; [apply ReconcileStorage_returns|]. cbn beta. intros _ s3 t3 (Ha3 & Hp3 & Hc3).
  apply returns_setter; [unfold_setters; intros; go_solve..|intros s4 Hp4 Hc4].
  apply returns_bind, returns_gets, returns_bind. set (d := cur s4).
  eapply returns_mono; [apply check_health_true; unfold_setters; intros; go_solve|]. cbn beta. intros b1 s5 t5 H5.
  apply returns_bind.
  eapply returns_mono; [apply check_health_true; unfold_setters; intros; go_solve|]. cbn beta. intros b2 s6 t6 H6.
  apply returns_ret. intros [-> ->]%andb_prop. destruct (H5 eq_refl) as (Ho5 & -> & Hp5 & _).
  destruct (H6 eq_refl) as (Ho6 & -> & _ & _). clear H5 H6.
  apply isDatabaseAccessible_returns in Ho5. apply isObjectStorageAccessible_returns in Ho6.
  destruct (checks_quiet d) as [Q1 Q2]. rewrite isDatabaseAccessible_keeps in Hp5.
  assert (st_params s4 = st_params s) as E4 by congruence. assert (st_params s5 = st_params s) as E5 by congruence.
  rewrite E4 in Ho5. rewrite E5 in Ho6.
  exists d. split_and!.
  - unfold d. intros Hn. rewrite Hc4, Hc3, Hc2. by apply Hc1.
  - rewrite !applied_app, Ha1, Ha3, (applied_none (evs (isDatabaseAccessible d s4))), (applied_none (evs (isObjectStorageAccessible d s5)))
      by first [apply Q1|apply Q2]. unfold d. rewrite Hc4, Hc3. by rewrite !app_nil_r.
  - destruct Ho5 as [|[tls Hq]]; [by left|right]. exists tls. set_solver.
  - destruct Ho6 as [|(sec & w & ? & ? & Hq)]; [by left|right]. exists sec, w. split_and!; [done..|set_solver].
Qed.

(** Two gates in a row: an error of the first program, or a refusal of the
    second, ends the run without further calls. *)
Lemma two_gates {A} (m0 : M unit) (m1 : M bool) (k : bool -> M A) (h : error -> M A) Q0 ps1 ps2 (s : St) :
  emits Q0 m0 -> in_phases ps1 m1 -> (forall b, in_phases ps2 (k b)) ->
  emits (fun _ => False) (k false) -> (forall e, emits (fun _ => False) (h e)) ->
  wp (x ← try m0; match x with inr e => h e | inl _ => b ← m1; k b end) (fun o s' t =>
    exists t0 t1 t2, t = t0 ++ t1 ++ t2 /\ Forall Q0 t0 /\ phased ps1 t1 /\ phased ps2 t2 /\
      (out (m0 s) ≠ Ret tt -> t1 = [] /\ t2 = []) /\
      (t2 ≠ [] -> out (m1 (fin (m0 s))) = Ret true /\ t1 = evs (m1 (fin (m0 s))))) s.
Proof.
  intros H0 H1 H2 Hf Hh. unfold wp. rewrite bind_try. specialize (H0 s).
  pose proof (phased_nil ps1) as N1. pose proof (phased_nil ps2) as N2.
  destruct (out (m0 s)) as [[]|err|why] eqn:Ho.
  - set (s1 := fin (m0 s)) in *. specialize (H1 s1). cbn [out fin evs]. unfold mbind, prog_bind.
    destruct (out (m1 s1)) as [b| |] eqn:Hb; cbn [out fin evs].
    + exists (evs (m0 s)), (evs (m1 s1)), (evs (k b (fin (m1 s1)))). split; [done|]. split; [done|]. split; [done|].
      split; [apply H2|]. split; [done|]. intros Hne. destruct b; [done|].
      specialize (Hf (fin (m1 s1))). by destruct (evs (k false _)); [|inversion Hf].
    + exists (evs (m0 s)), (evs (m1 s1)), []. rewrite app_nil_r. by split_and!.
    + exists (evs (m0 s)), (evs (m1 s1)), []. rewrite app_nil_r. by split_and!.
  - cbn [out fin evs]. specialize (Hh err (fin (m0 s))).
    destruct (evs (h err _)) as [|e t]; [|by inversion Hh]. exists (evs (m0 s)), [], []. by split_and!.
  - exists (evs (m0 s)), [], []. cbn. rewrite app_nil_r. by split_and!.
Qed.


(** ** Invalid managed pipelines stop the workloads *)

(** the condition on managed pipelines *)
Definition mp_cond (s : St) : Condition := s_managedPipelineValid (st_status s).

#[local] Hint Extern 1 (inner _) => intros ? ?; reflexivity : go.

(** What validation settles: whether to go on, and whether to try again, as the
    reason of the condition says. *)
Definition mp_settled (s : St) (o : outcome (bool * bool)) (s' : St) : Prop :=
  cur s' = cur s /\ st_status s' = (st_status s) <| s_managedPipelineValid := mp_cond s' |> /\
  match o with
  | Ret (proceed, requeue) =>
      (proceed = false <-> c_Reason (mp_cond s') = ManagedPipelineInvalid) /\
      (proceed = true <-> blocks (mp_cond s') = false) /\
      (requeue = true <-> c_Reason (mp_cond s') = ManagedPipelinesFetchError)
  | Fail _ => False
  | Panic _ => r_ManifestFetcher r = None /\ st_status s' = st_status s
  end.

Lemma settle (f : Z -> Condition) (proceed requeue : bool) reason (s s1 : St) :
  (forall t, c_Reason (f t) = reason) ->
  (proceed = false <-> reason = ManagedPipelineInvalid) -> (forall t, proceed = true <-> blocks (f t) = false) ->
  (requeue = true <-> reason = ManagedPipelinesFetchError) ->
  cur s1 = cur s -> st_status s1 = st_status s ->
  wp ((t ← now; upd_status (fun st => st <| s_managedPipelineValid := f t |>)) ;; mret (proceed, requeue))
    (fun o s' _ => mp_settled s o s') s1.
Proof.
  intros Hr Hp Hb Hq Hc Hs. apply wp_assoc. destruct (now_run s1) as (t & w & Hn).
  eapply wp_step; [exact Hn|]. unfold upd_status. apply wp_modify, wp_ret.
  unfold mp_settled, mp_cond. cbn. rewrite Hr, <- Hs. specialize (Hb t). by split_and!.
Qed.

Lemma validate_outcome (s : St) :
  wp (validateManagedPipelines r) (fun o s' _ => mp_settled s o s') s.
Proof.
  unfold validateManagedPipelines. apply wp_get.
  destruct (_ ≫= api_ManagedPipelines) as [mp|].
  2: by apply (settle (fun t => BuildFalseCondition t ManagedPipelineValid "NotApplicable"
      "Managed pipelines not configured or no explicit pipeline list") true false "NotApplicable" s s).
  case_bool_decide; [by apply (settle (fun t => BuildFalseCondition t ManagedPipelineValid "NotApplicable"
      "Managed pipelines not configured or no explicit pipeline list") true false "NotApplicable" s s)|].
  destruct (r_ManifestFetcher r) as [f|] eqn:Hf; [|by split_and!; [|destruct s as [? ? ? ? []]|]].
  apply wp_ret_bind. unfold wp. rewrite bind_try.
  pose proof (fetch_keeps_dspa f (mps_Image mp) s) as K1. pose proof (fetch_keeps_copy f (mps_Image mp) s) as K2.
  pose proof (fetch_keeps_status f (mps_Image mp) s) as K3. pose proof (fetch_no_panic f (mps_Image mp) s) as Hnp.
  set (s1 := fin (FetchPipelineNames_of f (mps_Image mp) s)) in *.
  assert (cur s1 = cur s) as Hc by (unfold cur; congruence).
  destruct (out _) as [l|e|w]; [..|by destruct (Hnp w)]; cbn [out fin evs].
  - rewrite bind_get. destruct (ValidateManagedPipelineNames _ _) as [err|].
    + apply (settle (fun t => BuildFalseCondition t ManagedPipelineValid ManagedPipelineInvalid (message_of (Some err)))
               false false ManagedPipelineInvalid s s1); done.
    + apply (settle (fun t => BuildTrueCondition t ManagedPipelineValid "All managed pipeline names are valid")
               true false ManagedPipelineValid s s1); done.
  - destruct (is_permanent e).
    + apply (settle (fun t => BuildFalseCondition t ManagedPipelineValid ManagedPipelineInvalid (message_of (Some e)))
               false false ManagedPipelineInvalid s s1); done.
    + apply (settle (fun t => BuildFalseCondition t ManagedPipelineValid ManagedPipelinesFetchError (message_of (Some e)))
               true true ManagedPipelinesFetchError s s1); done.
Qed.

(** ** What the components leave alone *)

Lemma evaluate_keeps {X} (f : St -> X) name ty set :
  inner f -> (forall c, keeps f (set c)) -> keeps f (setStatus name ty set).
Proof. intros Hf Hs. unfold setStatus, evaluateCondition. go_solve; first [by apply keeps_now|by apply keeps_io]. Qed.

Lemma ReconcileAPIServer_keeps {X} (f : St -> X) :
  inner f -> (forall s g, f (s <| st_params ::= g |>) = f s) -> keeps f (ReconcileAPIServer r).
Proof.
  intros Hf Hp s. destruct (spec_APIServer (dspa_Spec (cur s))) as [api|] eqn:Hapi.
  2: { unfold ReconcileAPIServer. rewrite bind_get, Hapi. done. }
  unfold ReconcileAPIServer, prm. rewrite bind_get, Hapi, bind_some. destruct (negb _); [done|]. rewrite bind_get.
  match goal with |- f (fin (?m s)) = _ => assert (keeps f m) as H; [|apply H] end.
  apply keeps_bind; [apply silent_keeps, silent_generate; by rewrite Hapi|intros json].
  apply keeps_bind; [intros s'; apply Hp|intros _]. apply keeps_bind; [by apply Apply_keeps|intros _].
  fold (api_after_config r (cur s) api). by apply api_after_config_keeps.
Qed.

Lemma component_keeps {X} (f : St -> X) :
  inner f -> (forall s g, f (s <| st_params ::= g |>) = f s) ->
  keeps f (ReconcileCommon r) /\ keeps f (ReconcilePersistenceAgent r) /\ keeps f (ReconcileScheduledWorkflow r) /\
  keeps f (ReconcileWorkflowController r) /\ keeps f (ReconcileMLMD r) /\
  keeps f (ReconcileWebhook r) /\ keeps f checkWebhookStatus.
Proof.
  intros Hf Hp. assert (forall g, keeps f (upd_params g)) as Hu by (intros g s; apply Hp).
  unfold ReconcileCommon, ReconcilePersistenceAgent, ReconcileScheduledWorkflow, ReconcileWorkflowController,
    ReconcileMLMD, LoadMlmdCertificates, GetSecret, ReconcileWebhook, checkWebhookStatus, prm.
  split_and!; go_solve; by apply keeps_io.
Qed.

Lemma workloads_keep_mp : keeps mp_cond (reconcile_workloads r).
Proof.
  destruct (component_keeps mp_cond) as (_ & K2 & K3 & K4 & K5 & _); [done..|].
  assert (keeps mp_cond (ReconcileAPIServer r)) as K1 by by apply ReconcileAPIServer_keeps.
  unfold reconcile_workloads, reconcile_component, or_report, prm.
  go_solve; first [apply evaluate_keeps; [done|intros c]|idtac]; unfold_setters; go_solve.
Qed.

(** the conditions of the components behind the gate *)
Definition workload_types : list string :=
  [APIServerReady; PersistenceAgentReady; ScheduledWorkflowReady; WorkflowControllerReady; MLMDProxyReady].

(** the previous condition of a type if the application has one, or else [c] *)
Definition previous_or (d : DataSciencePipelinesApplication) (ty : string) (c : Condition) : Condition :=
  let prev := GetConditionByType ty (ds_Conditions (dspa_Status d)) in
  if bool_decide (c_Type prev = ty) then prev else c.

Definition put_previous (d : DataSciencePipelinesApplication) (st : dspaStatus) : dspaStatus :=
  st <| s_apiServerReady ::= previous_or d APIServerReady |>
     <| s_persistenceAgentReady ::= previous_or d PersistenceAgentReady |>
     <| s_scheduledWorkflowReady ::= previous_or d ScheduledWorkflowReady |>
     <| s_workflowControllerReady ::= previous_or d WorkflowControllerReady |>
     <| s_mlmdProxyReady ::= previous_or d MLMDProxyReady |>.

(** one condition put back, given how its setter writes it *)
Lemma preserve_one ty set (upd : (Condition -> Condition) -> dspaStatus -> dspaStatus) (s : St) :
  (forall c, set c = upd_status (upd (fun _ => c))) -> (forall st, upd (fun c => c) st = st) ->
  preserve ty set s = Run (Ret tt) (s <| st_status ::= upd (previous_or (cur s) ty) |>) [].
Proof.
  intros Hset Hid. unfold preserve, previous_or. rewrite bind_get. case_bool_decide; cbn [whenb].
  - by rewrite Hset.
  - destruct s as [w d c p st o m g]. cbn. by rewrite Hid.
Qed.

Lemma preserve_run (s : St) :
  preservePostValidationConditions s = Run (Ret tt) (s <| st_status ::= put_previous (cur s) |>) [].
Proof.
  unfold preservePostValidationConditions.
  eapply (bind_run _ _ _ _ _ []); [apply (preserve_one _ _ (set s_apiServerReady)); [done|by intros []]|].
  eapply (bind_run _ _ _ _ _ []); [apply (preserve_one _ _ (set s_persistenceAgentReady)); [done|by intros []]|].
  eapply (bind_run _ _ _ _ _ []); [apply (preserve_one _ _ (set s_scheduledWorkflowReady)); [done|by intros []]|].
  eapply (bind_run _ _ _ _ _ []); [apply (preserve_one _ _ (set s_workflowControllerReady)); [done|by intros []]|].
  rewrite (preserve_one _ _ (set s_mlmdProxyReady)); [done..|by intros []].
Qed.

(** what comes before the check of managed pipelines leaves alone *)
Definition before_gate (s : St) :=
  (cur s, mp_cond s, (s_apiServerReady (st_status s), s_persistenceAgentReady (st_status s),
   s_scheduledWorkflowReady (st_status s), s_workflowControllerReady (st_status s), s_mlmdProxyReady (st_status s))).

Lemma gate_keeps : keeps before_gate (ReconcileCommon r) /\ keeps before_gate (reconcile_webhook r).
Proof.
  destruct (component_keeps before_gate) as (K1 & _ & _ & _ & _ & K6 & K7); [done..|]. split; [done|].
  unfold reconcile_webhook, or_report. go_solve; unfold_setters; go_solve.
Qed.

Lemma workload_slots (st st' : dspaStatus) d :
  (s_apiServerReady st', s_persistenceAgentReady st', s_scheduledWorkflowReady st',
   s_workflowControllerReady st', s_mlmdProxyReady st') =
  (s_apiServerReady st, s_persistenceAgentReady st, s_scheduledWorkflowReady st,
   s_workflowControllerReady st, s_mlmdProxyReady st) ->
  forall ty c, ty ∈ workload_types -> slot st ty = Some c -> slot (put_previous d st') ty = Some (previous_or d ty c).
Proof.
  intros H ty c Hty.
  unfold workload_types in Hty. destruct st as [? ? ? ? ? ? ? o ? ?], st' as [? ? ? ? ? ? ? o' ? ?]. cbn in H. simplify_eq.
  repeat (apply elem_of_cons in Hty as [->|Hty]; [destruct o, o'; cbn; by intros [= <-]|]).
  by apply not_elem_of_nil in Hty.
Qed.

(** The run got through the check: the components behind it are reconciled, an
    error of theirs is the run's, and otherwise it ends as given. *)
Definition went_on (res : Result) (o : outcome Result) (s' : St) (t : list event) : Prop :=
  exists s3 t3, t = t3 ++ evs (reconcile_workloads r s3) /\ phased gate_phases t3 /\
    s' = fin (reconcile_workloads r s3) /\
    o = match out (reconcile_workloads r s3) with Ret _ => Ret res | Fail e => Fail e | Panic w => Panic w end.

(** How a run ends once the check said what it says. *)
Definition check_obeyed q (s : St) (o : outcome Result) (s' : St) (t : list event) : Prop :=
  let told reason := c_Reason (mp_cond s) ≠ reason /\ c_Reason (mp_cond s') = reason in
  (told ManagedPipelineInvalid ->
     phased gate_phases t /\ o = Ret no_requeue /\
     forall ty c, ty ∈ workload_types -> slot (st_status s) ty = Some c ->
       slot (st_status s') ty = Some (previous_or (cur s) ty c)) /\
  (told ManagedPipelinesFetchError -> went_on (MkResult false q) o s' t) /\
  (told ManagedPipelineValid -> went_on no_requeue o s' t) /\
  (c_Reason (mp_cond s') = ManagedPipelinesFetchError -> forall res, o = Ret res -> res = MkResult false q).

(** nothing is told by a run that does not come to the check *)
Lemma not_checked q (s : St) o s' t : mp_cond s' = mp_cond s -> (forall res, o = Ret res -> res = MkResult false q) ->
  check_obeyed q s o s' t.
Proof. intros Hm Ho. unfold check_obeyed. rewrite Hm. split_and!; [by intros []..|by intros _]. Qed.

(** The check let the run go on: behind it come the components. *)
Lemma passed_check q (s s3 : St) pre (requeue : bool) :
  phased gate_phases pre -> c_Reason (mp_cond s3) ≠ ManagedPipelineInvalid ->
  (requeue = true <-> c_Reason (mp_cond s3) = ManagedPipelinesFetchError) ->
  wp (reconcile_workloads r ;; mret (if requeue then MkResult false q else no_requeue))
    (fun o s' t => check_obeyed q s o s' (pre ++ t)) s3.
Proof.
  intros Hpre Hne Hq. apply wp_bind. pose proof (workloads_keep_mp s3) as E. unfold wp at 1.
  set (s4 := fin (reconcile_workloads r s3)) in *. rewrite <- E in Hne, Hq.
  assert (forall o res, o = match out (reconcile_workloads r s3) with Ret _ => Ret res | Fail e => Fail e | Panic w => Panic w end ->
    went_on res o s4 (pre ++ evs (reconcile_workloads r s3))) as Hwent by (intros o res ->; by exists s3, pre).
  assert (c_Reason (mp_cond s4) = ManagedPipelineValid -> requeue = false) as Hv.
  { intros Hv. destruct requeue; [|done]. destruct Hq as [Hq _]. rewrite (Hq eq_refl) in Hv. done. }
  destruct (out (reconcile_workloads r s3)) as [[]| |]; [apply wp_ret; rewrite app_nil_r|..].
  all: split_and!; [by intros []|intros [_ Hf]; apply Hwent|intros [_ Hf]; apply Hwent|intros Hf res]; try done.
  - by apply Hq in Hf as ->.
  - by rewrite (Hv Hf).
  - apply Hq in Hf as ->. by intros [= <-].
Qed.

(** the conditions of the components behind the check *)
Definition behind_gate (st : dspaStatus) :=
  (s_apiServerReady st, s_persistenceAgentReady st, s_scheduledWorkflowReady st,
   s_workflowControllerReady st, s_mlmdProxyReady st).

(** The check stopped the run: the conditions behind it are put back. *)
Lemma stopped_by_check q (s s3 : St) pre :
  phased gate_phases pre -> c_Reason (mp_cond s3) = ManagedPipelineInvalid ->
  cur s3 = cur s -> behind_gate (st_status s3) = behind_gate (st_status s) ->
  wp (preservePostValidationConditions ;; mret no_requeue) (fun o s' t => check_obeyed q s o s' (pre ++ t)) s3.
Proof.
  intros Hpre Hi Hc Hb. apply wp_bind. unfold wp at 1. rewrite preserve_run. cbn [out fin evs]. apply wp_ret.
  unfold mp_cond in Hi. split_and!; [|intros [_ Hf]|intros [_ Hf]|intros Hf]; try (exfalso; cbn in Hf; by rewrite Hi in Hf).
  intros _. rewrite !app_nil_r. split_and!; [done..|]. intros ty c Hty Hs. cbn [st_status set]. rewrite Hc.
  by apply (workload_slots (st_status s)).
Qed.

(** C7: Managed pipelines that are found invalid stop everything behind the check:
    the run makes no further call, ends without asking to be repeated, and the
    collector keeps, for each of the five components behind the check, the
    condition the application last published, if there is one.  When the names
    could only not be fetched, the components are reconciled all the same, and
    the run asks to be repeated unless one of them fails; when the names are
    valid, they are reconciled and the run does not ask to be repeated. *)
Theorem invalid_pipelines_stop_workloads q (s : St) : wp (reconcile_components r q) (check_obeyed q s) s.
Proof.
  destruct gate_keeps as [G1 G2]. unfold reconcile_components.
  assert (forall x y z : list event, Forall deploys_common x -> Forall deploys_webhook y -> Forall registry_call z ->
            phased gate_phases (x ++ y ++ z)) as Hph.
  { intros x y z Hx Hy Hz. exists x, (y ++ z). split_and!; [done..|]. exists y, z. split_and!; [done..|].
    exists z, []. by rewrite app_nil_r. }
  apply wp_bind. pose proof (G1 s) as E1. pose proof (ReconcileCommon_emits s) as C1. unfold wp at 1.
  set (s1 := fin (ReconcileCommon r s)) in *.
  destruct (out (ReconcileCommon r s)) as [[]| |]; [|apply not_checked; [by injection E1|done]..].
  apply wp_bind. pose proof (G2 s1) as E2. pose proof (reconcile_webhook_emits s1) as C2. unfold wp at 1.
  set (s2 := fin (reconcile_webhook r s1)) in *. rewrite E1 in E2. injection E2 as Ec Em E3 E4 E5 E6 E7.
  destruct (out (reconcile_webhook r s1)) as [[]| |]; cbn [negb];
    [|apply wp_ret, not_checked; [done|by intros res [= <-]]|by apply not_checked..].
  apply wp_bind. pose proof (validate_outcome s2) as V. pose proof (validateManagedPipelines_emits s2) as C3. unfold wp at 1.
  unfold wp in V. set (s3 := fin (validateManagedPipelines r s2)) in *. destruct V as (Vc & Vs & Vo).
  destruct (out (validateManagedPipelines r s2)) as [[proceed requeue]|e|why]; [|done|destruct Vo as [_ Hst]].
  2: { apply not_checked; [|done]. unfold mp_cond in *. congruence. }
  specialize (Hph _ _ _ C1 C2 C3). destruct Vo as (Hp & _ & Hq). destruct proceed; cbn [negb].
  - eapply wp_mono; [apply (passed_check q s s3 _ requeue Hph)|]; [|done|].
    + intros Hi. by apply Hp in Hi.
    + cbn beta. intros o s' t. by rewrite <- !app_assoc.
  - eapply wp_mono; [apply (stopped_by_check q s s3 _ Hph)|]; [by apply Hp|congruence| |].
    + rewrite Vs. unfold behind_gate. cbn. congruence.
    + cbn beta. intros o s' t. by rewrite <- !app_assoc.
Qed.

End Phases.

(** ** Examples *)

#[local] Existing Instance sim_platform.

Definition sample_order_reconciler : DSPAReconciler :=
  MkDSPAReconciler sim_root 10 ∅ (Some OCI_PipelineNamesFetcher) [] true 0.

Definition sample_order_state : St := sim_state sim_cluster sim_full_dspa.

Definition is_apply (template : string) (e : event) : bool :=
  match ev_call e with CApply t => bool_decide (t = template) && ev_ok e | _ => false end.

