(* ===== verification/Lifecycle.v ===== *)
(** * The life of an application

    What a reconcile does before and after its work: the finalizer is stored
    before anything is made and removed after all is gone, and whatever happens
    in between, the status is written once, at the end. *)

From stdpp Require Import base gmap strings list.
From Stdlib Require Import ZArith Lia.
From S2P Require Import Prelude GoStd GoJson GoCodec KubeTypes ApiTypes Data Platform Config Util Sim.
From S2P Require Import Status Metrics ManagedPipelines Fetcher Reconciler Params Extract Manifests.
From S2P Require Import Database Storage Components ApiServer Readiness Gauges Controller Watches Order.

Section Lifecycle.
  Context {P : Platform}.
  Variable r : DSPAReconciler.

#[local] Hint Extern 1 (inner _) => intros ? ?; reflexivity : go.

(** ** The finalizer is stored before anything is made and removed after all is gone *)

Definition has_finalizer (d : DataSciencePipelinesApplication) : Prop := finalizerName ∈ dspa_Finalizers d.

Definition without_finalizer (d : DataSciencePipelinesApplication) : DataSciencePipelinesApplication :=
  d <| dspa_Finalizers ::= List.filter (fun f => negb (bool_decide (f = finalizerName))) |>.

Definition with_finalizer (d : DataSciencePipelinesApplication) : DataSciencePipelinesApplication :=
  d <| dspa_Finalizers ::= fun l => l ++ [finalizerName] |>.

Lemma without_finalizer_none d : ~ has_finalizer (without_finalizer d).
Proof.
  unfold has_finalizer. cbn. rewrite list_elem_of_In, filter_In. intros [_ H].
  by rewrite bool_decide_eq_true_2 in H.
Qed.

(** looking for other users of the webhook, and deleting its objects *)
Definition withdraws (e : event) : Prop :=
  ev_call e = CList "DSPA" \/ exists kind nn, ev_call e = CGet kind nn \/ ev_call e = CDelete kind nn.

Lemma CleanUpWebhookIfUnused_emits d : emits withdraws (CleanUpWebhookIfUnused d).
Proof.
  unfold CleanUpWebhookIfUnused, checkAvailableKubernetesDSPAs, cleanupWebhookResources, prm. go_solve.
  - apply emits_io. intros b. by left.
  - eapply emits_mono; [|apply DeleteResourceIfItExists_emits]. intros e He. right. eexists _, _. exact He.
Qed.

Lemma DeleteResource_ok t (s : St) : ensures_event (DeleteResource r t []) (Ev (CDeleteManifest t) true) s.
Proof.
  unfold DeleteResource. do 3 (apply last_call_ok; intros ? ?). intros b. unfold io.
  destruct (mf_delete _ _) as [[[]|e] w]; [|done]. intros _. by apply list_elem_of_singleton.
Qed.

Lemma cleanUpResources_wp (s : St) :
  wp (cleanUpResources r) (fun o _ t => Forall (deletes [commonCusterRolebindingTemplate]) t /\
    (o = Ret tt -> Ev (CDeleteManifest commonCusterRolebindingTemplate) true ∈ t)) s.
Proof.
  split.
  - assert (emits (deletes [commonCusterRolebindingTemplate]) (cleanUpResources r)) as H; [|apply H].
    unfold cleanUpResources, DeleteMetrics, DeleteLabelValues, upd_gauges, CleanUpCommon, prm. go_solve.
    apply DeleteResource_emits.
  - assert (forall s, ensures_event (cleanUpResources r) (Ev (CDeleteManifest commonCusterRolebindingTemplate) true) s) as H.
    { unfold cleanUpResources. do 2 (apply last_call_ok; intros ? ?). apply DeleteResource_ok. }
    apply H.
Qed.

(** A deletion: the cluster role binding, then the webhook, then the finalizer. *)
Definition finalized (d : DataSciencePipelinesApplication) (o : outcome unit) (s' : St) (t : list event) : Prop :=
  exists t1 t2 t3, t = t1 ++ t2 ++ t3 /\
    Forall (deletes [commonCusterRolebindingTemplate]) t1 /\ Forall withdraws t2 /\
    (t3 ≠ [] -> Ev (CDeleteManifest commonCusterRolebindingTemplate) true ∈ t1 /\
                exists ok, t3 = [Ev (CUpdate "DSPA" (nn_of d)) ok]) /\
    (o = Ret tt -> t3 = [Ev (CUpdate "DSPA" (nn_of d)) true] /\
       exists w w', update_dspa (without_finalizer d) w = (inl (cur s'), w')).

Lemma finalize_wp d (s : St) :
  wp (finalize r d) (fun o s' t =>
    if bool_decide (has_finalizer d) then finalized d o s' t else o = Ret tt /\ t = []) s.
Proof.
  unfold finalize, has_finalizer. case_bool_decide; cbn [whenb]; [|by apply wp_ret].
  unfold ask, upd_params. apply wp_get, wp_modify.
  match goal with |- wp _ _ ?s1 => generalize s1 end. clear s. intros s.
  apply wp_bind. eapply wp_mono; [apply cleanUpResources_wp|]. cbn beta. intros o1 s1 t1 [H1 Ho1].
  destruct o1 as [[]| |]; [specialize (Ho1 eq_refl)|..].
  2,3: exists t1, [], []; rewrite !app_nil_r; by split_and!.
  apply wp_bind. pose proof (CleanUpWebhookIfUnused_emits d s1) as H2. unfold wp at 1.
  destruct (out _) as [[]| |].
  2,3: exists t1, (evs (CleanUpWebhookIfUnused d s1)), []; rewrite !app_nil_r; by split_and!.
  apply wp_bind. unfold put_cur, modify, wp at 1. cbn [out fin evs].
  unfold Update_dspa. apply wp_get. rewrite cur_set_cur. fold (without_finalizer d).
  match goal with |- wp (io ?c ?f ≫= ?k) _ ?s2 => apply (wp_io c f k _ s2) end.
  - intros d' w Hu. unfold put_cur, modify, wp. cbn [out fin evs app].
    exists t1, (evs (CleanUpWebhookIfUnused d s1)), [Ev (CUpdate "DSPA" (nn_of d)) true]. split_and!; [done..|by eauto|].
    intros _. split; [done|]. rewrite cur_set_cur. by eauto.
  - intros e w Hu. exists t1, (evs (CleanUpWebhookIfUnused d s1)), [Ev (CUpdate "DSPA" (nn_of d)) false].
    split_and!; [done..|by eauto|done].
Qed.

(** an application that came without a kind gets one *)
Definition kinded (d : DataSciencePipelinesApplication) : DataSciencePipelinesApplication :=
  if bool_decide (dspa_Kind d = "")
  then d <| dspa_APIVersion := "v1" |> <| dspa_Kind := "DataSciencePipelinesApplication" |> else d.

Lemma ensure_kind_run (s : St) :
  exists s1, ensure_kind s = Run (Ret tt) s1 [] /\ cur s1 = kinded (cur s) /\ st_status s1 = st_status s /\
    st_world s1 = st_world s.
Proof.
  unfold ensure_kind, kinded. rewrite bind_get. case_bool_decide; cbn [whenb]; [|by exists s].
  eexists. split_and!; [reflexivity|done|done|done].
Qed.

(** The run of a live application: if it lacks the finalizer, the application
    with the finalizer is given to the API server, and the run goes on, with
    what the server stored, only if the server accepted it. *)
Definition kept_alive (d : DataSciencePipelinesApplication) (w : World) (o : outcome Result) (t : list event) : Prop :=
  if bool_decide (has_finalizer d) then exists s1, cur s1 = d /\ st_world s1 = w /\
         t = evs (reconcile_live r s1) /\ o = out (reconcile_live r s1)
  else match update_dspa (with_finalizer d) w with
       | (inr e, _) => t = [Ev (CUpdate "DSPA" (nn_of d)) false] /\ o = Fail e
       | (inl stored, w1) => exists s1, cur s1 = stored /\ st_world s1 = w1 /\
           t = Ev (CUpdate "DSPA" (nn_of d)) true :: evs (reconcile_live r s1) /\ o = out (reconcile_live r s1)
       end.

Lemma keep_alive_wp (s : St) :
  wp (ensure_finalizer (cur s) ;; reconcile_live r) (fun o _ t => kept_alive (cur s) (st_world s) o t) s.
Proof.
  unfold ensure_finalizer, kept_alive, has_finalizer. case_bool_decide; cbn [whenb negb].
  - apply wp_ret_bind. by exists s.
  - apply wp_assoc. unfold put_cur at 1. apply wp_modify. fold (with_finalizer (cur s)).
    assert (st_world (set_cur (with_finalizer (cur s)) s) = st_world s) as Hw by (unfold set_cur; by destruct (st_copy s)).
    unfold Update_dspa. apply wp_assoc, wp_get. rewrite cur_set_cur. apply wp_assoc. rewrite <- Hw.
    match goal with |- wp (io ?c ?f ≫= ?k) _ ?s2 => apply (wp_io c f k _ s2) end.
    + intros d' w ->. unfold put_cur. apply wp_modify. eexists. split_and!; [by apply cur_set_cur| |reflexivity..].
      unfold set_cur. by destruct (st_copy _).
    + by intros e w ->.
Qed.

(** a condition that says the version is not supported *)
Definition says_unsupported (d : DataSciencePipelinesApplication) (c : Condition) : Prop :=
  c_Status c = ConditionFalse /\ c_Reason c = UnsupportedVersion /\ c_Message c = err_msg (unsupported_version d).

Definition stamp (s : St) (w : World) (st : dspaStatus) : St := s <| st_world := w |> <| st_status := st |>.

(** a setter that stamps the time, then the rest *)
Lemma wp_stamp {A} (f : Z -> dspaStatus -> dspaStatus) (k : unit -> M A) Q (s : St) w st :
  (forall t w', wp (k tt) Q (stamp s w' (f t st))) -> wp ((t ← now; upd_status (f t)) ≫= k) Q (stamp s w st).
Proof.
  intros Hk. apply wp_assoc. destruct (now_run (stamp s w st)) as (t & w' & Hn).
  eapply wp_step; [exact Hn|]. unfold upd_status. apply wp_modify. apply Hk.
Qed.

Definition rejected (d : DataSciencePipelinesApplication) (st : dspaStatus) : Prop :=
  from_option (says_unsupported d) False (s_dspaReady st) /\
  Forall (says_unsupported d) [s_databaseAvailable st; s_objStoreAvailable st; s_apiServerReady st;
    s_persistenceAgentReady st; s_scheduledWorkflowReady st; s_mlmdProxyReady st].

Lemma reject_stamp (d : DataSciencePipelinesApplication) (s : St) w st :
  wp (reject_unsupported d) (fun o s' t => o = Ret no_requeue /\ t = [] /\
    exists w st, s' = stamp s w st /\ rejected d st) (stamp s w st).
Proof.
  destruct st. unfold reject_unsupported. unfold_setters.
  do 7 (apply wp_stamp; intros ? ?;
    match goal with |- wp _ _ (stamp _ _ ?st) => let st' := eval cbn in st in change st with st' end).
  apply wp_ret. split; [done|]. split; [done|]. eexists _, _. split; [reflexivity|].
  unfold rejected, says_unsupported. cbn. by repeat constructor.
Qed.

Lemma reject_wp (d : DataSciencePipelinesApplication) (s : St) :
  wp (reject_unsupported d) (fun o s' t => o = Ret no_requeue /\ t = [] /\
    exists w st, s' = stamp s w st /\ rejected d st) s.
Proof.
  pose proof (reject_stamp d s (st_world s) (st_status s)) as H.
  by replace (stamp s (st_world s) (st_status s)) with s in H at 2 by by destruct s.
Qed.


(** ** The status is written once, at the end *)

Definition no_status (e : event) : Prop := forall nn, ev_call e ≠ CUpdateStatus nn.

Lemma applies_no_status ts e : applies ts e -> no_status e.
Proof. unfold applies, no_status. by destruct (ev_call e). Qed.

Lemma ReconcileAPIServer_no_status : emits no_status (ReconcileAPIServer r).
Proof.
  assert (forall o t, emits no_status (Apply r o t [])) as Ha.
  { intros o t. eapply emits_mono; [|apply Apply_emits]. intros e. apply applies_no_status. }
  unfold ReconcileAPIServer, prm, GetTemplatesInDir, ApplyAll. go_solve.
  - apply generate_emits.
  - eapply emits_mono; [|apply DeleteResourceIfItExists_emits]. intros [c b] He nn. cbn in *. destruct He as [->| ->]; done.
Qed.

Lemma phases_no_status :
  Forall (fun Q : event -> Prop => forall e, Q e -> no_status e)
    (prereq_phases ++ gate_phases ++ workload_phases_with no_status).
Proof.
  unfold prereq_phases, gate_phases, workload_phases_with, no_status.
  repeat (apply Forall_cons; split); [..|apply Forall_nil; done]; intros [c b].
  all: unfold deploys_db, deploys_store, checks_db, checks_store, deploys_common, deploys_webhook, registry_call,
    observes, deploys_wc, deploys_mlmd, mlmd_call, applies, applies_dir, deletes_dir; cbn.
  all: destruct c; naive_solver.
Qed.

Lemma reconcile_live_no_status : emits no_status (reconcile_live r).
Proof.
  pose proof phases_no_status as H. rewrite !Forall_app in H. destruct H as (H1 & H2 & H3).
  unfold reconcile_live. apply emits_bind; [auto with go|intros q]. apply emits_bind.
  - apply emits_try. eapply emits_mono; [|apply ExtractParams_emits]. intros [c b] [He|(nn & [He|He])] nn'; cbn in *.
    + by destruct c. + by rewrite He. + by rewrite He.
  - intros [[]|err]; [|unfold_setters; go_solve]. apply emits_bind.
    + eapply in_phases_all; [apply reconcile_prereqs_phases|done].
    + intros []; [|apply emits_ret]. eapply in_phases_all; [apply reconcile_components_phases, ReconcileAPIServer_no_status|].
      by apply Forall_app.
Qed.

Lemma finalize_no_status d : emits no_status (finalize r d).
Proof.
  unfold finalize, Update_dspa, upd_params, put_cur. go_solve.
  - unfold cleanUpResources, DeleteMetrics, DeleteLabelValues, upd_gauges, CleanUpCommon, prm. go_solve.
    eapply emits_mono; [|apply DeleteResource_emits]. intros [c b] He nn. unfold deletes in He. cbn in *. by destruct c.
  - eapply emits_mono; [|apply CleanUpWebhookIfUnused_emits].
    intros [c b] [He|(k & nn & [He|He])] nn'; cbn in *; by rewrite He.
Qed.

Lemma reconcile_fetched_no_status : emits no_status (reconcile_fetched r).
Proof.
  unfold reconcile_fetched, ensure_kind, ensure_finalizer, Update_dspa, put_cur. go_solve.
  - intros s. destruct (reject_wp a s) as (_ & Ht & _). by rewrite Ht.
  - apply finalize_no_status.
  - apply reconcile_live_no_status.
Qed.

(** looking the URLs of the components up *)
Definition looks_up (e : event) : Prop := exists nn, ev_call e = CGet "Service" nn \/ ev_call e = CGet "Route" nn.

(** A lookup only reads, and does not panic. *)
Definition lookup (m : M string) : Prop :=
  forall s, exists o w t, m s = Run o (s <| st_world := w |>) t /\ Forall looks_up t /\ forall p, o ≠ Panic p.

Lemma service_lookup n ns : lookup (GetServiceHostname n ns).
Proof.
  intros s. unfold GetServiceHostname, GetServiceIfAvailable, if_available, mbind, prog_bind, try, io.
  destruct (get_service _ _) as [[x|e] w]; cbn; [|destruct (IsNotFound e)]; cbn.
  all: eexists _, w, _; split_and!; [reflexivity| |done]; repeat constructor; eexists; by left.
Qed.

Lemma route_lookup n ns : lookup (GetRouteHostname n ns).
Proof.
  intros s. unfold GetRouteHostname, GetRouteIfAvailable, if_available, mbind, prog_bind, try, io.
  destruct (get_route _ _) as [[x|e] w]; cbn; [|destruct (IsNotFound e)]; cbn.
  all: eexists _, w, _; split_and!; [reflexivity| |done]; repeat constructor; eexists; by right.
Qed.

Lemma or_empty_run m (s : St) : lookup m ->
  exists u w t, or_empty m s = Run (Ret u) (s <| st_world := w |>) t /\ Forall looks_up t.
Proof.
  intros Hm. destruct (Hm s) as (o & w & t & Ho & Ht & Hp). unfold or_empty. rewrite bind_try, Ho. cbn.
  destruct o as [u|e|p]; [..|by destruct (Hp p)]; cbn; rewrite app_nil_r; eauto.
Qed.

Lemma GetComponents_run d (s : St) :
  exists c w t, GetComponents d s = Run (Ret c) (s <| st_world := w |>) t /\ Forall looks_up t.
Proof.
  unfold GetComponents.
  destruct (or_empty_run _ s (service_lookup ("ds-pipeline-md-" +:+ dspa_Name d) (dspa_Namespace d))) as (u1 & w1 & t1 & R1 & F1).
  set (s1 := s <| st_world := w1 |>) in *.
  destruct (or_empty_run _ s1 (route_lookup ("ds-pipeline-md-" +:+ dspa_Name d) (dspa_Namespace d))) as (u2 & w2 & t2 & R2 & F2).
  set (s2 := s1 <| st_world := w2 |>) in *.
  destruct (or_empty_run _ s2 (service_lookup ("ds-pipeline-" +:+ dspa_Name d) (dspa_Namespace d))) as (u3 & w3 & t3 & R3 & F3).
  set (s3 := s2 <| st_world := w3 |>) in *.
  destruct (or_empty_run _ s3 (route_lookup ("ds-pipeline-" +:+ dspa_Name d) (dspa_Namespace d))) as (u4 & w4 & t4 & R4 & F4).
  eexists _, w4, (t1 ++ t2 ++ t3 ++ t4 ++ []). split.
  - do 4 (eapply bind_run; [eassumption|]). reflexivity.
  - rewrite !Forall_app. by split_and!.
Qed.

Definition with_urls (d : DataSciencePipelinesApplication) (c : ComponentStatus) : DataSciencePipelinesApplication :=
  d <| dspa_Status ::= fun st => st <| ds_Components := c |> |>.
Definition with_conditions (d : DataSciencePipelinesApplication) (cs : list Condition) : DataSciencePipelinesApplication :=
  d <| dspa_Status ::= fun st => st <| ds_Conditions := cs |> |>.

(** What the status update of a run comes to: the application is read again, and
    unless it is being deleted, its status is replaced by the URLs of the
    components and by what the collector says. *)
Definition reported (req : NamespacedName) (s : St) (s' : St) (t : list event) : Prop :=
  let d := match (get_dspa req (st_world s)).1 with inl d => d | inr _ => st_dspa s end in
  exists ok t', t = Ev (CGet "DSPA" req) ok :: t' /\
  match dspa_DeletionTimestamp d with
  | Some _ => t' = [] /\ st_dspa s' = d
  | None =>
      exists components time w written t'',
        let new := with_conditions (with_urls d components)
                     (conditions_at (with_urls d components) time (st_status s)) in
        t' = t'' ++ [Ev (CUpdateStatus (nn_of d)) written] /\ Forall looks_up t'' /\
        match (update_dspa_status new w).1 with
        | inl stored => written = true /\ st_dspa s' = stored
        | inr _ => written = false /\ st_dspa s' = new
        end
  end.

Lemma refreshDspa_run req (s : St) :
  exists ok w, refreshDspa req s =
    Run (Ret tt) (s <| st_world := w |>
      <| st_dspa := match (get_dspa req (st_world s)).1 with inl d => d | inr _ => st_dspa s end |>)
      [Ev (CGet "DSPA" req) ok].
Proof.
  unfold refreshDspa. rewrite bind_try_io. destruct (get_dspa req (st_world s)) as [[d|e] w]; cbn.
  - by eexists true, w.
  - exists false, w. by destruct s.
Qed.

Lemma updateStatus_wp req (s : St) :
  wp (updateStatus req) (fun o s' t => o = Ret tt /\ reported req s s' t) s.
Proof.
  unfold updateStatus, reported. destruct (refreshDspa_run req s) as (ok & w & Hr).
  eapply wp_step; [exact Hr|]. set (d := match _ with inl d => d | inr _ => _ end) in *.
  apply wp_get. cbn [st_dspa set]. destruct (dspa_DeletionTimestamp d).
  { apply wp_ret. split; [done|]. by eexists ok, []. }
  match goal with |- wp _ _ ?s0 => assert (st_dspa s0 = d /\ st_status s0 = st_status s) as [Hd1 Hs1] by done; generalize dependent s0 end.
  clear Hr. intros s1 Hd1 Hs1.
  destruct (GetComponents_run d s1) as (c & w1 & t1 & Hc & Ht1). eapply wp_step; [exact Hc|]. apply wp_modify.
  match goal with |- wp _ _ ?s0 =>
    assert (st_dspa s0 = with_urls d c /\ st_status s0 = st_status s) as [Hd2 Hs2]
      by (split; [by rewrite <- Hd1|done]); generalize dependent s0 end.
  clear Hc. intros s2 Hd2 Hs2.
  destruct (GetConditions_run s2) as (tm & w2 & Hg). eapply wp_step; [exact Hg|]. apply wp_modify, wp_get.
  set (new := with_conditions (with_urls d c) (conditions_at (with_urls d c) tm (st_status s))).
  match goal with |- wp _ _ ?s0 => assert (st_dspa s0 = new) as Hd3 by (by unfold new; rewrite <- Hs2, <- Hd2); generalize dependent s0 end.
  clear Hg. intros s3 Hd3. rewrite Hd3. unfold wp. rewrite bind_try_io.
  destruct (update_dspa_status new (st_world s3)) as [[stored|e] w3] eqn:Hu; cbn [out fin evs].
  all: split; [done|]; eexists ok, _; (split; [reflexivity|]); exists c, tm, (st_world s3).
  - exists true, t1. fold new. rewrite Hu. by split_and!.
  - exists false, t1. fold new. rewrite Hu. by split_and!.
Qed.

(** The gauges are set without any call. *)
Lemma publish_run (s : St) :
  exists w g, publish_unless_deleted s = Run (Ret tt) (s <| st_world := w |> <| st_gauges := g |>) [].
Proof.
  unfold publish_unless_deleted. rewrite bind_get. destruct (dspa_DeletionTimestamp (cur s)).
  { exists (st_world s), (st_gauges s). by destruct s. }
  destruct (GetConditions_run s) as (tm & w & Hg). unfold mbind, prog_bind. rewrite Hg. cbn [out fin evs app].
  rewrite PublishMetrics_run. cbn [out fin evs app]. by eexists w, _.
Qed.

(** The run of an application that was found, from its start to its end. *)
Definition run_and_reported (req : NamespacedName) (d : DataSciencePipelinesApplication) (o : outcome Result)
    (s' : St) (t : list event) : Prop :=
  exists s0 s1 t2, let b := reconcile_fetched r s0 in
    cur s0 = d /\ st_params s0 = initial_params r /\
    (forall ty, ty ∈ published_types -> slot_after [] ty (slot (st_status s0) ty)) /\
    t = Ev (CGet "DSPA" req) true :: evs b ++ t2 /\ o = out b /\ Forall no_status (evs b) /\
    st_dspa s1 = st_dspa (fin b) /\ st_status s1 = st_status (fin b) /\ reported req s1 s' t2.

(** two deferred calls that neither fail nor panic *)
Lemma wp_two_defers {A} (m : M A) (d1 d2 : M unit) (R : St -> St -> list event -> Prop) (s : St) :
  (forall s, exists w g, d2 s = Run (Ret tt) (s <| st_world := w |> <| st_gauges := g |>) []) ->
  (forall s, wp d1 (fun o s' t => o = Ret tt /\ R s s' t) s) ->
  wp (defer d1 (defer d2 m)) (fun o s' t => exists s1 t2,
    o = out (m s) /\ t = evs (m s) ++ t2 /\ st_dspa s1 = st_dspa (fin (m s)) /\
    st_status s1 = st_status (fin (m s)) /\ R s1 s' t2) s.
Proof.
  intros H2 H1. unfold wp, defer. cbn [out fin evs]. destruct (H2 (fin (m s))) as (w & g & ->). cbn [out fin evs].
  match goal with |- context [d1 ?s1] => destruct (H1 s1) as [Ho HR]; exists s1, (evs (d1 s1)) end.
  rewrite Ho, app_nil_r. by split_and!.
Qed.

Lemma Reconcile_run req (s : St) :
  wp (Reconcile r req) (fun o s' t =>
    match (get_dspa req (st_world s)).1 with
    | inr e => t = [Ev (CGet "DSPA" req) false] /\ o = (if IsNotFound e then Ret no_requeue else Fail e)
    | inl d => run_and_reported req d o s' t
    end) s.
Proof.
  unfold Reconcile. apply wp_modify. apply wp_try_io.
  - intros d w Hd. cbn [st_world set] in Hd. rewrite Hd. cbn [fst]. apply wp_modify.
    match goal with |- wp _ _ ?s0 => assert (st_dspa s0 = d /\ st_copy s0 = None /\ st_params s0 = initial_params r)
      as (Hd1 & Hc1 & Hp1) by done; generalize dependent s0 end.
    intros s1 Hd1 Hc1 Hp1. destruct (NewDSPAStatus_run s1) as (w1 & st & Hn & Hst).
    eapply wp_step; [exact Hn|]. unfold upd_status. apply wp_modify.
    match goal with |- wp _ _ ?s0 => assert (cur s0 = d /\ st_status s0 = st /\ st_params s0 = initial_params r)
      as (Hd2 & Hs2 & Hp2) by (unfold cur; cbn; by rewrite Hd1, Hc1, Hp1); generalize dependent s0 end.
    intros s2 Hd2 Hs2 Hp2. eapply wp_mono; [apply (wp_two_defers _ _ _ (reported req) s2 publish_run (updateStatus_wp req))|].
    cbn beta. intros o s' t (s3 & t2 & -> & -> & Hd3 & Hs3 & Hrep). exists s2, s3, t2. cbn zeta.
    rewrite Hs2. split_and!; try done. apply reconcile_fetched_no_status.
  - intros e w He. cbn [st_world set] in He. rewrite He. cbn [fst].
    destruct (IsNotFound e); [by apply wp_ret|done].
Qed.

(** C8: A reconcile whose application cannot be read makes no other call: it ends
    quietly when the application is gone, and with the error otherwise.  A
    reconcile that found it always reports: whatever the run did, returned,
    failed or panicked, it then reads the application once more and, unless it
    is being deleted, writes its status, once, as the last call, with the
    conditions of the collector as the run left it; the run itself never writes
    the status, starts from a fresh collector and fresh parameters, and its
    outcome is that of the reconcile. *)
Theorem Reconcile_reports_last req (s : St) :
  wp (Reconcile r req) (fun o s' t =>
    match (get_dspa req (st_world s)).1 with
    | inr e => t = [Ev (CGet "DSPA" req) false] /\ o = (if IsNotFound e then Ret no_requeue else Fail e)
    | inl d => run_and_reported req d o s' t
    end) s.
Proof. apply Reconcile_run. Qed.
End Lifecycle.

(** ** Examples *)

#[local] Existing Instance sim_platform.

(** the same cluster, whose API server does not answer for one deployment *)
Definition sample_unreadable : St :=
  sim_state (sim_cluster <| sim_fault := fun c =>
    if bool_decide (c = CGet "Deployment" (NN "project" "ds-pipeline-sample"))
    then Some (ErrStatus ServiceUnavailable "unavailable") else None |>) sim_full_dspa.

Definition published_by (s : St) : list Condition := ds_Conditions (dspa_Status (st_dspa s)).

(** A condition that could not be evaluated is stored as the empty one, which
    blocks nothing and has no type: when the deployment of the API server cannot
    be read, the status that is published says Ready, and has no condition of
    the type APIServerReady at all. *)
Example unreadable_deployment_reported_ready :
  let s' := fin (Reconcile sample_order_reconciler (NN "project" "sample") sample_unreadable) in
  c_Status (GetConditionByType CrReady (published_by s')) = ConditionTrue /\
  forallb (fun c => negb (bool_decide (c_Type c = APIServerReady))) (published_by s') = true.
Proof. vm_compute. split; reflexivity. Qed.
