(* ===== verification/Ready.v ===== *)
(** * When an application is reported ready

    The status a reconcile writes says Ready exactly when that reconcile went
    through all of its steps and found every deployment it looked at up, or
    could not look at it. *)

From stdpp Require Import base gmap strings list.
From Stdlib Require Import ZArith Lia.
From S2P Require Import Prelude GoStd GoJson GoCodec KubeTypes ApiTypes Data Platform Config Util Sim.
From S2P Require Import Status Metrics ManagedPipelines Fetcher Reconciler Params Extract Manifests.
From S2P Require Import Database Storage Components ApiServer Readiness Gauges Controller Watches Order Lifecycle.

Section Ready.
  Context {P : Platform}.
  Variable r : DSPAReconciler.

#[local] Hint Extern 1 (inner _) => intros ? ?; reflexivity : go.

(** ** What the collector is not told by the components *)

Lemma password_loop_quiet n : keeps st_status (password_loop n).
Proof. induction n as [|n IH]; cbn [password_loop]; go_solve. Qed.

Lemma RetrieveOrCreateSecret_quiet name key n : keeps st_status (RetrieveOrCreateSecret name key n).
Proof. unfold RetrieveOrCreateSecret, passwordGen. unfold_lookups. go_solve. apply password_loop_quiet. Qed.

Lemma set_cur_quiet d : keeps st_status (modify (set_cur d) : M unit).
Proof. intros s. apply set_cur_status. Qed.

#[local] Hint Resolve RetrieveOrCreateSecret_quiet set_cur_quiet : go.

Lemma setups_quiet d :
  keeps st_status (SetupMLMD d) /\ keeps st_status (SetupDBParams d) /\
  keeps st_status (SetupObjectParams d) /\ keeps st_status (SetupOwner d).
Proof.
  unfold SetupMLMD, SetupDBParams, SetupObjectParams, SetupOwner, setup_external_db, setup_mariadb,
    RetrieveOrCreateDBSecret, setup_external_storage, setup_minio, setup_external_route,
    RetrieveOrCreateObjectStoreSecret. unfold_lookups. split_and!; go_solve; apply set_cur_status.
Qed.

Lemma ExtractParams_quiet : keeps st_status (ExtractParams r).
Proof.
  unfold ExtractParams, extract_basics, extract_apiserver, extract_api_rest, extract_certs, extract_ca_bundle,
    create_or_update, service_certs, user_certs, global_certs, extract_api_config,
    extract_mlflow_plugin, extract_managed_pipelines, extract_api_images, api_server_url, extract_components,
    SetupCompiledPipelineSpecPatch. unfold_lookups. go_solve; first [apply set_cur_status|apply setups_quiet].
Qed.

Lemma deploy_quiet :
  keeps st_status (ReconcileDatabase r) /\ keeps st_status (ReconcileStorage r) /\
  (forall d, keeps st_status (isDatabaseAccessible d)) /\ forall d, keeps st_status (isObjectStorageAccessible d).
Proof.
  unfold ReconcileDatabase, ReconcileStorage, isDatabaseAccessible, ConnectAndQueryDatabase, tls_config, tLSClientConfig,
    isObjectStorageAccessible, ConnectAndQueryObjStore, Update_dspa. unfold_lookups. split_and!; intros; go_solve.
  all: apply set_cur_status.
Qed.

(** ** What the collector says overall *)

(** the status of the overall condition *)
Definition overall (st : dspaStatus) : string := c_Status (default (generated_ready 0 st) (s_dspaReady st)).

(** It is the status of the last condition that is published, whenever that is. *)
Lemma overall_published d t st :
  exists c, last (conditions_at d t st) = Some c /\ c_Status c = overall st.
Proof.
  unfold conditions_at. rewrite fmap_app, list_fmap_singleton, last_snoc. eexists. split; [done|]. rewrite carry_over_status.
  unfold overall. destruct (s_dspaReady st); [done|]. cbn. unfold generated_ready. by destruct (readiness _) as [[] ?].
Qed.

(** nothing overrode it and ML metadata, the last step of a run, holds it back *)
Definition undecided (st : dspaStatus) : Prop := s_dspaReady st = None /\ blocks (s_mlmdProxyReady st) = true.

Lemma overall_all st : s_dspaReady st = None ->
  overall st = ConditionTrue <-> Forall (fun c => blocks c = false) (component_conditions st).
Proof.
  intros Hn. unfold overall. rewrite Hn. cbn [default from_option id]. unfold generated_ready. rewrite readiness_spec.
  rewrite Forall_forall. destruct (forallb _ _) eqn:Hf; cbn.
  - split; [|done]. intros _ c Hc. rewrite forallb_forall in Hf. apply negb_true_iff, Hf. by apply list_elem_of_In.
  - split; [done|]. intros H. apply not_true_iff_false in Hf. destruct Hf. apply forallb_forall.
    intros c Hc. apply negb_true_iff, H. by apply list_elem_of_In.
Qed.

Lemma overall_blocked st c : s_dspaReady st = None -> c ∈ component_conditions st -> blocks c = true ->
  overall st ≠ ConditionTrue.
Proof. intros Hn Hc Hb. rewrite overall_all by done. rewrite Forall_forall. intros H. specialize (H c Hc). congruence. Qed.

Lemma overall_undecided st : undecided st -> overall st ≠ ConditionTrue.
Proof.
  intros [Hn Hb]. apply (overall_blocked _ (s_mlmdProxyReady st)); [done| |done].
  unfold component_conditions. set_solver.
Qed.

(** ** Runs that end in Ready *)

Definition yields {A} (m : M A) (s : St) (a : A) (s' : St) : Prop := exists t, m s = Run (Ret a) s' t.

Lemma yields_fin {A} (m : M A) (s : St) a : out (m s) = Ret a -> yields m s a (fin (m s)).
Proof. intros H. exists (evs (m s)). rewrite <- H. by destruct (m s). Qed.

Lemma yields_returns {A} (m : M A) (s : St) a s' Q : yields m s a s' -> returns m (fun a s' _ => Q a s') s -> Q a s'.
Proof. intros [t Ht] H. unfold returns, wp in H. rewrite Ht in H. by apply H. Qed.

Lemma yields_keeps {A X} (f : St -> X) (m : M A) (s : St) a s' : keeps f m -> yields m s a s' -> f s' = f s.
Proof. intros Hf [t Ht]. specialize (Hf s). by rewrite Ht in Hf. Qed.

Definition ends_ready {A} (m : M A) (s : St) : Prop := overall (st_status (fin (m s))) = ConditionTrue.

Definition stays_undecided {A} (m : M A) : Prop :=
  forall s, undecided (st_status s) -> undecided (st_status (fin (m s))).

Lemma quiet_undecided {A} (m : M A) : keeps st_status m -> stays_undecided m.
Proof. intros Hm s. by rewrite Hm. Qed.

(** A run ends in Ready when its first part returned and the rest ends in Ready. *)
Lemma ready_bind {A B} (m : M A) (k : A -> M B) (s : St) (G : A -> St -> Prop) :
  undecided (st_status s) -> stays_undecided m ->
  (forall a s', yields m s a s' -> undecided (st_status s') -> ends_ready (k a) s' <-> G a s') ->
  ends_ready (m ≫= k) s <-> exists a s', yields m s a s' /\ G a s'.
Proof.
  intros Hu Hm Hk. specialize (Hm s Hu). unfold ends_ready, mbind, prog_bind, yields in *.
  destruct (m s) as [o s1 t1] eqn:Hr. cbn [out fin] in *.
  destruct o as [a|e|w].
  - cbn [fin]. rewrite (Hk a s1) by (try done; by exists t1). split; [intros HG; exists a, s1; eauto|].
    by intros (a' & s' & (t' & [= <- <- <-]) & HG).
  - cbn [fin]. split; [by intros ?%overall_undecided|]. intros (a & s' & (t' & [=]) & _).
  - cbn [fin]. split; [by intros ?%overall_undecided|]. intros (a & s' & (t' & [=]) & _).
Qed.

(** ** The prerequisites *)

(** the two conditions that make a run undecided *)
Definition tail (s : St) := (s_mlmdProxyReady (st_status s), s_dspaReady (st_status s)).

Lemma tail_undecided {A} (m : M A) : keeps tail m -> stays_undecided m.
Proof. intros Hm s [H1 H2]. specialize (Hm s). unfold tail in Hm. split; congruence. Qed.

Lemma quiet_tail {A} (m : M A) : keeps st_status m -> keeps tail m.
Proof. intros Hm s. unfold tail. by rewrite Hm. Qed.

Lemma prereqs_tail : keeps tail (reconcile_prereqs r).
Proof.
  unfold reconcile_prereqs, or_report, check_health.
  go_solve; first [apply quiet_tail, deploy_quiet|unfold_setters; go_solve].
Qed.

(** a setter that stamps the time *)
Lemma stamped (f : Z -> dspaStatus -> dspaStatus) (s : St) :
  exists t w, (t ← now; upd_status (f t)) s = Run (Ret tt) (s <| st_world := w |> <| st_status ::= f t |>) [].
Proof. unfold now, draw, mbind, prog_bind. destruct (time_now (st_world s)) as [t w]. by exists t, w. Qed.

Lemma check_health_status (m : M bool) f ok (s : St) :
  returns (check_health m f ok) (fun b s' _ => b = true -> exists s1 t1, m s = Run (Ret true) s1 t1 /\ s' = fin (ok s1)) s.
Proof.
  intros b. unfold check_health. rewrite bind_try. destruct (m s) as [[x|e|w] s1 t1] eqn:Hm; cbn [out fin evs].
  - unfold mbind, prog_bind. destruct (out (ok s1)) as [[]| |]; cbn; [|done..]. intros [= <-] ->. eauto.
  - unfold mbind, prog_bind. destruct (out (f e s1)) as [[]| |]; cbn; [|done..]. by intros [= <-].
  - done.
Qed.

(** A positive health check is reported. *)
Lemma check_health_reported {B} (m : M bool) f (g : Z -> dspaStatus -> dspaStatus) (k : bool -> M B) Q (s : St) :
  (forall s1 t, m s = Run (Ret true) s1 t -> forall u w,
     returns (k true) (fun b s' _ => Q b s') (s1 <| st_world := w |> <| st_status ::= g u |>)) ->
  (forall s', returns (k false) (fun b s' _ => Q b s') s') ->
  returns (check_health m f (t ← now; upd_status (g t)) ≫= k) (fun b s' _ => Q b s') s.
Proof.
  intros H1 H2. apply returns_bind. intros [] Hb; [|apply H2].
  destruct (check_health_status _ _ _ _ true Hb eq_refl) as (s1 & t1 & Hm & ->).
  destruct (stamped g s1) as (u & w & ->). eapply H1, Hm.
Qed.

(** The database and the object store are reported available, and nothing else
    is reported. *)
Definition but_prereqs (s : St) : dspaStatus :=
  (st_status s) <| s_databaseAvailable := zero_Condition |> <| s_objStoreAvailable := zero_Condition |>.

Lemma prereqs_others : keeps but_prereqs (reconcile_prereqs r).
Proof.
  assert (forall A (m : M A), keeps st_status m -> keeps but_prereqs m) as Hq
    by (intros A m Hm s; unfold but_prereqs; by rewrite Hm).
  unfold reconcile_prereqs, or_report, check_health.
  go_solve; first [apply Hq, deploy_quiet|unfold_setters; go_solve].
Qed.

Definition prereqs_reported (s : St) : Prop :=
  blocks (s_databaseAvailable (st_status s)) = false /\ blocks (s_objStoreAvailable (st_status s)) = false.

Lemma prereqs_status (s : St) : returns (reconcile_prereqs r) (fun b s' _ => b = true -> prereqs_reported s') s.
Proof.
  destruct deploy_quiet as (_ & _ & _ & Ko).
  unfold reconcile_prereqs. do 4 (apply returns_bind, returns_any; intros _).
  apply returns_bind, returns_gets. apply check_health_reported.
  - intros s1 t1 _ u w. apply check_health_reported; [|intros ?; by apply returns_ret].
    intros s2 t2 Hs2 u' w'. apply returns_ret. intros _.
    match type of Hs2 with isObjectStorageAccessible ?d ?s0 = _ => pose proof (Ko d s0) as K end.
    rewrite Hs2 in K. cbn in K. unfold prereqs_reported. cbn. by rewrite K.
  - intros s'. apply returns_bind, returns_any. intros b. by apply returns_ret.
Qed.

(** ** The webhook and the managed pipelines *)

Definition kubernetes_store (d : DataSciencePipelinesApplication) : bool :=
  match spec_APIServer (dspa_Spec d) with
  | Some a => bool_decide (api_PipelineStore a = "kubernetes")
  | None => false
  end.

(** The webhook was deployed, and its deployment, in the namespace of the
    operator, is available. *)
Definition webhook_up (s : St) : Prop :=
  exists s1 d, yields (ReconcileWebhook r) s tt s1 /\
    (get_deployment (NN (p_DSPONamespace (st_params s1)) (p_WebhookName (st_params s1))) (st_world s1)).1 = inl d /\
    is_available d = true.

Definition but_webhook (s : St) : dspaStatus := (st_status s) <| s_webhookReady := zero_Condition |>.

Lemma webhook_others : keeps but_webhook (reconcile_webhook r).
Proof.
  destruct (component_keeps r but_webhook) as (_ & _ & _ & _ & _ & K6 & K7); [done..|].
  unfold reconcile_webhook, or_report. go_solve; unfold_setters; go_solve.
Qed.

Lemma checkWebhookStatus_true (s : St) :
  returns checkWebhookStatus (fun x _ _ => x.1 = true -> exists d,
    (get_deployment (NN (p_DSPONamespace (st_params s)) (p_WebhookName (st_params s))) (st_world s)).1 = inl d /\
    is_available d = true) s.
Proof.
  intros [b reason]. unfold checkWebhookStatus, prm. rewrite bind_get, bind_try_io.
  destruct (get_deployment _ _) as [[d|e] w]; cbn.
  - intros [= Hx] Hb. exists d. split; [done|]. unfold is_available.
    destruct (GetDeploymentCondition _ _) as [c|]; [case_bool_decide|]; by simplify_eq/=.
  - intros [= <- _]. done.
Qed.

Lemma webhook_status (s : St) :
  returns (reconcile_webhook r) (fun b s' _ => b = true ->
    blocks (s_webhookReady (st_status s')) = false /\ (kubernetes_store (cur s) = true -> webhook_up s)) s.
Proof.
  unfold reconcile_webhook. apply returns_bind, returns_gets. fold (kubernetes_store (cur s)).
  destruct (kubernetes_store (cur s)).
  - apply returns_bind, returns_or_report. intros [] Hw. apply returns_bind. intros [ready reason] Hc.
    pose proof (checkWebhookStatus_true (fin (ReconcileWebhook r s)) _ Hc) as Hd. cbn [fst] in Hd.
    destruct ready.
    + apply returns_bind. intros [] _. apply returns_ret. intros _.
      unfold SetWebhookReady. edestruct stamped as (t & w & ->). split; [done|]. intros _.
      destruct (Hd eq_refl) as (d & Hg & Ha). exists (fin (ReconcileWebhook r s)), d. split; [by apply yields_fin|done].
    + apply returns_bind, returns_any. intros _. by apply returns_ret.
  - apply returns_bind, returns_any. intros _. apply returns_ret. intros _.
    unfold SetWebhookNotApplicable. edestruct stamped as (t & w & ->). by split.
Qed.

Definition but_managed (s : St) : dspaStatus := (st_status s) <| s_managedPipelineValid := zero_Condition |>.

Lemma validate_status (s : St) a s' : yields (validateManagedPipelines r) s a s' ->
  but_managed s' = but_managed s /\ (a.1 = true <-> blocks (mp_cond s') = false).
Proof.
  intros [t Ht]. pose proof (validate_outcome r s) as H. unfold wp, mp_settled in H. rewrite Ht in H. cbn in H.
  destruct H as (_ & Hs & H). destruct a as [proceed requeue]. destruct H as (_ & Hb & _). split; [|exact Hb].
  unfold but_managed. by rewrite Hs.
Qed.

(** ** A component *)

(** The deployment runs, as a look at it from [s] shows. *)
Definition running (name : string) (s : St) : Prop :=
  exists d, (get_deployment (NN (dspa_Namespace (cur s)) name) (time_now (st_world s)).2).1 = inl d /\ ready d.

(** The look fails: the API server does not answer for the deployment, or for
    the pods of one that does not run. *)
Definition unreadable (name : string) (s : St) : Prop :=
  match get_deployment (NN (dspa_Namespace (cur s)) name) (time_now (st_world s)).2 with
  | (inr e, _) => IsNotFound e = false
  | (inl d, w) => ~ ready d /\ dep_Replicas d ≠ Some 0%Z /\ ~ rollout_failed d /\
      exists labels e, dep_Selector d = Some labels /\ (list_pods labels w).1 = inr e
  end.

Definition up (name : string) (s : St) : Prop := running name s \/ unreadable name s.

(** what is known of a deployment's own status *)
Lemma deployment_known d : ready d \/ (~ ready d /\ dep_Replicas d = Some 0%Z) \/
  (~ ready d /\ dep_Replicas d ≠ Some 0%Z /\ rollout_failed d) \/
  (~ ready d /\ dep_Replicas d ≠ Some 0%Z /\ ~ rollout_failed d).
Proof. pose proof (deployment_verdict_spec "" zero_Condition d) as H. destruct (deployment_verdict _ _ _); naive_solver. Qed.

Lemma blocks_reason c : blocks c = true <->
  (c_Status c = ConditionFalse \/ c_Status c = ConditionUnknown) /\ isNonBlockingReason (c_Reason c) = false.
Proof. unfold blocks. by rewrite andb_true_iff, orb_true_iff, !bool_decide_eq_true, negb_true_iff. Qed.

Lemma reported_false c ty reason : isNonBlockingReason reason = false ->
  c_Type c = ty /\ c_Status c = ConditionFalse /\ c_Reason c = reason -> blocks c = true.
Proof. intros Hr (_ & Hs & <-). apply blocks_reason. auto. Qed.

(** The condition that is stored does not block exactly when the deployment is
    up; the only other possibility is a panic. *)
Lemma evaluated_up name ty (s : St) o s' : evaluated name ty s o s' ->
  (exists c, (o = Ret c \/ (exists e, o = Fail e) /\ c = zero_Condition) /\ (blocks c = false <-> up name s)) \/
  (exists why, o = Panic why /\ ~ up name s).
Proof.
  assert (forall c (X : Prop), blocks c = true -> ~ X -> (blocks c = false <-> X)) as Hno
    by (intros c X -> HX; split; [done|by intros ?%HX]).
  intros [_ H]. unfold up, running, unreadable. destruct (get_deployment _ _) as [[d|e] w1]; cbn [fst].
  - destruct H as (H1 & H2 & H3 & H4). destruct (deployment_known d) as [Hd|[(Hd & Hz)|[(Hd & Hz & Hf)|(Hd & Hz & Hf)]]].
    + left. destruct (H1 Hd) as (c & -> & Hc). exists c. split; [by left|]. destruct Hc as (_ & Hs & _).
      split; [naive_solver|]. intros _. unfold blocks. by rewrite Hs.
    + left. destruct (H2 Hz) as (c & -> & Hc). exists c. split; [by left|].
      apply Hno; [by eapply reported_false; [|exact Hc]|naive_solver].
    + left. destruct (H3 Hd Hz Hf) as (c & -> & Hc). exists c. split; [by left|].
      apply Hno; [by eapply reported_false; [|exact Hc]|naive_solver].
    + specialize (H4 Hd Hz Hf). destruct (dep_Selector d) as [labels|]; [|right; naive_solver].
      left. destruct (list_pods labels w1) as [[pods|e] w2] eqn:Hl; cbn [fst] in H4.
      * destruct H4 as (c & -> & Hc). exists c. split; [by left|].
        apply Hno; [eapply reported_false; [|exact Hc]; by destruct (existsb _ _)|].
        intros [|(_ & _ & _ & ? & ? & [= <-] & He)]; [naive_solver|]. by rewrite Hl in He.
      * rewrite H4. exists zero_Condition. split; [right; eauto|]. split; [|done]. intros _. right.
        split_and!; [done..|]. exists labels, e. by rewrite Hl.
  - left. destruct (IsNotFound e).
    + destruct H as (c & -> & Hc). exists c. split; [by left|].
      apply Hno; [by eapply reported_false; [|exact Hc]|naive_solver].
    + rewrite H. exists zero_Condition. split; [right; eauto|]. split; [|done]. by right.
Qed.

(** Looking at a deployment stores a condition that does not block exactly when
    it is up, or panics. *)
Lemma setStatus_run name ty set (put : Condition -> dspaStatus -> dspaStatus) (s : St) :
  (forall c, set c = upd_status (put c)) ->
  (exists c w t, setStatus name ty set s = Run (Ret tt) (s <| st_world := w |> <| st_status ::= put c |>) t /\
     (blocks c = false <-> up name s)) \/
  (exists w t why, setStatus name ty set s = Run (Panic why) (s <| st_world := w |>) t /\ ~ up name s).
Proof.
  intros Hset. unfold setStatus. rewrite bind_try. pose proof (evaluateCondition_cases name ty s) as H.
  unfold wp in H. destruct (evaluateCondition name ty s) as [o s' t]. cbn [out fin evs] in *.
  pose proof (evaluated_up _ _ _ _ _ H) as Hu. destruct H as [[w ->] _].
  destruct Hu as [(c & Ho & Hc)|(why & -> & Hn)]; [left; exists c, w|right; by exists w, t, why].
  destruct Ho as [->|[[e ->] ->]]; rewrite Hset; cbn; eauto.
Qed.

(** A look at a deployment, and the rest, which leaves the verdict alone. *)
Lemma ready_setStatus {B} name ty set (put : Condition -> dspaStatus -> dspaStatus) (sl : dspaStatus -> Condition)
    (k : M B) (s : St) (G : St -> Prop) :
  undecided (st_status s) ->
  (forall c, set c = upd_status (put c)) -> (forall c st, sl (put c st) = c) ->
  (forall c st, s_dspaReady (put c st) = s_dspaReady st) -> (forall st, sl st ∈ component_conditions st) ->
  keeps (fun s => (sl (st_status s), s_dspaReady (st_status s))) k ->
  (forall s' c, st_status s' = put c (st_status s) -> blocks c = false -> ends_ready k s' <-> G s') ->
  ends_ready (setStatus name ty set ;; k) s <-> up name s /\ exists s', yields (setStatus name ty set) s tt s' /\ G s'.
Proof.
  intros Hu Hset Hsl Hd Hin Hk HG. pose proof Hu as [Hn _]. unfold ends_ready, yields, mbind, prog_bind.
  destruct (setStatus_run name ty set put s Hset) as [(c & w & t & Hr & Hc)|(w & t & why & Hr & Hup)]; rewrite Hr; cbn [out fin evs].
  - set (s' := s <| st_world := w |> <| st_status ::= put c |>).
    assert (st_status s' = put c (st_status s)) as Hs' by done. destruct (blocks c) eqn:Hb.
    + split; [|intros [Hup _]; by apply Hc in Hup]. intros Ho. exfalso. revert Ho.
      specialize (Hk s'). injection Hk as Hk1 Hk2.
      apply (overall_blocked _ (sl (st_status (fin (k s'))))); [by rewrite Hk2, Hd|apply Hin|by rewrite Hk1, Hsl].
    + rewrite (HG s' c) by done. split.
      * intros H. split; [by apply Hc|]. exists s'. split; [by exists t|done].
      * by intros (_ & s'' & (t' & [= <- _]) & HGs).
  - split; [|naive_solver]. intros Ho. exfalso. revert Ho. by apply overall_undecided.
Qed.

Lemma yields_report {A} (m : M A) f (s : St) a s' : yields (or_report m f) s a s' <-> yields m s a s'.
Proof.
  unfold yields, or_report. rewrite bind_try. destruct (m s) as [[x|e|w] s1 t1]; cbn [out fin evs].
  - split; intros [t [= <- <- _]]; eauto.
  - unfold mbind, prog_bind. destruct (out (f e s1)); split; by intros [t [=]].
  - split; by intros [t [=]].
Qed.

Lemma report_undecided {A} (m : M A) f : stays_undecided m -> (forall e, stays_undecided (f e)) -> stays_undecided (or_report m f).
Proof.
  intros Hm Hf s Hs. specialize (Hm s Hs). unfold or_report. rewrite bind_try.
  destruct (out (m s)) as [x|e|w]; [done| |done]. cbn [fin]. specialize (Hf e _ Hm).
  unfold mbind, prog_bind. by destruct (out (f e _)).
Qed.

(** A step that reports its error, and the rest. *)
Lemma ready_report {A B} (m : M A) f (k : A -> M B) (s : St) (G : A -> St -> Prop) :
  undecided (st_status s) -> keeps st_status m -> (forall e, stays_undecided (f e)) ->
  (forall a s', st_status s' = st_status s -> ends_ready (k a) s' <-> G a s') ->
  ends_ready (or_report m f ≫= k) s <-> exists a s', yields m s a s' /\ G a s'.
Proof.
  intros Hu Hm Hf Hk. rewrite (ready_bind _ _ _ G); [|done|by apply report_undecided; [apply quiet_undecided|]|].
  - by setoid_rewrite yields_report.
  - intros a s' Hy _. apply yields_report in Hy. apply Hk. by apply (yields_keeps st_status _ _ _ _ Hm Hy).
Qed.

(** A component was deployed, and its deployment is up when it is looked at. *)
Definition brought_up (m : M unit) (name : DSPAParams -> string) ty set (s s' : St) : Prop :=
  exists s1, yields m s tt s1 /\ up (name (st_params s1)) s1 /\ yields (setStatus (name (st_params s1)) ty set) s1 tt s'.

Lemma ready_component {B} (m : M unit) name ty set (put : Condition -> dspaStatus -> dspaStatus)
    (sl : dspaStatus -> Condition) (k : M B) (s : St) (G : St -> Prop) :
  undecided (st_status s) -> keeps st_status m ->
  (forall c, set c = upd_status (put c)) -> (forall c st, sl (put c st) = c) ->
  (forall c st, s_dspaReady (put c st) = s_dspaReady st) -> (forall st, sl st ∈ component_conditions st) ->
  (forall c st, blocks c = true -> undecided st -> undecided (put c st)) ->
  keeps (fun s => (sl (st_status s), s_dspaReady (st_status s))) k ->
  (forall s' c, st_status s' = put c (st_status s) -> blocks c = false -> ends_ready k s' <-> G s') ->
  ends_ready (reconcile_component m name ty set ;; k) s <-> exists s', brought_up m name ty set s s' /\ G s'.
Proof.
  intros Hu Hm Hset Hsl Hd Hin Hput Hk HG. unfold reconcile_component.
  transitivity (ends_ready (or_report m (fun err => setStatusAsNotReady ty err set) ;;
      params ← prm; setStatus (name params) ty set ;; k) s).
  { unfold ends_ready. by rewrite !bind_assoc. }
  rewrite (ready_report _ _ _ _ (fun _ s1 => up (name (st_params s1)) s1 /\
    exists s', yields (setStatus (name (st_params s1)) ty set) s1 tt s' /\ G s')); [|done|done|..].
  - split.
    + intros ([] & s1 & Hy & Hup & s' & Hs & HGs). exists s'. split; [by exists s1|done].
    + intros (s' & (s1 & Hy & Hup & Hs) & HGs). exists tt, s1. split_and!; [done..|]. by exists s'.
  - intros e s1 H1. unfold setStatusAsNotReady. destruct (now_run s1) as (t & w & Hn).
    unfold mbind, prog_bind. rewrite Hn. cbn [out fin]. rewrite Hset. by apply Hput.
  - intros _ s1 H1. unfold prm. etransitivity; [|apply (ready_setStatus (name (st_params s1)) ty set put sl k s1)];
      [unfold ends_ready; by rewrite bind_get|by rewrite H1|done..|]. by rewrite H1.
Qed.

(** ** The components behind the gate *)

(** The workflow controller is up, or the application does without. *)
Definition controller_up (s s' : St) : Prop :=
  exists enabled s1, yields (ReconcileWorkflowController r) s enabled s1 /\
    if enabled : bool
    then let name := p_WorkflowControllerDefaultResourceName (st_params s1) in
         up name s1 /\ yields (setStatus name WorkflowControllerReady SetWorkflowControllerStatus) s1 tt s'
    else yields SetWorkflowControllerNotApplicable s1 tt s'.

(** One after the other, every component was deployed and is up. *)
Definition workloads_up (s : St) : Prop :=
  exists s1, brought_up (ReconcileAPIServer r) p_APIServerDefaultResourceName APIServerReady SetApiServerStatus s s1 /\
  exists s2, brought_up (ReconcilePersistenceAgent r) p_PersistentAgentDefaultResourceName
    PersistenceAgentReady SetPersistenceAgentStatus s1 s2 /\
  exists s3, brought_up (ReconcileScheduledWorkflow r) p_ScheduledWorkflowDefaultResourceName
    ScheduledWorkflowReady SetScheduledWorkflowStatus s2 s3 /\
  exists s4, controller_up s3 s4 /\
  exists s5, brought_up (ReconcileMLMD r) p_MlmdProxyDefaultResourceName MLMDProxyReady SetMLMDProxyStatus s4 s5.

(** the components from one on *)
Definition from_mlmd {B} (b : B) : M B :=
  reconcile_component (ReconcileMLMD r) p_MlmdProxyDefaultResourceName MLMDProxyReady SetMLMDProxyStatus ;; mret b.
Definition from_controller {B} (b : B) : M B :=
  enabled ← or_report (ReconcileWorkflowController r) (fun err => SetWorkflowControllerNotReady (Some err) FailingToDeploy);
  params ← prm;
  (if enabled : bool
   then setStatus (p_WorkflowControllerDefaultResourceName params) WorkflowControllerReady SetWorkflowControllerStatus
   else SetWorkflowControllerNotApplicable) ;;
  from_mlmd b.
Definition from_scheduled {B} (b : B) : M B :=
  reconcile_component (ReconcileScheduledWorkflow r) p_ScheduledWorkflowDefaultResourceName
    ScheduledWorkflowReady SetScheduledWorkflowStatus ;; from_controller b.
Definition from_agent {B} (b : B) : M B :=
  reconcile_component (ReconcilePersistenceAgent r) p_PersistentAgentDefaultResourceName
    PersistenceAgentReady SetPersistenceAgentStatus ;; from_scheduled b.
Definition from_apiserver {B} (b : B) : M B :=
  reconcile_component (ReconcileAPIServer r) p_APIServerDefaultResourceName APIServerReady SetApiServerStatus ;; from_agent b.

Lemma bind_ext {A B} (m : M A) (k k' : A -> M B) (s : St) :
  (forall a s', k a s' = k' a s') -> (m ≫= k) s = (m ≫= k') s.
Proof. intros H. unfold mbind, prog_bind. destruct (out (m s)); [|done..]. by rewrite H. Qed.

Lemma workloads_split {B} (b : B) (s : St) : (reconcile_workloads r ;; mret b) s = from_apiserver b s.
Proof.
  unfold reconcile_workloads, from_apiserver, from_agent, from_scheduled, from_controller, from_mlmd.
  do 3 (rewrite bind_assoc; apply bind_ext; intros ? ?). do 2 (rewrite bind_assoc; apply bind_ext; intros ? ?).
  rewrite bind_assoc. done.
Qed.

(** What the later components leave alone: the conditions of the earlier ones. *)
Definition slot_of (sl : dspaStatus -> Condition) (s : St) := (sl (st_status s), s_dspaReady (st_status s)).

Lemma rest_keeps {B} (b : B) :
  keeps (slot_of s_apiServerReady) (from_agent b) /\ keeps (slot_of s_persistenceAgentReady) (from_scheduled b) /\
  keeps (slot_of s_scheduledWorkflowReady) (from_controller b) /\ keeps (slot_of s_workflowControllerReady) (from_mlmd b).
Proof.
  assert (forall sl, keeps (slot_of sl) (ReconcilePersistenceAgent r) /\ keeps (slot_of sl) (ReconcileScheduledWorkflow r) /\
    keeps (slot_of sl) (ReconcileWorkflowController r) /\ keeps (slot_of sl) (ReconcileMLMD r)) as K.
  { intros sl. destruct (component_keeps r (slot_of sl)) as (_ & K2 & K3 & K4 & K5 & _); done. }
  split_and!; unfold from_agent, from_scheduled, from_controller, from_mlmd, reconcile_component, or_report, prm.
  all: go_solve; first [apply K|apply evaluate_keeps; [done|intros c]|idtac]; unfold_setters; go_solve.
Qed.

(** none of these conditions holds the application back *)
Definition cleared (l : list (dspaStatus -> Condition)) (st : dspaStatus) : Prop := Forall (fun sl => blocks (sl st) = false) l.

Definition gate_slots : list (dspaStatus -> Condition) :=
  [s_databaseAvailable; s_objStoreAvailable; s_webhookReady; s_managedPipelineValid].
Definition workload_slots_before (n : nat) : list (dspaStatus -> Condition) :=
  take n [s_apiServerReady; s_persistenceAgentReady; s_scheduledWorkflowReady; s_workflowControllerReady].

Definition at_stage (n : nat) (st : dspaStatus) : Prop := undecided st /\ cleared (gate_slots ++ workload_slots_before n) st.

(** the conditions of a stage, one by one *)
Ltac stage := unfold at_stage, undecided, cleared, gate_slots, workload_slots_before in *; cbn [app take] in *;
  repeat match goal with
  | H : _ /\ _ |- _ => destruct H
  | H : Forall _ (_ :: _) |- _ => apply Forall_cons in H as [? ?]
  end;
  repeat first [done|apply Forall_nil|apply Forall_cons; split|split].

Lemma ready_mlmd {B} (b : B) (s : St) : at_stage 4 (st_status s) ->
  ends_ready (from_mlmd b) s <->
  exists s5, brought_up (ReconcileMLMD r) p_MlmdProxyDefaultResourceName MLMDProxyReady SetMLMDProxyStatus s s5.
Proof.
  intros Hst. unfold from_mlmd.
  rewrite (ready_component _ _ _ _ (fun c st => st <| s_mlmdProxyReady := c |>) s_mlmdProxyReady _ _ (fun _ => True)).
  - split; [intros (s' & H & _)|intros (s' & H)]; eauto.
  - apply Hst.
  - by destruct (component_keeps r st_status) as (_ & _ & _ & _ & K & _).
  - done.
  - done.
  - done.
  - intros st. unfold component_conditions. set_solver.
  - intros c st Hc [Hn _]. by split.
  - done.
  - intros s' c Hs' Hc. split; [done|]. intros _. unfold ends_ready. cbn [fin mret prog_ret].
    rewrite Hs', overall_all by apply Hst. unfold component_conditions. cbn. stage.
Qed.

Lemma ready_controller {B} (b : B) (s : St) : at_stage 3 (st_status s) ->
  ends_ready (from_controller b) s <-> exists s4, controller_up s s4 /\
    exists s5, brought_up (ReconcileMLMD r) p_MlmdProxyDefaultResourceName MLMDProxyReady SetMLMDProxyStatus s4 s5.
Proof.
  intros Hst. unfold from_controller.
  set (G s4 := exists s5, brought_up (ReconcileMLMD r) p_MlmdProxyDefaultResourceName MLMDProxyReady SetMLMDProxyStatus s4 s5).
  rewrite (ready_report _ _ _ _ (fun enabled s1 => exists s4, (if enabled : bool
    then let name := p_WorkflowControllerDefaultResourceName (st_params s1) in
         up name s1 /\ yields (setStatus name WorkflowControllerReady SetWorkflowControllerStatus) s1 tt s4
    else yields SetWorkflowControllerNotApplicable s1 tt s4) /\ G s4)).
  - unfold controller_up. split.
    + intros (enabled & s1 & Hy & s4 & Hup & HGs). exists s4. split; [by exists enabled, s1|done].
    + intros (s4 & (enabled & s1 & Hy & Hup) & HGs). exists enabled, s1. split; [done|by exists s4].
  - apply Hst.
  - by destruct (component_keeps r st_status) as (_ & _ & _ & K & _).
  - intros e. apply tail_undecided. unfold_setters. go_solve.
  - intros enabled s1 Hs1. transitivity (ends_ready ((if enabled
        then setStatus (p_WorkflowControllerDefaultResourceName (st_params s1)) WorkflowControllerReady SetWorkflowControllerStatus
        else SetWorkflowControllerNotApplicable) ;; from_mlmd b) s1).
    { unfold ends_ready, prm. by rewrite bind_get. }
    destruct enabled.
    + rewrite (ready_setStatus _ _ _ (fun c st => st <| s_workflowControllerReady := c |>) s_workflowControllerReady _ _ G);
        [naive_solver|by rewrite Hs1; apply Hst|try done..|].
      * intros st. unfold component_conditions. set_solver.
      * apply rest_keeps.
      * intros s4 c Hs4 Hc. apply ready_mlmd. rewrite Hs4, Hs1. stage.
    + rewrite (ready_bind _ _ _ (fun _ => G)).
      * split; [intros ([] & H)|intros H]; eauto.
      * rewrite Hs1. apply Hst.
      * apply tail_undecided. unfold_setters. go_solve.
      * intros [] s4 [t Hs4] _. unfold SetWorkflowControllerNotApplicable in Hs4.
        edestruct stamped as (u & w & Hr). rewrite Hr in Hs4. injection Hs4 as <- _. apply ready_mlmd.
        cbn. rewrite Hs1. stage.
Qed.

Lemma ready_workloads {B} (b : B) (s : St) : at_stage 0 (st_status s) ->
  ends_ready (reconcile_workloads r ;; mret b) s <-> workloads_up s.
Proof.
  intros Hst. transitivity (ends_ready (from_apiserver b) s); [unfold ends_ready; by rewrite workloads_split|].
  destruct (component_keeps r st_status) as (_ & K2 & K3 & _); [done..|].
  destruct (rest_keeps b) as (R1 & R2 & R3 & _).
  unfold workloads_up, from_apiserver.
  apply (ready_component _ _ _ _ (fun c st => st <| s_apiServerReady := c |>) s_apiServerReady); try done; [apply Hst|..].
  { by apply ReconcileAPIServer_keeps. }
  { intros st. unfold component_conditions. set_solver. }
  intros s1 c1 Hs1 Hc1. assert (at_stage 1 (st_status s1)) as Hst1 by (rewrite Hs1; stage). clear Hst Hs1.
  apply (ready_component _ _ _ _ (fun c st => st <| s_persistenceAgentReady := c |>) s_persistenceAgentReady); try done; [apply Hst1|..].
  { intros st. unfold component_conditions. set_solver. }
  intros s2 c2 Hs2 Hc2. assert (at_stage 2 (st_status s2)) as Hst2 by (rewrite Hs2; stage). clear Hst1 Hs2.
  apply (ready_component _ _ _ _ (fun c st => st <| s_scheduledWorkflowReady := c |>) s_scheduledWorkflowReady); try done; [apply Hst2|..].
  { intros st. unfold component_conditions. set_solver. }
  intros s3 c3 Hs3 Hc3. assert (at_stage 3 (st_status s3)) as Hst3 by (rewrite Hs3; stage).
  by apply ready_controller.
Qed.

(** ** The whole run *)

(** The run of a live application in which everything it looks at is up. *)
Definition all_up (s : St) : Prop :=
  exists s1, yields (ExtractParams r) s tt s1 /\
  exists s2, yields (reconcile_prereqs r) s1 true s2 /\
  exists s3, yields (ReconcileCommon r) s2 tt s3 /\
  exists s4, (yields (reconcile_webhook r) s3 true s4 /\ (kubernetes_store (cur s3) = true -> webhook_up s3)) /\
  exists again s5, yields (validateManagedPipelines r) s4 (true, again) s5 /\ workloads_up s5.

Lemma not_ready {A} (m : M A) (s : St) (X : Prop) : ~ ends_ready m s -> ~ X -> ends_ready m s <-> X.
Proof. tauto. Qed.

(** An overriding condition is negative. *)
Lemma overridden err reason (k : unit -> M Result) res (s : St) :
  (forall s, k tt s = Run (Ret res) s []) -> ~ ends_ready (SetDSPANotReady err reason ≫= k) s.
Proof.
  intros Hk. unfold ends_ready, SetDSPANotReady. edestruct stamped as (t & w & Hr).
  unfold mbind at 1, prog_bind at 1. rewrite Hr. cbn [out fin]. by rewrite Hk.
Qed.

(** a step whose run is known, and the rest *)
Lemma ready_step {A B} (m : M A) (k : A -> M B) (s : St) a s' t :
  m s = Run (Ret a) s' t -> ends_ready (m ≫= k) s <-> ends_ready (k a) s'.
Proof. intros Hm. unfold ends_ready, mbind, prog_bind. by rewrite Hm. Qed.

Lemma blocked_managed (s : St) (q : Result) : s_dspaReady (st_status s) = None -> blocks (mp_cond s) = true ->
  ~ ends_ready (preservePostValidationConditions ;; mret q) s.
Proof.
  intros Hn Hb. rewrite (ready_step _ _ _ _ _ _ (preserve_run s)). unfold ends_ready. cbn [fin mret prog_ret].
  apply (overall_blocked _ (mp_cond s)); [done| |done]. unfold component_conditions. cbn. set_solver.
Qed.

(** what the steps before the components leave in the collector *)
Lemma gates_cleared (s s3 s4 : St) a s5 :
  prereqs_reported s -> st_status s3 = st_status s -> yields (reconcile_webhook r) s3 true s4 ->
  yields (validateManagedPipelines r) s4 a s5 ->
  s_dspaReady (st_status s5) = s_dspaReady (st_status s) /\ (a.1 = true -> cleared gate_slots (st_status s5)).
Proof.
  intros [Hdb Hos] Hs3 Hs4 Hs5. destruct (yields_returns _ _ _ _ _ Hs4 (webhook_status s3) eq_refl) as [Hb4 _].
  pose proof (yields_keeps but_webhook _ _ _ _ webhook_others Hs4) as Hk4.
  destruct (validate_status _ _ _ Hs5) as [Hk5 Hb5].
  assert (forall {X} (f : dspaStatus -> X), (forall st, f (st <| s_webhookReady := zero_Condition |>) = f st) ->
    (forall st, f (st <| s_managedPipelineValid := zero_Condition |>) = f st) -> f (st_status s5) = f (st_status s)) as Hf.
  { intros X f H1 H2. rewrite <- Hs3, <- (H2 (st_status s5)), <- (H1 (st_status s3)).
    fold (but_managed s5) (but_webhook s3). rewrite Hk5, <- Hk4. unfold but_managed, but_webhook. by rewrite H1, H2. }
  split; [by apply Hf|]. intros Ha%Hb5. unfold cleared, gate_slots. rewrite !Forall_cons.
  split_and!; [by rewrite (Hf _ s_databaseAvailable)|by rewrite (Hf _ s_objStoreAvailable)| |exact Ha|constructor].
  by rewrite (f_equal s_webhookReady Hk5 : s_webhookReady (st_status s5) = s_webhookReady (st_status s4)).
Qed.

Lemma ready_components q (s : St) : undecided (st_status s) -> prereqs_reported s ->
  ends_ready (reconcile_components r q) s <->
  exists s3, yields (ReconcileCommon r) s tt s3 /\
  exists s4, (yields (reconcile_webhook r) s3 true s4 /\ (kubernetes_store (cur s3) = true -> webhook_up s3)) /\
  exists again s5, yields (validateManagedPipelines r) s4 (true, again) s5 /\ workloads_up s5.
Proof.
  intros Hu Hpre. destruct (component_keeps r st_status) as (K1 & _); [done..|].
  unfold reconcile_components.
  rewrite (ready_bind _ _ _ (fun _ s3 => exists s4, (yields (reconcile_webhook r) s3 true s4 /\ (kubernetes_store (cur s3) = true -> webhook_up s3)) /\
    exists again s5, yields (validateManagedPipelines r) s4 (true, again) s5 /\ workloads_up s5)); [..|done|by apply quiet_undecided|].
  { split; [intros ([] & H)|intros H]; eauto. }
  intros [] s3 Hs3 Hu3. apply (yields_keeps st_status _ _ _ _ K1) in Hs3.
  rewrite (ready_bind _ _ _ (fun b s4 => b = true /\ (kubernetes_store (cur s3) = true -> webhook_up s3) /\
    exists again s5, yields (validateManagedPipelines r) s4 (true, again) s5 /\ workloads_up s5)); [..|done| |].
  { split.
    - intros (b & s4 & Hy & -> & Hw & HGs). by exists s4.
    - intros (s4 & [Hy Hw] & HGs). by exists true, s4. }
  { apply tail_undecided. intros s0. exact (f_equal (fun st => (s_mlmdProxyReady st, s_dspaReady st)) (webhook_others s0)). }
  intros b s4 Hs4 Hu4.
  destruct b; cbn [negb].
  2: { apply not_ready; [unfold ends_ready; cbn [fin mret prog_ret]; by apply overall_undecided|by intros [? _]]. }
  destruct (yields_returns _ _ _ _ _ Hs4 (webhook_status s3) eq_refl) as [_ Hw].
  rewrite (ready_bind _ _ _ (fun a s5 => a.1 = true /\ workloads_up s5)); [..|done| |].
  { split.
    - intros ([proceed again] & s5 & Hy & Hp & HGs). cbn in Hp. subst. split_and!; [done..|]. eauto.
    - intros (_ & _ & again & s5 & Hy & HGs). by exists (true, again), s5. }
  { intros s0 [H1 H2]. pose proof (validate_outcome r s0) as (_ & Hst & _). unfold undecided in *. by rewrite Hst. }
  intros [proceed again] s5 Hs5 Hu5. destruct (validate_status _ _ _ Hs5) as [Hk5 Hb5]. cbn [fst] in *.
  destruct proceed; cbn [negb].
  - rewrite (ready_workloads _ s5); [naive_solver|]. split; [done|].
    unfold workload_slots_before. cbn [take]. rewrite app_nil_r.
    by apply (gates_cleared s s3 s4 (true, again)).
  - split; [|by intros [? _]]. intros H. exfalso. revert H. apply blocked_managed; [apply Hu5|].
    destruct (blocks (mp_cond s5)); [done|]. naive_solver.
Qed.

Lemma ready_live (s : St) : undecided (st_status s) -> ends_ready (reconcile_live r) s <-> all_up s.
Proof.
  intros Hu. unfold reconcile_live, all_up. rewrite (ready_step _ _ _ _ _ _ (GetDurationConfigWithDefault_run _ _ _)).
  set (q := if viper_is_set _ _ then _ else _). pose proof (ExtractParams_quiet s) as Hq.
  destruct (ExtractParams r s) as [o s1 t1] eqn:He. cbn [fin] in Hq.
  assert (try (ExtractParams r) s = Run (match o with Ret a => Ret (inl a) | Fail e => Ret (inr e) | Panic p => Panic p end) s1 t1)
    as Ht by (unfold try; by rewrite He).
  destruct o as [[]|err|why].
  - rewrite (ready_step _ _ _ _ _ _ Ht). rewrite <- Hq in Hu.
    rewrite (ready_bind _ _ _ (fun b s2 => b = true /\ exists s3, yields (ReconcileCommon r) s2 tt s3 /\
      exists s4, (yields (reconcile_webhook r) s3 true s4 /\ (kubernetes_store (cur s3) = true -> webhook_up s3)) /\
      exists again s5, yields (validateManagedPipelines r) s4 (true, again) s5 /\ workloads_up s5)); [..|done| |].
    + split.
      * intros (b & s2 & Hy & -> & HGs). exists s1. split; [by exists t1|]. by exists s2.
      * intros (s1' & [t He'] & s2 & Hy & HGs). rewrite He in He'. injection He' as <- _. by exists true, s2.
    + apply tail_undecided, prereqs_tail.
    + intros b s2 Hs2 Hu2. destruct b; cbn [negb].
      * rewrite ready_components; [naive_solver|done|]. exact (yields_returns _ _ _ _ _ Hs2 (prereqs_status s1) eq_refl).
      * apply not_ready; [by apply overall_undecided|by intros [? _]].
  - rewrite (ready_step _ _ _ _ _ _ Ht). apply not_ready.
    + unfold setStatusAsNotReady. edestruct (stamped (fun t st => st <| s_apiServerReady := BuildFalseCondition t APIServerReady FailingToDeploy (err_msg err) |>))
        as (t & w & Hr). erewrite ready_step by exact Hr. by eapply overridden.
    + intros (s1' & [t He'] & _). by rewrite He in He'.
  - apply not_ready.
    + unfold ends_ready, mbind, prog_bind. rewrite Ht. cbn [out fin]. apply overall_undecided. by rewrite Hq.
    + intros (s1' & [t He'] & _). by rewrite He in He'.
Qed.

Lemma finalize_quiet d : keeps st_status (finalize r d).
Proof.
  unfold finalize, cleanUpResources, DeleteMetrics, DeleteLabelValues, upd_gauges, CleanUpCommon, CleanUpWebhookIfUnused,
    checkAvailableKubernetesDSPAs, cleanupWebhookResources, Update_dspa. unfold_lookups. go_solve; apply set_cur_status.
Qed.

Lemma finalizer_quiet d : keeps st_status (ensure_finalizer d).
Proof. unfold ensure_finalizer, Update_dspa. unfold_lookups. go_solve; apply set_cur_status. Qed.

(** The application is supported and not being deleted, it has the finalizer,
    and everything is up. *)
Definition live_and_up (s : St) : Prop :=
  DSPAWithSupportedDSPVersion (cur s) = true /\ dspa_DeletionTimestamp (cur s) = None /\
  exists s0, yields ensure_kind s tt s0 /\ exists s1, yields (ensure_finalizer (cur s0)) s0 tt s1 /\ all_up s1.

Lemma ready_fetched (s : St) : undecided (st_status s) -> ends_ready (reconcile_fetched r) s <-> live_and_up s.
Proof.
  intros Hu. unfold reconcile_fetched, live_and_up. rewrite (ready_step _ _ _ _ _ _ (eq_refl : gets cur s = Run (Ret (cur s)) s [])).
  destruct (DSPAWithSupportedDSPVersion (cur s)); cbn [negb].
  2: { apply not_ready; [|by intros [? _]]. destruct (reject_wp (cur s) s) as (_ & _ & w & st & Hs & Hr & _).
       unfold ends_ready. rewrite Hs. unfold overall. cbn [st_status stamp set].
       change (st_status (stamp s w st)) with st. destruct (s_dspaReady st) as [c|]; [|done]. cbn. destruct Hr as (-> & _). done. }
  destruct (ensure_kind_run s) as (s0 & Hk & Hc & Hs0 & _). rewrite (ready_step _ _ _ _ _ _ Hk).
  rewrite (ready_step _ _ _ _ _ _ (eq_refl : gets cur s0 = Run (Ret (cur s0)) s0 [])).
  assert (dspa_DeletionTimestamp (cur s0) = dspa_DeletionTimestamp (cur s)) as Hd
    by (rewrite Hc; unfold kinded; by case_bool_decide).
  rewrite <- Hd, <- Hs0 in *. destruct (dspa_DeletionTimestamp (cur s0)).
  - apply not_ready; [|by intros (_ & ? & _)]. unfold ends_ready.
    assert (keeps st_status (finalize r (cur s0) ;; mret no_requeue)) as -> by (apply keeps_bind; [apply finalize_quiet|go_solve]).
    by apply overall_undecided.
  - rewrite (ready_bind _ _ _ (fun _ s1 => all_up s1)); [|done|apply quiet_undecided, finalizer_quiet|].
    + split.
      * intros ([] & s1 & Hy & HGs). split_and!; [done..|]. exists s0. split; [by exists []|]. by exists s1.
      * intros (_ & _ & s0' & [t Hk'] & s1 & Hy & HGs). rewrite Hk in Hk'. injection Hk' as <- _. by exists tt, s1.
    + intros [] s1 _ Hu1. by apply ready_live.
Qed.

(** C1: An application is reported ready exactly when the reconcile saw everything
    up.  Whatever the run did, the overall condition of the conditions it
    reports is True exactly when the run went through all of its steps:
    supported and not being deleted, the finalizer stored, the parameters
    extracted, the database and the object store deployed and accessible, the
    common resources and, for an application with its pipelines in Kubernetes,
    the webhook there, the managed pipelines not refused; and then each of the
    components deployed and, when looked at afterwards, running.  The one
    exception is a deployment that could not be looked at: it counts as up. *)
Theorem ready_exactly_when_up req (s : St) :
  wp (Reconcile r req) (fun o s' t =>
    match (get_dspa req (st_world s)).1 with
    | inr _ => forall nn ok, Ev (CUpdateStatus nn) ok ∉ t
    | inl d => exists s0 s1 t1 t2, cur s0 = d /\ st_params s0 = initial_params r /\
        o = out (reconcile_fetched r s0) /\ t = t1 ++ t2 /\ reported req s1 s' t2 /\
        forall d' time, exists c, last (conditions_at d' time (st_status s1)) = Some c /\
          (c_Status c = ConditionTrue <-> live_and_up s0)
    end) s.
Proof.
  eapply wp_mono; [apply Reconcile_run|]. cbn beta. intros o s' t. destruct (get_dspa _ _).1 as [d|e].
  - intros (s0 & s1 & t2 & Hc & Hp & Hf & -> & -> & _ & _ & Hs1 & Hr).
    exists s0, s1, (Ev (CGet "DSPA" req) true :: evs (reconcile_fetched r s0)), t2. split_and!; [done..|].
    intros d' time. destruct (overall_published d' time (st_status s1)) as (c & Hl & Hst). exists c. split; [done|].
    rewrite Hst, Hs1. apply ready_fetched. split.
    + rewrite <- slot_ready. specialize (Hf CrReady). rewrite slot_ready in *. apply Hf. unfold published_types. set_solver.
    + assert (MLMDProxyReady ∈ published_types) as Hin by (unfold published_types, component_types; set_solver).
      specialize (Hf _ Hin). cbn in Hf. rewrite bool_decide_eq_false_2 in Hf by done.
      destruct Hf as (c' & [= ->] & _ & Hu & Hreason). apply blocks_reason. rewrite Hreason. auto.
  - intros [-> _] nn ok. set_solver.
Qed.
End Ready.

(** ** Examples *)

#[local] Existing Instance sim_platform.

(** In a cluster where everything is up, the status that is published says Ready. *)
Example healthy_application_ready :
  let s' := fin (Reconcile sample_order_reconciler (NN "project" "sample") (sim_state sim_cluster sim_full_dspa)) in
  c_Status <$> last (published_by s') = Some ConditionTrue /\
  forallb (fun ty => bool_decide (ty ∈ c_Type <$> published_by s')) published_types = true.
Proof. vm_compute. split; reflexivity. Qed.
