(* ===== verification/Retry.v ===== *)
(** * When a reconcile may rest

    A reconcile that ends without asking to be repeated has reported the
    application ready, or its status says what holds the application back. *)

From stdpp Require Import base gmap strings list.
From Stdlib Require Import ZArith Lia.
From S2P Require Import Prelude GoStd GoJson GoCodec KubeTypes ApiTypes Data Platform Config Util Sim.
From S2P Require Import Status Metrics ManagedPipelines Fetcher Reconciler Params Extract Manifests.
From S2P Require Import Database Storage Components ApiServer Readiness Gauges Controller Watches Order Lifecycle Ready.

(** what a look at a deployment that is not up finds *)
Definition deployment_reasons : list string :=
  [ComponentDeploymentNotFound; MinimumReplicasAvailable; FailingToDeploy; Deploying].

Definition held_back (c : Condition) : Prop := c_Status c = ConditionFalse /\ c_Reason c ∈ deployment_reasons.

(** does not hold the application back, or says why it does *)
Definition explained (c : Condition) : Prop := blocks c = false \/ held_back c.

Section Retry.
  Context {P : Platform}.
  Variable r : DSPAReconciler.

Lemma evaluated_explained name ty (s : St) c s' : evaluated name ty s (Ret c) s' -> explained c.
Proof.
  assert (forall c ty reason, c_Type c = ty /\ c_Status c = ConditionFalse /\ c_Reason c = reason ->
    reason ∈ deployment_reasons -> explained c) as Hf by (intros ? ? ? (_ & ? & <-) ?; by right).
  intros [_ H]. destruct (get_deployment _ _) as [[d|e] w1].
  - destruct H as (H1 & H2 & H3 & H4). destruct (deployment_known d) as [Hd|[(Hd & Hz)|[(Hd & Hz & Hr)|(Hd & Hz & Hr)]]].
    + destruct (H1 Hd) as (? & [= <-] & _ & Hs & _). left. unfold blocks. by rewrite Hs.
    + destruct (H2 Hz) as (? & [= <-] & Hc). eapply Hf; [exact Hc|]. unfold deployment_reasons. set_solver.
    + destruct (H3 Hd Hz Hr) as (? & [= <-] & Hc). eapply Hf; [exact Hc|]. unfold deployment_reasons. set_solver.
    + specialize (H4 Hd Hz Hr). destruct (dep_Selector d) as [labels|]; [|by destruct H4].
      destruct (list_pods labels w1).1 as [pods|e]; [|done]. destruct H4 as (? & [= <-] & Hc).
      eapply Hf; [exact Hc|]. unfold deployment_reasons. destruct (existsb _ _); set_solver.
  - destruct (IsNotFound e); [|done]. destruct H as (? & [= <-] & Hc). eapply Hf; [exact Hc|].
    unfold deployment_reasons. set_solver.
Qed.

Lemma setStatus_returns name ty set (put : Condition -> dspaStatus -> dspaStatus) (s : St) :
  (forall c, set c = upd_status (put c)) ->
  returns (setStatus name ty set) (fun _ s' _ => exists c, st_status s' = put c (st_status s) /\ explained c) s.
Proof.
  intros Hset [] . unfold setStatus. rewrite bind_try. pose proof (evaluateCondition_cases name ty s) as H.
  unfold wp in H. destruct (evaluateCondition name ty s) as [o s' t]. cbn [out fin evs] in *.
  destruct o as [c|e|w]; [..|done]; rewrite Hset; intros _; cbn.
  - exists c. pose proof (evaluated_explained _ _ _ _ _ H). destruct H as [[w ->] _]. done.
  - exists zero_Condition. destruct H as [[w ->] _]. split; [done|]. by left.
Qed.

Lemma component_returns (m : M unit) name ty set (put : Condition -> dspaStatus -> dspaStatus) (s : St) :
  keeps st_status m -> (forall c, set c = upd_status (put c)) ->
  returns (reconcile_component m name ty set)
    (fun _ s' _ => exists c, st_status s' = put c (st_status s) /\ explained c) s.
Proof.
  intros Hm Hset. unfold reconcile_component. apply returns_bind, returns_or_report, returns_any. intros [].
  unfold prm. apply returns_bind, returns_gets. rewrite <- (Hm s). by apply setStatus_returns.
Qed.

(** the five components behind the gate, each with what its look found *)
Lemma workloads_returns (s : St) :
  returns (reconcile_workloads r) (fun _ s' _ => exists api agent swf wc mlmd,
    st_status s' = (st_status s) <| s_apiServerReady := api |> <| s_persistenceAgentReady := agent |>
      <| s_scheduledWorkflowReady := swf |> <| s_workflowControllerReady := wc |> <| s_mlmdProxyReady := mlmd |> /\
    Forall explained [api; agent; swf; wc; mlmd]) s.
Proof.
  destruct (component_keeps r st_status) as (_ & K2 & K3 & K4 & K5 & _); [done..|].
  unfold reconcile_workloads.
  apply returns_bind. eapply returns_mono;
    [apply (component_returns _ _ _ _ (fun c st => st <| s_apiServerReady := c |>)); [by apply ReconcileAPIServer_keeps|done]|].
  intros [] s1 _ (api & H1 & E1).
  apply returns_bind. eapply returns_mono;
    [apply (component_returns _ _ _ _ (fun c st => st <| s_persistenceAgentReady := c |>)); done|].
  intros [] s2 _ (agent & H2 & E2).
  apply returns_bind. eapply returns_mono;
    [apply (component_returns _ _ _ _ (fun c st => st <| s_scheduledWorkflowReady := c |>)); done|].
  intros [] s3 _ (swf & H3 & E3).
  apply returns_bind, returns_or_report, returns_any. intros enabled. unfold prm. apply returns_bind, returns_gets.
  set (s4 := fin (ReconcileWorkflowController r s3)). assert (st_status s4 = st_status s3) as H4 by apply K4.
  apply returns_bind. apply (returns_mono _ (fun _ s5 _ => exists c, st_status s5 = (st_status s3) <| s_workflowControllerReady := c |> /\ explained c)).
  { rewrite <- H4. destruct enabled; [by apply (setStatus_returns _ _ _ (fun c st => st <| s_workflowControllerReady := c |>))|].
    intros [] _. unfold SetWorkflowControllerNotApplicable. edestruct stamped as (t & w & ->).
    eexists. split; [reflexivity|]. by left. }
  intros [] s5 _ (wc & H5 & E5).
  eapply returns_mono; [apply (component_returns _ _ _ _ (fun c st => st <| s_mlmdProxyReady := c |>)); done|].
  intros [] s6 _ (mlmd & H6 & E6). exists api, agent, swf, wc, mlmd. split; [by rewrite H6, H5, H3, H2, H1|].
  by repeat (apply Forall_cons; split).
Qed.

(** the time after which a run asks to be repeated *)
Definition requeue_time (s : St) : Z :=
  if viper_is_set RequeueTimeConfigName (st_world s)
  then viper_duration RequeueTimeConfigName (st_world s) else DefaultRequeueTime.

(** The status says why the application is not ready: its managed pipelines are
    refused, or a component's deployment is not up, and in what way. *)
Definition says_why (st : dspaStatus) : Prop :=
  c_Reason (s_managedPipelineValid st) = ManagedPipelineInvalid \/
  exists ty c, ty ∈ workload_types /\ slot st ty = Some c /\ held_back c.

Definition rested (st : dspaStatus) : Prop := overall st = ConditionTrue \/ says_why st.

Lemma workloads_rested (s s' : St) : s_dspaReady (st_status s) = None -> cleared gate_slots (st_status s) ->
  yields (reconcile_workloads r) s tt s' -> rested (st_status s').
Proof.
  intros Hn Hg Hy. destruct (yields_returns _ _ _ _ _ Hy (workloads_returns s)) as (api & agent & swf & wc & mlmd & Hs & He).
  unfold cleared, gate_slots in Hg. rewrite !Forall_cons in Hg. destruct Hg as (G1 & G2 & G3 & G4 & _).
  rewrite !Forall_cons in He. destruct He as (E1 & E2 & E3 & E4 & E5 & _). unfold rested. rewrite Hs.
  assert (forall st ty c, slot st ty = Some c -> ty ∈ workload_types -> explained c -> blocks c = false \/ says_why st) as Hx.
  { intros st ty c Hc Hty [Hb|Hh]; [by left|]. right. right. by exists ty, c. }
  match goal with |- overall ?x = _ \/ _ => set (st := x) end.
  destruct (Hx st APIServerReady api) as [B1|?]; [done|unfold workload_types; set_solver|done| |by right].
  destruct (Hx st PersistenceAgentReady agent) as [B2|?]; [done|unfold workload_types; set_solver|done| |by right].
  destruct (Hx st ScheduledWorkflowReady swf) as [B3|?]; [done|unfold workload_types; set_solver|done| |by right].
  destruct (Hx st WorkflowControllerReady wc) as [B4|?]; [done|unfold workload_types; set_solver|done| |by right].
  destruct (Hx st MLMDProxyReady mlmd) as [B5|?]; [done|unfold workload_types; set_solver|done| |by right].
  left. apply overall_all; [done|]. unfold component_conditions. by repeat (apply Forall_cons; split).
Qed.

(** A run that ends for good, from a point of it on. *)
Definition rests {A} (end_ : A) (m : M A) (s : St) : Prop :=
  returns m (fun a s' _ => a = end_ -> rested (st_status s')) s.

Lemma rests_other {A} (end_ a : A) (s : St) : a ≠ end_ -> rests end_ (mret a) s.
Proof. intros H. by apply returns_ret. Qed.

Lemma rests_bind {A B} (end_ : B) (m : M A) (k : A -> M B) (s : St) :
  (forall a s', yields m s a s' -> rests end_ (k a) s') -> rests end_ (m ≫= k) s.
Proof. intros H. apply returns_bind. intros a Ha. apply H. by apply yields_fin. Qed.

Lemma components_rest q (s : St) : q ≠ 0%Z -> s_dspaReady (st_status s) = None -> prereqs_reported s ->
  rests no_requeue (reconcile_components r q) s.
Proof.
  intros Hq Hn Hpre. destruct (component_keeps r st_status) as (K1 & _); [done..|].
  unfold reconcile_components. apply rests_bind. intros [] s3 Hs3%(yields_keeps st_status _ _ _ _ K1).
  apply rests_bind. intros b s4 Hs4. destruct b; cbn [negb]; [|apply rests_other; by intros [= ->]].
  apply rests_bind. intros [proceed again] s5 Hs5.
  destruct (gates_cleared r _ _ _ _ _ Hpre Hs3 Hs4 Hs5) as [Hn5 Hcl]. rewrite Hn in Hn5.
  destruct proceed; cbn [negb].
  - apply rests_bind. intros [] s6 Hs6. apply returns_ret. intros _.
    by apply (workloads_rested s5); [|apply Hcl|].
  - apply rests_bind. intros [] s6 [t Hs6]. apply returns_ret. intros _. rewrite preserve_run in Hs6. injection Hs6 as <- _.
    right. left. cbn. destruct Hs5 as [t5 Hs5]. pose proof (validate_outcome r s4) as H. unfold wp, mp_settled in H.
    rewrite Hs5 in H. cbn in H. by apply H.
Qed.

Lemma live_rests (s : St) : requeue_time s ≠ 0%Z -> s_dspaReady (st_status s) = None ->
  rests no_requeue (reconcile_live r) s.
Proof.
  intros Hq Hn. unfold reconcile_live. apply rests_bind. intros q s0 [t0 Hs0].
  rewrite GetDurationConfigWithDefault_run in Hs0. injection Hs0 as <- <- _. fold (requeue_time s) in *.
  apply rests_bind. intros x s1 Hs1.
  apply (yields_keeps st_status _ _ _ _ (keeps_try _ _ (ExtractParams_quiet r))) in Hs1. rewrite <- Hs1 in Hn.
  destruct x as [[]|e].
  - apply rests_bind. intros b s2 Hs2. destruct b; cbn [negb]; [|by apply rests_other].
    apply components_rest; [done| |exact (yields_returns _ _ _ _ _ Hs2 (prereqs_status r s1) eq_refl)].
    rewrite <- Hn. exact (f_equal snd (yields_keeps tail _ _ _ _ (prereqs_tail r) Hs2)).
  - do 2 (apply rests_bind; intros ? ? _). by apply rests_other.
Qed.

(** the state in which the work on a live application starts *)
Definition comes_alive (s sl : St) : Prop :=
  exists sk, yields ensure_kind s tt sk /\ yields (ensure_finalizer (cur sk)) sk tt sl.

(** What a run that found the application and asks for nothing more has come to:
    the version is reported as unsupported; or the application is being deleted
    and is free of the operator's finalizer; or it is live, and its status says
    Ready or why not. *)
Definition settled (s : St) (st : dspaStatus) : Prop :=
  let d := cur s in
  if negb (DSPAWithSupportedDSPVersion d) then rejected d st
  else match dspa_DeletionTimestamp d with
       | Some _ => has_finalizer d -> exists w w' stored, update_dspa (without_finalizer (kinded d)) w = (inl stored, w')
       | None => exists sl, comes_alive s sl /\ (requeue_time sl ≠ 0%Z ->
           overall st = ConditionTrue \/ c_Reason (s_managedPipelineValid st) = ManagedPipelineInvalid \/
           exists ty c, ty ∈ workload_types /\ slot st ty = Some c /\
             c_Status c = ConditionFalse /\ c_Reason c ∈ deployment_reasons)
       end.

Lemma kinded_same d : dspa_DeletionTimestamp (kinded d) = dspa_DeletionTimestamp d /\
  (has_finalizer (kinded d) <-> has_finalizer d).
Proof. unfold kinded, has_finalizer. by case_bool_decide. Qed.

Lemma fetched_settled (s : St) : s_dspaReady (st_status s) = None ->
  wp (reconcile_fetched r) (fun o s' _ => o = Ret no_requeue -> settled s (st_status s')) s.
Proof.
  intros Hn. unfold reconcile_fetched, settled. apply wp_get. destruct (DSPAWithSupportedDSPVersion (cur s)); cbn [negb].
  2: { eapply wp_mono; [apply reject_wp|]. cbn beta. by intros o s' t (_ & _ & w & st & -> & Hr) _. }
  destruct (ensure_kind_run s) as (sk & Hk & Hc & Hst & _). eapply wp_step; [exact Hk|]. apply wp_get. rewrite Hc.
  destruct (kinded_same (cur s)) as [-> Hf]. destruct (dspa_DeletionTimestamp (cur s)).
  - apply wp_bind. eapply wp_mono; [apply finalize_wp|]. cbn beta. intros o s1 t1 H.
    destruct o as [[]|e|w]; [apply wp_ret; intros _ Hd|done..].
    rewrite bool_decide_eq_true_2 in H by by apply Hf.
    destruct H as (u1 & u2 & u3 & _ & _ & _ & _ & H). destruct (H eq_refl) as (_ & w & w' & Hu). by eexists w, w', _.
  - pose proof (finalizer_quiet (cur sk) sk) as Hk1. rewrite <- Hc in *. apply wp_bind. unfold wp at 1.
    destruct (ensure_finalizer (cur sk) sk) as [o sl t] eqn:He. cbn [out fin evs] in *.
    destruct o as [[]|e|w]; [|done..]. intros Ho. exists sl. split; [by exists sk; split; [exists []|exists t]|].
    intros Hq. exact (live_rests sl Hq ltac:(congruence) no_requeue Ho eq_refl).
Qed.

(** C9: Nothing is forgotten.  A reconcile that ends without an error and without
    asking to be repeated did not find its application, or the application is
    being deleted and its finalizer is off, or the last act of the reconcile was
    to report the state of its collector, and that says why there is nothing
    more to do: the version of the application is not supported, or the
    application is ready, or what holds it back is one of two things, that its
    managed pipelines are refused, or that the condition of one of its components
    is False for what was found of its deployment (missing, scaled down, failing
    or still deploying), which the operator watches.  Whatever else went wrong is
    an error or asks for another reconcile, provided the time to wait that was
    configured when the work on the application started is not zero.  (That the
    status itself could not be written is only logged.) *)
Theorem rests_only_when_explained req (s : St) :
  wp (Reconcile r req) (fun o s' t => o = Ret no_requeue ->
    match (get_dspa req (st_world s)).1 with
    | inr e => IsNotFound e = true
    | inl d => exists s0 s1 t1 t2, cur s0 = d /\ o = out (reconcile_fetched r s0) /\
        t = t1 ++ t2 /\ reported req s1 s' t2 /\ settled s0 (st_status s1)
    end) s.
Proof.
  eapply wp_mono; [apply Reconcile_run|]. cbn beta. intros o s' t H Ho. destruct (get_dspa _ _).1 as [d|e].
  - destruct H as (s0 & s1 & t2 & Hc & _ & Hf & -> & Hout & _ & _ & Hs1 & Hr).
    exists s0, s1, (Ev (CGet "DSPA" req) true :: evs (reconcile_fetched r s0)), t2. split_and!; [done..|].
    rewrite Hs1. apply fetched_settled; [|by rewrite <- Hout].
    rewrite <- slot_ready. specialize (Hf CrReady). rewrite slot_ready in *. apply Hf. unfold published_types. set_solver.
  - destruct H as [_ H]. rewrite Ho in H. by destruct (IsNotFound e).
Qed.

End Retry.

(** ** Examples *)

#[local] Existing Instance sim_platform.

(** a cluster in which the deployment of the persistence agent is not available *)
Definition sample_rest : St :=
  sim_state (sim_cluster <| sim_deployments ::= <[NN "project" "ds-pipeline-persistenceagent-sample" :=
     sim_deployment "ds-pipeline-persistenceagent-sample" false]> |>) sim_full_dspa.

(** The reconcile rests, and its status says what it waits for. *)
Lemma rests_only_when_explained_witness :
  let req := NN "project" "sample" in
  out (Reconcile sample_order_reconciler req sample_rest) = Ret no_requeue /\
  c_Status <$> last (published_by (fin (Reconcile sample_order_reconciler req sample_rest))) = Some ConditionFalse /\
  exists s0 st, settled s0 st /\ dspa_Name (cur s0) = "sample".
Proof.
  intros req. assert (out (Reconcile sample_order_reconciler req sample_rest) = Ret no_requeue) as Ho by (vm_compute; reflexivity).
  split; [exact Ho|]. split; [vm_compute; reflexivity|].
  pose proof (rests_only_when_explained sample_order_reconciler req sample_rest Ho) as H.
  destruct (get_dspa req (st_world sample_rest)).1 as [d|e] eqn:Hg; [|vm_compute in Hg; discriminate Hg].
  destruct H as (s0 & s1 & _ & _ & Hc & _ & _ & _ & Hs). exists s0, (st_status s1). split; [exact Hs|].
  rewrite Hc. vm_compute in Hg. injection Hg as <-. reflexivity.
Defined.
