(* ===== verification/Defaults.v ===== *)
(** * Defaults and bounds of the parameters

    The time to live of a pipeline is a duration in nanoseconds that reaches
    Argo as a number of seconds, through a double and a 32-bit integer; the
    managed-pipelines container gets resources that are never unbounded and a
    volume with a positive limit.  This file proves that these computations
    give what they are meant to, and where they stop doing so. *)

From stdpp Require Import base gmap strings list.
From Stdlib Require Import ZArith Lia SpecFloat.
From S2P Require Import Prelude GoStd GoJson KubeTypes ApiTypes Data Platform Config Sim Params.

(** ** Integers as doubles *)

Lemma digits2_bound m : (2 ^ (Z.pos (digits2_pos m) - 1) <= Z.pos m)%Z.
Proof.
  induction m as [m IH|m IH|]; cbn [digits2_pos]; [| |done].
  all: rewrite Pos2Z.inj_succ; replace (Z.succ (Z.pos (digits2_pos m)) - 1)%Z with (Z.succ (Z.pos (digits2_pos m) - 1))%Z by lia;
    rewrite Z.pow_succ_r by lia; lia.
Qed.

Lemma shift_spec d m : Z.pos (Pos.iter xO m d) = (Z.pos m * 2 ^ Z.pos d)%Z.
Proof.
  induction d as [|d IH] using Pos.peano_ind; [cbn; lia|].
  rewrite Pos.iter_succ, Pos2Z.inj_xO, IH, Pos2Z.inj_succ, Z.pow_succ_r by lia. lia.
Qed.

Lemma digits2_shift d m : digits2_pos (Pos.iter xO m d) = (digits2_pos m + d)%positive.
Proof.
  induction d as [|d IH] using Pos.peano_ind; [cbn; lia|].
  rewrite Pos.iter_succ. cbn [digits2_pos]. rewrite IH. lia.
Qed.

Notation prec := 53%Z (only parsing).
Notation emax := 1024%Z (only parsing).

Lemma fexp_small k : (1 <= k <= 53)%Z -> fexp prec emax k = (k - 53)%Z.
Proof. intros H. unfold fexp, emin. lia. Qed.

Lemma shr_fexp_53 m e : Z.pos (digits2_pos m) = 53%Z -> (-1074 <= e)%Z ->
  shr_fexp prec emax (Z.pos m) e loc_Exact = (shr_record_of_loc (Z.pos m) loc_Exact, e).
Proof.
  intros Hd He. unfold shr_fexp, shr. cbn [Zdigits2]. rewrite Hd.
  replace (fexp prec emax (53 + e) - e)%Z with 0%Z by (unfold fexp, emin; lia). done.
Qed.

(** no rounding happens once there are 53 digits *)
Lemma round_53 sx m e : Z.pos (digits2_pos m) = 53%Z -> (-1074 <= e <= 971)%Z ->
  binary_round_aux prec emax sx (Z.pos m) e loc_Exact = S754_finite sx m e.
Proof.
  intros Hd He. unfold binary_round_aux. rewrite shr_fexp_53 by (done || lia).
  change (round_nearest_even _ _) with (Z.pos m). rewrite shr_fexp_53 by (done || lia).
  cbn [shr_record_of_loc shr_m]. destruct (Z.leb_spec e (emax - prec)); [done|lia].
Qed.

Lemma binary_round_int sx m : (Z.pos m < 2 ^ 53)%Z ->
  exists m' k, binary_round prec emax sx m 0 = S754_finite sx m' (- k) /\ (0 <= k)%Z /\ Z.pos m' = (Z.pos m * 2 ^ k)%Z.
Proof.
  intros Hm. pose proof (digits2_bound m) as Hb.
  assert (Z.pos (digits2_pos m) <= 53)%Z as Hd.
  { destruct (Z.le_gt_cases (Z.pos (digits2_pos m)) 53) as [|Hgt]; [done|].
    assert (2 ^ 53 <= 2 ^ (Z.pos (digits2_pos m) - 1))%Z by (apply Z.pow_le_mono_r; lia). lia. }
  unfold binary_round. rewrite Z.add_0_r, fexp_small by lia. unfold shl_align.
  rewrite Z.sub_0_r. destruct (Z.pos (digits2_pos m) - 53)%Z as [|p|p] eqn:Hp; [|lia|].
  - exists m, 0%Z. rewrite round_53 by lia. rewrite Z.mul_1_r. by split_and!.
  - exists (Pos.iter xO m p), (Z.pos p). rewrite round_53; [..|lia].
    + split_and!; [done|done|apply shift_spec].
    + rewrite digits2_shift. lia.
Qed.

(** An integer of at most 53 bits survives. *)
Lemma float_of_int z : (- 2 ^ 53 < z < 2 ^ 53)%Z ->
  z = 0%Z /\ float_of z = S754_zero false \/
  exists s m k, float_of z = S754_finite s m (- k) /\ (0 <= k)%Z /\ ((if s : bool then -1 else 1) * Z.pos m = z * 2 ^ k)%Z.
Proof.
  intros Hz. unfold float_of, binary_normalize. destruct z as [|m|m]; [by left|right..].
  - destruct (binary_round_int false m) as (m' & k & Hr & Hk & Hm'); [lia|]. exists false, m', k. split_and!; [done..|lia].
  - destruct (binary_round_int true m) as (m' & k & Hr & Hk & Hm'); [lia|]. exists true, m', k. split_and!; [done..|lia].
Qed.

Lemma float_trunc_of z : (- 2 ^ 53 < z < 2 ^ 53)%Z -> float_trunc (float_of z) = z.
Proof.
  intros Hz. destruct (float_of_int z Hz) as [[-> ->]|(s & m & k & -> & Hk & Hm)]; [done|].
  unfold float_trunc. assert (Z.shiftr (Z.pos m) k = Z.abs z) as Hs.
  { rewrite Z.shiftr_div_pow2 by done. symmetry. apply Z.div_unique_exact; [|destruct s; lia].
    apply Z.pow_nonzero; lia. }
  destruct (Z.leb_spec 0 (- k)).
  - assert (k = 0)%Z as -> by lia. rewrite Z.shiftl_0_r. rewrite Z.shiftr_0_r in Hs. destruct s; lia.
  - rewrite Z.opp_involutive, Hs. destruct s; lia.
Qed.

(** A whole number of seconds, as a duration, is that number as a double. *)
Lemma Seconds_whole n : (- 2 ^ 53 < n < 2 ^ 53)%Z -> Seconds (n * Second) = float_of n.
Proof.
  intros Hn. unfold Seconds. rewrite Z.quot_mul by done. rewrite Z.rem_mul by done.
  replace (SFdiv prec emax (float_of 0) (float_of 1000000000)) with (S754_zero false) by (vm_compute; reflexivity).
  destruct (float_of_int n Hn) as [[-> ->]|(s & m & k & -> & _)]; done.
Qed.

Section Defaults.
  Context {P : Platform}.

(** the time to live that Argo is given for [n] seconds *)
Definition ttl_given (n : Z) : Z := if ((- 2 ^ 31 <=? n) && (n <? 2 ^ 31))%Z then n else int32_wrap n.

(** C40: A time to live of a whole number of seconds reaches the pipelines
    unchanged: no rounding occurs on the way through the double, for every
    duration that exists, and the patch says exactly that number as long as it
    fits 32 bits; beyond, it says what the machine's conversion makes of it.
    Without a time to live there is no patch. *)
Theorem compiled_pipeline_spec_patch_exact api n :
  (api_ResourceTTL api = None -> compiled_pipeline_spec_patch (Some api) = ""%string) /\
  (api_ResourceTTL api = Some (n * Second)%Z -> (- 2 ^ 63 <= n * Second < 2 ^ 63)%Z ->
     compiled_pipeline_spec_patch (Some api) =
       Marshal (JObj [("ttlStrategy", JObj [("secondsAfterCompletion", JNum (fmt_d (ttl_given n)))])])).
Proof.
  split; [by intros H; unfold compiled_pipeline_spec_patch; cbn; rewrite H|].
  intros Httl Hrange. unfold compiled_pipeline_spec_patch. cbn [option_bind mbind]. rewrite Httl.
  assert (- 2 ^ 53 < n < 2 ^ 53)%Z as Hn by (unfold Second in Hrange; lia).
  unfold to_int32. rewrite Seconds_whole, float_trunc_of by done. reflexivity.
Qed.

(** ** Managed pipelines *)

Definition requests_of (mp : ManagedPipelinesSpec) : option Resources := mps_Resources mp ≫= rr_Requests.
Definition limits_of (mp : ManagedPipelinesSpec) : option Resources := mps_Resources mp ≫= rr_Limits.

(** [r] is [user] with every quantity that is missing or zero filled in. *)
Definition filled (user : option Resources) (r : Resources) : Prop :=
  q_is_zero (res_CPU r) = false /\ q_is_zero (res_Memory r) = false /\
  forall u, user = Some u ->
    (q_is_zero (res_CPU u) = false -> res_CPU r = res_CPU u) /\
    (q_is_zero (res_Memory u) = false -> res_Memory r = res_Memory u).

Lemma fill_resources_filled def user :
  q_is_zero (res_CPU def) = false -> q_is_zero (res_Memory def) = false -> filled user (fill_resources def user).
Proof.
  intros H1 H2. unfold filled. destruct user as [u|]; cbn; [|by split_and!].
  destruct (q_is_zero (res_CPU u)) eqn:Hc, (q_is_zero (res_Memory u)) eqn:Hm; split_and!; try done; intros ? [= <-]; split; congruence.
Qed.

(** The default quantities are quantities, and not zero. *)
Definition default_quantities_ok : Prop :=
  Forall (fun q => q_is_zero (must_parse q) = false) ["250m"; "500Mi"; "500m"; "1Gi"]%string.

(** The container of the managed pipelines is never unbounded: after the
    defaults it has requests and limits, with a processor and a memory quantity
    that is not zero each, whatever subset the application gave; every quantity
    that is not zero is kept, nothing else of the specification changes, and
    applying the defaults again changes nothing. *)
Theorem init_resources_bounded mp :
  default_quantities_ok ->
  exists req lim, let mp' := mp <| mps_Resources := Some {| rr_Limits := Some lim; rr_Requests := Some req |} |> in
    ensureManagedPipelinesInitResourceDefaults (Some mp) = Some mp' /\
    filled (requests_of mp) req /\ filled (limits_of mp) lim /\
    ensureManagedPipelinesInitResourceDefaults (Some mp') = Some mp'.
Proof.
  intros Hq. unfold default_quantities_ok in Hq. rewrite !Forall_cons in Hq. destruct Hq as (Q1 & Q2 & Q3 & Q4 & _).
  set (req := fill_resources (MkResources (must_parse "250m") (must_parse "500Mi")) (requests_of mp)).
  set (lim := fill_resources (MkResources (must_parse "500m") (must_parse "1Gi")) (limits_of mp)).
  assert (filled (requests_of mp) req) as Hreq by by apply fill_resources_filled.
  assert (filled (limits_of mp) lim) as Hlim by by apply fill_resources_filled.
  exists req, lim. cbn zeta. split_and!; [|done|done|].
  - unfold req, lim, requests_of, limits_of. destruct mp as [img ps [[l q]|] v]; [|done]. by destruct l, q.
  - destruct Hreq as (R1 & R2 & _), Hlim as (L1 & L2 & _). destruct mp as [img ps res v], req as [rc rm], lim as [lc lm].
    cbn in R1, R2, L1, L2 |- *. by rewrite R1, R2, L1, L2.
Qed.

(** whether a text is a quantity above zero *)
Definition positive_quantity (v : string) : Prop := exists q, parse_quantity v = inl q /\ (0 < q_sign q)%Z.

(** The volume of the managed pipelines has a limit, and a positive one: an
    empty limit becomes the default; any other is accepted exactly when it is a
    quantity above zero, and then kept as it is; what is not is an error that
    says so.  Nothing else of the specification changes. *)
Theorem volume_limit_positive mp :
  let v := mps_VolumeSizeLimit mp in
  match ensureManagedPipelinesVolumeSizeLimit (Some mp) with
  | inl mp' =>
      mp' = Some (mp <| mps_VolumeSizeLimit := if bool_decide (v = "") then DefaultManagedPipelinesVolumeSizeLimit else v |>) /\
      (v ≠ ""%string -> positive_quantity v)
  | inr _ => v ≠ ""%string /\ ~ positive_quantity v
  end.
Proof.
  cbn zeta. unfold ensureManagedPipelinesVolumeSizeLimit, positive_quantity. case_bool_decide; [done|].
  destruct (parse_quantity _) as [q|e]; [|split; [done|]; by intros (q & [=] & _)].
  destruct (Z.leb_spec (q_sign q) 0); [split; [done|]; intros (q' & [= <-] & ?); lia|].
  split; [by destruct mp|]. eauto.
Qed.
End Defaults.

(** ** Examples *)

#[local] Existing Instance sim_platform.

Definition sample_mp : ManagedPipelinesSpec :=
  MkManagedPipelinesSpec "img" [] (Some {| rr_Limits := Some (MkResources (MkQuantity "2") (MkQuantity "0")); rr_Requests := None |}) "".

Lemma init_resources_bounded_witness :
  default_quantities_ok /\
  exists lim, limits_of sample_mp ≠ None /\ filled (limits_of sample_mp) lim.
Proof.
  assert (default_quantities_ok (P := sim_platform)) as Hq by (repeat constructor).
  split; [exact Hq|].
  destruct (init_resources_bounded sample_mp Hq) as (req & lim & _ & _ & Hl & _).
  exists lim. split; [discriminate|exact Hl].
Defined.
