(* ===== verification/Startup.v ===== *)
(** * Starting the operator (main.go, tls_profile.go)

    What [main] decides before it hands over to the controller manager: the
    environment it insists on, the configuration's required fields, the TLS
    options of its servers, the reconciler it builds, and what the cache of the
    manager keeps of the objects it stores. *)

From stdpp Require Import base gmap strings list.
From Stdlib Require Import ZArith.
From S2P Require Import Prelude GoStd GoJson GoCodec KubeTypes ApiTypes Data Platform Config Sim.
From S2P Require Import Fetcher Reconciler Watches.

(** ** What the cache keeps *)

(** What an informer hands to a transform: one of the objects the transforms
    tell apart, another object with its managed fields, or no object at all. *)
Inductive CachedObject :=
  | CachedConfigMap (cm : ConfigMap)
  | CachedSecret (s : Secret)
  | CachedOther (managedFields : list string)
  | NotAnObject.

Definition lastApplied : string := "kubectl.kubernetes.io/last-applied-configuration".

Definition stripManagedFields (i : CachedObject) : CachedObject :=
  match i with
  | CachedConfigMap cm => CachedConfigMap (cm <| cm_ManagedFields := [] |>)
  | CachedSecret s => CachedSecret (s <| sec_ManagedFields := [] |>)
  | CachedOther _ => CachedOther []
  | NotAnObject => NotAnObject
  end.

Definition stripConfigMapData (i : CachedObject) : CachedObject :=
  match i with
  | CachedConfigMap cm =>
      CachedConfigMap (cm <| cm_Data := ∅ |> <| cm_BinaryData := ∅ |>
                          <| cm_Annotations ::= delete lastApplied |> <| cm_ManagedFields := [] |>)
  | _ => i
  end.

Definition stripSecretData (i : CachedObject) : CachedObject :=
  match i with
  | CachedSecret s =>
      CachedSecret (s <| sec_Data := ∅ |> <| sec_StringData := ∅ |>
                      <| sec_Annotations ::= delete lastApplied |> <| sec_ManagedFields := [] |>)
  | _ => i
  end.

(** ** What the cache selects *)

Inductive LabelRequirement := LabelExists (key : string) | LabelEquals (key value : string).

(** [cache.ByObject]: the labels and the name an object must have, and a transform *)
Record ByObject := MkByObject {
  by_Label : list LabelRequirement;
  by_Name : option string;
  by_Transform : option (CachedObject -> CachedObject) }.

Definition webhookConfigName : string := "pipelineversions.pipelines.kubeflow.org".

Definition dspFilter : ByObject := MkByObject [LabelExists DSPVersionk8sLabel] None None.

(** the entry of a kind in the options of the cache, if it has one *)
Definition cacheByObject (kind : string) : option ByObject :=
  if existsb (fun k => bool_decide (kind = k)) ["ValidatingWebhookConfiguration"; "MutatingWebhookConfiguration"]
  then Some (MkByObject [] (Some webhookConfigName) None)
  else if existsb (fun k => bool_decide (kind = k))
            ["Service"; "ServiceAccount"; "PersistentVolumeClaim"; "Role"; "RoleBinding"; "Route"]
  then Some dspFilter
  else if bool_decide (kind = "Pod")
  then Some (MkByObject [LabelEquals DSPComponentk8sLabel DSPComponentk8sLabelValue] None None)
  else if bool_decide (kind = "ConfigMap") then Some (MkByObject [] None (Some stripConfigMapData))
  else if bool_decide (kind = "Secret") then Some (MkByObject [] None (Some stripSecretData))
  else None.

Definition DefaultTransform : CachedObject -> CachedObject := stripManagedFields.

(** the kinds whose reads do not go to the cache *)
Definition DisableFor : list string := ["ConfigMap"; "Secret"; "MLflow"].

Definition holds (labels : gmap string string) (req : LabelRequirement) : bool :=
  match req with
  | LabelExists k => bool_decide (is_Some (labels !! k))
  | LabelEquals k v => bool_decide (labels !! k = Some v)
  end.

(** whether the informer of a kind keeps an object *)
Definition informer_selects (kind name : string) (labels : gmap string string) : bool :=
  match cacheByObject kind with
  | None => true
  | Some b => forallb (holds labels) (by_Label b) &&
              match by_Name b with Some n => bool_decide (name = n) | None => true end
  end.

(** and what of it: the transform of the kind, else the default *)
Definition informer_keeps (kind : string) (o : CachedObject) : CachedObject :=
  default DefaultTransform (cacheByObject kind ≫= by_Transform) o.

(** ** The TLS profile (tls_profile.go) *)

(** [configv1.TLSProfileSpec] *)
Record TLSProfileSpec := MkTLSProfileSpec { prof_Ciphers : list string; prof_MinTLSVersion : string }.

(** The functions that configure a server: one made from a profile, and the one
    that sets the protocols. *)
Inductive TLSOpt := OptProfile (p : TLSProfileSpec) | OptNextProtos (protos : list string).

Record tlsResult := MktlsResult {
  tr_TLSOpts : list TLSOpt;
  tr_ProfileSpec : TLSProfileSpec;
  tr_HasOpenShiftConfig : bool }.
#[export] Instance settable_tlsResult : Settable tlsResult := fun r =>
  MktlsResult (tr_TLSOpts r) (tr_ProfileSpec r) (tr_HasOpenShiftConfig r).

(** [apimeta.IsNoMatchError] *)
Definition IsNoMatchError (e : error) : bool :=
  existsb (fun x => match x with ErrNoMatch _ => true | _ => false end) (err_chain e).

(** What an error of the profile's lookup means: a cluster without the API or
    the resource, a cluster that has it but does not answer, or a failure. *)
Definition classify_profile_error (err : error) : option bool :=
  if IsNoMatchError err then Some false
  else if IsNotFound err then Some false
  else if has_reason ServiceUnavailable err || has_reason Timeout err ||
          has_reason ServerTimeout err || has_reason TooManyRequests err then Some true
  else None.

Section Startup.
  Context {P : Platform}.

(** The packages main relies on: reading the profile of the cluster's API
    server, the ciphers of a profile that Go does not support, the profile
    Intermediate, and viper's set-up. *)
Variable FetchAPIServerTLSProfile : M TLSProfileSpec.
Variable unsupportedCiphers : TLSProfileSpec -> list string.
Variable TLSProfileIntermediate : TLSProfileSpec.
Variable BindEnv : string -> string -> M unit.
Variable ReadInConfig : string -> M unit.

Definition fetchTLSProfile : M tlsResult :=
  let protos := OptNextProtos ["h2"; "http/1.1"] in
  profile ← try FetchAPIServerTLSProfile;
  match profile with
  | inr err =>
      match classify_profile_error err with
      | None => fail (ErrWrap "failed to fetch TLS profile: " err "")
      | Some transient =>
          mret (MktlsResult [OptProfile TLSProfileIntermediate; protos] TLSProfileIntermediate transient)
      end
  | inl profile =>
      let unsupported := unsupportedCiphers profile in
      if bool_decide (0 < length (prof_Ciphers profile)) &&
         bool_decide (length unsupported = length (prof_Ciphers profile))
      then fail (ErrNew ("all " +:+ fmt_d (Z.of_nat (length (prof_Ciphers profile))) +:+
                         " ciphers in TLS profile are unsupported by Go"))
      else mret (MktlsResult [OptProfile profile; protos] profile true)
  end.

(** ** Configuration *)

(** the loop over the required fields: the first that is not set *)
Fixpoint check_required (fields : list string) : M unit :=
  match fields with
  | [] => mret tt
  | c :: fields' =>
      set ← ask (viper_is_set c);
      if negb set then fail (ErrNew ("missing required field in config: " +:+ c))
      else check_required fields'
  end.

Definition initConfig (configPath : string) : M unit :=
  BindEnv PipelinesComponentsImagePath "IMAGES_PIPELINES_COMPONENTS" ;;
  ReadInConfig configPath ;;
  check_required GetConfigRequiredFields.

(** what a change of the file does: it is read again, and an error is ignored *)
Definition onConfigChange (configPath : string) : M unit :=
  try (ReadInConfig configPath) ;; mret tt.

(** ** [main] *)

(** the allowlist of registries: the entries that are not blank *)
Definition parse_allowed_registries (rawAllowed : string) : list string :=
  if bool_decide (rawAllowed = "") then []
  else List.filter (fun t => negb (bool_decide (t = ""))) (TrimSpace <$> Split (byte 44) rawAllowed).

Definition parse_webhook_annotations (raw : string) : gmap string string + error :=
  if bool_decide (raw = "") then inl ∅ else UnmarshalStringMap raw.

(** [os.Exit(1)] *)
Definition exit1 {A} (why : string) : M A := fail (ErrNew why).

(** [ctrl.Options], as far as they are not constants *)
Record ManagerOptions := MkManagerOptions {
  mg_MetricsTLSOpts : list TLSOpt;
  mg_WebhookTLSOpts : list TLSOpt;
  mg_LeaderElection : bool;
  mg_LeaseDuration : Z; mg_RenewDeadline : Z; mg_RetryPeriod : Z }.

(** the watcher that restarts the operator when the profile or the adherence
    policy of the cluster changes; the policy is watched if it was fetched *)
Record SecurityProfileWatcher := MkSecurityProfileWatcher {
  w_InitialTLSProfileSpec : TLSProfileSpec;
  w_InitialTLSAdherencePolicy : option string }.

Record Started := MkStarted {
  started_reconciler : DSPAReconciler;
  started_options : ManagerOptions;
  started_watcher : option SecurityProfileWatcher }.

(** the policy and an error, which is only logged; a cluster without the API has none *)
Variable FetchAPIServerTLSAdherencePolicy : M (string * option error).
Variable NewManager : ManagerOptions -> M unit.
(** the controller's registration with the manager, after [SetupWithManager] *)
Variable CompleteController : DSPAReconciler -> M unit.
Variable AddHealthzCheck : string -> M unit.
Variable SetupWatcher : SecurityProfileWatcher -> M unit.
Variable StartManager : Started -> M unit.

(** [main] up to the start of the manager *)
Definition setup (configPath : string) (maxConcurrentReconciles : Z) (enableLeaderElection : bool) : M Started :=
  dspoNamespace ← ask (getenv "DSPO_NAMESPACE");
  if bool_decide (dspoNamespace = "") then exit1 "DSPO_NAMESPACE must be set"
  else
    initConfig configPath ;;
    tls ← fetchTLSProfile;
    adherence ← (if tr_HasOpenShiftConfig tls then r ← FetchAPIServerTLSAdherencePolicy; mret (Some (fst r))
                 else mret None);
    let options := {| mg_MetricsTLSOpts := tr_TLSOpts tls; mg_WebhookTLSOpts := tr_TLSOpts tls;
                      mg_LeaderElection := enableLeaderElection; mg_LeaseDuration := 60 * Second;
                      mg_RenewDeadline := 50 * Second; mg_RetryPeriod := 15 * Second |} in
    NewManager options ;;
    rawAnnotations ← ask (getenv "WEBHOOK_ANNOTATIONS");
    webhookAnnotations ← lift (parse_webhook_annotations rawAnnotations);
    rawAllowed ← ask (getenv "MANAGED_PIPELINES_ALLOWED_REGISTRIES");
    r ← upd_oci (SetupWithManager
          {| r_TemplatesPath := "config/internal/";
             r_MaxConcurrentReconciles := maxConcurrentReconciles;
             r_WebhookAnnotations := webhookAnnotations;
             r_ManifestFetcher := None;
             r_AllowedRegistries := parse_allowed_registries rawAllowed;
             r_APIReader := true;
             r_MLflowEndpointCacheTTL := DefaultMLflowEndpointCacheTTL |});
    CompleteController r ;;
    AddHealthzCheck "healthz" ;;
    AddHealthzCheck "readyz" ;;
    watcher ← (if tr_HasOpenShiftConfig tls then
                 let w := MkSecurityProfileWatcher (tr_ProfileSpec tls) adherence in
                 SetupWatcher w ;; mret (Some w)
               else mret None);
    mret (MkStarted r options watcher).

(** [main]: an error of any step is logged and ends the process *)
Definition main (configPath : string) (maxConcurrentReconciles : Z) (enableLeaderElection : bool) : M unit :=
  started ← setup configPath maxConcurrentReconciles enableLeaderElection;
  StartManager started.
End Startup.
