(* ===== verification/CacheView.v ===== *)
(** * What the cache of the manager shows the controller

    [main] restricts the manager's cache to labelled objects and strips what it
    keeps of config maps and secrets; the appliers label what they create.  This
    file shows that the two fit: everything the operator applies under the
    filters stays visible to it, a change of what the controller owns requests
    its application, and an event delivered from the cache triggers the same
    requests as one delivered from the API server would. *)

From stdpp Require Import base gmap strings list.
From Stdlib Require Import ZArith Lia.
From S2P Require Import Prelude GoStd GoJson KubeTypes ApiTypes Data Platform Config Util Sim.
From S2P Require Import Fetcher Reconciler Params Extract Manifests Watches Startup.

(** ** Unstructured objects and the transforms of manifests *)

Section Transforms.
  Context {P : Platform}.

(** the transformers of a list, one after the other, on one object *)
Fixpoint transform_all (fs : list Transformer) (o : Unstructured) : Unstructured + error :=
  match fs with
  | [] => inl o
  | f :: fs => match f o with inl o' => transform_all fs o' | inr e => inr e end
  end.
End Transforms.

(** What manifestival and unstructured objects promise: a transform gives each
    object to each transformer in turn; labels, kind and nested maps of an
    object are separate; an owner is recorded apart from them. *)
Class ManifestLaws (P : Platform) := {
  transform_each fs (objs objs' : list Unstructured) :
    mf_transform fs objs = inl objs' -> Forall2 (fun o o' => transform_all fs o = inl o') objs objs';
  labels_set l (o : Unstructured) : u_labels (u_set_labels l o) = l;
  kind_set l (o : Unstructured) : u_kind (u_set_labels l o) = u_kind o;
  kind_owned w (o o' : Unstructured) : mf_inject_owner w o = inl o' -> u_kind o' = u_kind o;
  nested_set m k path (o o' : Unstructured) : k ≠ "metadata" -> u_set_nested m (k :: path) o = inl o' ->
    u_labels o' = u_labels o /\ u_kind o' = u_kind o /\ u_nested (k :: path) o' = inl (Some m)
}.

(** an owner that is one of the operator's applications *)
Definition is_application (w : Owner) : Prop :=
  own_Kind w = "DataSciencePipelinesApplication" /\
  String.prefix "datasciencepipelinesapplications.opendatahub.io/" (own_APIVersion w) = true.

(** What the controller reference of an object promises: an owner that is
    injected in an object of a namespaced kind controls it, whatever labels and
    nested maps change afterwards; and the handler for owned objects requests
    the application that controls an object, in the object's own namespace. *)
Class OwnerLaws (P : Platform) := {
  controller : Unstructured -> option Owner;
  u_namespace : Unstructured -> string;
  requests_for_owner : Unstructured -> list NamespacedName;
  controller_injected w (o o' : Unstructured) :
    u_kind o ∈ Owns -> mf_inject_owner w o = inl o' -> controller o' = Some w;
  controller_labels l (o : Unstructured) : controller (u_set_labels l o) = controller o;
  controller_nested m k path (o o' : Unstructured) : k ≠ "metadata" ->
    u_set_nested m (k :: path) o = inl o' -> controller o' = controller o;
  owner_requested w (o : Unstructured) : controller o = Some w -> is_application w ->
    requests_for_owner o = [NN (u_namespace o) (own_Name w)]
}.

#[export] Instance sim_owner_laws : OwnerLaws sim_platform.
Proof.
  refine (@Build_OwnerLaws sim_platform so_owner (fun _ => "project")
    (fun o => match so_owner o with Some w => [NN "project" (own_Name w)] | None => [] end) _ _ _ _).
  - by intros w o o' _ [= <-].
  - done.
  - by intros m k path o o' _ [= <-].
  - by intros w o -> _.
Defined.

#[export] Instance sim_manifest_laws : ManifestLaws sim_platform.
Proof.
  split; try done.
  - intros fs objs. induction objs as [|u objs IH]; intros objs'; cbn; [intros [= <-]; constructor|].
    destruct (sim_transform1 fs u) as [v|e] eqn:Hu; [|done].
    destruct (sim_transform fs objs) as [vs|e] eqn:Ht; [|done]. intros [= <-]. apply Forall2_cons. split; [|by apply IH].
    clear -Hu. revert u Hu. unfold sim_transform1. induction fs as [|f fs IH]; intros u; cbn; [done|].
    destruct (f u) as [u'|e]; [apply IH|]. clear IH. induction fs as [|f' fs IH]; cbn; [done|exact IH].
  - by intros w o o' [= <-].
  - intros m k path o o' _ [= <-]. split_and!; [done|done|]. cbn. by rewrite lookup_insert_eq.
Qed.

(** ** What is applied carries the version label *)

Section Labels.
  Context {P : Platform} {L : ManifestLaws P} {O : OwnerLaws P}.

(** The label is on the object and, for a deployment, on its pods. *)
Definition labelled (version : string) (o : Unstructured) : Prop :=
  u_labels o !! DSPVersionk8sLabel = Some version /\
  (u_kind o = "Deployment" -> exists ls, u_nested pod_labels_path o = inl (Some ls) /\
     ls !! DSPVersionk8sLabel = Some version).

Lemma pod_label_labelled version o o' :
  AddDeploymentPodLabelTransformer DSPVersionk8sLabel version o = inl o' ->
  u_labels o !! DSPVersionk8sLabel = Some version -> labelled version o'.
Proof.
  unfold AddDeploymentPodLabelTransformer, labelled. case_bool_decide as Hk.
  - destruct (u_nested pod_labels_path o) as [found|e]; [|done].
    destruct (u_set_nested _ pod_labels_path o) as [o1|e] eqn:Hs; [|done]. intros [= <-] Hl.
    apply nested_set in Hs as (-> & -> & Hn); [|done]. split; [done|]. intros _. eexists. split; [exact Hn|].
    apply lookup_insert_eq.
  - intros [= <-] Hl. split; [done|]. by intros ?.
Qed.

Lemma transforms_labelled w version o o' :
  transform_all [mf_inject_owner w; AddLabelTransformer DSPVersionk8sLabel version;
                 AddDeploymentPodLabelTransformer DSPVersionk8sLabel version] o = inl o' -> labelled version o'.
Proof.
  cbn [transform_all]. destruct (mf_inject_owner w o) as [o1|e]; [|done]. unfold AddLabelTransformer at 1.
  set (o2 := u_set_labels _ o1).
  destruct (AddDeploymentPodLabelTransformer _ _ o2) as [o3|e] eqn:H3; [|done]. intros [= <-].
  apply (pod_label_labelled version o2 o3 H3). unfold o2. by rewrite labels_set, lookup_insert_eq.
Qed.

(** the kind and the controller of the object survive the labelling *)
Lemma transforms_owned w version o o' :
  transform_all [mf_inject_owner w; AddLabelTransformer DSPVersionk8sLabel version;
                 AddDeploymentPodLabelTransformer DSPVersionk8sLabel version] o = inl o' ->
  u_kind o' ∈ Owns -> controller o' = Some w.
Proof.
  cbn [transform_all]. destruct (mf_inject_owner w o) as [o1|e] eqn:H1; [|done].
  unfold AddLabelTransformer at 1. unfold AddDeploymentPodLabelTransformer.
  set (o2 := u_set_labels _ o1).
  assert (u_kind o2 ∈ Owns -> controller o2 = Some w) as H2.
  { unfold o2. rewrite controller_labels, kind_set, (kind_owned _ _ _ H1). intros Hk. by apply (controller_injected _ o). }
  case_bool_decide; [|by intros [= <-]].
  destruct (u_nested pod_labels_path o2) as [found|e]; [|done].
  destruct (u_set_nested _ pod_labels_path o2) as [o3|e] eqn:Hs; [|done]. intros [= <-].
  assert ("metadata" ≠ "spec") as Hm by done.
  destruct (nested_set _ _ _ _ _ (not_eq_sym Hm) Hs) as (_ & -> & _).
  by rewrite (controller_nested _ _ _ _ _ (not_eq_sym Hm) Hs).
Qed.

(** A change of an object wakes an application: the informer of its kind lets
    the object through, and the handler of the kind requests the application. *)
Definition wakes (application : string) (u : Unstructured) : Prop :=
  forall name, informer_selects (u_kind u) name (u_labels u) = true /\
    owned_requests requests_for_owner u = [NN (u_namespace u) application].

(** What becomes of an object that was applied with an owner. *)
Definition applied_well (version : string) (owner : Owner) (u : Unstructured) : Prop :=
  labelled version u /\
  (u_kind u ∉ ["Pod"; "ValidatingWebhookConfiguration"; "MutatingWebhookConfiguration"] ->
     forall name, informer_selects (u_kind u) name (u_labels u) = true) /\
  (u_kind u ∈ Owns -> is_application owner -> wakes (own_Name owner) u).

(** the filters of the cache let such an object through *)
Lemma labelled_selected version o name :
  labelled version o -> u_kind o ∉ ["Pod"; "ValidatingWebhookConfiguration"; "MutatingWebhookConfiguration"] ->
  informer_selects (u_kind o) name (u_labels o) = true.
Proof.
  intros [Hl _] Hk. rewrite !not_elem_of_cons in Hk. destruct Hk as (Hp & Hv & Hm & _).
  unfold informer_selects, cacheByObject. cbn [existsb].
  rewrite (bool_decide_eq_false_2 (_ = "ValidatingWebhookConfiguration")), (bool_decide_eq_false_2 (_ = "MutatingWebhookConfiguration")),
    (bool_decide_eq_false_2 (_ = "Pod")) by done. cbn [orb].
  destruct (_ || _); [|by repeat case_match; simplify_eq].
  cbn. rewrite Hl. by rewrite bool_decide_eq_true_2.
Qed.

Lemma transform_nothing (objs objs' : list Unstructured) : mf_transform [] objs = inl objs' -> objs' = objs.
Proof.
  intros H%transform_each. induction H as [|o o' objs objs' Ho _ IH]; [done|].
  cbn in Ho. injection Ho as <-. by f_equal.
Qed.

Lemma owned_kinds k : k ∈ Owns -> k ∉ ["Pod"; "ValidatingWebhookConfiguration"; "MutatingWebhookConfiguration"].
Proof.
  revert k. apply Forall_forall. by apply (bool_decide_unpack _); vm_compute.
Qed.

Lemma transforms_applied_well w version o o' :
  transform_all [mf_inject_owner w; AddLabelTransformer DSPVersionk8sLabel version;
                 AddDeploymentPodLabelTransformer DSPVersionk8sLabel version] o = inl o' -> applied_well version w o'.
Proof.
  intros Ho. pose proof (transforms_labelled _ _ _ _ Ho) as Hl. split_and!; [done| |].
  - intros Hk name. by apply (labelled_selected version).
  - intros Hk Hw name. split.
    + apply (labelled_selected version); [done|]. by apply owned_kinds.
    + unfold owned_requests. assert (existsb (fun k => bool_decide (u_kind o' = k)) Owns = true) as ->.
      { apply existsb_exists. exists (u_kind o'). split; [by apply list_elem_of_In|by apply bool_decide_eq_true_2]. }
      apply owner_requested; [by apply (transforms_owned w version o)|done].
Qed.

(** A run that ends in one call to the cluster on objects of a given kind, or
    fails before it makes any. *)
Definition applies_only (Q : Unstructured -> Prop) (template : string) (s : St) (o : outcome unit) (s' : St)
    (t : list event) : Prop :=
  (exists objs w ok, Forall Q objs /\ (mf_apply objs w).2 = st_world s' /\
     (exists t0, t = t0 ++ [Ev (CApply template) ok] /\ Forall (fun e => forall x, ev_call e ≠ CApply x) t0) /\
     (o = Ret tt <-> (mf_apply objs w).1 = inl tt)) \/
  ((exists e, o = Fail e) /\ Forall (fun e => forall x, ev_call e ≠ CApply x) t).

(** C10: What the operator applies under an owner stays in its own view of the
    cluster, and what happens to it is looked after.  [Apply], without
    transformers as all its callers use it, either fails without touching the
    cluster or makes one call, on objects every one of which is labelled with
    the version of the application, deployments on their pods as well.  Each of
    these objects that is not a pod or a webhook configuration passes the
    filters that the start-up sets for the cache; and if the controller owns its
    kind, a change of it requests a reconcile of the application that owns it.
    (The one template applied without an owner, the cluster role binding of
    common/no-owner, goes through [ApplyWithoutOwner] and gets no label.) *)
Theorem Apply_labels_visible (r : DSPAReconciler) owner template (s : St) :
  wp (Apply r owner template []) (fun o s' t =>
    applies_only (applied_well (p_DSPVersion (st_params s)) owner) template s o s' t) s.
Proof.
  unfold Apply, prm. apply wp_get. apply wp_bind. pose proof (load_quiet r template (st_params s) s) as Hq.
  pose proof (load_no_panic r template (st_params s) s) as Hnp. unfold wp at 1.
  destruct (load r template (st_params s) s) as [o s1 t1]. cbn [out fin evs] in *.
  destruct o as [objs|e|w]; [|by right; split; [eexists|]|by destruct (Hnp w)].
  apply wp_bind. set (fs := [_; _; _]). unfold lift.
  destruct (mf_transform fs objs) as [objs1|e] eqn:H1; [|unfold wp; cbn; rewrite app_nil_r; right; by split; [eexists|]].
  apply wp_ret, wp_bind. match goal with |- context [mf_transform ?l objs1] => destruct (mf_transform l objs1) as [objs2|e] eqn:H2 end.
  2: { unfold wp. cbn. rewrite app_nil_r. right. by split; [eexists|]. }
  apply wp_ret. apply transform_nothing in H2 as ->.
  assert (Forall (applied_well (p_DSPVersion (st_params s)) owner) objs1) as Hl.
  { apply transform_each in H1. subst fs. clear -H1 L. revert H1. generalize (p_DSPVersion (st_params s)). intros v.
    induction 1 as [|u u' us us' Hu _ IH]; [apply List.Forall_nil|apply List.Forall_cons; [|exact IH]].
    by apply (transforms_applied_well owner v u). }
  unfold wp, io. left. exists objs1, (st_world s1).
  destruct (mf_apply objs1 (st_world s1)) as [[[]|e] w'] eqn:Ha; cbn.
  - exists true. split_and!; [exact Hl|done|by exists t1|done].
  - exists false. split_and!; [exact Hl|done|by exists t1|done].
Qed.
End Labels.

(** ** Events from the cache *)

Section Events.
  Context {P : Platform}.

Lemma annotation_kept k (m : gmap string string) : k ≠ lastApplied -> map_get (delete lastApplied m) k = map_get m k.
Proof. intros Hk. unfold map_get. by rewrite lookup_delete_ne. Qed.

Lemma pod_selected name labels :
  informer_selects "Pod" name labels = holds labels (LabelEquals DSPComponentk8sLabel DSPComponentk8sLabelValue).
Proof. unfold informer_selects. change (cacheByObject "Pod") with (Some (MkByObject [LabelEquals DSPComponentk8sLabel DSPComponentk8sLabelValue] None None)). cbv beta iota. cbn [by_Label by_Name forallb]. by rewrite !andb_true_r. Qed.

Lemma service_selected name labels :
  informer_selects "Service" name labels = holds labels (LabelExists DSPVersionk8sLabel).
Proof. unfold informer_selects. change (cacheByObject "Service") with (Some dspFilter). cbv beta iota. cbn [by_Label by_Name dspFilter forallb]. by rewrite !andb_true_r. Qed.

(** the informer of a kind leaves an object out *)
Definition withheld (kind name : string) (labels : gmap string string) : Prop :=
  informer_selects kind name labels = false.

(** C11: Watching through the cache changes nothing.  The copies of config maps and
    secrets that the informers keep hold no data, yet their events trigger the
    same requests, after the same calls, as the full objects; a pod that the
    informer leaves out would have triggered none; and a service that the
    informer leaves out triggers no request for its certificate, just as if it
    did not exist. *)
Theorem cached_events_same_requests (s : St) :
  (forall cm, exists cm', informer_keeps "ConfigMap" (CachedConfigMap cm) = CachedConfigMap cm' /\
     cm_Data cm' = ∅ /\ cm_BinaryData cm' = ∅ /\ ca_bundle_requests cm' s = ca_bundle_requests cm s) /\
  (forall secret, exists secret', informer_keeps "Secret" (CachedSecret secret) = CachedSecret secret' /\
     sec_Data secret' = ∅ /\ sec_StringData secret' = ∅ /\ secret_requests secret' s = secret_requests secret s) /\
  (forall pod, withheld "Pod" (pod_Name pod) (pod_Labels pod) ->
     pod_requests pod s = Run (Ret []) s []) /\
  (forall secret service,
     (get_service (NN (sec_Namespace secret)
        (map_get (sec_Annotations secret) "service.beta.openshift.io/originating-service-name")) (st_world s)).1 = inl service ->
     withheld "Service" (svc_Name service) (svc_Labels service) ->
     out (secret_requests secret s) = Ret []).
Proof.
  unfold withheld. split_and!.
  - intros cm. eexists. by split_and!.
  - intros secret. eexists. split_and!; [reflexivity|done|done|].
    unfold secret_requests. cbn [sec_Annotations sec_Namespace set].
    by rewrite !annotation_kept by (by vm_compute).
  - intros pod Hs. unfold pod_requests. destruct (pod_Labels pod !! DSPComponentk8sLabel) as [c|] eqn:Hc; [|done].
    assert (c ≠ DSPComponentk8sLabelValue) as Hne.
    { intros ->. rewrite pod_selected in Hs. unfold holds in Hs. by rewrite bool_decide_eq_true_2 in Hs. }
    by rewrite bool_decide_eq_false_2.
  - intros secret service Hg Hs. unfold secret_requests. destruct (negb _); [done|].
    rewrite bind_try_io. destruct (get_service _ _) as [[svc|e] w]; cbn in Hg; [|done]. injection Hg as ->.
    cbn [out]. destruct (svc_Labels service !! "dspa"); [|done].
    assert (HasSupportedDSPVersionLabel (svc_Labels service) = false) as ->; [|done].
    unfold HasSupportedDSPVersionLabel. destruct (svc_Labels service !! DSPVersionk8sLabel) as [v|] eqn:Hv; [|done].
    exfalso. rewrite service_selected in Hs. unfold holds in Hs. apply bool_decide_eq_false in Hs. apply Hs. by exists v.
Qed.
End Events.

(** ** Examples *)

#[local] Existing Instance sim_platform.

(** a deployment's template, applied for a sample application *)
Definition label_reconciler : DSPAReconciler := MkDSPAReconciler "/t/" 10 ∅ None [] true 0.

Definition label_state : St :=
  sim_state (sim_empty <| sim_files := {[ "/t/deployment.yaml" := "kind: Deployment" ]} |>) sim_dspa.

Definition label_owner : Owner :=
  {| own_APIVersion := "datasciencepipelinesapplications.opendatahub.io/v1"; own_Kind := "DataSciencePipelinesApplication"; own_Name := "sample";
     own_Namespace := "project"; own_UID := "1" |}.

(** A deployment that was applied for the sample wakes it when it changes. *)
Example deployment_wakes_sample :
  match transform_all (P := sim_platform)
          [mf_inject_owner label_owner; AddLabelTransformer DSPVersionk8sLabel "v2";
           AddDeploymentPodLabelTransformer DSPVersionk8sLabel "v2"] (MkSimObj "Deployment" ∅ ∅ "" None) with
  | inl o => informer_selects (u_kind o) "ds-pipeline-sample" (u_labels o) &&
             bool_decide (owned_requests requests_for_owner o = [NN "project" "sample"])
  | inr _ => false
  end = true.
Proof. vm_compute. reflexivity. Qed.

Lemma Apply_labels_visible_witness :
  out (Apply label_reconciler label_owner "deployment.yaml" [] label_state) = Ret tt /\
  exists objs : list Unstructured, Forall (applied_well (p_DSPVersion (st_params label_state)) label_owner) objs.
Proof.
  set (m := Apply label_reconciler _ _ _).
  assert (out (m label_state) = Ret tt) as Ho by (vm_compute; reflexivity). split; [exact Ho|].
  pose proof (Apply_labels_visible label_reconciler label_owner
    "deployment.yaml" label_state) as H. unfold wp, applies_only in H. fold m in H.
  destruct H as [(objs & w & ok & Hl & _)|[[e He] _]].
  - by exists objs.
  - rewrite Ho in He. discriminate He.
Defined.
