(* ===== verification/Validation.v ===== *)
(** * The check of the managed pipelines, end to end

    [Readiness.validateManagedPipelines] is written against the interface of a
    fetcher, [Fetcher.FetchPipelineNames] implements it, and
    [ManagedPipelines.ValidateManagedPipelineNames] compares names.  Composed,
    they make the verdict an application is given say something about the image
    the registry serves; and a start-up with an allowlist keeps the operator to
    the registries on it. *)

From stdpp Require Import base gmap strings list.
From Stdlib Require Import ZArith Lia.
From S2P Require Import Prelude GoStd GoJson KubeTypes ApiTypes Data Platform Config Util Sim.
From S2P Require Import Status Metrics ManagedPipelines Fetcher Reconciler Params Extract Manifests Readiness.
From S2P Require Import Watches Startup.

Section Validation.
  Context {P : Platform}.

(** the pipelines an application asks for, and the image they are in *)
Definition requested (d : DataSciencePipelinesApplication) : option (string * list ManagedPipeline) :=
  mp ← spec_APIServer (dspa_Spec d) ≫= api_ManagedPipelines;
  if bool_decide (mps_Pipelines mp = []) then None else Some (mps_Image mp, mps_Pipelines mp).

Definition offered (names : gmap string bool) (p : ManagedPipeline) : Prop := names !! mp_Name p = Some true.
#[export] Instance offered_dec names p : Decision (offered names p).
Proof. unfold offered. apply _. Defined.

(** the names in the image the registry serves for a reference *)
Definition served (ref : string) (w : World) (names : gmap string bool) : Prop :=
  exists (img : Image) d, (remote_image ref w).1 = inl img /\ image_digest img = inl d /\ contains d names.

(** an error that a retry will not mend: some link of its chain says so *)
Definition permanent (e : error) : Prop := exists inner, ErrPermanent inner ∈ err_chain e.

(** what a condition says *)
Definition condition_says (c : Condition) (status reason : string) : Prop := c_Status c = status /\ c_Reason c = reason.

(** The verdict and what it rests on: the answer that the fetch of the image
    gives in this state, and nothing else. *)
Definition verdict (s : St) (proceed retry : bool) (c : Condition) : Prop :=
  match requested (cur s) with
  | None => condition_says c ConditionFalse "NotApplicable" /\ proceed = true /\ retry = false
  | Some (ref, pipelines) =>
      let fetch := FetchPipelineNames ref s in
      match out fetch with
      | Ret l =>
          let names := heap_get (st_oci (fin fetch)) l in
          let all := forall p, p ∈ pipelines -> offered names p in
          served ref (st_world s) names /\ retry = false /\
          (all -> condition_says c ConditionTrue ManagedPipelineValid /\ proceed = true) /\
          (~ all -> condition_says c ConditionFalse ManagedPipelineInvalid /\ proceed = false)
      | Fail e =>
          c_Message c = err_msg e /\
          (permanent e -> condition_says c ConditionFalse ManagedPipelineInvalid /\ proceed = false /\ retry = false) /\
          (~ permanent e -> condition_says c ConditionFalse ManagedPipelinesFetchError /\ proceed = true /\ retry = true)
      | Panic _ => False
      end
  end.

Lemma is_permanent_spec e : is_permanent e = true <-> permanent e.
Proof.
  unfold is_permanent, permanent. rewrite existsb_exists. setoid_rewrite list_elem_of_In. split.
  - intros (x & Hx & Hp). destruct x; try done. by eexists.
  - intros (inner & Hi). by eexists.
Qed.

Lemma names_checked crs names :
  match ValidateManagedPipelineNames crs names with
  | None => forall p, p ∈ crs -> offered names p
  | Some _ => exists p, p ∈ crs /\ ~ offered names p
  end.
Proof.
  unfold ValidateManagedPipelineNames, offered. case_bool_decide as Hl; [apply nil_length_inv in Hl as ->; set_solver|].
  rewrite length_fmap. case_bool_decide as Hb.
  - destruct (List.filter _ crs) as [|p l] eqn:Hf; [simpl in Hb; lia|]. exists p.
    assert (In p (List.filter (fun p => negb (name_valid names p)) crs)) as Hp by (rewrite Hf; by left).
    apply filter_In in Hp as [Hin Hv]. split; [by apply list_elem_of_In|].
    rewrite <- name_valid_spec. by destruct (name_valid names p).
  - intros p Hp. rewrite <- name_valid_spec. revert p Hp. apply not_valid_filter.
    destruct (List.filter _ crs); [done|simpl in Hb; lia].
Qed.

(** one of the setters, then the answer *)
Lemma set_verdict (f : Z -> Condition) (proceed retry : bool) (s s1 : St) (Q : St -> Prop) :
  (forall t, verdict s proceed retry (f t)) -> (forall s w st, Q s -> Q (s <| st_world := w |> <| st_status := st |>)) -> Q s1 ->
  wp ((t ← now; upd_status (fun st => st <| s_managedPipelineValid := f t |>)) ;; mret (proceed, retry))
    (fun o s' _ => exists proceed retry, o = Ret (proceed, retry) /\
       verdict s proceed retry (s_managedPipelineValid (st_status s')) /\ Q s') s1.
Proof.
  intros Hv Hk HQ. apply wp_assoc. destruct (now_run s1) as (t & w & Hn).
  eapply wp_step; [exact Hn|]. unfold upd_status. apply wp_modify, wp_ret.
  exists proceed, retry. split; [done|]. split; [apply Hv|]. by apply (Hk s1 w).
Qed.

(** C4: The verdict on an application's managed pipelines is about the image the
    registry serves.  With the default fetcher and a sound cache the check always
    answers.  Without a list of pipelines it does not apply.  Otherwise it
    follows from what the fetch of the image returns: with the names in the
    manifest of the image that the registry serves, the condition is True
    exactly when every requested name is among them, and otherwise Invalid, and
    the run stops without a retry; with a permanent error it is Invalid just the
    same; with any other error it is a fetch error, which lets the run go on and
    asks for a retry; and the condition of a failed fetch carries its message.
    The shared cache stays sound. *)
Theorem validateManagedPipelines_sound (r : DSPAReconciler) owned (s : St) :
  r_ManifestFetcher r = Some OCI_PipelineNamesFetcher -> cache_ok contains (MkShared (st_oci s) owned) ->
  wp (validateManagedPipelines r) (fun o s' _ =>
    exists proceed retry, o = Ret (proceed, retry) /\
      verdict s proceed retry (s_managedPipelineValid (st_status s')) /\
      exists owned', owned ⊆ owned' /\ cache_ok contains (MkShared (st_oci s') owned')) s.
Proof.
  intros Hr Hc. set (Q := fun s' : St => exists owned', owned ⊆ owned' /\ cache_ok contains (MkShared (st_oci s') owned')).
  assert (forall s w st, Q s -> Q (s <| st_world := w |> <| st_status := st |>)) as Hk by done.
  assert (Q s) as HQ by (by exists owned).
  unfold validateManagedPipelines. apply wp_get.
  destruct (spec_APIServer (dspa_Spec (cur s)) ≫= api_ManagedPipelines) as [mp|] eqn:Hmp.
  2: { apply (set_verdict _ _ _ s s Q); [|done..]. intros t. unfold verdict, requested. by rewrite Hmp. }
  case_bool_decide as Hnil.
  { apply (set_verdict _ _ _ s s Q); [|done..]. intros t. unfold verdict, requested. rewrite Hmp. cbn.
    by rewrite bool_decide_eq_true_2. }
  assert (requested (cur s) = Some (mps_Image mp, mps_Pipelines mp)) as Hreq.
  { unfold requested. rewrite Hmp. cbn. by rewrite bool_decide_eq_false_2. }
  rewrite Hr. apply wp_ret_bind. unfold wp. rewrite bind_try. cbn [FetchPipelineNames_of OCI_PipelineNamesFetcher].
  pose proof (FetchPipelineNames_wp (mps_Image mp) owned s Hc) as Hf. unfold wp, fetched in Hf.
  destruct (out (FetchPipelineNames (mps_Image mp) s)) as [l|e|w] eqn:Ho; [..|done]; cbn [out fin evs].
  - destruct Hf as ((img & d & Hi & Hd & Hcont) & Hl & Hc').
    set (s1 := fin (FetchPipelineNames (mps_Image mp) s)) in *.
    assert (Q s1) as HQ1 by (exists (owned ∪ {[l]}); split; [set_solver|done]).
    assert (served (mps_Image mp) (st_world s) (heap_get (st_oci s1) l)) as Hs by (by exists img, d).
    rewrite bind_get. pose proof (names_checked (mps_Pipelines mp) (heap_get (st_oci s1) l)) as Hn.
    destruct (ValidateManagedPipelineNames _ _) as [err|].
    + apply (set_verdict _ _ _ s s1 Q); [|done..]. intros t. unfold verdict. rewrite Hreq, Ho.
      split_and!; [done..| |by split]. destruct Hn as (p & Hp & Hno). intros Hall. by destruct (Hno (Hall p Hp)).
    + apply (set_verdict _ _ _ s s1 Q); [|done..]. intros t. unfold verdict. rewrite Hreq, Ho.
      split_and!; [done..|by split|]. intros Hno. by destruct (Hno Hn).
  - set (s1 := fin (FetchPipelineNames (mps_Image mp) s)) in *.
    assert (Q s1) as HQ1 by (by exists owned). pose proof (is_permanent_spec e) as Hp.
    destruct (is_permanent e).
    + apply (set_verdict _ _ _ s s1 Q); [|done..]. intros t. unfold verdict. rewrite Hreq, Ho.
      split_and!; [done|intros _; by split_and!|]. intros Hn. destruct Hn. by apply Hp.
    + apply (set_verdict _ _ _ s s1 Q); [|done..]. intros t. unfold verdict. rewrite Hreq, Ho.
      split_and!; [done| |intros _; by split_and!]. intros Hx%Hp. done.
Qed.
End Validation.

(** ** What a start-up guarantees *)

Section Start.
  Context {P : Platform}.
  Variable FetchAPIServerTLSProfile : M TLSProfileSpec.
  Variable unsupportedCiphers : TLSProfileSpec -> list string.
  Variable TLSProfileIntermediate : TLSProfileSpec.
  Variable BindEnv : string -> string -> M unit.
  Variable ReadInConfig : string -> M unit.
  Variable FetchAPIServerTLSAdherencePolicy : M (string * option error).
  Variable NewManager : ManagerOptions -> M unit.
  Variable CompleteController : DSPAReconciler -> M unit.
  Variable AddHealthzCheck : string -> M unit.
  Variable SetupWatcher : SecurityProfileWatcher -> M unit.

(** What the start-up reads from the environment and the configuration does not
    change under the library calls that come before; and registering things
    with the manager does not touch the fetcher of manifests. *)
Hypothesis BindEnv_env : forall k name var, keeps (fun s => getenv k (st_world s)) (BindEnv name var).
Hypothesis ReadInConfig_env : forall k path, keeps (fun s => getenv k (st_world s)) (ReadInConfig path).
Hypothesis Fetch_env : forall k, keeps (fun s => getenv k (st_world s)) FetchAPIServerTLSProfile.
Hypothesis Adherence_env : forall k, keeps (fun s => getenv k (st_world s)) FetchAPIServerTLSAdherencePolicy.
Hypothesis NewManager_env : forall k o, keeps (fun s => getenv k (st_world s)) (NewManager o).
Hypothesis Complete_oci : forall r, keeps st_oci (CompleteController r).
Hypothesis Healthz_oci : forall n, keeps st_oci (AddHealthzCheck n).
Hypothesis Watcher_oci : forall w, keeps st_oci (SetupWatcher w).

(** the TLS options a profile gives, and where it comes from *)
Definition tls_sound (tls : tlsResult) : Prop :=
  tr_TLSOpts tls = [OptProfile (tr_ProfileSpec tls); OptNextProtos ["h2"; "http/1.1"]] /\
  exists s1, match out (FetchAPIServerTLSProfile s1) with
             | Ret p => tr_ProfileSpec tls = p /\ tr_HasOpenShiftConfig tls = true /\
                        (prof_Ciphers p = [] \/ length (unsupportedCiphers p) ≠ length (prof_Ciphers p))
             | Fail e => tr_ProfileSpec tls = TLSProfileIntermediate /\
                         classify_profile_error e = Some (tr_HasOpenShiftConfig tls)
             | Panic _ => False
             end.

Lemma fetchTLSProfile_wp (s : St) :
  wp (fetchTLSProfile FetchAPIServerTLSProfile unsupportedCiphers TLSProfileIntermediate) (fun o s' _ =>
    (forall tls, o = Ret tls -> tls_sound tls) /\ s' = fin (FetchAPIServerTLSProfile s)) s.
Proof.
  unfold fetchTLSProfile, wp. rewrite bind_try. unfold tls_sound.
  destruct (out (FetchAPIServerTLSProfile s)) as [p|e|w] eqn:Ho; [..|by split].
  - destruct (bool_decide (0 < length (prof_Ciphers p)) && _) eqn:Hb; cbn [out fin]; [by split|].
    split; [|done]. intros tls [= <-]. split; [done|]. exists s. rewrite Ho. split_and!; [done..|].
    apply andb_false_iff in Hb as [Hb%bool_decide_eq_false|Hb%bool_decide_eq_false]; [left|by right].
    destruct (prof_Ciphers p); [done|simpl in Hb; lia].
  - destruct (classify_profile_error e) as [b|] eqn:Hc; cbn [out fin]; [|by split].
    split; [|done]. intros tls [= <-]. split; [done|]. exists s. by rewrite Ho.
Qed.

Lemma check_required_wp fields (s : St) :
  wp (check_required fields) (fun o s' _ =>
    (o = Ret tt -> forall c, c ∈ fields -> viper_is_set c (st_world s) = true) /\ s' = s) s.
Proof.
  induction fields as [|c fields IH]; cbn [check_required].
  - apply wp_ret. split; [|done]. intros _ c Hc. by apply not_elem_of_nil in Hc.
  - unfold ask. apply wp_get. destruct (viper_is_set c (st_world s)) eqn:Hc; cbn [negb]; [|by split].
    eapply wp_mono; [exact IH|]. intros o s' t [H ->]. split; [|done].
    intros Ho c' [->|Hc']%elem_of_cons; [done|by apply H].
Qed.

(** the entries of the allowlist are the parts that are not blank *)
Lemma parse_allowed_registries_elem raw a :
  a ∈ parse_allowed_registries raw -> a ≠ "" /\ exists part, part ∈ Split (byte 44) raw /\ a = TrimSpace part.
Proof.
  unfold parse_allowed_registries. case_bool_decide; [set_solver|].
  rewrite list_elem_of_In, filter_In. intros [Hin Hne]. split; [by destruct a|].
  apply list_elem_of_In, list_elem_of_fmap in Hin as (part & -> & Hp). by exists part.
Qed.

Lemma parse_allowed_registries_nonempty raw part :
  part ∈ Split (byte 44) raw -> TrimSpace part ≠ "" -> parse_allowed_registries raw ≠ [].
Proof.
  unfold parse_allowed_registries. intros Hp Hne. case_bool_decide as Hr.
  - subst raw. apply list_elem_of_singleton in Hp as ->. done.
  - intros Hnil. assert (In (TrimSpace part) []) as []. rewrite <- Hnil. apply filter_In.
    split; [|by rewrite bool_decide_eq_false_2]. apply list_elem_of_In. by apply list_elem_of_fmap_2.
Qed.

(** the servers and the watcher use the profile that was found *)
Definition profile_used (st : Started) : Prop :=
  exists tls, tls_sound tls /\
    mg_MetricsTLSOpts (started_options st) = tr_TLSOpts tls /\ mg_WebhookTLSOpts (started_options st) = tr_TLSOpts tls /\
    match started_watcher st with
    | None => tr_HasOpenShiftConfig tls = false
    | Some w => tr_HasOpenShiftConfig tls = true /\ w_InitialTLSProfileSpec w = tr_ProfileSpec tls /\
                is_Some (w_InitialTLSAdherencePolicy w)
    end.

(** the allowlist of the environment [raw] binds every fetcher with the
    registries of [f] *)
Definition allowlist_binds (raw : string) (f : OCIManifestFetcher) : Prop :=
  let parts := Split (byte 44) raw in
  (exists part, part ∈ parts /\ TrimSpace part ≠ "") ->
  forall ref registry (s : St),
    oci_AllowedRegistries (st_oci s) = oci_AllowedRegistries f -> parse_reference ref = inl registry ->
    (forall part, part ∈ parts -> ToLower registry ≠ ToLower (TrimSpace part)) ->
    exists e, FetchPipelineNames ref s = Run (Fail (ErrPermanent e)) s [].

Lemma parsed_allowlist_binds raw : allowlist_binds raw (NewOCIManifestFetcher (parse_allowed_registries raw)).
Proof.
  unfold allowlist_binds. cbv zeta. intros (part & Hp & Hne) ref registry s Hal Href Hno. apply (registry_refused _ registry); [done|..].
  - rewrite Hal. by apply (parse_allowed_registries_nonempty raw part).
  - apply not_true_iff_false. rewrite isRegistryAllowed_iff, Hal. intros (a & Ha & Heq).
    apply parse_allowed_registries_elem in Ha as (_ & part' & Hp' & ->). by apply (Hno part').
Qed.

Lemma fresh_cache_ok l : cache_ok contains (MkShared (NewOCIManifestFetcher l) ∅).
Proof. split; cbn; [set_solver|]. intros d e. by rewrite lookup_empty. Qed.

(** after the watcher's decision *)
Lemma watcher_wp tls adherence (s : St) :
  wp (if tr_HasOpenShiftConfig tls then
        let w := MkSecurityProfileWatcher (tr_ProfileSpec tls) adherence in SetupWatcher w ;; mret (Some w)
      else mret None) (fun o s' _ => st_oci s' = st_oci s /\
    forall w, o = Ret w -> match w with
                         | None => tr_HasOpenShiftConfig tls = false
                         | Some w => tr_HasOpenShiftConfig tls = true /\ w_InitialTLSProfileSpec w = tr_ProfileSpec tls /\
                                     w_InitialTLSAdherencePolicy w = adherence
                         end) s.
Proof.
  destruct (tr_HasOpenShiftConfig tls); [|apply wp_ret; by split; [|intros w [= <-]]].
  apply wp_bind. unfold wp at 1. pose proof (Watcher_oci (MkSecurityProfileWatcher (tr_ProfileSpec tls) adherence) s) as Hk.
  destruct (out _) as [[]| |]; [apply wp_ret|..]; split; try done. by intros w [= <-].
Qed.

Lemma adherence_wp tls (s : St) :
  wp (if tr_HasOpenShiftConfig tls then r ← FetchAPIServerTLSAdherencePolicy; mret (Some (fst r)) else mret None)
    (fun o s' _ => (forall k, getenv k (st_world s') = getenv k (st_world s)) /\
       forall a, o = Ret a -> tr_HasOpenShiftConfig tls = true -> is_Some a) s.
Proof.
  destruct (tr_HasOpenShiftConfig tls); [|apply wp_ret; by split].
  apply wp_bind. unfold wp at 1. pose proof (fun k => Adherence_env k s) as Hk.
  destruct (out _) as [r| |]; [apply wp_ret|..]; split; try done. by intros a [= <-].
Qed.

(** C12: A start-up that comes to the point of starting the manager was told
    everything it insists on, and its allowlist holds for good: the operator's
    namespace was in the environment and every required field in the
    configuration that was read; both servers use the profile of the cluster,
    not one whose ciphers are all unsupported, or Intermediate when the cluster
    has none or does not answer; the profile and the adherence policy are
    watched unless the cluster has no profiles; the fetcher is the default one
    with a sound cache; and if any part of MANAGED_PIPELINES_ALLOWED_REGISTRIES
    is not blank, a fetcher with this allowlist refuses, before any call, every
    reference whose registry is not one of the parts, up to case and white
    space. *)
Theorem setup_guarded configPath max elect (s : St) :
  wp (setup FetchAPIServerTLSProfile unsupportedCiphers TLSProfileIntermediate BindEnv ReadInConfig
        FetchAPIServerTLSAdherencePolicy NewManager CompleteController AddHealthzCheck SetupWatcher configPath max elect)
    (fun o s' _ => forall started, o = Ret started ->
       getenv "DSPO_NAMESPACE" (st_world s) ≠ "" /\
       (exists s1, forall c, c ∈ GetConfigRequiredFields -> viper_is_set c (st_world (fin (ReadInConfig configPath s1))) = true) /\
       profile_used started /\
       r_ManifestFetcher (started_reconciler started) = Some OCI_PipelineNamesFetcher /\
       cache_ok contains (MkShared (st_oci s') ∅) /\
       allowlist_binds (getenv "MANAGED_PIPELINES_ALLOWED_REGISTRIES" (st_world s)) (st_oci s')) s.
Proof.
  unfold setup, ask. apply wp_get. case_bool_decide as Hns; [done|].
  apply wp_bind. unfold initConfig. apply wp_bind. pose proof (fun k => BindEnv_env k PipelinesComponentsImagePath "IMAGES_PIPELINES_COMPONENTS" s) as E1.
  unfold wp at 1. set (s1 := fin (BindEnv _ _ s)) in *. destruct (out (BindEnv _ _ s)) as [[]| |]; [|done..].
  apply wp_bind. pose proof (fun k => ReadInConfig_env k configPath s1) as E2.
  unfold wp at 1. set (s2 := fin (ReadInConfig _ s1)) in *. destruct (out (ReadInConfig _ s1)) as [[]| |]; [|done..].
  eapply wp_mono; [apply check_required_wp|]. intros o s3 t3 [Hreq ->]. destruct o as [[]| |]; [|done..]. specialize (Hreq eq_refl).
  apply wp_bind. eapply wp_mono; [apply fetchTLSProfile_wp|]. intros o s4 t4 [Htls Hs4].
  pose proof (fun k => Fetch_env k s2) as E3. rewrite <- Hs4 in E3. clear Hs4.
  destruct o as [tls| |]; [|done..]. specialize (Htls tls eq_refl).
  apply wp_bind. eapply wp_mono; [apply adherence_wp|]. intros o s5 t5 [E4 Hadh].
  destruct o as [adherence| |]; [|done..]. specialize (Hadh adherence eq_refl).
  apply wp_bind. set (options := MkManagerOptions _ _ _ _ _ _). pose proof (fun k => NewManager_env k options s5) as E5.
  unfold wp at 1. set (s6 := fin (NewManager options s5)) in *. destruct (out (NewManager options s5)) as [[]| |]; [|done..].
  assert (forall k, getenv k (st_world s6) = getenv k (st_world s)) as Henv.
  { intros k. etrans; [apply E5|]. etrans; [apply E4|]. etrans; [apply E3|]. etrans; [apply E2|]. apply E1. }
  apply wp_get. apply wp_bind. unfold lift. destruct (parse_webhook_annotations _) as [ann|e]; [apply wp_ret|done].
  apply wp_get. rewrite Henv. set (raw := getenv "MANAGED_PIPELINES_ALLOWED_REGISTRIES" (st_world s)).
  eapply wp_step; [reflexivity|]. set (r := _ <| r_ManifestFetcher := _ |>). set (s7 := s6 <| st_oci := _ |>).
  apply wp_bind. pose proof (Complete_oci r s7) as O1. unfold wp at 1. destruct (out (CompleteController r s7)) as [[]| |]; [|done..].
  apply wp_bind. match goal with |- wp _ _ ?s8 => pose proof (Healthz_oci "healthz" s8) as O2 end.
  unfold wp at 1. destruct (out _) as [[]| |]; [|done..].
  apply wp_bind. match goal with |- wp _ _ ?s8 => pose proof (Healthz_oci "readyz" s8) as O3 end.
  unfold wp at 1. destruct (out _) as [[]| |]; [|done..].
  apply wp_bind. eapply wp_mono; [apply watcher_wp|]. intros o s9 t9 [O4 Hw].
  destruct o as [w| |]; [|done..]. specialize (Hw w eq_refl). apply wp_ret. intros started [= <-].
  assert (st_oci s9 = NewOCIManifestFetcher (parse_allowed_registries raw)) as Hoci by (rewrite O4, O3, O2, O1; done).
  cbn [started_reconciler]. split_and!; [done|by exists s1|..|done| |].
  - exists tls. cbn [started_options started_watcher mg_MetricsTLSOpts mg_WebhookTLSOpts options].
    split_and!; [done..|]. destruct w as [w|]; [|done]. destruct Hw as (H1 & H2 & ->). split_and!; [done..|by apply Hadh].
  - rewrite Hoci. apply fresh_cache_ok.
  - rewrite Hoci. apply parsed_allowlist_binds.
Qed.
End Start.

(** ** Examples *)

#[local] Existing Instance sim_platform.

Definition sample_reconciler : DSPAReconciler :=
  {| r_TemplatesPath := "config/internal/"; r_MaxConcurrentReconciles := 10; r_WebhookAnnotations := ∅;
     r_ManifestFetcher := Some OCI_PipelineNamesFetcher; r_AllowedRegistries := []; r_APIReader := true;
     r_MLflowEndpointCacheTTL := DefaultMLflowEndpointCacheTTL |}.

Definition asking (names : list string) : DataSciencePipelinesApplication :=
  sim_dspa <| dspa_Spec ::= fun sp => sp <| spec_APIServer :=
    Some (sim_apiserver <| api_ManagedPipelines :=
      Some (MkManagedPipelinesSpec sample_ref (MkManagedPipeline <$> names) None "") |>) |> |>.

(** an image whose manifest has the names alpha and beta *)
Definition sample_asking (names : list string) : St :=
  sim_state (sim_empty <| sim_images := {[ sample_ref := sample_image ]} |>) (asking names).

Lemma validateManagedPipelines_sound_witness :
  out (validateManagedPipelines sample_reconciler (sample_asking ["beta"])) = Ret (true, false) /\
  exists names, served sample_ref (st_world (sample_asking ["beta"])) names /\ offered names (MkManagedPipeline "beta").
Proof.
  assert (cache_ok contains (MkShared (st_oci (sample_asking ["beta"])) ∅)) as Hc.
  { split; simpl; [intros l Hl; destruct (not_elem_of_empty (C := gset loc) _ Hl)|].
    intros d e He. rewrite lookup_empty in He. discriminate He. }
  assert (out (validateManagedPipelines sample_reconciler (sample_asking ["beta"])) = Ret (true, false)) as Ho
    by (vm_compute; reflexivity).
  split; [exact Ho|].
  destruct (validateManagedPipelines_sound sample_reconciler ∅ _ eq_refl Hc) as (proceed & retry & Hr & Hv & _).
  rewrite Ho in Hr. injection Hr as <- <-.
  unfold verdict in Hv. change (requested (cur (sample_asking ["beta"]))) with (Some (sample_ref, [MkManagedPipeline "beta"])) in Hv.
  cbv beta iota zeta in Hv.
  destruct (out (FetchPipelineNames sample_ref (sample_asking ["beta"]))) as [l|e|w] eqn:Hf.
  - destruct Hv as (Hs & _ & _ & Hn). eexists. split; [exact Hs|].
    destruct (decide (offered (heap_get (st_oci (fin (FetchPipelineNames sample_ref (sample_asking ["beta"])))) l) (MkManagedPipeline "beta")))
      as [Hoff|Hoff]; [exact Hoff|].
    destruct Hn as [_ Hp]; [|discriminate Hp]. intros Hall. apply Hoff, Hall. left.
  - vm_compute in Hf. discriminate Hf.
  - destruct Hv.
Defined.

(** a cluster without TLS profiles, and an allowlist of one registry *)
Definition start_world : St :=
  sim_state (sim_empty <| sim_env := {[ "DSPO_NAMESPACE" := "dspo"; "MANAGED_PIPELINES_ALLOWED_REGISTRIES" := " registry.redhat.io ," ]} |>
                       <| sim_config := list_to_map ((fun c => (c, "set")) <$> GetConfigRequiredFields) |>) sim_dspa.

Definition intermediate : TLSProfileSpec := MkTLSProfileSpec ["TLS_AES_128_GCM_SHA256"] "VersionTLS12".

Definition sample_setup : M Started :=
  setup (fail (ErrNoMatch "no matches for kind APIServer")) (fun _ => []) intermediate
    (fun _ _ => mret tt) (fun _ => mret tt) (mret ("", None)) (fun _ => mret tt) (fun _ => mret tt)
    (fun _ => mret tt) (fun _ => mret tt) "/config" 10 false.

Lemma setup_guarded_witness :
  exists started, out (sample_setup start_world) = Ret started /\
    mg_WebhookTLSOpts (started_options started) = [OptProfile intermediate; OptNextProtos ["h2"; "http/1.1"]] /\
    exists e, FetchPipelineNames sample_ref (fin (sample_setup start_world)) =
              Run (Fail (ErrPermanent e)) (fin (sample_setup start_world)) [].
Proof.
  assert (match out (sample_setup start_world) with Ret _ => true | _ => false end = true) as Hret by (vm_compute; reflexivity).
  destruct (out (sample_setup start_world)) as [started|e|w] eqn:Ho; [|discriminate Hret..].
  exists started. split; [reflexivity|]. clear Hret.
  destruct (setup_guarded (fail (ErrNoMatch "no matches for kind APIServer")) (fun _ => []) intermediate
    (fun _ _ => mret tt) (fun _ => mret tt) (mret ("", None)) (fun _ => mret tt) (fun _ => mret tt)
    (fun _ => mret tt) (fun _ => mret tt) (fun _ _ _ => keeps_ret _ tt) (fun _ _ => keeps_ret _ tt)
    (fun _ => keeps_fail _ _) (fun _ => keeps_ret _ _) (fun _ _ => keeps_ret _ tt) (fun _ => keeps_ret _ tt)
    (fun _ => keeps_ret _ tt) (fun _ => keeps_ret _ tt) "/config" 10 false start_world started Ho)
    as (_ & _ & (tls & Htls & _ & Hweb & _) & _ & _ & Hreg).
  split.
  - rewrite Hweb. destruct Htls as (-> & s1 & H). rewrite (proj1 H). reflexivity.
  - assert (allowlist_binds " registry.redhat.io ," (st_oci (fin (sample_setup start_world)))) as Hbinds by exact Hreg.
    clear Hreg. revert Hbinds. generalize (fin (sample_setup start_world)). intros sf Hbinds.
    apply (fun H => Hbinds H sample_ref "quay.io" sf); [|reflexivity|reflexivity|].
    + exists " registry.redhat.io ". split; [left|]. vm_compute. discriminate.
    + intros part Hp. vm_compute in Hp.
      apply elem_of_cons in Hp as [->|Hp]; [vm_compute; discriminate|].
      apply list_elem_of_singleton in Hp as ->. vm_compute. discriminate.
Defined.

(** An application that lists pipelines and leaves the image to the operator's
    default is found invalid, although the default image offers the pipelines:
    the check asks for the image as the resource states it. *)
Definition sample_default_image : St :=
  sim_state (sim_empty <| sim_images := {[ sample_ref := sample_image ]} |>
                       <| sim_config := {[ PipelinesComponentsImagePath := sample_ref ]} |>)
    ((asking ["beta"]) <| dspa_Spec ::= fun sp => sp <| spec_APIServer ::= fmap (fun api : APIServer =>
       api <| api_ManagedPipelines ::= fmap (fun mp : ManagedPipelinesSpec => mp <| mps_Image := "" |>) |>) |> |>).

Example unset_image_found_invalid :
  let run := validateManagedPipelines sample_reconciler sample_default_image in
  out run = Ret (false, false) /\
  c_Reason (s_managedPipelineValid (st_status (fin run))) = ManagedPipelineInvalid.
Proof. vm_compute. split; reflexivity. Qed.
